(** * phototimeshift: timestamp reconciliation and correction engine

    A shallow embedding of the parts of [mpl_extract.py] and [main.py]
    that decode and rewrite AVCHD playlist timestamps, reconcile the
    timestamp tags of a media file, interpolate correction deltas and
    write corrected timestamps back.

    Layout: [Py] holds the Python built-ins the code relies on (exceptions,
    integer/string conversions, binary64 floats), [Datetime] the parts of
    the standard [datetime] module that are used, [MplExtract] the playlist
    codec and [Main] the reconciler, the interpolator and the write-back. *)

From Stdlib Require Import ZArith List Bool String Ascii Lia Reals Lra Sorted.
From Stdlib Require Import Strings.Byte.
From Stdlib Require Import Floats.SpecFloat.
Import ListNotations.

Local Open Scope string_scope.
Local Open Scope list_scope.
Local Open Scope Z_scope.

(* ===================================================================== *)
(** * Python built-ins *)
(* ===================================================================== *)

Module Py.

(** Exceptions raised by the modelled code and by the library calls it
    makes. *)
Inductive exn : Type :=
| ValueError
| TypeError
| AssertionError
| OverflowError
| KeyError
| OSError
| AttributeError
| ZeroDivisionError
| XmpValueError
| MplFileException
| CalledProcessError.

(** A computation either returns or raises. *)
Inductive result (A : Type) : Type :=
| Ok (a : A)
| Raise (e : exn).
Arguments Ok {A} a.
Arguments Raise {A} e.

Definition bind {A B} (c : result A) (k : A -> result B) : result B :=
  match c with
  | Ok a => k a
  | Raise e => Raise e
  end.

Definition is_ok {A} (c : result A) : bool :=
  match c with Ok _ => true | Raise _ => false end.

(** [assert b] *)
Definition assert (b : bool) : result unit :=
  if b then Ok tt else Raise AssertionError.

Declare Scope py_scope.
Delimit Scope py_scope with py.
Notation "x <- c ;; k" := (bind c (fun x => k))
  (at level 61, c at next level, right associativity) : py_scope.
Notation "c ;;; k" := (bind c (fun _ => k))
  (at level 61, right associativity) : py_scope.
Local Open Scope py_scope.

(** ** Digits *)

(** The sixteen digits, lower case as ["{:x}"] prints them. *)
Definition hex_digits : string := "0123456789abcdef".

(** The character of a digit value below 16. *)
Definition digit_char (d : Z) : ascii :=
  match String.get (Z.to_nat d) hex_digits with
  | Some c => c
  | None => "f"%char
  end.

(** The place of a character in a string. *)
Fixpoint index_of (c : ascii) (s : string) : option Z :=
  match s with
  | EmptyString => None
  | String c' s' =>
      if Ascii.eqb c c' then Some 0 else option_map Z.succ (index_of c s')
  end.

(** An upper-case letter as the lower-case one. *)
Definition to_lower (c : ascii) : ascii :=
  let n := nat_of_ascii c in
  if ((65 <=? n) && (n <=? 90))%nat then ascii_of_nat (n + 32) else c.

(** The value of a character as a hexadecimal digit; [int(s, 16)] takes
    both cases. *)
Definition hex_value (c : ascii) : option Z :=
  index_of (to_lower c) hex_digits.

Definition digit_value (base : Z) (c : ascii) : option Z :=
  match hex_value c with
  | Some d => if d <? base then Some d else None
  | None => None
  end.

(** Digits of a non-negative number, most significant first.  A number
    [n] has at most [log2 n + 1] digits in any base from 2 on, which is
    the fuel handed to the loop. *)
Fixpoint digits_loop (fuel : nat) (base n : Z) (acc : string) : string :=
  match fuel with
  | O => acc
  | S fuel' =>
      let acc' := String (digit_char (n mod base)) acc in
      if n / base =? 0 then acc' else digits_loop fuel' base (n / base) acc'
  end.

Definition digits (base n : Z) : string :=
  digits_loop (S (Z.to_nat (Z.log2 n))) base n "".

(** ["{:x}".format(n)] and [f"{n}"], for [n >= 0] (the code only formats
    byte values and datetime fields). *)
Definition format_x (n : Z) : string := digits 16 n.
Definition format_d (n : Z) : string := digits 10 n.

(** [int(s, base)] on a string of digits.  Python also accepts a sign,
    surrounding blanks, underscores and a base prefix; none of them occurs
    in the strings the code builds, and they are rejected here. *)
Fixpoint int_loop (base : Z) (s : string) (acc : Z) : result Z :=
  match s with
  | EmptyString => Ok acc
  | String c s' =>
      match digit_value base c with
      | Some d => int_loop base s' (acc * base + d)
      | None => Raise ValueError
      end
  end.

Definition int_of_str (base : Z) (s : string) : result Z :=
  match s with
  | EmptyString => Raise ValueError
  | _ => int_loop base s 0
  end.

(** Left padding of [":4d"], [":2d"] (blanks) and [":05d"] (zeros). *)
Fixpoint replicate (n : nat) (c : ascii) : string :=
  match n with
  | O => EmptyString
  | S n' => String c (replicate n' c)
  end.

Definition pad_left (width : nat) (c : ascii) (s : string) : string :=
  String.append (replicate (width - String.length s) c) s.

Definition format_wd (width : nat) (n : Z) : string :=
  pad_left width " " (format_d n).
Definition format_0wd (width : nat) (n : Z) : string :=
  pad_left width "0" (format_d n).

(** ** Bytes *)

Definition byte_of_Z (z : Z) : byte :=
  match Byte.of_N (Z.to_N (z mod 256)) with
  | Some b => b
  | None => x00
  end.

Definition Z_of_byte (b : byte) : Z := Z.of_N (Byte.to_N b).

(** [int.from_bytes(bs, byteorder='big')] *)
Definition from_bytes (bs : list byte) : Z :=
  fold_left (fun acc b => acc * 256 + Z_of_byte b) bs 0.

Fixpoint to_bytes_loop (len : nat) (n : Z) (acc : list byte) : list byte :=
  match len with
  | O => acc
  | S len' => to_bytes_loop len' (n / 256) (byte_of_Z n :: acc)
  end.

(** [n.to_bytes(len, byteorder='big')]: unsigned, [OverflowError] when
    [n] is negative or does not fit. *)
Definition to_bytes (len : nat) (n : Z) : result (list byte) :=
  if (0 <=? n) && (n <? 256 ^ Z.of_nat len)
  then Ok (to_bytes_loop len n [])
  else Raise OverflowError.

(** [bytes((n,))]: one byte, [ValueError] outside [range(256)]. *)
Definition bytes1 (n : Z) : result (list byte) :=
  if (0 <=? n) && (n <? 256) then Ok [byte_of_Z n] else Raise ValueError.

(** [s.encode('ascii')] for the strings the code encodes (digits, blanks
    and dots). *)
Definition encode_ascii (s : string) : list byte :=
  map byte_of_ascii (list_ascii_of_string s).

(** ** Floats

    Python floats are IEEE 754 binary64 numbers.  They are modelled by
    the [spec_float] of the standard library, whose operations compute
    the correctly rounded result (nearest, ties to even) in [Z]. *)

Definition float := spec_float.
Definition prec : Z := 53.
Definition emax : Z := 1024.

Definition float_of_int (z : Z) : float :=
  match z with
  | Z0 => S754_zero false
  | Zpos p => S754_finite false p 0
  | Zneg p => S754_finite true p 0
  end.

(** A division whose result exceeds the floats raises. *)
Definition finite_or_overflow (x : float) : result float :=
  match x with
  | S754_infinity _ | S754_nan => Raise OverflowError
  | _ => Ok x
  end.

(** [a / b] on integers: the float nearest to the exact quotient. *)
Definition int_truediv (a b : Z) : result float :=
  if b =? 0 then Raise ZeroDivisionError
  else finite_or_overflow (SFdiv prec emax (float_of_int a) (float_of_int b)).

(** [x / n] for a float [x] and an integer [n] that a float holds
    exactly (the code divides by [60**2]). *)
Definition float_div_int (x : float) (n : Z) : result float :=
  if n =? 0 then Raise ZeroDivisionError
  else finite_or_overflow (SFdiv prec emax x (float_of_int n)).

(** [divide_nearest(a, b)] of the datetime module, for [b > 0]: the
    integer nearest to [a / b], a tie going to the even neighbour. *)
Definition divide_nearest (a b : Z) : Z :=
  let q := a / b in
  let r := a mod b in
  if (b <? 2 * r) || ((2 * r =? b) && Z.odd q) then q + 1 else q.

(** [x.as_integer_ratio()]: numerator and denominator in lowest terms. *)
Definition as_integer_ratio (x : float) : result (Z * Z) :=
  match x with
  | S754_zero _ => Ok (0, 1)
  | S754_finite s m e =>
      let n := if s then Zneg m else Zpos m in
      if 0 <=? e then Ok (n * 2 ^ e, 1)
      else
        let d := 2 ^ (- e) in
        let g := Z.gcd n d in
        Ok (n / g, d / g)
  | S754_infinity _ => Raise OverflowError
  | S754_nan => Raise ValueError
  end.

(** [round(x)] with one argument: the nearest integer, ties to even. *)
Definition round (x : float) : result Z :=
  r <- as_integer_ratio x ;; Ok (divide_nearest (fst r) (snd r)).

End Py.

Import Py.
Local Open Scope py_scope.

(* ===================================================================== *)
(** * mpl_extract.py: packed-decimal fields *)
(* ===================================================================== *)

Module Packed.

(** [int("{:x}".format(int.from_bytes(f.read(2), byteorder='big')))] and
    [int("{:x}".format(ord(f.read(1))))] of [MplFile.read]: the bytes are
    rendered in hexadecimal and the digits reparsed in base ten. *)
Definition decode (bs : list byte) : result Z :=
  int_of_str 10 (format_x (from_bytes bs)).

(** [int(f"{dt.year}", 16).to_bytes(2, byteorder='big')] of
    [MplFile.write]. *)
Definition encode_year (v : Z) : result (list byte) :=
  n <- int_of_str 16 (format_d v) ;; to_bytes 2 n.

(** [bytes((int(f"{val}", 16),))] of [MplFile.write]. *)
Definition encode_field (v : Z) : result (list byte) :=
  n <- int_of_str 16 (format_d v) ;; bytes1 n.

End Packed.

Example decode_2021 : Packed.decode [x20; x21] = Ok 2021.
Proof. reflexivity. Qed.

Example encode_2021 : Packed.encode_year 2021 = Ok [x20; x21].
Proof. reflexivity. Qed.

Example decode_1f : Packed.decode [x1f] = Raise ValueError.
Proof. reflexivity. Qed.

(* ===================================================================== *)
(** * The datetime module *)
(* ===================================================================== *)

Module Datetime.

(** A [timedelta] is an exact number of microseconds.  (Python bounds it
    by 999999999 days; the bound is out of reach of differences and
    corrections of datetimes and is not modelled.) *)
Definition timedelta := Z.

Definition us_per_second : Z := 1000000.
Definition us_per_hour : Z := 3600 * us_per_second.
Definition us_per_day : Z := 24 * us_per_hour.

Definition td_seconds (s : Z) : timedelta := s * us_per_second.
Definition td_hours (h : Z) : timedelta := h * us_per_hour.

(** [td.total_seconds()] *)
Definition total_seconds (d : timedelta) : result float :=
  int_truediv d us_per_second.

(** [a / b] on two timedeltas *)
Definition td_truediv (a b : timedelta) : result float :=
  int_truediv a b.

(** [x * d] for a float [x] and a timedelta [d]: the exact product
    rounded to a whole microsecond, ties to even. *)
Definition td_mul_float (x : float) (d : timedelta) : result timedelta :=
  r <- as_integer_ratio x ;; Ok (divide_nearest (d * fst r) (snd r)).

(** [(num / den) * d] on timedeltas: the ratio of two timedeltas is a
    float, and a float times a timedelta is a timedelta. *)
Definition td_scale (num den d : timedelta) : result timedelta :=
  ratio <- td_truediv num den ;; td_mul_float ratio d.

(** [round(d.total_seconds() / 60**2)]: a timedelta in whole hours. *)
Definition round_hours (d : timedelta) : result Z :=
  s <- total_seconds d ;; q <- float_div_int s (60 ^ 2) ;; Py.round q.

(** [datetime.timezone(offset)]: a fixed offset strictly between minus
    and plus one day. *)
Definition timezone (offset : timedelta) : result timedelta :=
  if (- us_per_day <? offset) && (offset <? us_per_day)
  then Ok offset else Raise ValueError.

Definition utc : timedelta := 0.

(** A datetime with its calendar fields; [tzinfo] is the UTC offset of an
    aware datetime and [None] for a naive one. *)
Record datetime : Type := mkdatetime {
  year : Z; month : Z; day : Z;
  hour : Z; minute : Z; second : Z; microsecond : Z;
  tzinfo : option timedelta
}.

(** *** The proleptic Gregorian calendar, as [datetime] computes it *)

Definition is_leap (y : Z) : bool :=
  (y mod 4 =? 0) && (negb (y mod 100 =? 0) || (y mod 400 =? 0)).

Definition days_before_year (y : Z) : Z :=
  let y' := y - 1 in y' * 365 + y' / 4 - y' / 100 + y' / 400.

Definition days_in_month_table : list Z :=
  [31; 28; 31; 30; 31; 30; 31; 31; 30; 31; 30; 31].

Definition days_in_month (y m : Z) : Z :=
  if (m =? 2) && is_leap y then 29
  else nth (Z.to_nat (m - 1)) days_in_month_table 0.

Definition days_before_month_table : list Z :=
  [0; 31; 59; 90; 120; 151; 181; 212; 243; 273; 304; 334].

Definition days_before_month_common (m : Z) : Z :=
  nth (Z.to_nat (m - 1)) days_before_month_table 0.

Definition days_before_month (y m : Z) : Z :=
  days_before_month_common m + (if (2 <? m) && is_leap y then 1 else 0).

Definition ymd2ord (y m d : Z) : Z :=
  days_before_year y + days_before_month y m + d.

Definition DI400Y : Z := 146097.
Definition DI100Y : Z := 36524.
Definition DI4Y : Z := 1461.
Definition MAXORDINAL : Z := 3652059.

Definition ord2ymd (n0 : Z) : Z * Z * Z :=
  let n := n0 - 1 in
  let n400 := n / DI400Y in let n := n mod DI400Y in
  let n100 := n / DI100Y in let n := n mod DI100Y in
  let n4 := n / DI4Y in let n := n mod DI4Y in
  let n1 := n / 365 in let n := n mod 365 in
  let y := n400 * 400 + 1 + n100 * 100 + n4 * 4 + n1 in
  if (n1 =? 4) || (n100 =? 4) then (y - 1, 12, 31)
  else
    let leapyear := (n1 =? 3) && (negb (n4 =? 24) || (n100 =? 3)) in
    let m := Z.shiftr (n + 50) 5 in
    let preceding :=
      days_before_month_common m + (if (2 <? m) && leapyear then 1 else 0) in
    if n <? preceding then
      let m' := m - 1 in
      let preceding' :=
        preceding
        - (nth (Z.to_nat (m' - 1)) days_in_month_table 0
           + (if (m' =? 2) && leapyear then 1 else 0)) in
      (y, m', n - preceding' + 1)
    else (y, m, n - preceding + 1).

(** The constructor checks its fields. *)
Definition valid_fields (y m d hh mm ss us : Z) : bool :=
  (1 <=? y) && (y <=? 9999) && (1 <=? m) && (m <=? 12)
  && (1 <=? d) && (d <=? days_in_month y m)
  && (0 <=? hh) && (hh <=? 23) && (0 <=? mm) && (mm <=? 59)
  && (0 <=? ss) && (ss <=? 59) && (0 <=? us) && (us <=? 999999).

(** [datetime.datetime(y, m, d, hh, mm, ss)] *)
Definition make (y m d hh mm ss : Z) : result datetime :=
  if valid_fields y m d hh mm ss 0
  then Ok (mkdatetime y m d hh mm ss 0 None)
  else Raise ValueError.

Definition toordinal (t : datetime) : Z := ymd2ord (year t) (month t) (day t).

(** Microseconds from the start of day 0 of the calendar to the reading
    of the clock fields, whatever the offset. *)
Definition wall (t : datetime) : Z :=
  ((toordinal t * 24 + hour t) * 60 + minute t) * 60 * us_per_second
  + second t * us_per_second + microsecond t.

(** The datetime whose clock fields read [w]; [OverflowError] outside
    years 1 to 9999. *)
Definition of_wall (w : Z) (tz : option timedelta) : result datetime :=
  let days := w / us_per_day in
  let rest := w mod us_per_day in
  if (0 <? days) && (days <=? MAXORDINAL) then
    let '(y, m, d) := ord2ymd days in
    Ok (mkdatetime y m d
          (rest / us_per_hour) (rest / (60 * us_per_second) mod 60)
          (rest / us_per_second mod 60) (rest mod us_per_second) tz)
  else Raise OverflowError.

(** [t.replace(tzinfo=tz)] *)
Definition replace_tzinfo (t : datetime) (tz : option timedelta) : datetime :=
  mkdatetime (year t) (month t) (day t) (hour t) (minute t) (second t)
             (microsecond t) tz.

(** [t.replace(microsecond=0)] *)
Definition replace_microsecond0 (t : datetime) : datetime :=
  mkdatetime (year t) (month t) (day t) (hour t) (minute t) (second t)
             0 (tzinfo t).

(** [t + d] *)
Definition add (t : datetime) (d : timedelta) : result datetime :=
  of_wall (wall t + d) (tzinfo t).

(** [a - b]: both naive or both aware. *)
Definition sub (a b : datetime) : result timedelta :=
  match tzinfo a, tzinfo b with
  | None, None => Ok (wall a - wall b)
  | Some oa, Some ob => Ok (wall a - wall b + ob - oa)
  | _, _ => Raise TypeError
  end.

(** The instant of an aware datetime, in microseconds on the UTC clock.
    Aware datetimes are compared, and used as dictionary keys, by it. *)
Definition instant (t : datetime) : Z :=
  wall t - match tzinfo t with Some o => o | None => 0 end.

(** [t.astimezone(tz)].  A naive [t] is taken to be in the local zone of
    the machine, whose offset at [t] is [local t]. *)
Definition astimezone (local : datetime -> timedelta)
           (t : datetime) (tz : timedelta) : result datetime :=
  let off := match tzinfo t with Some o => o | None => local t end in
  u <- add (replace_tzinfo t (Some tz)) (- off) ;; add u tz.

(** [t.strftime("%Y:%m:%d %H:%M:%S")], for years of four digits. *)
Definition strftime_exif (t : datetime) : string :=
  (format_0wd 4 (year t) ++ ":" ++ format_0wd 2 (month t) ++ ":"
   ++ format_0wd 2 (day t) ++ " " ++ format_0wd 2 (hour t) ++ ":"
   ++ format_0wd 2 (minute t) ++ ":" ++ format_0wd 2 (second t))%string.

End Datetime.

Import Datetime.

Example ord2ymd_2021 : ord2ymd (ymd2ord 2021 6 1) = (2021, 6, 1).
Proof. reflexivity. Qed.

Example ord2ymd_leap : ord2ymd (ymd2ord 2020 2 29) = (2020, 2, 29).
Proof. reflexivity. Qed.

Example ord2ymd_last : ord2ymd MAXORDINAL = (9999, 12, 31).
Proof. reflexivity. Qed.

(* ===================================================================== *)
(** * Floats: the error of a division *)
(* ===================================================================== *)

(** [SFdiv] rounds the exact quotient to the nearest float.  The section
    follows the computation of [SFdiv] on two finite floats whose quotient
    is in the range of the normal floats, and bounds the distance of the
    result from the exact quotient by 2^-53 of the quotient. *)
Module FloatFacts.

Definition bpow (e : Z) : R := powerRZ 2 e.

Lemma bpow_pos e : (0 < bpow e)%R.
Proof. apply powerRZ_lt. lra. Qed.

Lemma bpow_add a b : bpow (a + b) = (bpow a * bpow b)%R.
Proof. apply powerRZ_add. lra. Qed.

Lemma bpow_succ e : bpow (e + 1) = (2 * bpow e)%R.
Proof. rewrite bpow_add. unfold bpow at 2. simpl. lra. Qed.

Lemma bpow_IZR n : 0 <= n -> bpow n = IZR (2 ^ n).
Proof.
  intros Hn. unfold bpow. rewrite <- (Z2Nat.id n Hn) at 1 2.
  rewrite <- pow_powerRZ. rewrite <- pow_IZR. reflexivity.
Qed.

Lemma digits2_pos_bounds p :
  2 ^ (Zpos (digits2_pos p) - 1) <= Zpos p < 2 ^ Zpos (digits2_pos p).
Proof.
  induction p as [p IH|p IH|]; simpl digits2_pos.
  - rewrite Pos2Z.inj_succ. replace (Z.succ (Zpos (digits2_pos p)) - 1) with (Zpos (digits2_pos p) - 1 + 1) by lia.
    rewrite Z.pow_succ_r by lia. 
    assert (0 <= Zpos (digits2_pos p) - 1) by lia.
    rewrite Z.pow_add_r by lia. change (2 ^ 1) with 2. lia.
  - rewrite Pos2Z.inj_succ. replace (Z.succ (Zpos (digits2_pos p)) - 1) with (Zpos (digits2_pos p) - 1 + 1) by lia.
    rewrite Z.pow_succ_r by lia.
    rewrite Z.pow_add_r by lia. change (2 ^ 1) with 2. lia.
  - simpl. lia.
Qed.

(** location *)
Definition located (m : Z) (l : location) (e : Z) (x : R) : Prop :=
  match l with
  | loc_Exact => x = (IZR m * bpow e)%R
  | loc_Inexact Lt => (IZR m * bpow e < x < IZR m * bpow e + bpow e / 2)%R
  | loc_Inexact Eq => x = (IZR m * bpow e + bpow e / 2)%R
  | loc_Inexact Gt => (IZR m * bpow e + bpow e / 2 < x < IZR m * bpow e + bpow e)%R
  end.

Definition rec_located (mrs : shr_record) (e : Z) (x : R) : Prop :=
  located (shr_m mrs) (loc_of_shr_record mrs) e x.

Lemma shr_1_located mrs e x :
  0 <= shr_m mrs -> rec_located mrs e x ->
  rec_located (shr_1 mrs) (e + 1) x /\ 0 <= shr_m (shr_1 mrs).
Proof.
  destruct mrs as [m r s]. unfold rec_located. simpl shr_m at 1 2. intros Hm H.
  assert (Hb := bpow_pos e).
  destruct m as [|p|p]; [| |lia].
  - (* m = 0 *)
    destruct r, s; simpl in *; rewrite bpow_succ; split; try lia; lra.
  - destruct p as [p|p|].
    + (* 2p+1 *)
      assert (E : IZR (Zpos p~1) = (2 * IZR (Zpos p) + 1)%R).
      { rewrite Pos2Z.inj_xI, plus_IZR, mult_IZR. reflexivity. }
      destruct r, s; simpl in *; rewrite bpow_succ; rewrite E in H; split; try lia; lra.
    + assert (E : IZR (Zpos p~0) = (2 * IZR (Zpos p))%R).
      { rewrite Pos2Z.inj_xO, mult_IZR. reflexivity. }
      destruct r, s; simpl in *; rewrite bpow_succ; rewrite E in H; split; try lia; lra.
    + destruct r, s; simpl in *; rewrite bpow_succ; split; try lia; lra.
Qed.

Lemma iter_pos_shr_located n : forall mrs e x,
  0 <= shr_m mrs -> rec_located mrs e x ->
  rec_located (iter_pos shr_1 n mrs) (e + Zpos n) x
  /\ 0 <= shr_m (iter_pos shr_1 n mrs).
Proof.
  induction n as [n IH|n IH|]; intros mrs e x Hm H; simpl iter_pos.
  - destruct (shr_1_located _ _ _ Hm H) as [H1 Hm1].
    destruct (IH _ _ _ Hm1 H1) as [H2 Hm2].
    destruct (IH _ _ _ Hm2 H2) as [H3 Hm3].
    split; [|assumption].
    replace (e + Zpos n~1) with (e + 1 + Zpos n + Zpos n) by lia. assumption.
  - destruct (IH _ _ _ Hm H) as [H2 Hm2].
    destruct (IH _ _ _ Hm2 H2) as [H3 Hm3].
    split; [|assumption].
    replace (e + Zpos n~0) with (e + Zpos n + Zpos n) by lia. assumption.
  - apply shr_1_located; assumption.
Qed.

Lemma located_bounds m l e x :
  located m l e x -> (IZR m * bpow e <= x < (IZR m + 1) * bpow e)%R.
Proof.
  assert (Hb := bpow_pos e).
  destruct l as [|[ | | ]]; simpl; intros H; lra.
Qed.

Lemma loc_of_record_of_loc m l :
  loc_of_shr_record (shr_record_of_loc m l) = l /\ shr_m (shr_record_of_loc m l) = m.
Proof. destruct l as [|[ | | ]]; simpl; auto. Qed.

Lemma shr_located mrs e n mrs' e' x :
  0 <= shr_m mrs -> rec_located mrs e x -> shr mrs e n = (mrs', e') ->
  rec_located mrs' e' x /\ 0 <= shr_m mrs' /\ e' = e + Z.max 0 n.
Proof.
  intros Hm H Hs. unfold shr in Hs. destruct n as [|p|p].
  - inversion Hs; subst. rewrite Z.add_0_r. auto.
  - inversion Hs; subst.
    destruct (iter_pos_shr_located p _ _ _ Hm H). repeat split; auto; lia.
  - inversion Hs; subst. rewrite Z.add_0_r. auto.
Qed.

Lemma rne_located m l e x :
  located m l e x ->
  (Rabs (IZR (round_nearest_even m l) * bpow e - x) <= bpow e / 2)%R
  /\ m <= round_nearest_even m l <= m + 1.
Proof.
  assert (Hb := bpow_pos e).
  destruct l as [|[ | | ]]; simpl; intros H.
  - split; [|lia]. rewrite H. replace (IZR m * bpow e - IZR m * bpow e)%R with 0%R by ring.
    rewrite Rabs_R0. lra.
  - destruct (Z.even m); split; try lia.
    + rewrite H. apply Rabs_le. lra.
    + rewrite plus_IZR, H. apply Rabs_le. lra.
  - split; [|lia]. apply Rabs_le. lra.
  - split; [|lia]. rewrite plus_IZR. apply Rabs_le. lra.
Qed.

(** Two locations of the same number at exponents [e] and [e + n]. *)
Lemma located_shift_bounds m m1 e n x :
  0 <= n ->
  (IZR m * bpow e <= x < (IZR m + 1) * bpow e)%R ->
  (IZR m1 * bpow (e + n) <= x < (IZR m1 + 1) * bpow (e + n))%R ->
  m1 * 2 ^ n <= m < (m1 + 1) * 2 ^ n.
Proof.
  intros Hn H H1. rewrite bpow_add, (bpow_IZR n Hn) in H1.
  assert (Hb := bpow_pos e).
  assert (A : (IZR (m1 * 2 ^ n) < IZR (m + 1))%R).
  { rewrite mult_IZR, plus_IZR.
    apply Rmult_lt_reg_r with (bpow e); [assumption|]. lra. }
  assert (B : (IZR m < IZR ((m1 + 1) * 2 ^ n))%R).
  { rewrite mult_IZR, plus_IZR.
    apply Rmult_lt_reg_r with (bpow e); [assumption|]. lra. }
  apply lt_IZR in A. apply lt_IZR in B. lia.
Qed.

Lemma Zdigits2_bounds m : 0 < m -> 2 ^ (Zdigits2 m - 1) <= m < 2 ^ Zdigits2 m.
Proof. destruct m as [|p|p]; try lia. intros _. apply digits2_pos_bounds. Qed.

Lemma Zdigits2_unique m d : 0 < d -> 2 ^ (d - 1) <= m < 2 ^ d -> Zdigits2 m = d.
Proof.
  intros Hd H. assert (0 < m) by (assert (0 < 2 ^ (d - 1)) by (apply Z.pow_pos_nonneg; lia); lia).
  pose proof (Zdigits2_bounds m H0) as B.
  assert (0 < Zdigits2 m) by (destruct m; simpl; lia).
  destruct (Z.lt_trichotomy (Zdigits2 m) d) as [L|[E|G]]; [|assumption|].
  - assert (2 ^ Zdigits2 m <= 2 ^ (d - 1)) by (apply Z.pow_le_mono_r; lia). lia.
  - assert (2 ^ d <= 2 ^ (Zdigits2 m - 1)) by (apply Z.pow_le_mono_r; lia). lia.
Qed.


Lemma fexp_normal z : -1074 <= z - 53 -> fexp 53 1024 z = z - 53.
Proof. unfold fexp, emin. lia. Qed.

Lemma binary_round_aux_correct sx mx ex lx x :
  0 < mx -> located mx lx ex x ->
  prec <= Zdigits2 mx ->
  3 - emax - prec <= Zdigits2 mx + ex - prec ->
  Zdigits2 mx + ex - prec + 1 <= emax - prec ->
  exists m e,
    binary_round_aux prec emax sx mx ex lx = S754_finite sx m e
    /\ 2 ^ (prec - 1) <= Zpos m < 2 ^ prec
    /\ (Rabs (IZR (Zpos m) * bpow e - x) <= x * bpow (- prec))%R
    /\ Zdigits2 mx + ex - prec <= e <= Zdigits2 mx + ex - prec + 1.
Proof.
  unfold prec, emax. intros Hm Hloc Hd Hlo Hhi.
  pose proof (Zdigits2_bounds mx Hm) as Hdig.
  set (dq := Zdigits2 mx) in *.
  unfold binary_round_aux.
  destruct (shr_fexp 53 1024 mx ex lx) as [mrs1 e1] eqn:E1.
  unfold shr_fexp in E1. fold dq in E1. rewrite fexp_normal in E1 by lia.
  destruct (loc_of_record_of_loc mx lx) as [Hl0 Hm0].
  apply (shr_located _ _ _ _ _ x) in E1;
    [|rewrite Hm0; lia | unfold rec_located; rewrite Hl0, Hm0; assumption].
  destruct E1 as (Hloc1 & Hm1 & He1).
  replace (dq + ex - 53 - ex) with (dq - 53) in He1 by lia.
  rewrite Z.max_r in He1 by lia.
  unfold rec_located in Hloc1.
  set (m1 := shr_m mrs1) in *. set (l1 := loc_of_shr_record mrs1) in *.
  pose proof (located_bounds _ _ _ _ Hloc) as B0.
  pose proof (located_bounds _ _ _ _ Hloc1) as B1.
  rewrite He1 in B1.
  pose proof (located_shift_bounds mx m1 ex (dq - 53) x ltac:(lia) B0 B1) as Hsh.
  assert (Hm1r : 2 ^ (53 - 1) <= m1 < 2 ^ 53).
  { assert (P : 2 ^ dq = 2 ^ 53 * 2 ^ (dq - 53)).
    { rewrite <- Z.pow_add_r by lia. f_equal. lia. }
    assert (P' : 2 ^ (dq - 1) = 2 ^ (53 - 1) * 2 ^ (dq - 53)).
    { rewrite <- Z.pow_add_r by lia. f_equal. lia. }
    assert (0 < 2 ^ (dq - 53)) by (apply Z.pow_pos_nonneg; lia).
    split; nia. }
  destruct (rne_located _ _ _ _ Hloc1) as [Herr Hm2].
  set (m2 := round_nearest_even m1 l1) in *.
  assert (Hx : (IZR (2 ^ (53 - 1)) * bpow e1 <= x)%R).
  { rewrite He1. apply Rle_trans with (IZR m1 * bpow (ex + (dq - 53)))%R; [|lra].
    apply Rmult_le_compat_r; [apply Rlt_le, bpow_pos|]. apply IZR_le. lia. }
  assert (Hrel : (bpow e1 / 2 <= x * bpow (- 53))%R).
  { apply Rle_trans with (IZR (2 ^ (53 - 1)) * bpow e1 * bpow (- 53))%R.
    - rewrite <- (bpow_IZR (53 - 1)) by lia.
      rewrite Rmult_comm, <- Rmult_assoc, <- bpow_add.
      replace (- 53 + (53 - 1)) with (-1) by lia.
      unfold bpow at 2. simpl. lra.
    - apply Rmult_le_compat_r; [apply Rlt_le, bpow_pos|assumption]. }
  destruct (shr_fexp 53 1024 m2 e1 loc_Exact) as [mrs2 e2] eqn:E2.
  unfold shr_fexp in E2. simpl shr_record_of_loc in E2.
  destruct (Z.eq_dec m2 (2 ^ 53)) as [Hc|Hc].
  - (* carry *)
    rewrite Hc in E2.
    replace (Zdigits2 (2 ^ 53)) with (53 + 1) in E2 by (vm_compute; reflexivity).
    rewrite fexp_normal in E2 by lia.
    replace (53 + 1 + e1 - 53 - e1) with 1 in E2 by lia.
    simpl in E2. inversion E2; subst mrs2 e2. simpl shr_m.
    assert (Hle : (e1 + 1 <=? 1024 - 53) = true) by (apply Z.leb_le; lia).
    rewrite Hle.
    eexists _, _. split; [reflexivity|].
    split; [vm_compute; split; congruence|].
    split; [|lia].
    apply Rle_trans with (bpow e1 / 2)%R; [|assumption].
    replace (IZR (Zpos 4503599627370496) * bpow (e1 + 1))%R with (IZR m2 * bpow e1)%R; [assumption|].
    rewrite Hc, bpow_succ. change (2 ^ 53) with (2 * 4503599627370496). rewrite mult_IZR. ring.
  - assert (Hm2r : 2 ^ (53 - 1) <= m2 < 2 ^ 53) by lia.
    rewrite (Zdigits2_unique m2 53) in E2 by lia.
    rewrite fexp_normal in E2 by lia.
    replace (53 + e1 - 53 - e1) with 0 in E2 by lia.
    simpl in E2. inversion E2; subst mrs2 e2. simpl shr_m.
    destruct m2 as [|p|p] eqn:Em2; [simpl in *; lia| |lia].
    assert (Hle : (e1 <=? 1024 - 53) = true) by (apply Z.leb_le; lia).
    rewrite Hle.
    exists p, e1. split; [reflexivity|]. split; [assumption|]. split; [|lia].
    apply Rle_trans with (bpow e1 / 2)%R; assumption.
Qed.

Lemma new_location_located m2 q r e :
  0 < m2 -> 0 <= r < m2 ->
  located q (new_location m2 r) e ((IZR (q * m2 + r) / IZR m2) * bpow e)%R.
Proof.
  intros Hm Hr.
  assert (Hb := bpow_pos e).
  assert (Hm2 : (0 < IZR m2)%R) by (apply IZR_lt; lia).
  assert (E : (IZR (q * m2 + r) / IZR m2 * bpow e
               = IZR q * bpow e + (IZR r / IZR m2) * bpow e)%R).
  { rewrite plus_IZR, mult_IZR. field. lra. }
  rewrite E. clear E.
  assert (Hr0 : (0 <= IZR r / IZR m2)%R).
  { apply Rmult_le_pos; [apply IZR_le; lia|]. apply Rlt_le, Rinv_0_lt_compat. assumption. }
  assert (Hr1 : (IZR r / IZR m2 < 1)%R).
  { apply Rmult_lt_reg_r with (IZR m2); [assumption|].
    unfold Rdiv. rewrite Rmult_assoc, Rinv_l by lra. rewrite Rmult_1_r, Rmult_1_l.
    apply IZR_lt. lia. }
  assert (Hhalf : forall c, (2 * r ?= m2) = c ->
            match c with
            | Lt => (IZR r / IZR m2 < 1 / 2)%R
            | Eq => (IZR r / IZR m2 = 1 / 2)%R
            | Gt => (1 / 2 < IZR r / IZR m2)%R
            end).
  { intros c Hc. destruct c.
    - apply Z.compare_eq in Hc. rewrite <- Hc, mult_IZR. field.
      apply IZR_lt in Hm. rewrite <- Hc, mult_IZR in Hm. lra.
    - rewrite Z.compare_lt_iff in Hc. apply IZR_lt in Hc. rewrite mult_IZR in Hc.
      apply Rmult_lt_reg_r with (IZR m2); [assumption|].
      unfold Rdiv. rewrite Rmult_assoc, Rinv_l by lra. lra.
    - rewrite Z.compare_gt_iff in Hc. apply IZR_lt in Hc. rewrite mult_IZR in Hc.
      apply Rmult_lt_reg_r with (IZR m2); [assumption|].
      unfold Rdiv. rewrite (Rmult_assoc (IZR r)), Rinv_l by lra. lra. }
  assert (Hpos : r <> 0 -> (0 < IZR r / IZR m2)%R).
  { intros Hne. apply Rmult_lt_0_compat; [apply IZR_lt; lia|].
    apply Rinv_0_lt_compat. assumption. }
  unfold new_location, new_location_even, new_location_odd.
  destruct (Z.even m2) eqn:Ev.
  - destruct (Z.eqb_spec r 0) as [->|Hne].
    + simpl. unfold Rdiv. rewrite Rmult_0_l. lra.
    + specialize (Hpos Hne). specialize (Hhalf _ eq_refl).
      destruct (2 * r ?= m2); simpl; nra.
  - destruct (Z.eqb_spec r 0) as [->|Hne].
    + simpl. unfold Rdiv. rewrite Rmult_0_l. lra.
    + specialize (Hpos Hne).
      assert (Hodd : 2 * r <> m2).
      { intros Heq. rewrite <- Heq, Z.even_mul in Ev. discriminate. }
      destruct (2 * r + 1 ?= m2) eqn:Hc.
      * apply Z.compare_eq in Hc.
        assert (Hlt : (2 * r ?= m2) = Lt) by (apply Z.compare_lt_iff; lia).
        specialize (Hhalf _ Hlt). simpl in *. nra.
      * rewrite Z.compare_lt_iff in Hc.
        assert (Hlt : (2 * r ?= m2) = Lt) by (apply Z.compare_lt_iff; lia).
        specialize (Hhalf _ Hlt). simpl in *. nra.
      * rewrite Z.compare_gt_iff in Hc.
        assert (Hgt : (2 * r ?= m2) = Gt) by (apply Z.compare_gt_iff; lia).
        specialize (Hhalf _ Hgt). simpl in *. nra.
Qed.

Lemma bpow_sub_split e1 e2 e' :
  (bpow e1 / bpow e2 = bpow (e1 - e2 - e') * bpow e')%R.
Proof.
  rewrite <- bpow_add. replace (e1 - e2 - e' + e') with (e1 + - e2) by lia.
  rewrite bpow_add. unfold Rdiv. f_equal.
  unfold bpow. rewrite powerRZ_neg'. reflexivity.
Qed.

Lemma pow2_split a b : 0 <= b -> 0 <= a -> 2 ^ (a + b) = 2 ^ a * 2 ^ b.
Proof. intros. apply Z.pow_add_r; lia. Qed.

Lemma SFdiv_core_located m1 e1 m2 e2 :
  0 < m1 -> 0 < m2 ->
  let D := Zdigits2 m1 + e1 - (Zdigits2 m2 + e2) in
  -1074 <= D - 53 ->
  exists q e' l,
    SFdiv_core_binary 53 1024 m1 e1 m2 e2 = (q, e', l)
    /\ 0 < q
    /\ located q l e' ((IZR m1 * bpow e1) / (IZR m2 * bpow e2))%R
    /\ 53 <= Zdigits2 q
    /\ D <= Zdigits2 q + e' <= D + 1.
Proof.
  intros H1 H2 D HD.
  pose proof (Zdigits2_bounds m1 H1) as B1.
  pose proof (Zdigits2_bounds m2 H2) as B2.
  assert (Hd1 : 0 < Zdigits2 m1) by (destruct m1; simpl; lia).
  assert (Hd2 : 0 < Zdigits2 m2) by (destruct m2; simpl; lia).
  unfold SFdiv_core_binary.
  set (d1 := Zdigits2 m1) in *. set (d2 := Zdigits2 m2) in *.
  fold D. rewrite fexp_normal by lia.
  set (e' := Z.min (D - 53) (e1 - e2)).
  set (s := e1 - e2 - e').
  assert (Hs : 0 <= s) by (unfold s, e'; lia).
  assert (Hs53 : 53 - d1 + d2 <= s) by (unfold s, e', D; lia).
  set (m' := match s with Z.pos _ => Z.shiftl m1 s | 0 => m1 | Z.neg _ => 0 end).
  assert (Hm' : m' = m1 * 2 ^ s).
  { unfold m'. destruct s as [|p|p]; [simpl; lia| |lia].
    rewrite Z.shiftl_mul_pow2 by lia. reflexivity. }
  clearbody m'.
  destruct (Z.div_eucl m' m2) as [q r] eqn:Ediv.
  pose proof (Z_div_mod m' m2 ltac:(lia)) as Hdm. rewrite Ediv in Hdm.
  destruct Hdm as [Hqr Hr].
  assert (P2s : 0 < 2 ^ s) by (apply Z.pow_pos_nonneg; lia).
  (* bounds on q *)
  assert (Hlow : 2 ^ (d1 + s - d2 - 1) <= q).
  { assert (E : 2 ^ (d1 - 1 + s) = 2 ^ (d1 + s - d2 - 1) * 2 ^ d2).
    { rewrite <- Z.pow_add_r by lia. f_equal. lia. }
    assert (2 ^ (d1 - 1 + s) <= m').
    { rewrite Hm', Z.pow_add_r by lia. nia. }
    assert (0 < 2 ^ (d1 + s - d2 - 1)) by (apply Z.pow_pos_nonneg; lia).
    nia. }
  assert (Hupp : q < 2 ^ (d1 + s - d2 + 1)).
  { assert (E : 2 ^ (d1 + s) = 2 ^ (d1 + s - d2 + 1) * 2 ^ (d2 - 1)).
    { rewrite <- Z.pow_add_r by lia. f_equal. lia. }
    assert (m' < 2 ^ (d1 + s)).
    { rewrite Hm', Z.pow_add_r by lia. nia. }
    assert (0 < 2 ^ (d2 - 1)) by (apply Z.pow_pos_nonneg; lia).
    assert (0 < 2 ^ (d1 + s - d2 + 1)) by (apply Z.pow_pos_nonneg; lia).
    nia. }
  assert (Hq : 0 < q).
  { assert (0 < 2 ^ (d1 + s - d2 - 1)) by (apply Z.pow_pos_nonneg; lia). lia. }
  pose proof (Zdigits2_bounds q Hq) as Bq.
  assert (Hdq : d1 + s - d2 <= Zdigits2 q <= d1 + s - d2 + 1).
  { assert (0 < Zdigits2 q) by (destruct q; simpl; lia).
    split.
    - destruct (Z_lt_le_dec (Zdigits2 q) (d1 + s - d2)) as [L|L]; [|assumption].
      assert (2 ^ Zdigits2 q <= 2 ^ (d1 + s - d2 - 1)) by (apply Z.pow_le_mono_r; lia). lia.
    - destruct (Z_lt_le_dec (d1 + s - d2 + 1) (Zdigits2 q)) as [L|L]; [|assumption].
      assert (2 ^ (d1 + s - d2 + 1) <= 2 ^ (Zdigits2 q - 1)) by (apply Z.pow_le_mono_r; lia). lia. }
  exists q, e', (new_location m2 r).
  split; [reflexivity|]. split; [assumption|]. split; [|split; [lia|unfold s, D in *; lia]].
  replace (IZR m1 * bpow e1 / (IZR m2 * bpow e2))%R
    with (IZR (q * m2 + r) / IZR m2 * bpow e')%R.
  - apply new_location_located; lia.
  - replace (q * m2 + r) with m' by lia. rewrite Hm', mult_IZR.
    rewrite <- (bpow_IZR s) by lia.
    assert (Hbe := bpow_pos e2). assert (0 < IZR m2)%R by (apply IZR_lt; lia).
    transitivity (IZR m1 / IZR m2 * (bpow e1 / bpow e2))%R.
    + rewrite (bpow_sub_split e1 e2 e'). fold s. field. lra.
    + field. lra.
Qed.

Lemma SFdiv_finite sx mx ex sy my ey :
  let D := Zpos (digits2_pos mx) + ex - (Zpos (digits2_pos my) + ey) in
  -1021 <= D <= 1022 ->
  exists m e,
    SFdiv 53 1024 (S754_finite sx mx ex) (S754_finite sy my ey)
    = S754_finite (xorb sx sy) m e
    /\ 2 ^ 52 <= Zpos m < 2 ^ 53
    /\ (Rabs (IZR (Zpos m) * bpow e
              - (IZR (Zpos mx) * bpow ex) / (IZR (Zpos my) * bpow ey))
        <= (IZR (Zpos mx) * bpow ex) / (IZR (Zpos my) * bpow ey) * bpow (-53))%R
    /\ D - 53 <= e <= D - 51.
Proof.
  intros D HD. unfold SFdiv.
  destruct (SFdiv_core_located (Zpos mx) ex (Zpos my) ey ltac:(lia) ltac:(lia))
    as (q & e' & l & Ecore & Hq & Hloc & Hdq & Hde).
  { simpl Zdigits2. fold D. lia. }
  simpl Zdigits2 in Hde. fold D in Hde.
  rewrite Ecore.
  destruct (binary_round_aux_correct (xorb sx sy) q e' l _ Hq Hloc)
    as (m & e & Hres & Hm & Herr & He); unfold prec, emax in *; try lia.
  exists m, e. repeat split; try assumption; try lia.
Qed.

(** The real number a float stands for. *)
Definition B2R (x : float) : R :=
  match x with
  | S754_finite s m e => (IZR (if s then Zneg m else Zpos m) * bpow e)%R
  | _ => 0%R
  end.

Lemma divide_nearest_spec a b :
  0 < b -> 2 * Z.abs (a - b * divide_nearest a b) <= b.
Proof.
  intros Hb. unfold divide_nearest.
  pose proof (Z.div_mod a b ltac:(lia)) as E.
  pose proof (Z.mod_pos_bound a b Hb) as Hr.
  set (q := a / b) in *. set (r := a mod b) in *.
  assert (E' : a - b * (q + 1) = r - b) by (rewrite E at 1; ring).
  assert (E'' : a - b * q = r) by (rewrite E at 1; ring).
  destruct (b <? 2 * r) eqn:E1; cbn [orb andb].
  - apply Z.ltb_lt in E1. rewrite E'. lia.
  - apply Z.ltb_ge in E1.
    destruct (2 * r =? b) eqn:E2; cbn [orb andb].
    + apply Z.eqb_eq in E2. destruct (Z.odd q); [rewrite E'|rewrite E'']; lia.
    + rewrite E''. lia.
Qed.

Lemma divide_nearest_R a b :
  0 < b -> (Rabs (IZR (divide_nearest a b) - IZR a / IZR b) <= 1 / 2)%R.
Proof.
  intros Hb. pose proof (divide_nearest_spec a b Hb) as H.
  assert (Hb' : (0 < IZR b)%R) by (apply IZR_lt; lia).
  apply IZR_le in H. rewrite mult_IZR, abs_IZR, minus_IZR, mult_IZR in H.
  replace (IZR (divide_nearest a b) - IZR a / IZR b)%R
    with (- ((IZR a - IZR b * IZR (divide_nearest a b)) / IZR b))%R by (field; lra).
  rewrite Rabs_Ropp. unfold Rdiv at 1. rewrite Rabs_mult, (Rabs_right (/ IZR b)).
  2:{ apply Rle_ge, Rlt_le, Rinv_0_lt_compat. assumption. }
  apply Rmult_le_reg_r with (IZR b); [assumption|].
  rewrite Rmult_assoc, Rinv_l by lra. lra.
Qed.

Lemma as_integer_ratio_spec s m e n d :
  as_integer_ratio (S754_finite s m e) = Ok (n, d) ->
  0 < d /\ (IZR n / IZR d)%R = B2R (S754_finite s m e).
Proof.
  unfold as_integer_ratio. simpl B2R.
  set (v := if s then Z.neg m else Z.pos m).
  destruct (Z.leb_spec 0 e) as [He|He]; intros H; inversion H; subst; clear H.
  - split; [lia|]. rewrite mult_IZR, <- bpow_IZR by lia. field.
  - set (p := 2 ^ (- e)).
    assert (Hp : 0 < p) by (apply Z.pow_pos_nonneg; lia).
    set (g := Z.gcd v p).
    assert (Hg : 0 < g).
    { pose proof (Z.gcd_nonneg v p). 
      destruct (Z.eq_dec g 0) as [G0|G0]; [|unfold g in *; lia].
      apply Z.gcd_eq_0_r in G0. lia. }
    destruct (Z.gcd_divide_l v p) as [v' Hv']. destruct (Z.gcd_divide_r v p) as [p' Hp'].
    fold g in Hv', Hp'.
    assert (Ev : v / g = v') by (rewrite Hv'; apply Z.div_mul; lia).
    assert (Ep : p / g = p') by (rewrite Hp'; apply Z.div_mul; lia).
    rewrite Ev, Ep.
    assert (0 < p') by nia.
    split; [assumption|].
    assert (Hbp : bpow e = (/ IZR p)%R).
    { unfold p. rewrite <- bpow_IZR by lia.
      assert (Hone : (bpow e * bpow (- e) = 1)%R).
      { rewrite <- bpow_add. replace (e + - e) with 0 by lia. reflexivity. }
      assert (Hne := bpow_pos (- e)).
      apply Rmult_eq_reg_r with (bpow (- e)); [|lra].
      rewrite Hone. field. lra. }
    rewrite Hbp. rewrite Hv', Hp', !mult_IZR.
    assert (0 < IZR p')%R by (apply IZR_lt; lia).
    assert (0 < IZR g)%R by (apply IZR_lt; lia).
    field. lra.
Qed.


Lemma as_integer_ratio_finite s m e :
  exists n d, as_integer_ratio (S754_finite s m e) = Ok (n, d).
Proof. unfold as_integer_ratio. destruct (0 <=? e); eauto. Qed.

(** Division of a non-zero float by a positive one, both in range. *)
Lemma SFdiv_B2R sx mx ex my ey :
  -1021 <= Zpos (digits2_pos mx) + ex - (Zpos (digits2_pos my) + ey) <= 1022 ->
  exists m e,
    SFdiv prec emax (S754_finite sx mx ex) (S754_finite false my ey)
    = S754_finite sx m e
    /\ 2 ^ 52 <= Zpos m < 2 ^ 53
    /\ (Rabs (B2R (S754_finite sx m e)
              - B2R (S754_finite sx mx ex) / B2R (S754_finite false my ey))
        <= Rabs (B2R (S754_finite sx mx ex) / B2R (S754_finite false my ey))
           * bpow (-53))%R
    /\ Zpos (digits2_pos mx) + ex - (Zpos (digits2_pos my) + ey) - 53 <= e
       <= Zpos (digits2_pos mx) + ex - (Zpos (digits2_pos my) + ey) - 51.
Proof.
  intros HD.
  destruct (SFdiv_finite sx mx ex false my ey HD) as (m & e & Hres & Hm & Herr & He).
  exists m, e. rewrite xorb_false_r in Hres.
  split; [exact Hres|]. split; [assumption|]. split; [|assumption].
  set (X := (IZR (Zpos mx) * bpow ex / (IZR (Zpos my) * bpow ey))%R) in *.
  assert (HX : (0 < X)%R).
  { unfold X. apply Rmult_lt_0_compat.
    - apply Rmult_lt_0_compat; [apply IZR_lt; lia|apply bpow_pos].
    - apply Rinv_0_lt_compat. apply Rmult_lt_0_compat; [apply IZR_lt; lia|apply bpow_pos]. }
  simpl B2R. destruct sx.
  - replace (IZR (Z.neg m) * bpow e - IZR (Z.neg mx) * bpow ex / (IZR (Z.pos my) * bpow ey))%R
      with (- (IZR (Z.pos m) * bpow e - X))%R.
    2:{ unfold X. change (Z.neg m) with (- Z.pos m). change (Z.neg mx) with (- Z.pos mx).
        rewrite !opp_IZR. field.
        assert (Hb := bpow_pos ey). assert (0 < IZR (Z.pos my))%R by (apply IZR_lt; lia).
        split; lra. }
    rewrite Rabs_Ropp.
    replace (IZR (Z.neg mx) * bpow ex / (IZR (Z.pos my) * bpow ey))%R with (- X)%R.
    2:{ unfold X. change (Z.neg mx) with (- Z.pos mx). rewrite opp_IZR. field.
        assert (Hb := bpow_pos ey). assert (0 < IZR (Z.pos my))%R by (apply IZR_lt; lia).
        split; lra. }
    rewrite Rabs_Ropp, (Rabs_right X) by lra. assumption.
  - fold X. rewrite (Rabs_right X) by lra. assumption.
Qed.

Lemma digits2_pos_le p k : 0 <= k -> Zpos p < 2 ^ k -> Zpos (digits2_pos p) <= k.
Proof.
  intros Hk H. pose proof (digits2_pos_bounds p) as B.
  destruct (Z_lt_le_dec k (Zpos (digits2_pos p))) as [L|L]; [|assumption].
  assert (2 ^ k <= 2 ^ (Zpos (digits2_pos p) - 1)) by (apply Z.pow_le_mono_r; lia). lia.
Qed.


Lemma bpow_m53 : bpow (-53) = (/ 9007199254740992)%R.
Proof.
  assert (H : (bpow (-53) * bpow 53 = 1)%R).
  { rewrite <- bpow_add. reflexivity. }
  rewrite (bpow_IZR 53) in H by lia. change (2 ^ 53) with 9007199254740992 in H.
  apply Rmult_eq_reg_r with 9007199254740992%R; [|lra].
  rewrite H. field.
Qed.

Lemma float_of_int_finite d :
  d <> 0 -> float_of_int d = S754_finite (d <? 0) (Z.to_pos (Z.abs d)) 0
            /\ B2R (float_of_int d) = IZR d.
Proof.
  destruct d as [|p|p]; [congruence| |]; intros _; simpl; split; try reflexivity; unfold bpow; simpl; ring.
Qed.

Lemma int_truediv_spec a b :
  a <> 0 -> 0 < b -> Z.abs a < 2 ^ 900 -> b < 2 ^ 900 ->
  exists m e,
    int_truediv a b = Ok (S754_finite (a <? 0) m e)
    /\ 2 ^ 52 <= Zpos m < 2 ^ 53
    /\ (Rabs (B2R (S754_finite (a <? 0) m e) - IZR a / IZR b)
        <= Rabs (IZR a / IZR b) * bpow (-53))%R
    /\ -952 <= e <= 848.
Proof.
  intros Ha Hb Ha' Hb'.
  unfold int_truediv. destruct (Z.eqb_spec b 0) as [|_]; [lia|].
  destruct (float_of_int_finite a Ha) as [Ea Va].
  destruct (float_of_int_finite b ltac:(lia)) as [Eb Vb].
  assert (Hs : (b <? 0) = false) by (apply Z.ltb_ge; lia). rewrite Hs in Eb.
  set (pa := Z.to_pos (Z.abs a)) in *. set (pb := Z.to_pos (Z.abs b)) in *.
  assert (Hpa : Zpos pa = Z.abs a) by (unfold pa; rewrite Z2Pos.id; lia).
  assert (Hpb : Zpos pb = b) by (unfold pb; rewrite Z2Pos.id; lia).
  pose proof (digits2_pos_le pa 900 ltac:(lia) ltac:(lia)).
  pose proof (digits2_pos_le pb 900 ltac:(lia) ltac:(lia)).
  assert (0 < Zpos (digits2_pos pa)) by lia. assert (0 < Zpos (digits2_pos pb)) by lia.
  destruct (SFdiv_B2R (a <? 0) pa 0 pb 0 ltac:(lia)) as (m & e & Hres & Hm & Herr & He).
  exists m, e. rewrite Ea, Eb, Hres. split; [reflexivity|]. split; [assumption|].
  split; [|lia].
  rewrite <- Ea, <- Eb, Va, Vb in Herr. exact Herr.
Qed.



Lemma td_scale_close num den D :
  0 < num <= den -> den < 2 ^ 900 -> Z.abs D < 2 ^ 52 ->
  exists p, td_scale num den D = Ok p /\ Z.abs (p * den - D * num) < den.
Proof.
  intros Hn Hden HD. unfold td_scale, td_truediv.
  destruct (int_truediv_spec num den ltac:(lia) ltac:(lia) ltac:(lia) Hden)
    as (m & e & E & Hm & Herr & He).
  assert (Hs : (num <? 0) = false) by (apply Z.ltb_ge; lia). rewrite Hs in *.
  rewrite E. cbn [Py.bind]. unfold td_mul_float, Py.bind.
  destruct (as_integer_ratio_finite false m e) as (n & d & Er). rewrite Er.
  cbn [fst snd]. eexists. split; [reflexivity|].
  destruct (as_integer_ratio_spec _ _ _ _ _ Er) as [Hd Hv].
  pose proof (divide_nearest_R (D * n) d Hd) as Hdn.
  set (p := divide_nearest (D * n) d) in *.
  set (r := B2R (S754_finite false m e)) in *.
  rewrite bpow_m53 in Herr.
  assert (Hden' : (0 < IZR den)%R) by (apply IZR_lt; lia).
  assert (Hd' : (0 < IZR d)%R) by (apply IZR_lt; lia).
  assert (Hq : (0 < IZR num / IZR den <= 1)%R).
  { split.
    - apply Rmult_lt_0_compat; [apply IZR_lt; lia|apply Rinv_0_lt_compat; assumption].
    - apply Rmult_le_reg_r with (IZR den); [assumption|].
      unfold Rdiv. rewrite Rmult_assoc, Rinv_l by lra. rewrite Rmult_1_r, Rmult_1_l.
      apply IZR_le. lia. }
  set (x := (IZR num / IZR den)%R) in *.
  assert (Hr : (Rabs (r - x) <= / 9007199254740992)%R).
  { rewrite (Rabs_right x) in Herr by lra.
    apply Rle_trans with (1 := Herr). 
    rewrite <- (Rmult_1_l (/ 9007199254740992)) at 2.
    apply Rmult_le_compat_r; lra. }
  assert (HDR : (Rabs (IZR D) < 4503599627370496)%R).
  { rewrite <- abs_IZR. change (2 ^ 52) with 4503599627370496 in HD. apply IZR_lt. assumption. }
  assert (Hpr : (Rabs (IZR p - IZR D * r) <= 1 / 2)%R).
  { replace (IZR D * r)%R with (IZR (D * n) / IZR d)%R; [assumption|].
    rewrite mult_IZR, <- Hv. field. lra. }
  assert (Hmain : (Rabs (IZR p - IZR D * x) < 1)%R).
  { replace (IZR p - IZR D * x)%R with ((IZR p - IZR D * r) + IZR D * (r - x))%R by ring.
    eapply Rle_lt_trans; [apply Rabs_triang|].
    rewrite Rabs_mult.
    assert (Rabs (IZR D) * Rabs (r - x) < 1 / 2)%R; [|lra].
    assert (A := Rabs_pos (IZR D)). assert (B := Rabs_pos (r - x)).
    apply Rle_lt_trans with (Rabs (IZR D) * / 9007199254740992)%R.
    - apply Rmult_le_compat_l; assumption.
    - lra. }
  assert (Hfin : (Rabs (IZR p * IZR den - IZR D * IZR num) < IZR den)%R).
  { replace (IZR p * IZR den - IZR D * IZR num)%R with ((IZR p - IZR D * x) * IZR den)%R.
    - rewrite Rabs_mult, (Rabs_right (IZR den)) by lra.
      rewrite <- (Rmult_1_l (IZR den)) at 2.
      apply Rmult_lt_compat_r; assumption.
    - unfold x. field. lra. }
  rewrite <- !mult_IZR, <- minus_IZR, <- abs_IZR in Hfin.
  apply lt_IZR in Hfin. exact Hfin.
Qed.



End FloatFacts.

(* ===================================================================== *)
(** * Packed-decimal fields: round trip and rejection *)
(* ===================================================================== *)

Section RangeCheck.

(** A boolean property checked on every number below [n] holds on the
    whole range. *)
Lemma forallb_range (P : Z -> bool) (n : Z) :
  forallb P (map Z.of_nat (seq 0 (Z.to_nat n))) = true ->
  forall v, 0 <= v < n -> P v = true.
Proof.
  intros H v Hv.
  rewrite forallb_forall in H. apply H.
  apply in_map_iff. exists (Z.to_nat v). split.
  - lia.
  - apply in_seq. lia.
Qed.

End RangeCheck.

Module PackedFacts.

(** A hexadecimal digit that is not a decimal one: one of a to f. *)
Definition beyond_nine (c : ascii) : bool :=
  match digit_value 16 c with
  | Some d => 9 <? d
  | None => false
  end.

Definition roundtrip_ok (encode : Z -> result (list byte)) (len : nat)
           (v : Z) : bool :=
  match encode v with
  | Ok bs =>
      (List.length bs =? len)%nat
      && match Packed.decode bs with
         | Ok v' => v' =? v
         | Raise _ => false
         end
  | Raise _ => false
  end.

Lemma roundtrip_ok_spec encode len v :
  roundtrip_ok encode len v = true ->
  exists bs, encode v = Ok bs /\ List.length bs = len /\ Packed.decode bs = Ok v.
Proof.
  unfold roundtrip_ok. destruct (encode v) as [bs|]; [|discriminate].
  intros H. apply andb_prop in H. destruct H as [Hl Hd].
  exists bs. split; [reflexivity|]. split.
  - now apply Nat.eqb_eq.
  - destruct (Packed.decode bs) as [v'|]; [|discriminate].
    apply Z.eqb_eq in Hd. now subst.
Qed.

Lemma year_range_checked :
  forallb (roundtrip_ok Packed.encode_year 2) (map Z.of_nat (seq 0 (Z.to_nat 10000))) = true.
Proof. vm_compute. reflexivity. Qed.

Lemma field_range_checked :
  forallb (roundtrip_ok Packed.encode_field 1) (map Z.of_nat (seq 0 (Z.to_nat 100))) = true.
Proof. vm_compute. reflexivity. Qed.

Lemma beyond_nine_not_decimal c :
  beyond_nine c = true -> digit_value 10 c = None.
Proof.
  unfold beyond_nine, digit_value.
  destruct (hex_value c) as [d|]; [|discriminate].
  destruct (d <? 16); [|discriminate].
  intros H. apply Z.ltb_lt in H.
  destruct (d <? 10) eqn:E; [apply Z.ltb_lt in E; lia | reflexivity].
Qed.

(** Parsing stops with [ValueError] at the first character that is not a
    digit of the base. *)
Lemma int_loop_bad_digit base s : forall acc c,
  In c (list_ascii_of_string s) -> digit_value base c = None ->
  int_loop base s acc = Raise ValueError.
Proof.
  induction s as [|a s IH]; intros acc c Hin Hc; simpl in *.
  - contradiction.
  - destruct (digit_value base a) as [d|] eqn:Ea; [|reflexivity].
    destruct Hin as [->|Hin]; [congruence|].
    now apply IH with c.
Qed.

Lemma int_of_str_bad_digit base s c :
  In c (list_ascii_of_string s) -> digit_value base c = None ->
  int_of_str base s = Raise ValueError.
Proof.
  intros Hin Hc. destruct s as [|a s]; [contradiction|].
  unfold int_of_str. now apply int_loop_bad_digit with c.
Qed.

End PackedFacts.

(** C2. Packed-decimal round trip: every year from 0 to 9999 is encoded to
    two bytes, and every month, day, hour, minute or second value from 0 to
    99 to one byte, from which decoding gives the value back; and decoding
    raises (the [ValueError] of [int]) on any bytes whose hexadecimal
    rendering has a digit beyond 9. *)
Theorem packed_decimal_round_trip :
  (forall v, 0 <= v <= 9999 ->
     exists bs, Packed.encode_year v = Ok bs /\ List.length bs = 2%nat
                /\ Packed.decode bs = Ok v)
  /\ (forall v, 0 <= v <= 99 ->
        exists bs, Packed.encode_field v = Ok bs /\ List.length bs = 1%nat
                   /\ Packed.decode bs = Ok v)
  /\ (forall bs c,
        In c (list_ascii_of_string (format_x (from_bytes bs))) ->
        PackedFacts.beyond_nine c = true ->
        Packed.decode bs = Raise ValueError).
Proof.
  split; [|split].
  - intros v Hv. apply PackedFacts.roundtrip_ok_spec.
    apply (forallb_range _ 10000 PackedFacts.year_range_checked). lia.
  - intros v Hv. apply PackedFacts.roundtrip_ok_spec.
    apply (forallb_range _ 100 PackedFacts.field_range_checked). lia.
  - intros bs c Hin Hc. unfold Packed.decode.
    apply PackedFacts.int_of_str_bad_digit with c; [assumption|].
    now apply PackedFacts.beyond_nine_not_decimal.
Qed.

Lemma packed_decimal_round_trip_witness :
  (exists bs, Packed.encode_year 2021 = Ok bs /\ List.length bs = 2%nat
              /\ Packed.decode bs = Ok 2021)
  /\ (exists bs, Packed.encode_field 59 = Ok bs /\ List.length bs = 1%nat
                 /\ Packed.decode bs = Ok 59)
  /\ Packed.decode [x20; x2a] = Raise ValueError.
Proof.
  destruct packed_decimal_round_trip as (Hy & Hf & Hr).
  split; [apply Hy; lia | split; [apply Hf; lia |]].
  apply (Hr [x20; x2a] "a"%char); [vm_compute; tauto | reflexivity].
Defined.

(* ===================================================================== *)
(** * Files and dictionaries *)
(* ===================================================================== *)

(** An open binary file: its contents and the position of the next read
    or write.  A computation on it returns or raises and leaves the file
    as far as it got: what was written before an exception stays written
    when the [with] block closes the file. *)
Module File.

Record handle : Type := mkhandle { data : list byte; pos : nat }.

Definition io (A : Type) : Type := handle -> result A * handle.

Definition ret {A} (a : A) : io A := fun h => (Ok a, h).
Definition raise {A} (e : exn) : io A := fun h => (Raise e, h).
Definition lift {A} (c : result A) : io A := fun h => (c, h).

Definition bind {A B} (c : io A) (k : A -> io B) : io B :=
  fun h =>
    match c h with
    | (Ok a, h') => k a h'
    | (Raise e, h') => (Raise e, h')
    end.

Declare Scope io_scope.
Delimit Scope io_scope with io.
Notation "x <- c ;; k" := (bind c (fun x => k))
  (at level 61, c at next level, right associativity) : io_scope.
Notation "c ;;; k" := (bind c (fun _ => k))
  (at level 61, right associativity) : io_scope.
Local Open Scope io_scope.

(** [f.read(n)]: up to [n] bytes, fewer at the end of the file. *)
Definition read (n : nat) : io (list byte) :=
  fun h =>
    let bs := firstn n (skipn (pos h) (data h)) in
    (Ok bs, mkhandle (data h) (pos h + List.length bs)).

(** [f.tell()] *)
Definition tell : io nat := fun h => (Ok (pos h), h).

(** [f.seek(p)], [f.seek(off, os.SEEK_CUR)] and [f.seek(off, os.SEEK_END)]:
    a position before the start of the file is an [OSError]. *)
Definition seek_to (p : Z) : io unit :=
  fun h => if p <? 0 then (Raise OSError, h)
           else (Ok tt, mkhandle (data h) (Z.to_nat p)).

Definition seek (p : nat) : io unit := seek_to (Z.of_nat p).
Definition seek_cur (off : Z) : io unit :=
  fun h => seek_to (Z.of_nat (pos h) + off) h.
Definition seek_end (off : Z) : io unit :=
  fun h => seek_to (Z.of_nat (List.length (data h)) + off) h.

(** [f.write(bs)]: overwrites from the position on and extends the file
    where it runs past its end (with zeros up to the position). *)
Definition overwrite (d : list byte) (p : nat) (bs : list byte) : list byte :=
  firstn p d ++ repeat x00 (p - List.length d) ++ bs
  ++ skipn (p + List.length bs) d.

Definition write (bs : list byte) : io unit :=
  fun h => (Ok tt, mkhandle (overwrite (data h) (pos h) bs)
                            (pos h + List.length bs)).

Definition assert (b : bool) : io unit := lift (Py.assert b).

End File.

(** A Python [dict] with string keys: bindings in insertion order, each
    key at most once. *)
Module Dict.

Definition t (V : Type) : Type := list (string * V).

Fixpoint get {V} (k : string) (d : t V) : option V :=
  match d with
  | [] => None
  | (k', v) :: d' => if String.eqb k k' then Some v else get k d'
  end.

(** [d[k] = v]: a present key keeps its place. *)
Fixpoint set {V} (k : string) (v : V) (d : t V) : t V :=
  match d with
  | [] => [(k, v)]
  | (k', v') :: d' =>
      if String.eqb k k' then (k, v) :: d' else (k', v') :: set k v d'
  end.

(** [d.pop(k, None)] *)
Fixpoint pop {V} (k : string) (d : t V) : t V :=
  match d with
  | [] => []
  | (k', v') :: d' =>
      if String.eqb k k' then d' else (k', v') :: pop k d'
  end.

End Dict.

Definition bytes_eqb (a b : list byte) : bool :=
  if list_eq_dec Byte.byte_eq_dec a b then true else false.

Lemma bytes_eqb_eq a b : bytes_eqb a b = true <-> a = b.
Proof.
  unfold bytes_eqb. destruct (list_eq_dec Byte.byte_eq_dec a b); split;
    intros; congruence.
Qed.

(* ===================================================================== *)
(** * mpl_extract.py *)
(* ===================================================================== *)

Module MplExtract.

Import File.
Local Open Scope io_scope.

(** class [MtsInfo]: the offset of the record in the playlist file, the
    ["datetime"] entry of its private dictionary and the dirty flag. *)
Record MtsInfo : Type := mkMtsInfo {
  seek_pos : nat;
  info_datetime : datetime;
  dirty : bool
}.

(** [info["datetime"]] *)
Definition getitem (i : MtsInfo) : datetime := info_datetime i.

(** [info["datetime"] = value] marks the record dirty. *)
Definition setitem (i : MtsInfo) (value : datetime) : MtsInfo :=
  mkMtsInfo (seek_pos i) value true.

Definition clear_dirty (i : MtsInfo) : MtsInfo :=
  mkMtsInfo (seek_pos i) (info_datetime i) false.

(** The sidecar maps a clip name to the UTC offset of its record.  The
    JSON file holds [total_seconds()] of the offset, from which
    [timedelta(seconds=...)] gives the offset back; the offset itself is
    kept here. *)
Definition tz_dict_t : Type := Dict.t timedelta.

(** class [MplFile], without its two paths: the playlist file and the
    sidecar are the two files of [files] below. *)
Record MplFile : Type := mkMplFile {
  db : Dict.t MtsInfo;
  tz_dict : tz_dict_t
}.

(** The two files on disk: the playlist ([None] when it cannot be
    opened) and the sidecar ([None] when it does not exist). *)
Record files : Type := mkfiles {
  playlist : option (list byte);
  sidecar : option tz_dict_t
}.

Definition SIGNATURE : list byte := encode_ascii "MPLS0100".

Definition time_stamp_sig : list byte :=
  [x01; x03; x05; x01; x00; x00; x00; x02].

Definition kind_markers : list (list byte) := [[x90; x0a]; [x90; x0c]].

Definition is_kind_marker (bs : list byte) : bool :=
  existsb (bytes_eqb bs) kind_markers.

(** [ord(bs)] *)
Definition ord (bs : list byte) : result Z :=
  match bs with
  | [b] => Ok (Z_of_byte b)
  | _ => Raise TypeError
  end.

(** [f"{dt.year:4d}.{dt.month:2d}.{dt.day:2d}".encode('ascii')] *)
Definition date_stamp (dt : datetime) : list byte :=
  encode_ascii (format_wd 4 (year dt) ++ "." ++ format_wd 2 (month dt)
                ++ "." ++ format_wd 2 (day dt))%string.

(** ["{:05d}.MTS".format(n)] *)
Definition mts_name (n : Z) : string := (format_0wd 5 n ++ ".MTS")%string.

(** [name[:-4]] *)
Definition drop_last4 (name : string) : string :=
  String.substring 0 (String.length name - 4) name.

(** One packed field of one byte. *)
Definition read_field : io Z :=
  b <- read 1 ;; v <- lift (ord b) ;; lift (int_of_str 10 (format_x v)).

(** The body of the [while] loop of [MplFile.read]: one descriptor. *)
Definition read_record (tz : tz_dict_t) : io (string * MtsInfo) :=
  seek_cur 36 ;;;
  sig <- read (List.length time_stamp_sig) ;;
  assert (bytes_eqb sig time_stamp_sig) ;;;
  timestamp_seek_pos <- tell ;;
  id <- read 2 ;;
  let mts_filename := mts_name (from_bytes id) in
  sep <- read 1 ;;
  assert (bytes_eqb sep [x1e]) ;;;
  y <- read 2 ;;
  year <- lift (Packed.decode y) ;;
  month <- read_field ;;
  day <- read_field ;;
  hour <- read_field ;;
  minute <- read_field ;;
  second <- read_field ;;
  dt <- lift (Datetime.make year month day hour minute second) ;;
  dt <- match Dict.get mts_filename tz with
        | Some off =>
            tzi <- lift (timezone off) ;; ret (replace_tzinfo dt (Some tzi))
        | None => ret dt
        end ;;
  kind <- read 2 ;;
  assert (is_kind_marker kind) ;;;
  stamp <- read 10 ;;
  assert (bytes_eqb stamp (date_stamp dt)) ;;;
  ret (mts_filename, mkMtsInfo timestamp_seek_pos dt false).

Fixpoint read_records (num_desc : nat) (tz : tz_dict_t)
         (db : Dict.t MtsInfo) : io (Dict.t MtsInfo) :=
  match num_desc with
  | O => ret db
  | S n =>
      r <- read_record tz ;;
      read_records n tz (Dict.set (fst r) (snd r) db)
  end.

(** The [with open(self.filepath, "rb")] block of [MplFile.read]. *)
Definition read_playlist (tz : tz_dict_t) (db : Dict.t MtsInfo)
  : io (Dict.t MtsInfo) :=
  sig <- read (List.length SIGNATURE) ;;
  (if bytes_eqb sig SIGNATURE then ret tt else raise MplFileException) ;;;
  seek_cur (66 - Z.of_nat (List.length SIGNATURE) - 1) ;;;
  r <- read 1 ;;
  (if (List.length r =? 1)%nat then ret tt else raise MplFileException) ;;;
  num_desc <- lift (ord r) ;;
  seek_end (- 50 - 66 * num_desc - 36 + 2) ;;;
  read_records (Z.to_nat num_desc) tz db.

(** [MplFile.read]: the object as [__init__] leaves it ([db] and
    [tz_dict] empty) filled from the two files.  The files are only
    read. *)
Definition MplFile_read (self : MplFile) (fs : files) : result MplFile :=
  let tz := match sidecar fs with Some d => d | None => tz_dict self end in
  match playlist fs with
  | None => Raise OSError
  | Some bytes =>
      match read_playlist tz (db self) (mkhandle bytes 0) with
      | (Ok db', _) => Ok (mkMplFile db' tz)
      | (Raise e, _) => Raise e
      end
  end.

(** [MplFile(filepath)] *)
Definition MplFile_init (fs : files) : result MplFile :=
  MplFile_read (mkMplFile [] []) fs.

(** The bytes written for one dirty record, from the [f.seek] to the
    date stamp. *)
Definition write_record (mts_filename : string) (info : MtsInfo) : io unit :=
  seek (seek_pos info) ;;;
  let dt := getitem info in
  id <- read 2 ;;
  n <- lift (int_of_str 10 (drop_last4 mts_filename)) ;;
  expected <- lift (to_bytes 2 n) ;;
  assert (bytes_eqb id expected) ;;;
  sep <- read 1 ;;
  assert (bytes_eqb sep [x1e]) ;;;
  y <- lift (Packed.encode_year (year dt)) ;;
  write y ;;;
  (b <- lift (Packed.encode_field (month dt)) ;; write b) ;;;
  (b <- lift (Packed.encode_field (day dt)) ;; write b) ;;;
  (b <- lift (Packed.encode_field (hour dt)) ;; write b) ;;;
  (b <- lift (Packed.encode_field (minute dt)) ;; write b) ;;;
  (b <- lift (Packed.encode_field (second dt)) ;; write b) ;;;
  kind <- read 2 ;;
  assert (is_kind_marker kind) ;;;
  write (date_stamp dt).

(** The update of [self.tz_dict] for a written record. *)
Definition update_tz (mts_filename : string) (dt : datetime)
           (tz : tz_dict_t) : tz_dict_t :=
  match tzinfo dt with
  | None => Dict.pop mts_filename tz
  | Some off => Dict.set mts_filename off tz
  end.

(** The state a write pass works on: the open playlist and the two
    dictionaries of the object.  The records are objects held by [db]:
    clearing a flag changes the binding in place. *)
Record wstate : Type := mkwstate {
  w_file : handle;
  w_db : Dict.t MtsInfo;
  w_tz : tz_dict_t
}.

(** The [for mts_filename, info in self.db.items()] loop of
    [MplFile.write], over the bindings still to visit.  It returns the
    exception that ended it, if any, and the state reached. *)
Fixpoint write_loop (items : list (string * MtsInfo)) (st : wstate)
  : option exn * wstate :=
  match items with
  | [] => (None, st)
  | (mts_filename, info) :: rest =>
      if negb (dirty info) then write_loop rest st
      else
        match write_record mts_filename info (w_file st) with
        | (Raise e, h) => (Some e, mkwstate h (w_db st) (w_tz st))
        | (Ok _, h) =>
            write_loop rest
              (mkwstate h
                 (Dict.set mts_filename (clear_dirty info) (w_db st))
                 (update_tz mts_filename (getitem info) (w_tz st)))
        end
  end.

(** [MplFile.write]: the result, the object and the files afterwards. *)
Definition MplFile_write (self : MplFile) (fs : files)
  : result unit * MplFile * files :=
  if negb (existsb (fun kv => dirty (snd kv)) (db self))
  then (Ok tt, self, fs)
  else
    match playlist fs with
    | None => (Raise OSError, self, fs)
    | Some bytes =>
        match write_loop (db self) (mkwstate (mkhandle bytes 0) (db self) (tz_dict self)) with
        | (Some e, st) =>
            (Raise e, mkMplFile (w_db st) (w_tz st),
             mkfiles (Some (data (w_file st))) (sidecar fs))
        | (None, st) =>
            (Ok tt, mkMplFile (w_db st) (w_tz st),
             mkfiles (Some (data (w_file st))) (Some (w_tz st)))
        end
    end.

End MplExtract.

(* ===================================================================== *)
(** * Sample playlist files *)
(* ===================================================================== *)

Module Samples.

Import MplExtract.

(** One 66-byte clip descriptor for clip number [id] stamped [dt]. *)
Definition descriptor (id : Z) (dt : datetime) : list byte :=
  repeat x00 36 ++ time_stamp_sig
  ++ [byte_of_Z (id / 256); byte_of_Z id] ++ [x1e]
  ++ [byte_of_Z (16 * (year dt / 1000) + year dt / 100 mod 10);
      byte_of_Z (16 * (year dt / 10 mod 10) + year dt mod 10);
      byte_of_Z (16 * (month dt / 10) + month dt mod 10);
      byte_of_Z (16 * (day dt / 10) + day dt mod 10);
      byte_of_Z (16 * (hour dt / 10) + hour dt mod 10);
      byte_of_Z (16 * (minute dt / 10) + minute dt mod 10);
      byte_of_Z (16 * (second dt / 10) + second dt mod 10)]
  ++ [x90; x0a] ++ date_stamp dt.

(** A playlist of the given descriptors: the 66-byte header whose last
    byte counts them, the descriptors, and 84 trailing bytes. *)
Definition playlist_of (ds : list (list byte)) : list byte :=
  SIGNATURE ++ repeat x00 57 ++ [byte_of_Z (Z.of_nat (List.length ds))]
  ++ List.concat ds ++ repeat x00 84.

Definition t1 : datetime := mkdatetime 2021 6 1 10 0 0 0 None.
Definition t2 : datetime := mkdatetime 2021 6 2 11 30 15 0 None.

Definition two_clips : list byte :=
  playlist_of [descriptor 127 t1; descriptor 128 t2].

Definition two_clips_files : files := mkfiles (Some two_clips) None.

(** Both clips as decoded from [two_clips], then shifted two hours back:
    both records are dirty. *)
Definition both_dirty : MplFile :=
  mkMplFile
    [("00127.MTS", setitem (mkMtsInfo 110 t1 false) (mkdatetime 2021 6 1 8 0 0 0 None));
     ("00128.MTS", setitem (mkMtsInfo 176 t2 false) (mkdatetime 2021 6 2 9 30 15 0 None))]
    [].

(** The playlist after something else rewrote it: the second descriptor
    now belongs to clip 129. *)
Definition second_changed : list byte :=
  playlist_of [descriptor 127 t1; descriptor 129 t2].

End Samples.

Example read_two_clips :
  MplExtract.MplFile_init Samples.two_clips_files
  = Ok (MplExtract.mkMplFile
          [("00127.MTS", MplExtract.mkMtsInfo 110 Samples.t1 false);
           ("00128.MTS", MplExtract.mkMtsInfo 176 Samples.t2 false)] []).
Proof. vm_compute. reflexivity. Qed.

(* ===================================================================== *)
(** * MplFile.write: dirty flags *)
(* ===================================================================== *)

Module MplFacts.

Import File MplExtract.

Definition keys {V} (d : Dict.t V) : list string := map fst d.

(** A record as a completed write of it leaves it. *)
Definition clean (kv : string * MtsInfo) : string * MtsInfo :=
  (fst kv, clear_dirty (snd kv)).

Definition any_dirty (d : Dict.t MtsInfo) : bool :=
  existsb (fun kv => dirty (snd kv)) d.

Lemma clear_dirty_id i : dirty i = false -> clear_dirty i = i.
Proof. destruct i as [p t d]; simpl; intros ->; reflexivity. Qed.

Lemma clean_id kv : dirty (snd kv) = false -> clean kv = kv.
Proof.
  destruct kv as [k i]; unfold clean; simpl; intros H.
  now rewrite clear_dirty_id.
Qed.

Lemma keys_clean d : keys (map clean d) = keys d.
Proof. unfold keys. rewrite map_map. reflexivity. Qed.

Lemma set_fresh_prefix {V} k (v v0 : V) pre post :
  ~ In k (keys pre) ->
  Dict.set k v (pre ++ (k, v0) :: post) = pre ++ (k, v) :: post.
Proof.
  induction pre as [|[k' v'] pre IH]; simpl; intros Hk.
  - now rewrite String.eqb_refl.
  - destruct (String.eqb_spec k k') as [->|Hne]; [tauto|].
    f_equal. apply IH. tauto.
Qed.

Lemma map_clean_none_dirty d : any_dirty d = false -> map clean d = d.
Proof.
  induction d as [|kv d IH]; simpl; [reflexivity|].
  intros H. apply orb_false_elim in H. destruct H as [H1 H2].
  rewrite clean_id by assumption. now rewrite IH.
Qed.

(** The state of the flags through the loop: the records visited so far
    are clean, the others are as they were. *)
Lemma write_loop_flags items : forall pre st e st',
  NoDup (keys (pre ++ items)) ->
  w_db st = map clean pre ++ items ->
  write_loop items st = (e, st') ->
  match e with
  | None => w_db st' = map clean (pre ++ items)
  | Some _ =>
      exists mid name info post,
        items = mid ++ (name, info) :: post /\ dirty info = true
        /\ w_db st' = map clean (pre ++ mid) ++ (name, info) :: post
  end.
Proof.
  induction items as [|[name info] rest IH]; intros pre st e st' Hnd Hdb Hw.
  - simpl in Hw. inversion Hw; subst. now rewrite Hdb, !app_nil_r.
  - simpl in Hw.
    assert (Hsplit : pre ++ (name, info) :: rest = (pre ++ [(name, info)]) ++ rest)
      by now rewrite <- app_assoc.
    assert (Hfresh : ~ In name (keys (map clean pre))).
    { rewrite keys_clean. unfold keys in *. rewrite map_app in Hnd.
      simpl in Hnd. apply NoDup_remove_2 in Hnd.
      intros Hin. apply Hnd. apply in_or_app. now left. }
    assert (Hlift : forall st1,
               w_db st1 = map clean (pre ++ [(name, info)]) ++ rest ->
               write_loop rest st1 = (e, st') ->
               match e with
               | None => w_db st' = map clean (pre ++ (name, info) :: rest)
               | Some _ =>
                   exists mid name0 info0 post,
                     (name, info) :: rest = mid ++ (name0, info0) :: post
                     /\ dirty info0 = true
                     /\ w_db st' = map clean (pre ++ mid) ++ (name0, info0) :: post
               end).
    { intros st1 Hdb1 Hw1.
      specialize (IH (pre ++ [(name, info)]) st1 e st').
      rewrite <- Hsplit in IH. specialize (IH Hnd Hdb1 Hw1).
      destruct e as [ex|]; [|exact IH].
      destruct IH as (mid & n & i & post & -> & Hdi & Hst).
      exists ((name, info) :: mid), n, i, post.
      repeat split; try assumption.
      rewrite Hst. rewrite <- app_assoc. reflexivity. }
    destruct (dirty info) eqn:Hd; simpl in Hw.
    + destruct (write_record name info (w_file st)) as [[u|ex] h] eqn:Hr.
      * apply Hlift in Hw; [exact Hw|]. simpl.
        rewrite Hdb, set_fresh_prefix by assumption.
        rewrite map_app. simpl. rewrite <- app_assoc. reflexivity.
      * inversion Hw; subst. simpl.
        exists [], name, info, rest. rewrite app_nil_r. repeat split; assumption.
    + apply Hlift in Hw; [exact Hw|].
      rewrite map_app. simpl. rewrite clean_id by assumption.
      rewrite <- app_assoc. exact Hdb.
Qed.

(** ** Writing one record *)

Lemma nth_error_overwrite_out d p bs i :
  (p <= List.length d)%nat -> (i < p \/ p + List.length bs <= i)%nat ->
  nth_error (overwrite d p bs) i = nth_error d i.
Proof.
  intros Hp Hi. unfold overwrite.
  replace (p - List.length d)%nat with 0%nat by lia. simpl.
  destruct Hi as [Hi|Hi].
  - rewrite nth_error_app1 by (rewrite length_firstn; lia).
    rewrite nth_error_firstn.
    destruct (Nat.ltb_spec i p); [reflexivity|lia].
  - rewrite nth_error_app2 by (rewrite length_firstn; lia).
    rewrite nth_error_app2 by (rewrite length_firstn; lia).
    rewrite nth_error_skipn. f_equal. rewrite length_firstn. lia.
Qed.

Lemma length_overwrite d p bs :
  (p <= List.length d)%nat ->
  List.length (overwrite d p bs) = Nat.max (List.length d) (p + List.length bs).
Proof.
  intros Hp. unfold overwrite.
  replace (p - List.length d)%nat with 0%nat by lia. simpl.
  rewrite !length_app, length_firstn, length_skipn. lia.
Qed.

Lemma firstn_skipn_ext (d d' : list byte) p n :
  (forall i, (p <= i < p + n)%nat -> nth_error d' i = nth_error d i) ->
  firstn n (skipn p d') = firstn n (skipn p d).
Proof.
  intros H. apply nth_error_ext. intros j.
  rewrite !nth_error_firstn, !nth_error_skipn.
  destruct (Nat.ltb_spec j n); [|reflexivity]. apply H. lia.
Qed.

Lemma to_bytes_length len n bs : to_bytes len n = Ok bs -> List.length bs = len.
Proof.
  unfold to_bytes. destruct (_ && _); [|discriminate].
  intros H. inversion H; subst. clear H.
  assert (G : forall l n acc, List.length (to_bytes_loop l n acc) = (l + List.length acc)%nat).
  { induction l; intros; simpl; [reflexivity|]. rewrite IHl. simpl. lia. }
  rewrite G. simpl. lia.
Qed.

Lemma encode_year_length v bs : Packed.encode_year v = Ok bs -> List.length bs = 2%nat.
Proof.
  unfold Packed.encode_year, Py.bind. destruct (int_of_str 16 _); [|discriminate].
  apply to_bytes_length.
Qed.

Lemma encode_field_length v bs : Packed.encode_field v = Ok bs -> List.length bs = 1%nat.
Proof.
  unfold Packed.encode_field, Py.bind. destruct (int_of_str 16 _); [|discriminate].
  unfold bytes1. destruct (_ && _); [|discriminate]. intros H; inversion H; reflexivity.
Qed.

(** The clip id and the separator at the anchor of a record are those the
    record expects. *)
Definition anchor_ok (name : string) (info : MtsInfo) (d : list byte) : bool :=
  match int_of_str 10 (drop_last4 name) with
  | Ok n =>
      match to_bytes 2 n with
      | Ok expected =>
          bytes_eqb (firstn 2 (skipn (seek_pos info) d)) expected
          && bytes_eqb (firstn 1 (skipn (seek_pos info + 2) d)) [x1e]
      | Raise _ => false
      end
  | Raise _ => false
  end.

(** The kind marker of a record is one of the two known ones. *)
Definition kind_ok (info : MtsInfo) (d : list byte) : bool :=
  is_kind_marker (firstn 2 (skipn (seek_pos info + 10) d)).

(** The offsets a write of the record leaves alone: all but the seven
    timestamp bytes and the ten bytes of the date stamp. *)
Definition outside (info : MtsInfo) (i : nat) : Prop :=
  (i < seek_pos info + 3 \/ seek_pos info + 10 <= i < seek_pos info + 12
   \/ seek_pos info + 22 <= i)%nat.


(** The fields of a datetime object are in range (the constructor sees
    to it). *)
Definition wf_datetime (t : datetime) : bool :=
  valid_fields (year t) (month t) (day t) (hour t) (minute t) (second t) (microsecond t).

Definition stamp_len_ok (y : Z) : bool := (String.length (format_wd 4 y) =? 4)%nat.
Definition field_len_ok (y : Z) : bool := (String.length (format_wd 2 y) =? 2)%nat.

Lemma stamp_year_checked : forallb stamp_len_ok (map Z.of_nat (seq 0 (Z.to_nat 10000))) = true.
Proof. vm_compute. reflexivity. Qed.
Lemma stamp_field_checked : forallb field_len_ok (map Z.of_nat (seq 0 (Z.to_nat 100))) = true.
Proof. vm_compute. reflexivity. Qed.

Lemma length_encode_ascii s : List.length (encode_ascii s) = String.length s.
Proof.
  unfold encode_ascii. rewrite length_map.
  induction s; simpl; congruence.
Qed.

Lemma string_length_append a b : String.length (a ++ b)%string = (String.length a + String.length b)%nat.
Proof. induction a; simpl; congruence. Qed.

Lemma date_stamp_length t : wf_datetime t = true -> List.length (date_stamp t) = 10%nat.
Proof.
  unfold wf_datetime, valid_fields. intros H.
  repeat (apply andb_prop in H; destruct H as [H ?]).
  repeat match goal with X : (_ <=? _) = true |- _ => apply Z.leb_le in X end.
  assert (Hd : day t <= 31).
  { assert (days_in_month (year t) (month t) <= 31); [|lia].
    unfold days_in_month. destruct (_ && _); [lia|].
    assert (Hm : month t = 1 \/ month t = 2 \/ month t = 3 \/ month t = 4 \/ month t = 5 \/ month t = 6
            \/ month t = 7 \/ month t = 8 \/ month t = 9 \/ month t = 10 \/ month t = 11 \/ month t = 12) by lia.
    repeat (destruct Hm as [->|Hm]; [simpl; lia|]). rewrite Hm. simpl. lia. }
  unfold date_stamp. rewrite length_encode_ascii, !string_length_append.
  pose proof (forallb_range _ _ stamp_year_checked (year t)) as Hy.
  pose proof (forallb_range _ _ stamp_field_checked (month t)) as Hm.
  pose proof (forallb_range _ _ stamp_field_checked (day t)) as Hdd.
  unfold stamp_len_ok in Hy. unfold field_len_ok in Hm, Hdd.
  rewrite Nat.eqb_eq in Hy, Hm, Hdd.
  rewrite Hy, Hm, Hdd by lia. reflexivity.
Qed.

Lemma kind_marker_length bs : is_kind_marker bs = true -> List.length bs = 2%nat.
Proof.
  unfold is_kind_marker, kind_markers. simpl. rewrite orb_false_r.
  intros H. apply orb_prop in H. destruct H as [H|H]; apply bytes_eqb_eq in H; subst; reflexivity.
Qed.

Section WriteRecord.
Variable d : list byte.
Variable sp : nat.

(** The file after [k] bytes of the timestamp have been written. *)
Definition written (k : nat) (h : handle) : Prop :=
  pos h = (sp + 3 + k)%nat /\ (sp + 3 + k <= List.length (data h))%nat
  /\ forall i, (i < sp + 3 \/ sp + 3 + k <= i)%nat -> nth_error (data h) i = nth_error d i.

Lemma written_write k h bs :
  written k h ->
  written (k + List.length bs) (mkhandle (overwrite (data h) (pos h) bs) (pos h + List.length bs)).
Proof.
  intros (Hp & Hl & Hf). unfold written. cbn [data pos].
  split; [lia|]. split.
  - rewrite length_overwrite by lia. lia.
  - intros i Hi. rewrite nth_error_overwrite_out by lia. apply Hf. lia.
Qed.
End WriteRecord.

Lemma lift_write_bind {A} (c : result (list byte)) (k : io A) h :
  ((b <- lift c ;; write b) ;;; k)%io h
  = match c with
    | Ok bs => k (mkhandle (overwrite (data h) (pos h) bs) (pos h + List.length bs))
    | Raise e => (Raise e, h)
    end.
Proof. unfold File.bind, lift, write. destruct c; reflexivity. Qed.

Lemma lift_write_bind' {A} (c : result (list byte)) (k : io A) h :
  (b <- lift c ;; write b ;;; k)%io h
  = match c with
    | Ok bs => k (mkhandle (overwrite (data h) (pos h) bs) (pos h + List.length bs))
    | Raise e => (Raise e, h)
    end.
Proof. unfold File.bind, lift, write. destruct c; reflexivity. Qed.

Lemma write_record_spec name info h :
  wf_datetime (info_datetime info) = true ->
  forall r h', write_record name info h = (r, h') ->
  (forall i, outside info i -> nth_error (data h') i = nth_error (data h) i)
  /\ (anchor_ok name info (data h) = false -> (exists e, r = Raise e) /\ data h' = data h)
  /\ (kind_ok info (data h) = false -> exists e, r = Raise e).
Proof.
  intros Hwf r h'. unfold write_record.
  unfold File.bind at 1. unfold seek, seek_to.
  destruct (Z.ltb_spec (Z.of_nat (seek_pos info)) 0) as [Hneg|_]; [lia|].
  rewrite Nat2Z.id.
  unfold File.bind at 1. unfold read at 1. cbn [data pos].
  set (id := firstn 2 (skipn (seek_pos info) (data h))).
  unfold File.bind at 1. unfold lift at 1.
  unfold anchor_ok. fold id.
  destruct (int_of_str 10 (drop_last4 name)) as [n|e] eqn:En.
  2:{ intros X; inversion X; subst; simpl. repeat split; eauto. }
  unfold File.bind at 1. unfold lift at 1.
  destruct (to_bytes 2 n) as [expected|e] eqn:Ee.
  2:{ intros X; inversion X; subst; simpl. repeat split; eauto. }
  unfold File.bind at 1. unfold File.assert at 1, lift at 1, Py.assert at 1.
  destruct (bytes_eqb id expected) eqn:Eid.
  2:{ intros X; inversion X; subst; simpl. repeat split; eauto. }
  apply bytes_eqb_eq in Eid.
  assert (Lid : List.length id = 2%nat) by (rewrite Eid; eapply to_bytes_length; eauto).
  rewrite Lid.
  unfold File.bind at 1. unfold read at 1. cbn [data pos].
  set (sep := firstn 1 (skipn (seek_pos info + 2) (data h))).
  unfold File.bind at 1. unfold File.assert at 1, lift at 1, Py.assert at 1.
  cbn [andb].
  destruct (bytes_eqb sep [x1e]) eqn:Esep.
  2:{ intros X; inversion X; subst; simpl. repeat split; eauto. }
  apply bytes_eqb_eq in Esep.
  assert (Lsep : List.length sep = 1%nat) by (rewrite Esep; reflexivity).
  rewrite Lsep.
  assert (Hlen : (seek_pos info + 3 <= List.length (data h))%nat).
  { unfold sep in Lsep. rewrite length_firstn, length_skipn in Lsep. lia. }
  assert (Hw : written (data h) (seek_pos info) 0
                 (mkhandle (data h) (seek_pos info + 2 + 1))).
  { unfold written; cbn [data pos]. repeat split; try lia. }
  remember (mkhandle (data h) (seek_pos info + 2 + 1)) as h0 eqn:Eh0. clear Eh0.
  clear id sep Eid Lid Esep Lsep En Ee.
  assert (Hraise : forall k e h1, (k <= 7)%nat ->
             written (data h) (seek_pos info) k h1 ->
             (Raise e, h1) = (r, h') ->
             (forall i, outside info i -> nth_error (data h') i = nth_error (data h) i)
             /\ (true = false -> (exists e, r = Raise e) /\ data h' = data h)
             /\ (kind_ok info (data h) = false -> exists e, r = Raise e)).
  { intros k e h1 Hk (Hp & Hl & Hf) X. inversion X; subst.
    split; [|split; [discriminate|eauto]].
    intros i Hi. apply Hf. unfold outside in Hi. lia. }
  rewrite lift_write_bind'.
  destruct (Packed.encode_year _) as [bs|e] eqn:E; [|apply (Hraise 0%nat); [lia|assumption]].
  apply encode_year_length in E.
  apply (written_write _ _ _ _ bs) in Hw. rewrite E in *.
  remember (mkhandle _ _) as h1 eqn:Eh in Hw |- *. clear Eh h0 bs E.
  do 5 (rewrite lift_write_bind;
        match goal with |- context [match ?c with Ok _ => _ | Raise _ => _ end] =>
          destruct c as [bs|e] eqn:E end;
        [|eapply Hraise; [|eassumption]; simpl; lia];
        apply encode_field_length in E;
        apply (written_write _ _ _ _ bs) in Hw; rewrite E in *;
        match goal with |- context [mkhandle ?dd ?pp] =>
          let h2 := fresh "h" in
          remember (mkhandle dd pp) as h2 eqn:Eh in Hw |- *; clear Eh end;
        clear bs E).
  simpl in Hw. destruct Hw as (Hp & Hl & Hf).
  unfold File.bind at 1. unfold read at 1.
  assert (Ek : firstn 2 (skipn (pos h5) (data h5))
               = firstn 2 (skipn (seek_pos info + 10) (data h))).
  { rewrite Hp. replace (seek_pos info + 3 + 7)%nat with (seek_pos info + 10)%nat by lia.
    apply firstn_skipn_ext. intros i Hi. apply Hf. lia. }
  rewrite Ek. unfold kind_ok.
  set (kind := firstn 2 (skipn (seek_pos info + 10) (data h))).
  unfold File.bind at 1. unfold File.assert at 1, lift at 1, Py.assert at 1.
  destruct (is_kind_marker kind) eqn:Ekind.
  2:{ intros X; inversion X; subst. cbn [data].
      split; [|split; [discriminate|eauto]].
      intros i Hi. apply Hf. unfold outside in Hi. lia. }
  apply kind_marker_length in Ekind.
  assert (Hl12 : (seek_pos info + 12 <= List.length (data h5))%nat).
  { assert (List.length (firstn 2 (skipn (pos h5) (data h5))) = 2%nat) by (rewrite Ek; exact Ekind).
    rewrite length_firstn, length_skipn in H. lia. }
  unfold write. cbn [data pos]. intros X; inversion X; subst. cbn [data].
  split; [|split; [discriminate|discriminate]].
  intros i Hi. rewrite nth_error_overwrite_out.
  - apply Hf. unfold outside in Hi. lia.
  - rewrite Ekind. lia.
  - rewrite Ekind, date_stamp_length by assumption. unfold outside in Hi. lia.
Qed.

(** ** The write loop *)

(** The offsets a write of the record reads to verify it. *)
Definition checked (info : MtsInfo) (i : nat) : Prop :=
  (seek_pos info <= i < seek_pos info + 3
   \/ seek_pos info + 10 <= i < seek_pos info + 12)%nat.

(** A record whose verified bytes are all as expected. *)
Definition intact (name : string) (info : MtsInfo) (d : list byte) : bool :=
  anchor_ok name info d && kind_ok info d.

(** Every record of the dictionary holds a datetime with fields in range. *)
Definition wf_db (d : Dict.t MtsInfo) : Prop :=
  Forall (fun kv => wf_datetime (info_datetime (snd kv)) = true) d.

Lemma intact_ext name info d d' :
  (forall i, checked info i -> nth_error d' i = nth_error d i) ->
  intact name info d' = intact name info d.
Proof.
  intros H. unfold intact, anchor_ok, kind_ok.
  rewrite (firstn_skipn_ext d d' (seek_pos info) 2)
    by (intros i Hi; apply H; unfold checked; lia).
  rewrite (firstn_skipn_ext d d' (seek_pos info + 2) 1)
    by (intros i Hi; apply H; unfold checked; lia).
  rewrite (firstn_skipn_ext d d' (seek_pos info + 10) 2)
    by (intros i Hi; apply H; unfold checked; lia).
  reflexivity.
Qed.

Lemma write_loop_frame items : forall st e st',
  wf_db items ->
  write_loop items st = (e, st') ->
  forall i,
    (forall name info, In (name, info) items -> dirty info = true -> outside info i) ->
    nth_error (data (w_file st')) i = nth_error (data (w_file st)) i.
Proof.
  induction items as [|[name info] rest IH]; intros st e st' Hwf Hw i Hi.
  - simpl in Hw. inversion Hw; reflexivity.
  - simpl in Hw. inversion Hwf as [|? ? Hwf1 Hwf2]; subst. simpl in Hwf1.
    destruct (dirty info) eqn:Hd; simpl in Hw.
    + destruct (write_record name info (w_file st)) as [[u|ex] h] eqn:Hr.
      * destruct (write_record_spec _ _ _ Hwf1 _ _ Hr) as (Hf & _).
        rewrite (IH _ _ _ Hwf2 Hw i) by (intros n' i' Hin' Hd'; apply (Hi n' i'); [now right|assumption]).
        simpl. apply Hf. apply (Hi name info); [now left|assumption].
      * destruct (write_record_spec _ _ _ Hwf1 _ _ Hr) as (Hf & _).
        inversion Hw; subst. simpl. apply Hf. apply (Hi name info); [now left|assumption].
    + apply (IH _ _ _ Hwf2 Hw). intros n' i' Hin' Hd'; apply (Hi n' i'); [now right|assumption].
Qed.

Lemma write_loop_refuses items : forall st e st',
  wf_db items ->
  write_loop items st = (e, st') ->
  forall name info,
    In (name, info) items -> dirty info = true ->
    intact name info (data (w_file st)) = false ->
    (forall name' info', In (name', info') items -> dirty info' = true ->
       forall i, checked info i -> outside info' i) ->
    exists ex, e = Some ex.
Proof.
  induction items as [|[n0 i0] rest IH]; intros st e st' Hwf Hw name info Hin Hd Hbad Hsep.
  - contradiction.
  - simpl in Hw. inversion Hwf as [|? ? Hwf1 Hwf2]; subst. simpl in Hwf1.
    destruct (dirty i0) eqn:Hd0; simpl in Hw.
    + destruct (write_record n0 i0 (w_file st)) as [[u|ex] h] eqn:Hr.
      * destruct (write_record_spec _ _ _ Hwf1 _ _ Hr) as (Hf & Ha & Hk).
        destruct Hin as [Heq|Hin].
        -- inversion Heq; subst. unfold intact in Hbad.
           apply andb_false_iff in Hbad. destruct Hbad as [Hb|Hb].
           ++ destruct (Ha Hb) as [[ex Hex] _]. discriminate.
           ++ destruct (Hk Hb) as [ex Hex]. discriminate.
        -- apply (IH _ _ _ Hwf2 Hw name info Hin Hd).
           ++ simpl. rewrite (intact_ext name info (data (w_file st))); [assumption|].
              intros i Hi. apply Hf. apply (Hsep n0 i0); [now left|assumption|assumption].
           ++ intros n' i' Hin' Hd' i Hi; apply (Hsep n' i'); [now right|assumption|assumption].
      * inversion Hw; subst. eauto.
    + destruct Hin as [Heq|Hin]; [inversion Heq; subst; congruence|].
      apply (IH _ _ _ Hwf2 Hw name info Hin Hd Hbad).
      intros n' i' Hin' Hd' i Hi; apply (Hsep n' i'); [now right|assumption|assumption].
Qed.

(** ** Reading leaves every record clean *)

Lemma bind_ok {A B} (c : io A) (k : A -> io B) h b h' :
  File.bind c k h = (Ok b, h') ->
  exists a h1, c h = (Ok a, h1) /\ k a h1 = (Ok b, h').
Proof.
  unfold File.bind. destruct (c h) as [[a|e] h1]; [eauto|discriminate].
Qed.

Ltac bind_inv H :=
  repeat (apply bind_ok in H;
          let a := fresh "a" in let h := fresh "h" in let E := fresh "E" in
          destruct H as (a & h & E & H)).

Lemma read_record_clean tz h r h' :
  read_record tz h = (Ok r, h') -> dirty (snd r) = false.
Proof.
  unfold read_record. intros H. bind_inv H.
  unfold ret in H. inversion H; subst. reflexivity.
Qed.

Lemma any_dirty_set k v d :
  any_dirty d = false -> dirty v = false -> any_dirty (Dict.set k v d) = false.
Proof.
  intros Hd Hv. induction d as [|[k' v'] d IH]; simpl in *.
  - now rewrite Hv.
  - apply orb_false_elim in Hd. destruct Hd as [H1 H2].
    destruct (String.eqb k k'); simpl.
    + now rewrite Hv, H2.
    + now rewrite H1, IH.
Qed.

Lemma read_records_clean n tz : forall db h db' h',
  any_dirty db = false ->
  read_records n tz db h = (Ok db', h') -> any_dirty db' = false.
Proof.
  induction n as [|n IH]; intros db h db' h' Hd H; simpl in H.
  - unfold ret in H. inversion H; subst; assumption.
  - apply bind_ok in H. destruct H as (r & h1 & Hr & H).
    apply (IH _ _ _ _ (any_dirty_set _ _ _ Hd (read_record_clean _ _ _ _ Hr)) H).
Qed.

Lemma init_clean fs self : MplFile_init fs = Ok self -> any_dirty (db self) = false.
Proof.
  unfold MplFile_init, MplFile_read. simpl.
  destruct (playlist fs) as [bytes|]; [|discriminate].
  destruct (read_playlist _ _ _) as [[db'|e] h'] eqn:E; [|discriminate].
  intros H; inversion H; subst; simpl.
  unfold read_playlist in E. bind_inv E.
  eapply read_records_clean; [|exact E]. reflexivity.
Qed.

End MplFacts.

Import MplExtract MplFacts.

(** C6. A write touches the playlist only at the offsets recorded for the
    dirty records: whatever the outcome, every byte outside the seven
    timestamp bytes and the ten date-stamp bytes of the dirty records is
    unchanged.  The clip id and the separator at the anchor of a dirty
    record are checked against the current contents before any of its bytes
    is written: when they do not match, writing the record raises and
    leaves the contents as they are.  And whenever the id, the separator or
    the kind marker of some dirty record no longer matches the file (no
    other dirty record being written over those bytes), the write raises. *)
Theorem write_refuses_changed_file
  (self : MplFile) (bytes : list byte) (sc : option tz_dict_t)
  (r : result unit) (self' : MplFile) (fs' : files) :
  wf_db (db self) ->
  MplFile_write self (mkfiles (Some bytes) sc) = (r, self', fs') ->
  exists bytes',
    playlist fs' = Some bytes'
    /\ (forall i,
          (forall name info, In (name, info) (db self) -> dirty info = true ->
             outside info i) ->
          nth_error bytes' i = nth_error bytes i)
    /\ (forall name info, In (name, info) (db self) -> dirty info = true ->
          forall h, anchor_ok name info (File.data h) = false ->
            exists e, fst (write_record name info h) = Raise e
                      /\ File.data (snd (write_record name info h)) = File.data h)
    /\ (forall name info, In (name, info) (db self) -> dirty info = true ->
          intact name info bytes = false ->
          (forall name' info', In (name', info') (db self) -> dirty info' = true ->
             forall i, checked info i -> outside info' i) ->
          exists e, r = Raise e).
Proof.
  intros Hwf Hw. unfold MplFile_write in Hw. cbn [playlist sidecar] in Hw.
  assert (Hrec : forall name info, In (name, info) (db self) -> dirty info = true ->
            forall h, anchor_ok name info (File.data h) = false ->
              exists e, fst (write_record name info h) = Raise e
                        /\ File.data (snd (write_record name info h)) = File.data h).
  { intros name info Hin Hd h Hbad.
    assert (Hwfi : wf_datetime (info_datetime info) = true).
    { unfold wf_db in Hwf. rewrite Forall_forall in Hwf. apply (Hwf (name, info) Hin). }
    destruct (write_record name info h) as [r0 h0] eqn:Hr.
    destruct (write_record_spec _ _ _ Hwfi _ _ Hr) as (_ & Ha & _).
    destruct (Ha Hbad) as [[e He] Hdata]. exists e. simpl. now split. }
  destruct (negb (existsb _ (db self))) eqn:Hany.
  - injection Hw as Hr Hs Hf; subst r self' fs'. exists bytes. cbn [playlist]. repeat split; auto.
    intros name info Hin Hd. exfalso.
    apply negb_true_iff in Hany.
    assert (existsb (fun kv => dirty (snd kv)) (db self) = true); [|congruence].
    apply existsb_exists. exists (name, info). now split.
  - destruct (write_loop (db self) _) as [e st] eqn:Hl.
    pose proof (write_loop_frame _ _ _ _ Hwf Hl) as Hframe.
    pose proof (write_loop_refuses _ _ _ _ Hwf Hl) as Hrefuse.
    cbn [w_file File.data] in Hframe, Hrefuse.
    exists (File.data (w_file st)).
    destruct e as [ex|]; injection Hw as Hr Hs Hf; subst r self' fs'; cbn [playlist];
      (split; [reflexivity|]); (split; [exact Hframe|]); (split; [exact Hrec|]).
    + eauto.
    + intros name info Hin Hd Hbad Hsep.
      destruct (Hrefuse name info Hin Hd Hbad Hsep) as [ex Hex]. discriminate.
Qed.

Lemma write_refuses_changed_file_witness :
  exists bytes',
    (forall i,
       (forall name info, In (name, info) (db Samples.both_dirty) ->
          dirty info = true -> outside info i) ->
       nth_error bytes' i = nth_error Samples.second_changed i)
    /\ fst (fst (MplFile_write Samples.both_dirty
                   (mkfiles (Some Samples.second_changed) None)))
       = Raise AssertionError.
Proof.
  destruct (MplFile_write Samples.both_dirty
              (mkfiles (Some Samples.second_changed) None))
    as [[r self'] fs'] eqn:Hw.
  destruct (write_refuses_changed_file Samples.both_dirty Samples.second_changed
              None r self' fs') as (bytes' & _ & Hframe & _ & Hrefuse).
  - repeat constructor.
  - exact Hw.
  - exists bytes'. split; [exact Hframe|].
    destruct (Hrefuse "00128.MTS"
                (setitem (mkMtsInfo 176 Samples.t2 false)
                         (mkdatetime 2021 6 2 9 30 15 0 None))) as [e He].
    + simpl. right. left. reflexivity.
    + reflexivity.
    + vm_compute. reflexivity.
    + intros name' info' [Hin|[Hin|[]]] _ i; inversion Hin; subst;
        unfold checked, outside; simpl; lia.
    + vm_compute in Hw. inversion Hw; subst. reflexivity.
Defined.

(** C7 as stated fails: the flag of a record is cleared inside the loop.
    With two dirty records of which the second no longer matches the file,
    the write raises and the first record, dirty before the pass, is clean
    after it. *)
Lemma write_failure_leaves_first_clean :
  fst (fst (MplFile_write Samples.both_dirty
              (mkfiles (Some Samples.second_changed) None)))
  = Raise AssertionError
  /\ option_map dirty (Dict.get "00127.MTS" (db Samples.both_dirty)) = Some true
  /\ option_map dirty
       (Dict.get "00127.MTS"
          (db (snd (fst (MplFile_write Samples.both_dirty
                           (mkfiles (Some Samples.second_changed) None))))))
     = Some false.
Proof. vm_compute. repeat split. Qed.

(** C7, amended. The dirty flag of a record is cleared as soon as that
    record has been written.  After a successful write every record is
    clean; when the write of a dirty record raises, that record and the
    ones after it keep their flags, and the records before it are clean.
    When no record is dirty the write returns at once, changing neither the
    object nor the files; this is so right after decoding. *)
Theorem write_clears_flag_per_record
  (self : MplFile) (fs : files) (r : result unit) (self' : MplFile) (fs' : files) :
  NoDup (keys (db self)) ->
  MplFile_write self fs = (r, self', fs') ->
  (any_dirty (db self) = false -> r = Ok tt /\ self' = self /\ fs' = fs)
  /\ (r = Ok tt -> db self' = map clean (db self))
  /\ (forall e, r = Raise e -> playlist fs <> None ->
        exists pre name info post,
          db self = pre ++ (name, info) :: post /\ dirty info = true
          /\ db self' = map clean pre ++ (name, info) :: post)
  /\ (forall self0, MplFile_init fs = Ok self0 ->
        MplFile_write self0 fs = (Ok tt, self0, fs)).
Proof.
  intros Hnd Hw. unfold MplFile_write in Hw. fold (any_dirty (db self)) in Hw.
  assert (Hinit : forall self0, MplFile_init fs = Ok self0 ->
                    MplFile_write self0 fs = (Ok tt, self0, fs)).
  { intros self0 H0. apply init_clean in H0. unfold MplFile_write.
    fold (any_dirty (db self0)). now rewrite H0. }
  destruct (any_dirty (db self)) eqn:Hany; simpl in Hw.
  - destruct (playlist fs) as [bytes|] eqn:Hp.
    + destruct (write_loop (db self) _) as [e st] eqn:Hl.
      assert (Hflags := Hl).
      apply (write_loop_flags (db self) []) in Hflags; [|exact Hnd|reflexivity].
      simpl in Hflags.
      destruct e as [ex|]; injection Hw as Hr Hs Hf; subst r self' fs'; cbn [db].
      * split; [discriminate|]. split; [discriminate|]. split; [|exact Hinit].
        intros e He _. exact Hflags.
      * split; [discriminate|]. split; [intros _; exact Hflags|].
        split; [discriminate|exact Hinit].
    + injection Hw as Hr Hs Hf; subst r self' fs'.
      split; [discriminate|]. split; [discriminate|].
      split; [|exact Hinit]. intros e _ Hne. now elim Hne.
  - injection Hw as Hr Hs Hf; subst r self' fs'.
    split; [auto|]. split; [intros _; symmetry; now apply map_clean_none_dirty|].
    split; [discriminate|exact Hinit].
Qed.

Lemma write_clears_flag_per_record_witness :
  exists pre name info post,
    db Samples.both_dirty = pre ++ (name, info) :: post /\ dirty info = true
    /\ db (snd (fst (MplFile_write Samples.both_dirty
                       (mkfiles (Some Samples.second_changed) None))))
       = map clean pre ++ (name, info) :: post.
Proof.
  destruct (MplFile_write Samples.both_dirty
              (mkfiles (Some Samples.second_changed) None))
    as [[r self'] fs'] eqn:Hw.
  destruct (write_clears_flag_per_record Samples.both_dirty
              (mkfiles (Some Samples.second_changed) None) r self' fs')
    as (_ & _ & Hfail & _).
  - simpl. repeat constructor; simpl; intuition discriminate.
  - exact Hw.
  - simpl. apply (Hfail AssertionError).
    + vm_compute in Hw. inversion Hw; reflexivity.
    + discriminate.
Defined.

(* ===================================================================== *)
(** * Computations on a mutable object *)
(* ===================================================================== *)

(** A computation that updates an object of type [S] in place and returns
    or raises: the object is left as the computation got it to. *)
Module St.

Definition t (S A : Type) : Type := S -> result A * S.

Definition ret {S A} (a : A) : t S A := fun s => (Ok a, s).
Definition raise {S A} (e : exn) : t S A := fun s => (Raise e, s).
Definition lift {S A} (c : result A) : t S A := fun s => (c, s).
Definition get {S} : t S S := fun s => (Ok s, s).
Definition modify {S} (f : S -> S) : t S unit := fun s => (Ok tt, f s).

Definition bind {S A B} (c : t S A) (k : A -> t S B) : t S B :=
  fun s =>
    match c s with
    | (Ok a, s') => k a s'
    | (Raise e, s') => (Raise e, s')
    end.

(** [for x in xs: body(x)] *)
Fixpoint for_each {S A} (xs : list A) (body : A -> t S unit) : t S unit :=
  match xs with
  | [] => ret tt
  | x :: xs' => bind (body x) (fun _ => for_each xs' body)
  end.

Declare Scope st_scope.
Delimit Scope st_scope with st.

Module Notations.
Notation "x <- c ;; k" := (bind c (fun x => k))
  (at level 61, c at next level, right associativity) : st_scope.
Notation "c ;;; k" := (bind c (fun _ => k))
  (at level 61, right associativity) : st_scope.
End Notations.

End St.

(* ===================================================================== *)
(** * main.py: rows, tags and the pure helpers *)
(* ===================================================================== *)

Module Main.

Import St.Notations.

(** [EXIF_TIMESTAMP_TAGS] *)
Inductive exif_tag : Type :=
| Exif_Image_DateTime
| Exif_Photo_DateTimeOriginal
| Exif_Photo_DateTimeDigitized
| Exif_Image_DateTimeOriginal
| Exif_Image_PreviewDateTime.

(** [XMP_TIMESTAMP_TAGS] *)
Inductive xmp_tag : Type :=
| Xmp_xmp_CreateDate
| Xmp_photoshop_DateCreated.

(** [IPTC_TIMESTAMP_TAGS]: each is a pair of a date tag and a time tag. *)
Inductive iptc_tag : Type :=
| Iptc_DateCreated_TimeCreated
| Iptc_DigitizationDate_DigitizationTime.

(** [QUICKTIME_TIMESTAMP_TAGS] *)
Inductive quicktime_tag : Type :=
| Quicktime_CreateDate
| Quicktime_ModifyDate
| Quicktime_TrackCreateDate
| Quicktime_TrackModifyDate
| Quicktime_MediaCreateDate
| Quicktime_MediaModifyDate.

(** [NIKON_TAGS] *)
Inductive nikon_tag : Type :=
| Nikon_TimeZone
| Nikon_DaylightSavings.

(** The columns of a row that hold a timestamp tag. *)
Inductive ts_tag : Type :=
| Exif (t : exif_tag)
| Xmp (t : xmp_tag)
| Iptc (t : iptc_tag)
| Quicktime (t : quicktime_tag)
| AVCHD_Timestamp.

Definition EXIF_TIMESTAMP_TAGS : list exif_tag :=
  [Exif_Image_DateTime; Exif_Photo_DateTimeOriginal;
   Exif_Photo_DateTimeDigitized; Exif_Image_DateTimeOriginal;
   Exif_Image_PreviewDateTime].

Definition XMP_TIMESTAMP_TAGS : list xmp_tag :=
  [Xmp_xmp_CreateDate; Xmp_photoshop_DateCreated].

Definition IPTC_TIMESTAMP_TAGS : list iptc_tag :=
  [Iptc_DateCreated_TimeCreated; Iptc_DigitizationDate_DigitizationTime].

Definition QUICKTIME_TIMESTAMP_TAGS : list quicktime_tag :=
  [Quicktime_CreateDate; Quicktime_ModifyDate; Quicktime_TrackCreateDate;
   Quicktime_TrackModifyDate; Quicktime_MediaCreateDate;
   Quicktime_MediaModifyDate].

Definition ts_tag_eq_dec (a b : ts_tag) : {a = b} + {a <> b}.
Proof. repeat decide equality. Defined.

Definition ts_tag_eqb (a b : ts_tag) : bool :=
  if ts_tag_eq_dec a b then true else false.

Definition nikon_tag_eqb (a b : nikon_tag) : bool :=
  match a, b with
  | Nikon_TimeZone, Nikon_TimeZone => true
  | Nikon_DaylightSavings, Nikon_DaylightSavings => true
  | _, _ => false
  end.

(** One row of the list store.  A column that was never set, or was set to
    [None], reads [None]. *)
Record Row : Type := mkRow {
  full_path : string;
  shortened_path : string;
  timestamp : option datetime;
  delta : option timedelta;
  mtime : option datetime;
  row_bg_colour : option string;
  Exif_Image_Model : option string;
  Exif_Image_TimeZoneOffset : option Z;
  tags : ts_tag -> option datetime;
  nikon : nikon_tag -> option string
}.

(** The row as [populate] appends it. *)
Definition new_row (f short : string) : Row :=
  mkRow f short None None None None None None (fun _ => None) (fun _ => None).

(** [row[tag_name] = value] on a timestamp column. *)
Definition set_tag (r : Row) (t : ts_tag) (v : option datetime) : Row :=
  mkRow (full_path r) (shortened_path r) (timestamp r) (delta r) (mtime r)
        (row_bg_colour r) (Exif_Image_Model r) (Exif_Image_TimeZoneOffset r)
        (fun t' => if ts_tag_eqb t' t then v else tags r t') (nikon r).

Definition set_nikon (r : Row) (t : nikon_tag) (v : option string) : Row :=
  mkRow (full_path r) (shortened_path r) (timestamp r) (delta r) (mtime r)
        (row_bg_colour r) (Exif_Image_Model r) (Exif_Image_TimeZoneOffset r)
        (tags r) (fun t' => if nikon_tag_eqb t' t then v else nikon r t').

Definition set_timestamp (r : Row) (v : option datetime) : Row :=
  mkRow (full_path r) (shortened_path r) v (delta r) (mtime r)
        (row_bg_colour r) (Exif_Image_Model r) (Exif_Image_TimeZoneOffset r)
        (tags r) (nikon r).

Definition set_delta (r : Row) (v : option timedelta) : Row :=
  mkRow (full_path r) (shortened_path r) (timestamp r) v (mtime r)
        (row_bg_colour r) (Exif_Image_Model r) (Exif_Image_TimeZoneOffset r)
        (tags r) (nikon r).

Definition set_mtime (r : Row) (v : option datetime) : Row :=
  mkRow (full_path r) (shortened_path r) (timestamp r) (delta r) v
        (row_bg_colour r) (Exif_Image_Model r) (Exif_Image_TimeZoneOffset r)
        (tags r) (nikon r).

Definition set_bg_colour (r : Row) (v : option string) : Row :=
  mkRow (full_path r) (shortened_path r) (timestamp r) (delta r) (mtime r)
        v (Exif_Image_Model r) (Exif_Image_TimeZoneOffset r)
        (tags r) (nikon r).

Definition set_model (r : Row) (v : option string) : Row :=
  mkRow (full_path r) (shortened_path r) (timestamp r) (delta r) (mtime r)
        (row_bg_colour r) v (Exif_Image_TimeZoneOffset r)
        (tags r) (nikon r).

Definition set_tz_offset (r : Row) (v : option Z) : Row :=
  mkRow (full_path r) (shortened_path r) (timestamp r) (delta r) (mtime r)
        (row_bg_colour r) (Exif_Image_Model r) v
        (tags r) (nikon r).

(** [round_datetime_to_second] *)
Definition round_datetime_to_second (ts : datetime) : result datetime :=
  if 500000 <=? microsecond ts
  then Datetime.add (replace_microsecond0 ts) (td_seconds 1)
  else Ok (replace_microsecond0 ts).

(** [timedelta(hours=h)] followed by [datetime.timezone(...)], for the
    optional integer a column holds: [None] is not a number of hours. *)
Definition timezone_of_hours (h : option Z) : result timedelta :=
  match h with
  | None => Raise TypeError
  | Some h => timezone (td_hours h)
  end.

(** [_Row.get_exif_aware_timestamp] *)
Definition get_exif_aware_timestamp (r : Row) (tag_name : exif_tag)
  : result (option datetime) :=
  match tags r (Exif tag_name) with
  | None => Ok None
  | Some ts =>
      tz <- timezone_of_hours (Exif_Image_TimeZoneOffset r) ;;
      Ok (Some (replace_tzinfo ts (Some tz)))
  end.

(** [get_timestamp] of [reload]: the generator [tries] is consumed up to
    its first value that is not [None]. *)
Definition get_timestamp (r : Row) : result (option datetime) :=
  t <- get_exif_aware_timestamp r Exif_Photo_DateTimeOriginal ;;
  match t with
  | Some _ => Ok t
  | None =>
      match tags r AVCHD_Timestamp with
      | Some t => Ok (Some t)
      | None =>
          match tags r (Quicktime Quicktime_CreateDate) with
          | Some t => Ok (Some t)
          | None => Ok (mtime r)
          end
      end
  end.

(** [guess_timezone_offset]: [tag] is the column named by [tag_name]; the
    only reference tag is [Xmp.xmp.CreateDate]. *)
Definition guess_timezone_offset (r : Row) (tag : ts_tag) : result Z :=
  match tags r (Xmp Xmp_xmp_CreateDate) with
  | None => Ok 0
  | Some reference_dt =>
      match tags r tag with
      | None => Raise AttributeError
      | Some t =>
          let naive_dt := replace_tzinfo t (Some utc) in
          diff <- Datetime.sub naive_dt reference_dt ;;
          round_hours diff
      end
  end.

(** ** Strings and paths *)

(** [s.endswith(suffix)] *)
Definition endswith (s suffix : string) : bool :=
  let n := String.length s in
  let k := String.length suffix in
  (k <=? n)%nat && String.eqb (String.substring (n - k) k s) suffix.

(** [s.startswith(p)] *)
Definition startswith (s p : string) : bool := String.prefix p s.

(** [os.path.basename(f)]: what follows the last slash. *)
Fixpoint basename_loop (s acc : string) : string :=
  match s with
  | EmptyString => acc
  | String c s' =>
      if Ascii.eqb c "/" then basename_loop s' ""
      else basename_loop s' (acc ++ String c "")%string
  end.

Definition basename (f : string) : string := basename_loop f "".

(** ** The pattern of the XMP fallback

    [re.fullmatch] of the pattern of [reload]: three runs of digits
    joined by dashes, a [T], two runs of digits each followed by a colon,
    the seconds (digits, then possibly a dot and more digits) and, last,
    an offset group that is empty or a sign, digits, a colon and digits.
    Every group is followed by a character it cannot contain, so the match
    is found, if there is one, by taking each run of digits whole. *)

Definition is_digit (c : ascii) : bool :=
  match digit_value 10 c with Some _ => true | None => false end.

(** The longest run of digits a string starts with, and the rest. *)
Fixpoint span_digits (s : string) : string * string :=
  match s with
  | EmptyString => ("", "")
  | String c s' =>
      if is_digit c
      then let '(d, r) := span_digits s' in (String c d, r)
      else ("", s)
  end.

(** A run of one digit or more. *)
Definition digits1 (s : string) : option (string * string) :=
  match span_digits s with
  | (EmptyString, _) => None
  | (d, r) => Some (d, r)
  end.

(** One given character. *)
Definition expect (c : ascii) (s : string) : option string :=
  match s with
  | String c' s' => if Ascii.eqb c c' then Some s' else None
  | EmptyString => None
  end.

(** The seconds group: digits, an optional dot, optional digits. *)
Definition seconds_group (s : string) : option (string * string) :=
  match digits1 s with
  | None => None
  | Some (whole, r) =>
      match expect "." r with
      | Some r' => let '(frac, r'') := span_digits r' in
                   Some ((whole ++ "." ++ frac)%string, r'')
      | None => Some (whole, r)
      end
  end.

(** The offset group, up to the end of the string: nothing, or a sign,
    digits, a colon and digits. *)
Definition offset_group (s : string) : option string :=
  match s with
  | EmptyString => Some ""
  | String c r =>
      if Ascii.eqb c "+" || Ascii.eqb c "-" then
        match digits1 r with
        | Some (hh, r1) =>
            match expect ":" r1 with
            | Some r2 =>
                match digits1 r2 with
                | Some (mm, EmptyString) => Some s
                | _ => None
                end
            | None => None
            end
        | None => None
        end
      else None
  end.

(** The groups of a match: year, month, day, hours, minutes, seconds and
    offset. *)
Definition xmp_fullmatch (s : string)
  : option (string * string * string * string * string * string * string) :=
  match digits1 s with
  | Some (year, r) =>
  match expect "-" r with Some r =>
  match digits1 r with Some (month, r) =>
  match expect "-" r with Some r =>
  match digits1 r with Some (day, r) =>
  match expect "T" r with Some r =>
  match digits1 r with Some (hours, r) =>
  match expect ":" r with Some r =>
  match digits1 r with Some (minutes, r) =>
  match expect ":" r with Some r =>
  match seconds_group r with Some (seconds, r) =>
  match offset_group r with Some offset =>
    Some (year, month, day, hours, minutes, seconds, offset)
  | None => None end | None => None end | None => None end
  | None => None end | None => None end | None => None end
  | None => None end | None => None end | None => None end
  | None => None end | None => None end | None => None end.

(** ** What a pass reads from outside *)

(** The tags of a file as [pyexiv2.ImageMetadata.read] finds them.  An XMP
    tag is held by its raw string; an IPTC tag by its list of values, of
    which the date tag gives the date fields and the time tag the time
    fields and the zone. *)
Record Metadata : Type := mkMetadata {
  md_xmp : xmp_tag -> option string;
  md_exif : exif_tag -> option datetime;
  md_model : option string;
  md_tz_offset : option Z;
  md_SubSecTime : bool;
  md_SubSecTimeOriginal : bool;
  md_SubSecTimeDigitized : bool;
  md_iptc_date : iptc_tag -> option (list datetime);
  md_iptc_time : iptc_tag -> option (list datetime)
}.

(** One pair of [get_quicktime_tags]: a QuickTime timestamp, already
    parsed, or a Nikon tag with its text. *)
Inductive probe_item : Type :=
| ProbeQuicktime (t : quicktime_tag) (v : datetime)
| ProbeNikon (t : nikon_tag) (v : string).

(** What the pass finds for one path: the modification time
    ([get_mtime], an aware datetime, or the exception of [os.path.getmtime]),
    the metadata ([None] when [metadata.read] raises) and the outcome of
    [get_quicktime_tags]. *)
Record FileEnv : Type := mkFileEnv {
  fe_mtime : result datetime;
  fe_metadata : option Metadata;
  fe_probe : result (list probe_item)
}.

(** class [MplDirectory]: its path and the playlists it loaded, in
    loading order, each with its files on disk.  The merged [db] of the
    class shares the records of the playlists; it is the view below. *)
Record MplDirectory : Type := mkMplDirectory {
  dir_path : string;
  mpl_files : list (string * (MplExtract.MplFile * MplExtract.files))
}.

(** [MplDirectory.db[name]]: [update] lets a later playlist win. *)
Fixpoint merged_get (fs : list (string * (MplExtract.MplFile * MplExtract.files)))
         (name : string) : option MplExtract.MtsInfo :=
  match fs with
  | [] => None
  | (_, (m, _)) :: rest =>
      match merged_get rest name with
      | Some i => Some i
      | None => Dict.get name (MplExtract.db m)
      end
  end.

(** [avchd_db.get_mts(name)] *)
Definition get_mts (d : MplDirectory) (name : string) : result MplExtract.MtsInfo :=
  match merged_get (mpl_files d) name with
  | Some i => Ok i
  | None => Raise KeyError
  end.

(** ** reload *)

Section Reload.

(** [tag.value] of an XMP date tag of pyexiv2 whose raw value is the given
    string: [None] stands for [XmpValueError]. *)
Variable xmp_value : string -> option datetime.

(** [f"{float(seconds):09.6f}"] *)
Variable format_seconds : string -> string.

Variable env : string -> FileEnv.

(** [self.avchd_dirs], as [avchd_db.read] loads them at the start of the
    pass, or the exception of that loading. *)
Variable avchd_dirs : result (list MplDirectory).

(** [app.current_timestamp_delta] *)
Variable current_timestamp_delta : timedelta.

Local Open Scope st_scope.

Definition upd (f : Row -> Row) : St.t Row unit := St.modify f.

(** The body of [for tag_name in XMP_TAGS]. *)
Definition reload_xmp_tag (md : Metadata) (tag_name : xmp_tag) : St.t Row unit :=
  match md_xmp md tag_name with
  | None => St.ret tt
  | Some raw =>
      match xmp_value raw with
      | Some v => upd (fun r => set_tag r (Xmp tag_name) (Some v))
      | None =>
          match xmp_fullmatch raw with
          | Some (year, month, day, hours, minutes, seconds, offset) =>
              let offset :=
                match offset with EmptyString => "+00:00" | _ => offset end in
              let raw' :=
                (year ++ "-" ++ month ++ "-" ++ day ++ "T" ++ hours ++ ":"
                 ++ minutes ++ ":" ++ format_seconds seconds ++ offset)%string in
              match xmp_value raw' with
              | Some v => upd (fun r => set_tag r (Xmp tag_name) (Some v))
              | None => St.raise XmpValueError
              end
          | None => St.raise XmpValueError
          end
      end
  end.

(** The body of [for tag_name in EXIF_TAGS], on the timestamp tags. *)
Definition reload_exif_tag (md : Metadata) (tag_name : exif_tag) : St.t Row unit :=
  match md_exif md tag_name with
  | None => St.ret tt
  | Some v => upd (fun r => set_tag r (Exif tag_name) (Some v))
  end.

(** [datetime.datetime.combine(d, t)] *)
Definition combine (d t : datetime) : datetime :=
  mkdatetime (year d) (month d) (day d) (hour t) (minute t) (second t)
             (microsecond t) (tzinfo t).

(** The body of [for tag_name in IPTC_TAGS]. *)
Definition reload_iptc_tag (md : Metadata) (tag_name : iptc_tag) : St.t Row unit :=
  match md_iptc_date md tag_name, md_iptc_time md tag_name with
  | Some dv, Some tv =>
      St.lift (Py.assert (List.length dv =? 1)%nat) ;;;
      St.lift (Py.assert (List.length tv =? 1)%nat) ;;;
      match dv, tv with
      | d :: _, t :: _ =>
          upd (fun r => set_tag r (Iptc tag_name) (Some (combine d t)))
      | _, _ => St.raise AssertionError
      end
  | _, _ => St.ret tt
  end.

(** The two branches on [metadata]. *)
Definition clear_exiv_tags (r : Row) : Row :=
  let r := fold_left (fun r t => set_tag r (Xmp t) None) XMP_TIMESTAMP_TAGS r in
  let r := set_model r None in
  let r := set_tz_offset r None in
  let r := fold_left (fun r t => set_tag r (Exif t) None) EXIF_TIMESTAMP_TAGS r in
  fold_left (fun r t => set_tag r (Iptc t) None) IPTC_TIMESTAMP_TAGS r.

Definition reload_exiv_tags (md : Metadata) : St.t Row unit :=
  St.for_each XMP_TIMESTAMP_TAGS (reload_xmp_tag md) ;;;
  match md_model md with
  | Some v => upd (fun r => set_model r (Some v))
  | None => St.ret tt
  end ;;;
  match md_tz_offset md with
  | Some v => upd (fun r => set_tz_offset r (Some v))
  | None => St.ret tt
  end ;;;
  St.for_each EXIF_TIMESTAMP_TAGS (reload_exif_tag md) ;;;
  St.lift (Py.assert (negb (md_SubSecTime md))) ;;;
  St.lift (Py.assert (negb (md_SubSecTimeOriginal md))) ;;;
  St.lift (Py.assert (negb (md_SubSecTimeDigitized md))) ;;;
  St.for_each IPTC_TIMESTAMP_TAGS (reload_iptc_tag md).

(** The first directory of [self.avchd_dirs] whose path the file starts
    with. *)
Definition find_avchd_dir (dirs : list MplDirectory) (f : string)
  : option MplDirectory :=
  find (fun d => startswith f (dir_path d)) dirs.

Definition store_probe_item (i : probe_item) : St.t Row unit :=
  match i with
  | ProbeQuicktime t v => upd (fun r => set_tag r (Quicktime t) (Some v))
  | ProbeNikon t v => upd (fun r => set_nikon r t (Some v))
  end.

(** [try_other_tag_sources] *)
Definition try_other_tag_sources (dirs : list MplDirectory) (f : string)
  : St.t Row unit :=
  match (if endswith f ".MTS" then find_avchd_dir dirs f else None) with
  | Some avchd_db =>
      info <- St.lift (get_mts avchd_db (basename f)) ;;
      let ts := MplExtract.getitem info in
      upd (fun r => set_tag r AVCHD_Timestamp (Some ts)) ;;;
      match tzinfo ts with
      | None =>
          r <- St.get ;;
          offset <- St.lift (guess_timezone_offset r AVCHD_Timestamp) ;;
          tz <- St.lift (timezone (td_hours offset)) ;;
          upd (fun r => set_tag r AVCHD_Timestamp
                          (Some (replace_tzinfo ts (Some tz))))
      | Some _ => St.ret tt
      end
  | None =>
      items <- St.lift (fe_probe (env f)) ;;
      St.for_each items store_probe_item
  end.

(** The inference of the offset: [if row["Exif.Photo.DateTimeOriginal"] is
    not None and row["Exif.Image.TimeZoneOffset"] is None], the offset
    becomes the guess. *)
Definition infer_exif_offset : St.t Row unit :=
  r <- St.get ;;
  match tags r (Exif Exif_Photo_DateTimeOriginal), Exif_Image_TimeZoneOffset r with
  | Some _, None =>
      h <- St.lift (guess_timezone_offset r (Exif Exif_Photo_DateTimeOriginal)) ;;
      upd (fun r => set_tz_offset r (Some h))
  | _, _ => St.ret tt
  end.

(** [row["timestamp"] = get_timestamp(row)] *)
Definition store_timestamp : St.t Row unit :=
  r <- St.get ;;
  t <- St.lift (get_timestamp r) ;;
  upd (fun r => set_timestamp r t).

(** The body of [for i, row in enumerate(selected_rows)] in [reload]. *)
Definition reload_row (dirs : list MplDirectory) : St.t Row unit :=
  r <- St.get ;;
  let file := full_path r in
  upd (fun r => set_delta r (Some current_timestamp_delta)) ;;;
  m <- St.lift (fe_mtime (env file)) ;;
  upd (fun r => set_mtime r (Some m)) ;;;
  upd (fun r => set_bg_colour r (Some "#ffffff")) ;;;
  match fe_metadata (env file) with
  | None => upd clear_exiv_tags
  | Some md => reload_exiv_tags md
  end ;;;
  infer_exif_offset ;;;
  r <- St.get ;;
  match tags r (Exif Exif_Photo_DateTimeOriginal) with
  | None => try_other_tag_sources dirs file
  | Some _ => St.ret tt
  end ;;;
  store_timestamp.

(** The loop over the selected rows: the rows after the pass and the
    exception that ended it, if any.  A row on which the body raises stays
    as the body left it; the rows after it are not visited. *)
Fixpoint reload_rows (dirs : list MplDirectory) (rows : list Row)
  : option exn * list Row :=
  match rows with
  | [] => (None, [])
  | row :: rest =>
      match reload_row dirs row with
      | (Ok _, row') =>
          let '(e, rest') := reload_rows dirs rest in (e, row' :: rest')
      | (Raise e, row') => (Some e, row' :: rest)
      end
  end.

(** [FileStore.reload] on the selected rows. *)
Definition reload (rows : list Row) : option exn * list Row :=
  match avchd_dirs with
  | Raise e => (Some e, rows)
  | Ok dirs => reload_rows dirs rows
  end.

End Reload.

(** ** write_back *)

(** The name of a QuickTime tag, as [exiftool] is given it. *)
Definition quicktime_tag_name (t : quicktime_tag) : string :=
  match t with
  | Quicktime_CreateDate => "Quicktime:CreateDate"
  | Quicktime_ModifyDate => "Quicktime:ModifyDate"
  | Quicktime_TrackCreateDate => "Quicktime:TrackCreateDate"
  | Quicktime_TrackModifyDate => "Quicktime:TrackModifyDate"
  | Quicktime_MediaCreateDate => "Quicktime:MediaCreateDate"
  | Quicktime_MediaModifyDate => "Quicktime:MediaModifyDate"
  end.

(** What a write-back pass does to the outside, in the order it does it. *)
Inductive effect : Type :=
| MetadataSet (file : string) (tag_name : ts_tag) (value : datetime)
| MetadataSetDate (file : string) (tag_name : iptc_tag) (value : datetime)
| MetadataSetTime (file : string) (tag_name : iptc_tag) (value : datetime)
| MetadataSetTimeZoneOffset (file : string) (hours : Z)
| MetadataWrite (file : string)
| Exiftool (args : list string)
| Utime (file : string) (t : datetime).

(** [info["datetime"] = value] on the record [get_mts(name)] returns: the
    record belongs to the last playlist that holds the name, and becomes
    dirty there. *)
Fixpoint merged_set (fs : list (string * (MplExtract.MplFile * MplExtract.files)))
         (name : string) (value : datetime)
  : list (string * (MplExtract.MplFile * MplExtract.files)) :=
  match fs with
  | [] => []
  | (p, (m, disk)) :: rest =>
      match merged_get rest name with
      | Some _ => (p, (m, disk)) :: merged_set rest name value
      | None =>
          match Dict.get name (MplExtract.db m) with
          | Some i =>
              (p, (MplExtract.mkMplFile
                     (Dict.set name (MplExtract.setitem i value) (MplExtract.db m))
                     (MplExtract.tz_dict m), disk)) :: rest
          | None => (p, (m, disk)) :: rest
          end
      end
  end.

(** [MplDirectory.write]: every playlist is written in turn; the first
    exception ends the loop. *)
Fixpoint write_mpl_files (fs : list (string * (MplExtract.MplFile * MplExtract.files)))
  : option exn * list (string * (MplExtract.MplFile * MplExtract.files)) :=
  match fs with
  | [] => (None, [])
  | (p, (m, disk)) :: rest =>
      match MplExtract.MplFile_write m disk with
      | (Ok _, m', disk') =>
          let '(e, rest') := write_mpl_files rest in (e, (p, (m', disk')) :: rest')
      | (Raise e, m', disk') => (Some e, (p, (m', disk')) :: rest)
      end
  end.

(** The world a write-back pass changes: the playlists of the AVCHD
    directories and the trace of what was done to the files. *)
Record World : Type := mkWorld {
  dirs : list MplDirectory;
  trace : list effect
}.

(** The state of the body of the loop: the row at hand and the world. *)
Record wb_state : Type := mkwb { wb_row : Row; wb_world : World }.

Section WriteBack.

Variable env : string -> FileEnv.

(** The outcome of [metadata.write], of the [exiftool] run and of
    [os.utime] for a file. *)
Variable metadata_write : string -> result unit.
Variable exiftool_run : list string -> result unit.
Variable os_utime : string -> result unit.

(** The offset of the zone of the machine at a naive datetime. *)
Variable local : datetime -> timedelta.

(** [app.current_timezone_offset] *)
Variable current_timezone_offset : timedelta.

Local Open Scope st_scope.

Definition wb (A : Type) : Type := St.t wb_state A.

Definition row : wb Row := fun s => (Ok (wb_row s), s).

Definition upd_row (f : Row -> Row) : wb unit :=
  St.modify (fun s => mkwb (f (wb_row s)) (wb_world s)).

Definition emit (e : effect) : wb unit :=
  St.modify (fun s =>
    mkwb (wb_row s)
         (mkWorld (dirs (wb_world s)) (trace (wb_world s) ++ [e]))).

(** [metadata[tag_name].value = ts], and the two assignments of a pair:
    a tag that the metadata read for the write does not hold is a
    [KeyError]. *)
Definition metadata_set (file : string) (md : Metadata) (t : ts_tag)
           (ts : datetime) : wb unit :=
  match t with
  | Iptc x =>
      match md_iptc_date md x with
      | Some _ => emit (MetadataSetDate file x ts)
      | None => St.raise KeyError
      end ;;;
      match md_iptc_time md x with
      | Some _ => emit (MetadataSetTime file x ts)
      | None => St.raise KeyError
      end
  | Xmp x =>
      match md_xmp md x with
      | Some _ => emit (MetadataSet file t ts)
      | None => St.raise KeyError
      end
  | Exif x =>
      match md_exif md x with
      | Some _ => emit (MetadataSet file t ts)
      | None => St.raise KeyError
      end
  | _ => St.raise KeyError
  end.

(** The value [iter_exiv_timestamps] yields for a tag, read when the
    generator reaches it. *)
Definition exiv_timestamp (r : Row) (t : ts_tag) : result (option datetime) :=
  match t with
  | Exif x => get_exif_aware_timestamp r x
  | _ => Ok (tags r t)
  end.

(** The tags in the order [iter_exiv_timestamps] yields them. *)
Definition exiv_timestamp_tags : list ts_tag :=
  map Xmp XMP_TIMESTAMP_TAGS ++ map Iptc IPTC_TIMESTAMP_TAGS
  ++ map Exif EXIF_TIMESTAMP_TAGS.

(** [round_datetime_to_second(ts.astimezone(timezone) + ts_delta)] *)
Definition shifted (tz : timedelta) (ts_delta : timedelta) (ts : datetime)
  : result datetime :=
  (a <- astimezone local ts tz ;; b <- Datetime.add a ts_delta ;;
   round_datetime_to_second b)%py.

(** The body of [for tag_name, ts in row.iter_exiv_timestamps()]. *)
Definition write_exiv_tag (file : string) (md : Metadata) (tz ts_delta : timedelta)
           (t : ts_tag) : wb unit :=
  r <- row ;;
  ts <- St.lift (exiv_timestamp r t) ;;
  match ts with
  | None => St.ret tt
  | Some ts =>
      ts' <- St.lift (shifted tz ts_delta ts) ;;
      upd_row (fun r => set_tag r t (Some ts')) ;;;
      metadata_set file md t ts'
  end.

(** [format_arg] *)
Definition format_arg (r : Row) (ts_delta : timedelta) (t : quicktime_tag)
  : result string :=
  match tags r (Quicktime t) with
  | None => Raise AttributeError
  | Some v =>
      (a <- astimezone local v utc ;; ts <- Datetime.add a ts_delta ;;
       Ok ("-" ++ quicktime_tag_name t ++ "=" ++ strftime_exif ts)%string)%py
  end.

(** [[format_arg(t) for t in QUICKTIME_TIMESTAMP_TAGS]] *)
Fixpoint format_args (r : Row) (ts_delta : timedelta) (ts : list quicktime_tag)
  : result (list string) :=
  match ts with
  | [] => Ok []
  | t :: ts' =>
      (a <- format_arg r ts_delta t ;; rest <- format_args r ts_delta ts' ;;
       Ok (a :: rest))%py
  end.

(** The first directory whose path the file starts with, with the
    directories before and after it. *)
Fixpoint split_at_dir (ds : list MplDirectory) (file : string)
  : option (list MplDirectory * MplDirectory * list MplDirectory) :=
  match ds with
  | [] => None
  | d :: rest =>
      if startswith file (dir_path d) then Some ([], d, rest)
      else
        match split_at_dir rest file with
        | Some (pre, d', post) => Some (d :: pre, d', post)
        | None => None
        end
  end.

(** The AVCHD step of the body. *)
Definition write_avchd (file : string) (tz ts_delta : timedelta) : wb unit :=
  r <- row ;;
  match tags r AVCHD_Timestamp with
  | None => St.ret tt
  | Some avchd_ts =>
      s <- St.get ;;
      match split_at_dir (dirs (wb_world s)) file with
      | None => St.ret tt
      | Some (pre, d, post) =>
          v <- St.lift (shifted tz ts_delta avchd_ts) ;;
          St.lift (get_mts d (basename file)) ;;;
          St.modify (fun s =>
            mkwb (wb_row s)
                 (mkWorld
                    (pre ++ mkMplDirectory (dir_path d)
                              (merged_set (mpl_files d) (basename file) v)
                         :: post)
                    (trace (wb_world s))))
      end
  end.

(** The body of [for i, row in enumerate(selected_rows)] in [write_back]. *)
Definition write_back_row (timezone_offset_hours : Z) (tz : timedelta) : wb unit :=
  r <- row ;;
  let file := full_path r in
  ts_delta <- St.lift (match delta r with
                       | Some d => Ok d
                       | None => Raise TypeError
                       end) ;;
  ts_original <- St.lift (match timestamp r with
                          | Some t => astimezone local t tz
                          | None => Raise AttributeError
                          end) ;;
  ts_new <- St.lift (Datetime.add ts_original ts_delta) ;;
  match fe_metadata (env file) with
  | Some md =>
      St.for_each exiv_timestamp_tags (write_exiv_tag file md tz ts_delta) ;;;
      r <- row ;;
      match Exif_Image_TimeZoneOffset r with
      | Some _ =>
          upd_row (fun r => set_tz_offset r (Some timezone_offset_hours)) ;;;
          emit (MetadataSetTimeZoneOffset file timezone_offset_hours)
      | None => St.ret tt
      end ;;;
      St.lift (metadata_write file) ;;;
      emit (MetadataWrite file)
  | None => St.ret tt
  end ;;;
  r <- row ;;
  (if existsb (fun t => match tags r (Quicktime t) with
                        | Some _ => true
                        | None => false
                        end) QUICKTIME_TIMESTAMP_TAGS
   then
     args <- St.lift (format_args r ts_delta QUICKTIME_TIMESTAMP_TAGS) ;;
     let cmd := "exiftool" :: "-overwrite_original" :: file :: args in
     St.lift (exiftool_run cmd) ;;;
     emit (Exiftool cmd)
   else St.ret tt) ;;;
  write_avchd file tz ts_delta ;;;
  St.lift (os_utime file) ;;;
  emit (Utime file ts_new).

(** The loop over the selected rows. *)
Fixpoint write_back_rows (hours : Z) (tz : timedelta) (rows : list Row) (w : World)
  : option exn * list Row * World :=
  match rows with
  | [] => (None, [], w)
  | r :: rest =>
      match write_back_row hours tz (mkwb r w) with
      | (Ok _, s) =>
          let '(e, rest', w') := write_back_rows hours tz rest (wb_world s) in
          (e, wb_row s :: rest', w')
      | (Raise e, s) => (Some e, wb_row s :: rest, wb_world s)
      end
  end.

(** [for avchd_db in self.avchd_dirs: avchd_db.write()] *)
Fixpoint write_dirs (ds : list MplDirectory) : option exn * list MplDirectory :=
  match ds with
  | [] => (None, [])
  | d :: rest =>
      match write_mpl_files (mpl_files d) with
      | (None, fs) =>
          let '(e, rest') := write_dirs rest in
          (e, mkMplDirectory (dir_path d) fs :: rest')
      | (Some e, fs) => (Some e, mkMplDirectory (dir_path d) fs :: rest)
      end
  end.

(** [FileStore.write_back] on the selected rows. *)
Definition write_back (rows : list Row) (w : World)
  : option exn * list Row * World :=
  match (hours <- round_hours current_timezone_offset ;;
         tz <- timezone (td_hours hours) ;; Ok (hours, tz))%py with
  | Raise e => (Some e, rows, w)
  | Ok (hours, tz) =>
      match write_back_rows hours tz rows w with
      | (Some e, rows', w') => (Some e, rows', w')
      | (None, rows', w') =>
          let '(e, ds) := write_dirs (dirs w') in
          (e, rows', mkWorld ds (trace w'))
      end
  end.

End WriteBack.

(** ** The delta interpolator *)

(** [app.locked_timestamp_deltas]: a [SortedDict], that is its items in
    ascending order of the keys.  The keys and the timestamps looked up are
    aware datetimes, which are ordered by their instants. *)
Definition anchors : Type := list (datetime * timedelta).

Definition dt_ltb (a b : datetime) : bool := instant a <? instant b.

(** [SortedDict.bisect_left(key)]: the index of the first key that is not
    below the given one. *)
Fixpoint bisect_left (d : anchors) (key : datetime) : nat :=
  match d with
  | [] => O
  | (k, _) :: d' => if dt_ltb k key then S (bisect_left d' key) else O
  end.

(** [get_delta] of [update_timestamp_delta_state]; [current] is
    [self.current_timestamp_delta] and [locked] is
    [self.locked_timestamp_deltas]. *)
Definition get_delta (current : timedelta) (locked : anchors) (r : Row)
  : result timedelta :=
  match locked with
  | [] => Ok current
  | [(_, d)] => Ok d
  | first :: _ =>
      match timestamp r with
      | None => Raise TypeError
      | Some ts =>
          let upper_i := bisect_left locked ts in
          if (upper_i =? List.length locked)%nat
          then Ok (snd (List.last locked first))
          else
            match upper_i with
            | O => Ok (snd first)
            | S lower_i =>
                match nth_error locked upper_i, nth_error locked lower_i with
                | Some upper, Some lower =>
                    num <- Datetime.sub ts (fst lower) ;;
                    den <- Datetime.sub (fst upper) (fst lower) ;;
                    p <- td_scale num den (snd upper - snd lower) ;;
                    Ok (snd lower + p)
                | _, _ => Raise KeyError
                end
            end
      end
  end.

End Main.

Import Main.

(* ===================================================================== *)
(** * Facts on computations that update an object *)
(* ===================================================================== *)

Module StFacts.

Lemma bind_ok_inv {S A B} (c : St.t S A) (k : A -> St.t S B) s b s' :
  St.bind c k s = (Ok b, s') ->
  exists a s1, c s = (Ok a, s1) /\ k a s1 = (Ok b, s').
Proof.
  unfold St.bind. destruct (c s) as [[a|e] s1]; [eauto|discriminate].
Qed.

Lemma bind_raise_inv {S A B} (c : St.t S A) (k : A -> St.t S B) s e s' :
  c s = (Raise e, s') -> St.bind c k s = (Raise e, s').
Proof. unfold St.bind. intros ->. reflexivity. Qed.

Lemma bind_step {S A B} (c : St.t S A) (k : A -> St.t S B) s a s1 :
  c s = (Ok a, s1) -> St.bind c k s = k a s1.
Proof. unfold St.bind. intros ->. reflexivity. Qed.

(** A computation that leaves a projection of the object as it is. *)
Definition keeps {S A X} (f : S -> X) (c : St.t S A) : Prop :=
  forall s, f (snd (c s)) = f s.

Lemma keeps_ret {S A X} (f : S -> X) (a : A) : keeps f (St.ret a).
Proof. intros s. reflexivity. Qed.

Lemma keeps_raise {S A X} (f : S -> X) e : keeps f (@St.raise S A e).
Proof. intros s. reflexivity. Qed.

Lemma keeps_lift {S A X} (f : S -> X) (c : result A) : keeps f (St.lift c).
Proof. intros s. reflexivity. Qed.

Lemma keeps_get {S X} (f : S -> X) : keeps f St.get.
Proof. intros s. reflexivity. Qed.

Lemma keeps_modify {S X} (f : S -> X) (g : S -> S) :
  (forall s, f (g s) = f s) -> keeps f (St.modify g).
Proof. intros H s. apply H. Qed.

Lemma keeps_bind {S A B X} (f : S -> X) (c : St.t S A) (k : A -> St.t S B) :
  keeps f c -> (forall a, keeps f (k a)) -> keeps f (St.bind c k).
Proof.
  intros Hc Hk s. unfold St.bind. specialize (Hc s).
  destruct (c s) as [[a|e] s1]; simpl in *.
  - rewrite Hk. assumption.
  - assumption.
Qed.

Lemma keeps_for_each {S A X} (f : S -> X) (xs : list A) (body : A -> St.t S unit) :
  (forall x, keeps f (body x)) -> keeps f (St.for_each xs body).
Proof.
  intros H. induction xs as [|x xs IH]; simpl.
  - apply keeps_ret.
  - apply keeps_bind; [apply H|intros _; exact IH].
Qed.

End StFacts.



Lemma timezone_hours h : -24 < h < 24 -> timezone (td_hours h) = Ok (td_hours h).
Proof.
  intros H. unfold timezone, td_hours, us_per_day, us_per_hour, us_per_second.
  destruct (Z.ltb_spec (- (24 * (3600 * 1000000))) (h * (3600 * 1000000))); [|lia].
  destruct (Z.ltb_spec (h * (3600 * 1000000)) (24 * (3600 * 1000000))); [|lia].
  reflexivity.
Qed.

Section ReloadFacts.

Variable xmp_value : string -> option datetime.
Variable format_seconds : string -> string.
Variable env : string -> FileEnv.
Variable avchd_dirs : result (list MplDirectory).
Variable current_timestamp_delta : timedelta.

Local Abbreviation reload_row := (reload_row xmp_value format_seconds env current_timestamp_delta).
Local Abbreviation reload_rows := (reload_rows xmp_value format_seconds env current_timestamp_delta).

Lemma store_timestamp_ok r r' :
  store_timestamp r = (Ok tt, r') ->
  exists t, get_timestamp r = Ok t /\ r' = set_timestamp r t.
Proof.
  unfold store_timestamp, St.bind, St.get, St.lift, upd, St.modify.
  destruct (get_timestamp r) as [t|e]; [|discriminate].
  intros H. inversion H. eauto.
Qed.

Ltac keeps_tac :=
  repeat first
    [ apply StFacts.keeps_ret | apply StFacts.keeps_raise
    | apply StFacts.keeps_lift | apply StFacts.keeps_get
    | apply StFacts.keeps_modify; intros; reflexivity
    | apply StFacts.keeps_for_each; intros
    | apply StFacts.keeps_bind; [|intros]
    | match goal with
      | |- StFacts.keeps _ (match ?x with _ => _ end) => destruct x
      | |- StFacts.keeps _ (let '(_, _) := ?x in _) => destruct x
      end ].

Lemma keeps_eq {S A X} (f : S -> X) (c : St.t S A) s r s' :
  StFacts.keeps f c -> c s = (r, s') -> f s' = f s.
Proof. intros H E. specialize (H s). rewrite E in H. exact H. Qed.

(** The steps of [reload] after the modification time is stored leave it
    alone. *)
Lemma reload_exiv_tags_keeps_mtime md :
  StFacts.keeps mtime (reload_exiv_tags xmp_value format_seconds md).
Proof.
  unfold reload_exiv_tags, reload_xmp_tag, reload_exif_tag, reload_iptc_tag, upd.
  keeps_tac.
Qed.

Lemma infer_exif_offset_keeps_mtime : StFacts.keeps mtime infer_exif_offset.
Proof. unfold infer_exif_offset, upd. keeps_tac. Qed.

Lemma try_other_tag_sources_keeps_mtime dirs f :
  StFacts.keeps mtime (try_other_tag_sources env dirs f).
Proof.
  unfold try_other_tag_sources, store_probe_item, upd. keeps_tac.
Qed.

Lemma reload_row_ends_with_store dirs r0 r' :
  reload_row dirs r0 = (Ok tt, r') ->
  exists r1, store_timestamp r1 = (Ok tt, r') /\ mtime r1 <> None.
Proof.
  unfold Main.reload_row. intros H.
  apply StFacts.bind_ok_inv in H. destruct H as (r & s1 & E1 & H).
  apply StFacts.bind_ok_inv in H. destruct H as (u2 & s2 & E2 & H).
  apply StFacts.bind_ok_inv in H. destruct H as (m & s3 & E3 & H).
  apply StFacts.bind_ok_inv in H. destruct H as (u4 & s4 & E4 & H).
  apply StFacts.bind_ok_inv in H. destruct H as (u5 & s5 & E5 & H).
  apply StFacts.bind_ok_inv in H. destruct H as (u6 & s6 & E6 & H).
  apply StFacts.bind_ok_inv in H. destruct H as (u7 & s7 & E7 & H).
  apply StFacts.bind_ok_inv in H. destruct H as (r8 & s8 & E8 & H).
  apply StFacts.bind_ok_inv in H. destruct H as (u9 & s9 & E9 & H).
  exists s9. split; [destruct u9; exact H|].
  assert (M4 : mtime s4 = Some m) by (inversion E4; reflexivity).
  assert (M5 : mtime s5 = mtime s4) by (inversion E5; reflexivity).
  assert (M6 : mtime s6 = mtime s5).
  { destruct (fe_metadata (env (full_path r))) as [md|].
    - apply (keeps_eq _ _ _ _ _ (reload_exiv_tags_keeps_mtime md) E6).
    - inversion E6; reflexivity. }
  assert (M7 : mtime s7 = mtime s6) by apply (keeps_eq _ _ _ _ _ infer_exif_offset_keeps_mtime E7).
  assert (M8 : s8 = s7) by (inversion E8; reflexivity).
  assert (M9 : mtime s9 = mtime s8).
  { destruct (tags r8 (Exif Exif_Photo_DateTimeOriginal)).
    - inversion E9; reflexivity.
    - apply (keeps_eq _ _ _ _ _ (try_other_tag_sources_keeps_mtime dirs _) E9). }
  congruence.
Qed.

Lemma get_timestamp_some r t :
  get_timestamp r = Ok t -> mtime r <> None -> t <> None.
Proof.
  unfold get_timestamp, Py.bind.
  destruct (get_exif_aware_timestamp r Exif_Photo_DateTimeOriginal) as [[c|]|]; try discriminate.
  - intros H; inversion H; discriminate.
  - destruct (tags r AVCHD_Timestamp); [intros H; inversion H; discriminate|].
    destruct (tags r (Quicktime Quicktime_CreateDate)); [intros H; inversion H; discriminate|].
    intros H; inversion H; subst. auto.
Qed.

End ReloadFacts.

(* ===================================================================== *)
(** * Sample files for the passes *)
(* ===================================================================== *)

Module MainSamples.

(** A stand-in for the date parser of the tag library: it takes the full
    form only, [YYYY-MM-DDTHH:MM:SS.ffffff] followed by a sign and
    [HH:MM]. *)
Definition two_digits (s : string) : option Z :=
  if (String.length s =? 2)%nat
  then match int_of_str 10 s with Ok n => Some n | Raise _ => None end
  else None.

Definition parse_seconds (s : string) : option (Z * Z) :=
  if (String.length s =? 9)%nat then
    match two_digits (String.substring 0 2 s),
          int_of_str 10 (String.substring 3 6 s) with
    | Some ss, Ok us =>
        if Ascii.eqb (match String.get 2 s with Some c => c | None => " "%char end) "."
        then Some (ss, us) else None
    | _, _ => None
    end
  else None.

Definition parse_offset (s : string) : option timedelta :=
  if (String.length s =? 6)%nat then
    match two_digits (String.substring 1 2 s), two_digits (String.substring 4 2 s) with
    | Some hh, Some mm =>
        let o := td_hours hh + mm * 60 * us_per_second in
        match String.get 0 s with
        | Some "+"%char => Some o
        | Some "-"%char => Some (- o)
        | _ => None
        end
    | _, _ => None
    end
  else None.

Definition xmp_value (raw : string) : option datetime :=
  match xmp_fullmatch raw with
  | Some (y, mo, d, h, mi, sec, off) =>
      match int_of_str 10 y, two_digits mo, two_digits d, two_digits h,
            two_digits mi, parse_seconds sec, parse_offset off with
      | Ok y, Some mo, Some d, Some h, Some mi, Some (ss, us), Some o =>
          if valid_fields y mo d h mi ss us
          then Some (mkdatetime y mo d h mi ss us (Some o))
          else None
      | _, _, _, _, _, _, _ => None
      end
  | None => None
  end.

(** [f"{float(seconds):09.6f}"] for seconds written with at most six
    decimals: two digits at least before the dot, six after it. *)
Definition format_seconds (seconds : string) : string :=
  let '(whole, rest) := span_digits seconds in
  let frac := match expect "." rest with
              | Some f => f
              | None => ""
              end in
  (pad_left 2 "0" whole ++ "."
   ++ String.substring 0 6 (frac ++ "000000"))%string.

Definition noon : datetime := mkdatetime 2020 6 2 12 0 0 0 (Some (td_hours 1)).

Definition no_metadata : Metadata :=
  mkMetadata (fun _ => None) (fun _ => None) None None false false false
             (fun _ => None) (fun _ => None).

(** A picture taken at ten, local time, whose XMP creation date lacks its
    offset. *)
Definition picture : Metadata :=
  mkMetadata
    (fun t => match t with
              | Xmp_xmp_CreateDate => Some "2020-06-01T09:00:00"
              | _ => None
              end)
    (fun t => match t with
              | Exif_Photo_DateTimeOriginal =>
                  Some (mkdatetime 2020 6 1 10 0 0 0 None)
              | _ => None
              end)
    (Some "Camera") None false false false (fun _ => None) (fun _ => None).

(** A picture whose XMP creation date is not a date; its EXIF date is as
    in [picture]. *)
Definition bad_picture : Metadata :=
  mkMetadata
    (fun t => match t with
              | Xmp_xmp_CreateDate => Some "yesterday"
              | _ => None
              end)
    (fun t => match t with
              | Exif_Photo_DateTimeOriginal =>
                  Some (mkdatetime 2020 6 1 10 0 0 0 None)
              | _ => None
              end)
    None None false false false (fun _ => None) (fun _ => None).

Definition new_year : datetime := mkdatetime 2020 1 1 0 0 0 0 (Some utc).

Definition env (f : string) : FileEnv :=
  if String.eqb f "/p/a.jpg" then mkFileEnv (Ok noon) (Some picture) (Ok [])
  else if String.eqb f "/p/bad.jpg" then mkFileEnv (Ok noon) (Some bad_picture) (Ok [])
  else if String.eqb f "/p/gone.jpg" then mkFileEnv (Raise OSError) None (Ok [])
  else if String.eqb f "/p/clip.mov" then
    mkFileEnv (Ok noon) None
      (Ok (map (fun t => ProbeQuicktime t new_year) QUICKTIME_TIMESTAMP_TAGS))
  else mkFileEnv (Ok noon) None (Ok []).

Definition reload (rows : list Row) : option exn * list Row :=
  Main.reload xmp_value format_seconds env (Ok []) 0 rows.

(** A clip as [reload] leaves it, its six QuickTime dates at midnight UTC,
    with a delta of six tenths of a second. *)
Definition clip_row : Row :=
  set_delta
    (fold_left (fun r t => set_tag r (Quicktime t) (Some new_year))
       QUICKTIME_TIMESTAMP_TAGS
       (set_timestamp (set_mtime (new_row "/p/clip.mov" "clip.mov") (Some noon))
          (Some new_year)))
    (Some 600000).

(** A write-back pass to UTC in which every write succeeds, on a machine
    whose clock is on UTC. *)
Definition write_back (rows : list Row) : option exn * list Row * World :=
  Main.write_back env (fun _ => Ok tt) (fun _ => Ok tt) (fun _ => Ok tt)
    (fun _ => 0) 0 rows (mkWorld [] []).


(** The row of the timezone example: EXIF at ten, XMP at nine, UTC. *)
Definition ten_and_nine : Row :=
  set_tag
    (set_tag (new_row "/p/a.jpg" "a.jpg") (Exif Exif_Photo_DateTimeOriginal)
       (Some (mkdatetime 2020 6 1 10 0 0 0 None)))
    (Xmp Xmp_xmp_CreateDate) (Some (mkdatetime 2020 6 1 9 0 0 0 (Some utc))).

(** Two anchors three seconds apart, of deltas 0 and one second, and a
    row with a given timestamp. *)
Definition three_seconds_later : datetime := mkdatetime 2020 1 1 0 0 3 0 (Some utc).

Definition two_anchors : anchors :=
  [(new_year, 0); (three_seconds_later, us_per_second)].

Definition row_at (t : datetime) : Row :=
  set_timestamp (new_row "/p/a.jpg" "a.jpg") (Some t).

End MainSamples.

Example reload_picture :
  let '(e, rows) := MainSamples.reload [new_row "/p/a.jpg" "a.jpg"] in
  e = None
  /\ map timestamp rows
     = [Some (mkdatetime 2020 6 1 10 0 0 0 (Some (td_hours 1)))]
  /\ map Exif_Image_TimeZoneOffset rows = [Some 1]
  /\ map (fun r => tags r (Xmp Xmp_xmp_CreateDate)) rows
     = [Some (mkdatetime 2020 6 1 9 0 0 0 (Some 0))].
Proof. vm_compute. repeat split. Qed.

Example reload_clip :
  let '(e, rows) := MainSamples.reload [new_row "/p/clip.mov" "clip.mov"] in
  e = None /\ map timestamp rows = [Some MainSamples.new_year].
Proof. vm_compute. repeat split. Qed.

(* ===================================================================== *)
(** * The passes: where an exception goes *)
(* ===================================================================== *)

Section PassFacts.

Variable xmp_value : string -> option datetime.
Variable format_seconds : string -> string.
Variable env : string -> FileEnv.
Variable current_timestamp_delta : timedelta.

Local Abbreviation reload_row := (reload_row xmp_value format_seconds env current_timestamp_delta).
Local Abbreviation reload_rows := (reload_rows xmp_value format_seconds env current_timestamp_delta).
Local Abbreviation reload_xmp_tag := (reload_xmp_tag xmp_value format_seconds).






End PassFacts.

Section WriteBackFacts.

Variable env : string -> FileEnv.
Variable metadata_write : string -> result unit.
Variable exiftool_run : list string -> result unit.
Variable os_utime : string -> result unit.
Variable local : datetime -> timedelta.

Local Abbreviation write_back_row := (write_back_row env metadata_write exiftool_run os_utime local).
Local Abbreviation write_back_rows := (write_back_rows env metadata_write exiftool_run os_utime local).


End WriteBackFacts.

Section Absorbed.

Variable xmp_value : string -> option datetime.
Variable format_seconds : string -> string.
Variable env : string -> FileEnv.
Variable current_timestamp_delta : timedelta.

Local Abbreviation reload_row := (reload_row xmp_value format_seconds env current_timestamp_delta).



End Absorbed.

(* ===================================================================== *)
(** * The delta interpolator: the anchors around a timestamp *)
(* ===================================================================== *)

Module DeltaFacts.

Definition aware (t : datetime) : Prop := tzinfo t <> None.

(** The order of the anchors: by the instants of their keys. *)
Definition key_lt (a b : datetime * timedelta) : Prop :=
  instant (fst a) < instant (fst b).

Lemma sub_aware a b :
  aware a -> aware b -> Datetime.sub a b = Ok (instant a - instant b).
Proof.
  unfold aware, Datetime.sub, instant.
  destruct (tzinfo a) as [oa|]; [|congruence].
  destruct (tzinfo b) as [ob|]; [|congruence].
  intros _ _. f_equal. lia.
Qed.

Lemma bisect_left_app pre rest ts :
  Forall (fun a => instant (fst a) < instant ts) pre ->
  bisect_left (pre ++ rest) ts = (List.length pre + bisect_left rest ts)%nat.
Proof.
  induction 1 as [|[k d] pre Hk Hpre IH]; simpl; [reflexivity|].
  unfold dt_ltb. simpl in Hk. apply Z.ltb_lt in Hk. rewrite Hk, IH. reflexivity.
Qed.

Lemma bisect_left_stop k d rest ts :
  instant ts <= instant k -> bisect_left ((k, d) :: rest) ts = O.
Proof.
  intros H. simpl. unfold dt_ltb.
  destruct (Z.ltb_spec (instant k) (instant ts)); [lia|reflexivity].
Qed.

Lemma sorted_prefix_lt pre x post :
  StronglySorted key_lt (pre ++ x :: post) -> Forall (fun a => key_lt a x) pre.
Proof.
  induction pre as [|a pre IH]; simpl; intros H; [constructor|].
  inversion H as [|? ? Hs Hall]; subst. constructor.
  - rewrite Forall_forall in Hall. apply Hall. apply in_or_app. right. now left.
  - apply IH. assumption.
Qed.


(** [get_delta] on two anchors or more. *)
Lemma get_delta_many current locked first second rest r ts :
  locked = first :: second :: rest -> timestamp r = Some ts ->
  get_delta current locked r
  = let upper_i := bisect_left locked ts in
    if (upper_i =? List.length locked)%nat
    then Ok (snd (List.last locked first))
    else
      match upper_i with
      | O => Ok (snd first)
      | S lower_i =>
          match nth_error locked upper_i, nth_error locked lower_i with
          | Some upper, Some lower =>
              (num <- Datetime.sub ts (fst lower) ;;
               den <- Datetime.sub (fst upper) (fst lower) ;;
               p <- td_scale num den (snd upper - snd lower) ;;
               Ok (snd lower + p))%py
          | _, _ => Raise KeyError
          end
      end.
Proof.
  intros -> Ht. unfold get_delta. rewrite Ht. destruct first. reflexivity.
Qed.

Lemma two_or_more {A} (pre : list A) x y post :
  exists first second rest, pre ++ x :: y :: post = first :: second :: rest.
Proof.
  destruct pre as [|a [|b pre]]; simpl; eauto.
Qed.

(** Between two neighbouring anchors. *)
Lemma get_delta_between current pre lo up post r ts :
  timestamp r = Some ts -> aware ts -> aware (fst lo) -> aware (fst up) ->
  StronglySorted key_lt (pre ++ lo :: up :: post) ->
  instant (fst lo) < instant ts <= instant (fst up) ->
  get_delta current (pre ++ lo :: up :: post) r
  = (p <- td_scale (instant ts - instant (fst lo))
                   (instant (fst up) - instant (fst lo)) (snd up - snd lo) ;;
     Ok (snd lo + p))%py.
Proof.
  intros Ht Hts Hlo Hup Hsorted [Hl Hu].
  destruct (two_or_more pre lo up post) as (first & second & rest & E).
  rewrite (get_delta_many current _ first second rest r ts E Ht). cbv zeta.
  assert (Hb : bisect_left (pre ++ lo :: up :: post) ts = S (List.length pre)).
  { replace (pre ++ lo :: up :: post) with ((pre ++ [lo]) ++ up :: post)
      by (rewrite <- app_assoc; reflexivity).
    rewrite bisect_left_app.
    - destruct up as [ku du]. rewrite bisect_left_stop by assumption.
      rewrite length_app. simpl. lia.
    - apply Forall_app. split.
      + pose proof (sorted_prefix_lt _ _ _ Hsorted) as Hpre.
        eapply Forall_impl; [|exact Hpre]. unfold key_lt. intros a Ha. lia.
      + constructor; [assumption|constructor]. }
  rewrite Hb.
  assert (Hlen : (S (List.length pre) =? List.length (pre ++ lo :: up :: post))%nat = false).
  { apply Nat.eqb_neq. rewrite length_app. simpl. lia. }
  rewrite Hlen.
  assert (Hn1 : nth_error (pre ++ lo :: up :: post) (S (List.length pre)) = Some up).
  { rewrite nth_error_app2 by lia.
    replace (S (List.length pre) - List.length pre)%nat with 1%nat by lia. reflexivity. }
  assert (Hn0 : nth_error (pre ++ lo :: up :: post) (List.length pre) = Some lo).
  { rewrite nth_error_app2 by lia. rewrite Nat.sub_diag. reflexivity. }
  rewrite Hn1, Hn0.
  rewrite (sub_aware ts (fst lo) Hts Hlo), (sub_aware (fst up) (fst lo) Hup Hlo).
  reflexivity.
Qed.

End DeltaFacts.

Import DeltaFacts.

(* ===================================================================== *)
(** * The delta interpolator *)
(* ===================================================================== *)




(* ===================================================================== *)
(** * The canonical timestamp *)
(* ===================================================================== *)

Section ReloadedRows.

Variable xmp_value : string -> option datetime.
Variable format_seconds : string -> string.
Variable env : string -> FileEnv.
Variable current_timestamp_delta : timedelta.

Local Abbreviation reload_row := (reload_row xmp_value format_seconds env current_timestamp_delta).
Local Abbreviation reload_rows := (reload_rows xmp_value format_seconds env current_timestamp_delta).

Lemma reload_row_timestamp dirs r0 r :
  reload_row dirs r0 = (Ok tt, r) ->
  mtime r <> None /\ exists t, timestamp r = Some t.
Proof.
  intros H.
  destruct (reload_row_ends_with_store _ _ _ _ _ _ _ H) as (r1 & Hs & Hm).
  destruct (store_timestamp_ok _ _ Hs) as (t & Ht & ->).
  pose proof (get_timestamp_some _ _ Ht Hm) as Hne.
  cbn [set_timestamp timestamp mtime].
  split; [assumption|].
  destruct t as [t|]; [eauto|congruence].
Qed.

Lemma reload_rows_timestamps dirs rows : forall rows',
  reload_rows dirs rows = (None, rows') ->
  List.length rows' = List.length rows
  /\ Forall (fun r => mtime r <> None /\ exists t, timestamp r = Some t) rows'.
Proof.
  induction rows as [|r0 rows IH]; intros rows' H; simpl in H.
  - inversion H; subst. split; [reflexivity|constructor].
  - destruct (reload_row dirs r0) as [[[]|e] r] eqn:E; [|discriminate].
    destruct (reload_rows dirs rows) as [e1 rest] eqn:E1.
    inversion H; subst.
    destruct (IH rest eq_refl) as [Hl Hf].
    split; [simpl; congruence|].
    constructor; [|assumption].
    apply (reload_row_timestamp dirs r0 r E).
Qed.

End ReloadedRows.



(** C10.  When [reload] has gone through a file, the row's modification
    time and its timestamp are not [None]: the modification time is stored
    before anything else is read and no later step of the body clears it,
    and it is the last candidate of the selection.  So after a pass that
    ends without an exception every row has a timestamp for [write_back]
    to convert. *)
Theorem reloaded_timestamp_not_null
  (xmp_value : string -> option datetime) (format_seconds : string -> string)
  (env : string -> FileEnv) (current_timestamp_delta : timedelta)
  (dirs : list MplDirectory) :
  (forall r0 r,
     reload_row xmp_value format_seconds env current_timestamp_delta dirs r0
     = (Ok tt, r) ->
     mtime r <> None /\ timestamp r <> None /\ exists t, timestamp r = Some t)
  /\ (forall rows rows',
        reload_rows xmp_value format_seconds env current_timestamp_delta dirs rows
        = (None, rows') ->
        List.length rows' = List.length rows
        /\ Forall (fun r => mtime r <> None /\ exists t, timestamp r = Some t) rows').
Proof.
  split.
  - intros r0 r H.
    destruct (reload_row_timestamp _ _ _ _ _ _ _ H) as (Hm & t & Ht).
    split; [assumption|]. split; [congruence|eauto].
  - intros rows rows' H. apply (reload_rows_timestamps _ _ _ _ _ _ _ H).
Qed.

Lemma reloaded_timestamp_not_null_witness :
  Forall (fun r => mtime r <> None /\ exists t, timestamp r = Some t)
    (snd (reload_rows MainSamples.xmp_value MainSamples.format_seconds
            MainSamples.env 0 []
            [new_row "/p/a.jpg" "a.jpg"; new_row "/p/clip.mov" "clip.mov"])).
Proof.
  destruct (reloaded_timestamp_not_null MainSamples.xmp_value
              MainSamples.format_seconds MainSamples.env 0 []) as [_ H].
  apply (H [new_row "/p/a.jpg" "a.jpg"; new_row "/p/clip.mov" "clip.mov"]).
  vm_compute. reflexivity.
Defined.

(* ===================================================================== *)
(** * The inferred offset *)
(* ===================================================================== *)




Example inferred_offset_spec_example :
  guess_timezone_offset MainSamples.ten_and_nine (Exif Exif_Photo_DateTimeOriginal)
  = Ok 1.
Proof. vm_compute. reflexivity. Qed.

(* ===================================================================== *)
(** * Writing back *)
(* ===================================================================== *)

(** A clip with one of its six QuickTime dates missing. *)
Definition partial_clip_row : Row :=
  set_tag MainSamples.clip_row (Quicktime Quicktime_ModifyDate) None.

(** C5 does not hold of the QuickTime tags.  For a clip whose QuickTime
    dates are at midnight and whose delta is six tenths of a second,
    [exiftool] is given midnight: [strftime] drops the fraction, where
    [round_datetime_to_second], which the other namespaces go through,
    gives one second past midnight.  And when one of the six dates is
    missing the list of arguments is still built from all six, which
    raises before anything is written. *)
Theorem quicktime_write_back_truncates :
  (let '(e, rows, w) := MainSamples.write_back [MainSamples.clip_row] in
   e = None
   /\ trace w
      = [Exiftool
           ["exiftool"; "-overwrite_original"; "/p/clip.mov";
            "-Quicktime:CreateDate=2020:01:01 00:00:00";
            "-Quicktime:ModifyDate=2020:01:01 00:00:00";
            "-Quicktime:TrackCreateDate=2020:01:01 00:00:00";
            "-Quicktime:TrackModifyDate=2020:01:01 00:00:00";
            "-Quicktime:MediaCreateDate=2020:01:01 00:00:00";
            "-Quicktime:MediaModifyDate=2020:01:01 00:00:00"];
         Utime "/p/clip.mov" (mkdatetime 2020 1 1 0 0 0 600000 (Some utc))])
  /\ shifted (fun _ => 0) utc 600000 MainSamples.new_year
     = Ok (mkdatetime 2020 1 1 0 0 1 0 (Some utc))
  /\ strftime_exif (mkdatetime 2020 1 1 0 0 1 0 (Some utc)) = "2020:01:01 00:00:01"
  /\ (let '(e, rows, w) := MainSamples.write_back [partial_clip_row] in
      e = Some AttributeError /\ trace w = []).
Proof. vm_compute. repeat split. Qed.

(* ===================================================================== *)
(** * Failures during a pass *)
(* ===================================================================== *)







Import Py Datetime File MplExtract MplFacts Main DeltaFacts.
Import St.Notations.

(* ===================================================================== *)
(** * The calendar: ordinals and clock readings *)
(* ===================================================================== *)

Module CalendarFacts.

(** A boolean property checked on [fuel] numbers in a row from [i] on. *)
Fixpoint all_from (P : Z -> bool) (fuel : nat) (i : Z) : bool :=
  match fuel with
  | O => true
  | S fuel' => P i && all_from P fuel' (i + 1)
  end.

Lemma all_from_spec P fuel : forall i v,
  all_from P fuel i = true -> i <= v < i + Z.of_nat fuel -> P v = true.
Proof.
  induction fuel as [|fuel IH]; intros i v H Hv; [lia|].
  cbn [all_from] in H. apply andb_prop in H. destruct H as [H1 H2].
  destruct (Z.eq_dec v i) as [->|Hne]; [assumption|].
  apply (IH (i + 1)); [assumption|lia].
Qed.

(** Shifting a year by whole cycles of 400 years. *)
Lemma is_leap_cycle y k : is_leap (y + 400 * k) = is_leap y.
Proof.
  unfold is_leap.
  replace ((y + 400 * k) mod 4) with (y mod 4)
    by (replace (400 * k) with (100 * k * 4) by lia; now rewrite Z_mod_plus_full).
  replace ((y + 400 * k) mod 100) with (y mod 100)
    by (replace (400 * k) with (4 * k * 100) by lia; now rewrite Z_mod_plus_full).
  replace ((y + 400 * k) mod 400) with (y mod 400)
    by (replace (400 * k) with (k * 400) by lia; now rewrite Z_mod_plus_full).
  reflexivity.
Qed.

Lemma days_before_year_cycle y k :
  days_before_year (y + 400 * k) = days_before_year y + DI400Y * k.
Proof.
  unfold days_before_year, DI400Y. cbv zeta.
  replace (y + 400 * k - 1) with (y - 1 + 400 * k) by lia.
  replace ((y - 1 + 400 * k) / 4) with ((y - 1) / 4 + 100 * k)
    by (replace (400 * k) with (100 * k * 4) by lia; now rewrite Z.div_add).
  replace ((y - 1 + 400 * k) / 100) with ((y - 1) / 100 + 4 * k)
    by (replace (400 * k) with (4 * k * 100) by lia; now rewrite Z.div_add).
  replace ((y - 1 + 400 * k) / 400) with ((y - 1) / 400 + k)
    by (replace (400 * k) with (k * 400) by lia; now rewrite Z.div_add).
  lia.
Qed.

(** The years of one cycle, numbered by century [a], group of four years
    [b] and year of the group [c]. *)
Definition cycle_year (i : Z) : Z := 100 * (i / 100) + 4 * (i mod 100 / 4) + i mod 4 + 1.

Definition cycle_year_ok (i : Z) : bool :=
  let a := i / 100 in let b := i mod 100 / 4 in let c := i mod 4 in
  Bool.eqb (is_leap (cycle_year i)) ((c =? 3) && (negb (b =? 24) || (a =? 3)))
  && (days_before_year (cycle_year i) =? DI100Y * a + DI4Y * b + 365 * c).

Lemma cycle_years_checked : all_from cycle_year_ok 400 0 = true.
Proof. vm_compute. reflexivity. Qed.

Lemma cycle_year_facts a b c :
  0 <= a <= 3 -> 0 <= b <= 24 -> 0 <= c <= 3 ->
  is_leap (100 * a + 4 * b + c + 1) = (c =? 3) && (negb (b =? 24) || (a =? 3))
  /\ days_before_year (100 * a + 4 * b + c + 1) = DI100Y * a + DI4Y * b + 365 * c.
Proof.
  intros Ha Hb Hc.
  set (i := 100 * a + 4 * b + c).
  assert (Ea : i / 100 = a)
    by (symmetry; apply (Z.div_unique i 100 a (4 * b + c)); unfold i; lia).
  assert (Em : i mod 100 = 4 * b + c)
    by (symmetry; apply (Z.mod_unique i 100 a (4 * b + c)); unfold i; lia).
  assert (Eb : i mod 100 / 4 = b)
    by (rewrite Em; symmetry; apply (Z.div_unique (4 * b + c) 4 b c); lia).
  assert (Ec : i mod 4 = c)
    by (symmetry; apply (Z.mod_unique i 4 (25 * a + b) c); unfold i; lia).
  assert (H : cycle_year_ok i = true).
  { apply (all_from_spec _ _ 0 i cycle_years_checked). unfold i. lia. }
  unfold cycle_year_ok, cycle_year in H. cbv zeta in H.
  rewrite Ea, Eb, Ec in H.
  apply andb_prop in H. destruct H as [H1 H2].
  apply Bool.eqb_prop in H1. apply Z.eqb_eq in H2.
  fold i in H1, H2. fold i.
  split; assumption.
Qed.

(** The month and the day of the day [n] of a year, counted from 0, as
    [ord2ymd] finds them. *)
Definition month_day (leapyear : bool) (n : Z) : Z * Z :=
  let m := Z.shiftr (n + 50) 5 in
  let preceding :=
    days_before_month_common m + (if (2 <? m) && leapyear then 1 else 0) in
  if n <? preceding then
    let m' := m - 1 in
    let preceding' :=
      preceding
      - (nth (Z.to_nat (m' - 1)) days_in_month_table 0
         + (if (m' =? 2) && leapyear then 1 else 0)) in
    (m', n - preceding' + 1)
  else (m, n - preceding + 1).

Definition month_day_ok (leapyear : bool) (n : Z) : bool :=
  let '(m, d) := month_day leapyear n in
  (1 <=? m) && (m <=? 12) && (1 <=? d)
  && (d <=? (if (m =? 2) && leapyear then 29
             else nth (Z.to_nat (m - 1)) days_in_month_table 0))
  && (days_before_month_common m + (if (2 <? m) && leapyear then 1 else 0) + d
      =? n + 1).

Lemma common_year_checked : all_from (month_day_ok false) 365 0 = true.
Proof. vm_compute. reflexivity. Qed.

Lemma leap_year_checked : all_from (month_day_ok true) 365 0 = true.
Proof. vm_compute. reflexivity. Qed.

Lemma month_day_facts y n :
  0 <= n < 365 ->
  let '(m, d) := month_day (is_leap y) n in
  1 <= m <= 12 /\ 1 <= d <= days_in_month y m
  /\ days_before_month y m + d = n + 1.
Proof.
  intros Hn.
  assert (H : month_day_ok (is_leap y) n = true).
  { destruct (is_leap y).
    - apply (all_from_spec _ _ 0 n leap_year_checked). lia.
    - apply (all_from_spec _ _ 0 n common_year_checked). lia. }
  unfold month_day_ok in H. destruct (month_day (is_leap y) n) as [m d].
  repeat (apply andb_prop in H; destruct H as [H ?]).
  repeat match goal with
         | X : (_ <=? _) = true |- _ => apply Z.leb_le in X
         | X : (_ =? _) = true |- _ => apply Z.eqb_eq in X
         end.
  unfold days_in_month, days_before_month. repeat split; assumption.
Qed.

Lemma december y :
  is_leap y = true -> days_before_month y 12 = 335 /\ days_in_month y 12 = 31.
Proof. unfold days_before_month, days_in_month. intros ->. split; reflexivity. Qed.

Lemma ord2ymd_unfold n0 :
  ord2ymd n0
  = let n := n0 - 1 in
    let n400 := n / DI400Y in let n := n mod DI400Y in
    let n100 := n / DI100Y in let n := n mod DI100Y in
    let n4 := n / DI4Y in let n := n mod DI4Y in
    let n1 := n / 365 in let n := n mod 365 in
    let y := n400 * 400 + 1 + n100 * 100 + n4 * 4 + n1 in
    if (n1 =? 4) || (n100 =? 4) then (y - 1, 12, 31)
    else
      let '(m, d) :=
        month_day ((n1 =? 3) && (negb (n4 =? 24) || (n100 =? 3))) n in
      (y, m, d).
Proof.
  unfold ord2ymd, month_day. cbv zeta.
  destruct (_ || _); [reflexivity|].
  match goal with |- context [if ?c then _ else _] => destruct c end; reflexivity.
Qed.

(** [ord2ymd] gives a date of the calendar whose ordinal is the number it
    was given. *)
Lemma ord2ymd_ok n :
  1 <= n <= MAXORDINAL ->
  let '(y, m, d) := ord2ymd n in
  ymd2ord y m d = n /\ 1 <= y <= 9999 /\ 1 <= m <= 12
  /\ 1 <= d <= days_in_month y m.
Proof.
  intros Hn. unfold MAXORDINAL in Hn.
  rewrite ord2ymd_unfold. cbv zeta.
  set (k := (n - 1) / DI400Y). set (r := (n - 1) mod DI400Y).
  set (a := r / DI100Y). set (r1 := r mod DI100Y).
  set (b := r1 / DI4Y). set (r2 := r1 mod DI4Y).
  set (c := r2 / 365). set (r3 := r2 mod 365).
  pose proof (Z.div_mod (n - 1) DI400Y ltac:(discriminate)) as D0.
  pose proof (Z.mod_pos_bound (n - 1) DI400Y ltac:(reflexivity)) as B0.
  pose proof (Z.div_mod r DI100Y ltac:(discriminate)) as D1.
  pose proof (Z.mod_pos_bound r DI100Y ltac:(reflexivity)) as B1.
  pose proof (Z.div_mod r1 DI4Y ltac:(discriminate)) as D2.
  pose proof (Z.mod_pos_bound r1 DI4Y ltac:(reflexivity)) as B2.
  pose proof (Z.div_mod r2 365 ltac:(discriminate)) as D3.
  pose proof (Z.mod_pos_bound r2 365 ltac:(reflexivity)) as B3.
  fold k r in D0, B0. fold a r1 in D1, B1. fold b r2 in D2, B2. fold c r3 in D3, B3.
  unfold DI400Y, DI100Y, DI4Y in D0, B0, D1, B1, D2, B2.
  assert (Hk : 0 <= k) by (apply Z.div_pos; unfold DI400Y; lia).
  assert (Ha : 0 <= a) by (apply Z.div_pos; unfold DI100Y; lia).
  assert (Hb : 0 <= b) by (apply Z.div_pos; unfold DI4Y; lia).
  assert (Hc : 0 <= c) by (apply Z.div_pos; lia).
  clearbody k r a r1 b r2 c r3.
  assert (Ha4 : a <= 4) by lia.
  assert (Hb24 : b <= 24) by lia.
  assert (Hc4 : c <= 4) by lia.
  destruct (Z.eqb_spec c 4) as [Ec|Nc]; cbn [orb].
  - (* the last day of a group of four years *)
    assert (a <= 3) by lia. assert (b <= 23) by lia. assert (r3 = 0) by lia.
    destruct (cycle_year_facts a b 3 ltac:(lia) ltac:(lia) ltac:(lia)) as [L Y].
    replace (k * 400 + 1 + a * 100 + b * 4 + c - 1)
      with (100 * a + 4 * b + 3 + 1 + 400 * k) by lia.
    assert (Lk : is_leap (100 * a + 4 * b + 3 + 1 + 400 * k) = true).
    { rewrite is_leap_cycle, L. destruct (Z.eqb_spec b 24); [lia|reflexivity]. }
    destruct (december _ Lk) as [E1 E2].
    unfold ymd2ord. rewrite E1, E2, days_before_year_cycle, Y.
    unfold DI400Y, DI100Y, DI4Y.
    repeat split; lia.
  - destruct (Z.eqb_spec a 4) as [Ea|Na].
    + (* the last day of the cycle *)
      assert (b = 0) by lia. assert (c = 0) by lia. assert (r3 = 0) by lia.
      replace (k * 400 + 1 + a * 100 + b * 4 + c - 1) with (400 + 400 * k) by lia.
      assert (Lk : is_leap (400 + 400 * k) = true)
        by (rewrite is_leap_cycle; reflexivity).
      destruct (december _ Lk) as [E1 E2].
      unfold ymd2ord. rewrite E1, E2, days_before_year_cycle.
      change (days_before_year 400) with 145731.
      unfold DI400Y.
      repeat split; lia.
    + assert (a <= 3) by lia. assert (c <= 3) by lia.
      destruct (cycle_year_facts a b c ltac:(lia) ltac:(lia) ltac:(lia)) as [L Y].
      rewrite <- L.
      pose proof (month_day_facts (100 * a + 4 * b + c + 1) r3 ltac:(lia)) as M.
      destruct (month_day _ r3) as [m d]. destruct M as (Hm & Hd & E).
      replace (k * 400 + 1 + a * 100 + b * 4 + c)
        with (100 * a + 4 * b + c + 1 + 400 * k) by lia.
      unfold ymd2ord.
      unfold days_before_month, days_in_month in *.
      rewrite days_before_year_cycle, is_leap_cycle, Y.
      unfold DI400Y, DI100Y, DI4Y.
      repeat split; lia.
Qed.

End CalendarFacts.

Import CalendarFacts.

Module CalendarFacts2.
Import CalendarFacts.
Lemma valid_fields_iff y m d hh mm ss us :
  valid_fields y m d hh mm ss us = true
  <-> 1 <= y <= 9999 /\ 1 <= m <= 12 /\ 1 <= d <= days_in_month y m
      /\ 0 <= hh <= 23 /\ 0 <= mm <= 59 /\ 0 <= ss <= 59 /\ 0 <= us <= 999999.
Proof.
  unfold valid_fields. rewrite !andb_true_iff, !Z.leb_le. tauto.
Qed.

(** The clock reading of a datetime: its ordinal and its time of day. *)
Lemma wall_split t :
  wf_datetime t = true ->
  wall t / us_per_day = toordinal t
  /\ wall t mod us_per_day
     = ((hour t * 60 + minute t) * 60 + second t) * us_per_second + microsecond t.
Proof.
  unfold wf_datetime. rewrite valid_fields_iff. intros H.
  assert (E : wall t = toordinal t * us_per_day
                       + (((hour t * 60 + minute t) * 60 + second t) * us_per_second
                          + microsecond t)).
  { unfold wall, us_per_day, us_per_hour, us_per_second. lia. }
  assert (B : 0 <= ((hour t * 60 + minute t) * 60 + second t) * us_per_second
                   + microsecond t < us_per_day).
  { unfold us_per_day, us_per_hour, us_per_second. lia. }
  rewrite E. split.
  - rewrite Z.add_comm, Z.div_add by (unfold us_per_day, us_per_hour, us_per_second; lia).
    rewrite Z.div_small by assumption. lia.
  - rewrite Z.add_comm, Z_mod_plus_full. apply Z.mod_small. assumption.
Qed.

(** [of_wall] gives a datetime of the calendar that reads [w]. *)
Lemma of_wall_ok w tz t :
  of_wall w tz = Ok t ->
  wall t = w /\ tzinfo t = tz /\ wf_datetime t = true.
Proof.
  unfold of_wall. cbv zeta.
  destruct (Z.ltb_spec 0 (w / us_per_day)) as [H0|]; [|discriminate].
  destruct (Z.leb_spec (w / us_per_day) MAXORDINAL) as [H1|]; [|discriminate].
  cbn [andb].
  pose proof (ord2ymd_ok (w / us_per_day) ltac:(lia)) as Hymd.
  destruct (ord2ymd (w / us_per_day)) as [[y m] d].
  destruct Hymd as (Eo & Hy & Hm & Hd).
  intros X. inversion X; subst t; clear X.
  set (rest := w mod us_per_day).
  assert (Hrest : 0 <= rest < us_per_day)
    by (apply Z.mod_pos_bound; reflexivity).
  assert (Hw : w = (w / us_per_day) * us_per_day + rest).
  { unfold rest. pose proof (Z.div_mod w us_per_day). lia. }
  change us_per_day with 86400000000 in *.
  split; [|split; [reflexivity|]].
  - unfold wall, toordinal. cbn [year month day hour minute second microsecond].
    rewrite Eo.
    change us_per_hour with 3600000000.
    change (60 * us_per_second) with 60000000.
    change us_per_second with 1000000.
    pose proof (Z.div_mod rest 3600000000 ltac:(lia)).
    pose proof (Z.div_mod rest 60000000 ltac:(lia)).
    pose proof (Z.div_mod rest 1000000 ltac:(lia)).
    pose proof (Z.div_mod (rest / 60000000) 60 ltac:(lia)).
    pose proof (Z.div_mod (rest / 1000000) 60 ltac:(lia)).
    assert (rest / 3600000000 = rest / 60000000 / 60)
      by (rewrite Z.div_div by lia; reflexivity).
    assert (rest / 60000000 = rest / 1000000 / 60)
      by (rewrite Z.div_div by lia; reflexivity).
    lia.
  - unfold wf_datetime. cbn [year month day hour minute second microsecond].
    apply valid_fields_iff.
    change us_per_hour with 3600000000.
    change (60 * us_per_second) with 60000000.
    change us_per_second with 1000000.
    assert (0 <= rest / 3600000000 <= 23).
    { split; [apply Z.div_pos; lia|].
      assert (rest / 3600000000 < 24) by (apply Z.div_lt_upper_bound; lia). lia. }
    pose proof (Z.mod_pos_bound (rest / 60000000) 60 ltac:(lia)).
    pose proof (Z.mod_pos_bound (rest / 1000000) 60 ltac:(lia)).
    pose proof (Z.mod_pos_bound rest 1000000 ltac:(lia)).
    repeat split; lia.
Qed.

(** [of_wall] succeeds on the readings of years 1 to 9999 and on no
    other. *)
Lemma of_wall_range w tz :
  (us_per_day <= w < (MAXORDINAL + 1) * us_per_day -> exists t, of_wall w tz = Ok t)
  /\ (~ us_per_day <= w < (MAXORDINAL + 1) * us_per_day ->
      of_wall w tz = Raise OverflowError).
Proof.
  unfold of_wall. cbv zeta.
  assert (Hd : 0 < us_per_day) by reflexivity.
  split; intros H.
  - assert (1 <= w / us_per_day) by (apply Z.div_le_lower_bound; lia).
    assert (w / us_per_day < MAXORDINAL + 1) by (apply Z.div_lt_upper_bound; lia).
    destruct (Z.ltb_spec 0 (w / us_per_day)); [|lia].
    destruct (Z.leb_spec (w / us_per_day) MAXORDINAL); [|lia].
    cbn [andb]. destruct (ord2ymd _) as [[y m] d]. eauto.
  - destruct (Z.ltb_spec 0 (w / us_per_day)) as [H0|]; [|reflexivity].
    destruct (Z.leb_spec (w / us_per_day) MAXORDINAL) as [H1|]; [|reflexivity].
    exfalso. apply H.
    pose proof (Z.div_mod w us_per_day ltac:(lia)).
    pose proof (Z.mod_pos_bound w us_per_day Hd). nia.
Qed.

(** The ordinal of a date of the calendar is within the range. *)
Lemma add_ok t d t' :
  Datetime.add t d = Ok t' ->
  wall t' = wall t + d /\ tzinfo t' = tzinfo t /\ wf_datetime t' = true.
Proof. unfold Datetime.add. apply of_wall_ok. Qed.

Lemma wall_replace_tzinfo t tz : wall (replace_tzinfo t tz) = wall t.
Proof. reflexivity. Qed.

(** [astimezone] keeps the instant of an aware datetime and sets its
    offset. *)
Lemma astimezone_ok local t tz t' :
  astimezone local t tz = Ok t' ->
  tzinfo t' = Some tz
  /\ wall t' = wall t - (match tzinfo t with Some o => o | None => local t end) + tz
  /\ wf_datetime t' = true.
Proof.
  unfold astimezone. cbv zeta. unfold Py.bind.
  destruct (Datetime.add (replace_tzinfo t (Some tz)) _) as [u|] eqn:Eu; [|discriminate].
  intros H. apply add_ok in Eu. apply add_ok in H.
  destruct Eu as (Wu & Tu & _). destruct H as (W & T & V).
  rewrite wall_replace_tzinfo in Wu. cbn [replace_tzinfo tzinfo] in Tu.
  split; [congruence|]. split; [|assumption].
  destruct (tzinfo t); lia.
Qed.

Lemma astimezone_instant local t o tz t' :
  tzinfo t = Some o -> astimezone local t tz = Ok t' ->
  tzinfo t' = Some tz /\ instant t' = instant t /\ wf_datetime t' = true.
Proof.
  intros Ho H. apply astimezone_ok in H. destruct H as (T & W & V).
  split; [assumption|]. split; [|assumption].
  unfold instant. rewrite T, Ho. rewrite Ho in W. lia.
Qed.

End CalendarFacts2.

Import CalendarFacts2.

(* ===================================================================== *)
(** * Rounding to the second and shifting a timestamp *)
(* ===================================================================== *)

Module ShiftFacts.

Lemma py_bind_inv {A B} (c : result A) (k : A -> result B) b :
  Py.bind c k = Ok b -> exists a, c = Ok a /\ k a = Ok b.
Proof. destruct c as [a|e]; simpl; [eauto|discriminate]. Qed.

Lemma shifted_inv local tz d ts t' :
  shifted local tz d ts = Ok t' ->
  exists a b, astimezone local ts tz = Ok a /\ Datetime.add a d = Ok b
              /\ round_datetime_to_second b = Ok t'.
Proof.
  unfold shifted. intros H.
  apply py_bind_inv in H. destruct H as (a & Ea & H).
  apply py_bind_inv in H. destruct H as (b & Eb & H).
  eauto.
Qed.

Lemma microsecond_wall t :
  wf_datetime t = true -> microsecond t = wall t mod us_per_second.
Proof.
  intros H. pose proof H as V. unfold wf_datetime in V.
  rewrite valid_fields_iff in V.
  unfold wall, us_per_second.
  replace (((toordinal t * 24 + hour t) * 60 + minute t) * 60 * 1000000
           + second t * 1000000 + microsecond t)
    with (microsecond t
          + (((toordinal t * 24 + hour t) * 60 + minute t) * 60 + second t) * 1000000)
    by lia.
  rewrite Z_mod_plus_full. symmetry. apply Z.mod_small. lia.
Qed.

Lemma wall_replace_microsecond0 t :
  wall (replace_microsecond0 t) = wall t - microsecond t.
Proof. unfold wall, toordinal. cbn. lia. Qed.

Lemma wf_replace_microsecond0 t :
  wf_datetime t = true -> wf_datetime (replace_microsecond0 t) = true.
Proof.
  unfold wf_datetime. rewrite !valid_fields_iff. cbn. intuition lia.
Qed.

(** The outcome of [round_datetime_to_second] in terms of clock
    readings. *)
Lemma round_datetime_to_second_wall ts t' :
  wf_datetime ts = true -> round_datetime_to_second ts = Ok t' ->
  tzinfo t' = tzinfo ts /\ wf_datetime t' = true /\ microsecond t' = 0
  /\ wall t' = wall ts - microsecond ts
               + (if 500000 <=? microsecond ts then us_per_second else 0).
Proof.
  intros V. unfold round_datetime_to_second.
  destruct (500000 <=? microsecond ts).
  - intros H. apply add_ok in H. destruct H as (W & T & V').
    rewrite wall_replace_microsecond0 in W. cbn [replace_microsecond0 tzinfo] in T.
    split; [assumption|]. split; [assumption|]. split; [|exact W].
    rewrite (microsecond_wall _ V'), W.
    pose proof (microsecond_wall _ V) as M.
    unfold td_seconds, us_per_second in *.
    replace (wall ts - microsecond ts + 1 * 1000000)
      with (0 + ((wall ts - microsecond ts) / 1000000 + 1) * 1000000).
    + now rewrite Z_mod_plus_full.
    + pose proof (Z.div_mod (wall ts) 1000000 ltac:(lia)).
      assert ((wall ts - microsecond ts) = (wall ts / 1000000) * 1000000) by lia.
      rewrite H0. rewrite Z.div_mul by lia. lia.
  - intros H. inversion H; subst t'.
    split; [reflexivity|]. split; [now apply wf_replace_microsecond0|].
    split; [reflexivity|]. rewrite wall_replace_microsecond0. lia.
Qed.

End ShiftFacts.

(** [round_datetime_to_second] gives the nearest whole second, the upper
    one at an exact half: the result has no microseconds, keeps the offset
    and reads at most half a second away from the argument, never half a
    second earlier.  It raises only from the last half second of the year
    9999 on, where the next second is out of the calendar. *)
Theorem round_datetime_to_second_nearest (ts : datetime) :
  wf_datetime ts = true ->
  (forall t',
     round_datetime_to_second ts = Ok t' ->
     microsecond t' = 0 /\ tzinfo t' = tzinfo ts /\ wf_datetime t' = true
     /\ - us_per_second < 2 * (wall t' - wall ts) <= us_per_second)
  /\ ((exists t', round_datetime_to_second ts = Ok t')
      \/ (round_datetime_to_second ts = Raise OverflowError
          /\ (MAXORDINAL + 1) * us_per_day - 500000 <= wall ts)).
Proof.
  intros V. split.
  - intros t' H.
    destruct (ShiftFacts.round_datetime_to_second_wall ts t' V H) as (T & V' & M & W).
    split; [assumption|]. split; [assumption|]. split; [assumption|].
    unfold wf_datetime in V. rewrite valid_fields_iff in V.
    unfold us_per_second in *.
    destruct (Z.leb_spec 500000 (microsecond ts)); lia.
  - unfold round_datetime_to_second.
    destruct (Z.leb_spec 500000 (microsecond ts)) as [Hm|Hm]; [|eauto].
    unfold Datetime.add.
    rewrite ShiftFacts.wall_replace_microsecond0.
    set (w := wall ts - microsecond ts + td_seconds 1).
    destruct (of_wall_range w (tzinfo (replace_microsecond0 ts))) as [Hin Hout].
    assert (Hlow : us_per_day <= w).
    { destruct (wall_split ts V) as [Hd _].
      assert (1 <= toordinal ts).
      { unfold wf_datetime in V. rewrite valid_fields_iff in V.
        unfold toordinal, ymd2ord, days_before_year, days_before_month. cbv zeta.
        assert (0 <= (year ts - 1) / 4 - (year ts - 1) / 100 + (year ts - 1) / 400).
        { pose proof (Z.div_mod (year ts - 1) 4 ltac:(lia)).
          pose proof (Z.mod_pos_bound (year ts - 1) 4 ltac:(lia)).
          pose proof (Z.div_mod (year ts - 1) 100 ltac:(lia)).
          pose proof (Z.mod_pos_bound (year ts - 1) 100 ltac:(lia)).
          pose proof (Z.div_mod (year ts - 1) 400 ltac:(lia)).
          pose proof (Z.mod_pos_bound (year ts - 1) 400 ltac:(lia)).
          lia. }
        assert (0 <= days_before_month_common (month ts)).
        { unfold days_before_month_common.
          assert (Hm' : month ts = 1 \/ month ts = 2 \/ month ts = 3 \/ month ts = 4
                        \/ month ts = 5 \/ month ts = 6 \/ month ts = 7 \/ month ts = 8
                        \/ month ts = 9 \/ month ts = 10 \/ month ts = 11 \/ month ts = 12)
            by lia.
          repeat (destruct Hm' as [->|Hm']; [simpl; lia|]). rewrite Hm'. simpl. lia. }
        destruct (_ && _); lia. }
      unfold wf_datetime in V. rewrite valid_fields_iff in V.
      unfold w, wall, td_seconds, us_per_day, us_per_hour, us_per_second. lia. }
    destruct (Z_lt_dec w ((MAXORDINAL + 1) * us_per_day)) as [Hup|Hup].
    + left. apply Hin. lia.
    + right. split; [apply Hout; lia|].
      unfold wf_datetime in V. rewrite valid_fields_iff in V.
      unfold w, td_seconds, us_per_second in *. lia.
Qed.

Lemma round_datetime_to_second_nearest_witness :
  exists t',
    round_datetime_to_second (mkdatetime 2020 12 31 23 59 59 500000 (Some utc)) = Ok t'
    /\ microsecond t' = 0
    /\ - us_per_second
       < 2 * (wall t' - wall (mkdatetime 2020 12 31 23 59 59 500000 (Some utc)))
       <= us_per_second.
Proof.
  destruct (round_datetime_to_second_nearest
              (mkdatetime 2020 12 31 23 59 59 500000 (Some utc))) as [H _].
  - reflexivity.
  - exists (mkdatetime 2021 1 1 0 0 0 0 (Some utc)).
    split; [vm_compute; reflexivity|].
    destruct (H (mkdatetime 2021 1 1 0 0 0 0 (Some utc))) as (M & _ & _ & B).
    + vm_compute. reflexivity.
    + split; [exact M|exact B].
Defined.

(** What [write_back] writes for a timestamp of an exiv tag or of an AVCHD
    clip, [round_datetime_to_second(ts.astimezone(timezone) + ts_delta)]:
    a datetime at the target offset, without microseconds, whose instant
    is the instant of [ts] plus the delta, rounded to the nearest second
    with a half rounded up.  A naive [ts] is read in the zone of the
    machine. *)
Theorem shifted_is_rounded_instant
  (local : datetime -> timedelta) (tz ts_delta : timedelta) (ts t' : datetime) :
  shifted local tz ts_delta ts = Ok t' ->
  let off := match tzinfo ts with Some o => o | None => local ts end in
  tzinfo t' = Some tz /\ microsecond t' = 0 /\ wf_datetime t' = true
  /\ - us_per_second
     < 2 * (instant t' - (wall ts - off + ts_delta))
     <= us_per_second.
Proof.
  intros H. cbv zeta.
  destruct (ShiftFacts.shifted_inv _ _ _ _ _ H) as (a & b & Ea & Eb & Hr).
  apply astimezone_ok in Ea. destruct Ea as (Ta & Wa & Va).
  apply add_ok in Eb. destruct Eb as (Wb & Tb & Vb).
  destruct (ShiftFacts.round_datetime_to_second_wall b t' Vb Hr) as (T & V' & M & W).
  split; [congruence|]. split; [assumption|]. split; [assumption|].
  assert (I : instant t' = wall t' - tz)
    by (unfold instant; rewrite T, Tb, Ta; reflexivity).
  rewrite I, W, Wb, Wa.
  assert (Hm : 0 <= microsecond b <= 999999).
  { unfold wf_datetime in Vb. rewrite valid_fields_iff in Vb. lia. }
  change us_per_second with 1000000.
  destruct (tzinfo ts); destruct (Z.leb_spec 500000 (microsecond b)); lia.
Qed.

Lemma shifted_is_rounded_instant_witness :
  let ts := mkdatetime 2020 6 1 9 0 0 0 (Some utc) in
  let t' := mkdatetime 2020 6 1 11 0 1 0 (Some (td_hours 2)) in
  tzinfo t' = Some (td_hours 2) /\ microsecond t' = 0 /\ wf_datetime t' = true
  /\ - us_per_second
     < 2 * (instant t' - (wall ts - utc + 500000))
     <= us_per_second.
Proof.
  cbv zeta.
  apply (shifted_is_rounded_instant (fun _ => 0) (td_hours 2) 500000
           (mkdatetime 2020 6 1 9 0 0 0 (Some utc))
           (mkdatetime 2020 6 1 11 0 1 0 (Some (td_hours 2)))).
  vm_compute. reflexivity.
Defined.

Import ShiftFacts.

(* ===================================================================== *)
(** * The delta interpolator: anchors and bounds *)
(* ===================================================================== *)

Module AnchorFacts.

(** An aware datetime as [datetime] builds it: fields of the calendar and
    an offset of less than a day. *)
Definition proper (t : datetime) : Prop :=
  wf_datetime t = true
  /\ exists o, tzinfo t = Some o /\ - us_per_day < o < us_per_day.

Lemma proper_aware t : proper t -> aware t.
Proof. intros (_ & o & E & _). unfold aware. congruence. Qed.

Lemma days_before_month_common_bounds m :
  1 <= m <= 12 -> 0 <= days_before_month_common m <= 334.
Proof.
  intros H. unfold days_before_month_common.
  assert (Hm : m = 1 \/ m = 2 \/ m = 3 \/ m = 4 \/ m = 5 \/ m = 6 \/ m = 7
               \/ m = 8 \/ m = 9 \/ m = 10 \/ m = 11 \/ m = 12) by lia.
  repeat (destruct Hm as [->|Hm]; [simpl; lia|]). rewrite Hm. simpl. lia.
Qed.

Lemma days_in_month_bounds y m : 1 <= m <= 12 -> 28 <= days_in_month y m <= 31.
Proof.
  intros H. unfold days_in_month. destruct (_ && _); [lia|].
  assert (Hm : m = 1 \/ m = 2 \/ m = 3 \/ m = 4 \/ m = 5 \/ m = 6 \/ m = 7
               \/ m = 8 \/ m = 9 \/ m = 10 \/ m = 11 \/ m = 12) by lia.
  repeat (destruct Hm as [->|Hm]; [simpl; lia|]). rewrite Hm. simpl. lia.
Qed.

Lemma toordinal_bounds t :
  wf_datetime t = true -> 1 <= toordinal t <= 3660000.
Proof.
  unfold wf_datetime. rewrite valid_fields_iff. intros V.
  pose proof (days_before_month_common_bounds (month t) ltac:(lia)).
  pose proof (days_in_month_bounds (year t) (month t) ltac:(lia)).
  unfold toordinal, ymd2ord, days_before_year, days_before_month. cbv zeta.
  pose proof (Z.div_mod (year t - 1) 4 ltac:(lia)).
  pose proof (Z.mod_pos_bound (year t - 1) 4 ltac:(lia)).
  pose proof (Z.div_mod (year t - 1) 100 ltac:(lia)).
  pose proof (Z.mod_pos_bound (year t - 1) 100 ltac:(lia)).
  pose proof (Z.div_mod (year t - 1) 400 ltac:(lia)).
  pose proof (Z.mod_pos_bound (year t - 1) 400 ltac:(lia)).
  destruct (_ && _); lia.
Qed.

Lemma wall_bounds t : wf_datetime t = true -> 0 < wall t < 2 ^ 59.
Proof.
  intros V. pose proof (toordinal_bounds t V).
  unfold wf_datetime in V. rewrite valid_fields_iff in V.
  unfold wall, us_per_second. lia.
Qed.

Lemma proper_instant_bounds t : proper t -> - 2 ^ 59 < instant t < 2 ^ 60.
Proof.
  intros (V & o & E & Ho). pose proof (wall_bounds t V).
  unfold instant. rewrite E.
  unfold us_per_day, us_per_hour, us_per_second in Ho. lia.
Qed.

(** Where a timestamp falls among anchors. *)
Lemma locate (locked : anchors) ts :
  locked <> [] ->
  (exists k d rest, locked = (k, d) :: rest /\ instant ts <= instant k)
  \/ (exists pre lo up post,
        locked = pre ++ lo :: up :: post
        /\ instant (fst lo) < instant ts <= instant (fst up))
  \/ (exists pre k d, locked = pre ++ [(k, d)] /\ instant k < instant ts).
Proof.
  induction locked as [|[k d] rest IH]; intros Hne; [congruence|].
  destruct (Z_le_gt_dec (instant ts) (instant k)) as [Hle|Hgt].
  - left. eauto.
  - right. destruct rest as [|x rest'].
    + right. exists [], k, d. split; [reflexivity|lia].
    + destruct IH as [(k1 & d1 & r1 & E & H)|[(pre & lo & up & post & E & H)
                                              |(pre & k1 & d1 & E & H)]];
        [discriminate| | |].
      * left. exists [], (k, d), (k1, d1), r1. rewrite E. split; [reflexivity|].
        simpl. lia.
      * left. exists ((k, d) :: pre), lo, up, post. rewrite E. split; [reflexivity|assumption].
      * right. exists ((k, d) :: pre), k1, d1. rewrite E. split; [reflexivity|assumption].
Qed.

(** At or before the first of two anchors or more. *)
Lemma get_delta_before_first current k d a2 rest r ts :
  timestamp r = Some ts -> instant ts <= instant k ->
  get_delta current ((k, d) :: a2 :: rest) r = Ok d.
Proof.
  intros Ht Hle.
  rewrite (get_delta_many current _ _ _ _ r ts eq_refl Ht). cbv zeta.
  rewrite !bisect_left_stop by assumption. reflexivity.
Qed.

(** After the last of two anchors or more. *)
Lemma get_delta_after_last current pre lo k d r ts :
  timestamp r = Some ts ->
  StronglySorted key_lt (pre ++ [lo; (k, d)]) ->
  instant k < instant ts ->
  get_delta current (pre ++ [lo; (k, d)]) r = Ok d.
Proof.
  intros Ht Hsorted Hlt.
  destruct (two_or_more pre lo (k, d) []) as (first & second & rest & E2).
  rewrite (get_delta_many current _ first second rest r ts E2 Ht). cbv zeta.
  assert (Hb : bisect_left (pre ++ [lo; (k, d)]) ts
               = List.length (pre ++ [lo; (k, d)])).
  { rewrite <- (app_nil_r (pre ++ [lo; (k, d)])) at 1.
    rewrite bisect_left_app; [simpl; lia|].
    replace (pre ++ [lo; (k, d)]) with ((pre ++ [lo]) ++ [(k, d)])
      by (rewrite <- app_assoc; reflexivity).
    apply Forall_app. split.
    - replace (pre ++ [lo; (k, d)]) with ((pre ++ [lo]) ++ (k, d) :: []) in Hsorted
        by (rewrite <- app_assoc; reflexivity).
      apply sorted_prefix_lt in Hsorted.
      eapply Forall_impl; [|exact Hsorted]. unfold key_lt. simpl. intros a Ha. lia.
    - constructor; [simpl; lia|constructor]. }
  rewrite Hb, Nat.eqb_refl. f_equal.
  replace (pre ++ [lo; (k, d)]) with ((pre ++ [lo]) ++ [(k, d)])
    by (rewrite <- app_assoc; reflexivity).
  rewrite last_last. reflexivity.
Qed.

Lemma last_two {A} (pre : list A) x :
  pre <> [] -> exists pre' lo, pre ++ [x] = pre' ++ [lo; x].
Proof.
  intros H. destruct (exists_last H) as (pre' & lo & ->).
  exists pre', lo. rewrite <- app_assoc. reflexivity.
Qed.

End AnchorFacts.

Import AnchorFacts.



(** With one anchor or more, [get_delta] returns and never extrapolates:
    its result lies between the least and the greatest delta of the
    anchors, provided these are less than [2^52] microseconds apart. *)
Theorem get_delta_within_anchor_deltas
  current (locked : anchors) (r : Row) ts (lo hi : timedelta) :
  locked <> [] ->
  timestamp r = Some ts -> proper ts ->
  Forall (fun a => proper (fst a)) locked ->
  StronglySorted key_lt locked ->
  Forall (fun a => lo <= snd a <= hi) locked ->
  hi - lo < 2 ^ 52 ->
  exists v, get_delta current locked r = Ok v /\ lo <= v <= hi.
Proof.
  intros Hne Ht Hts Hproper Hsorted Hbounds Hspan.
  assert (Haware : Forall (fun a => aware (fst a)) locked).
  { eapply Forall_impl; [|exact Hproper]. intros a. apply proper_aware. }
  rewrite Forall_forall in Hbounds.
  destruct locked as [|[k0 d0] [|a2 rest]]; [congruence| |].
  - exists d0. split; [reflexivity|]. apply (Hbounds (k0, d0)). now left.
  - clear Hne.
    destruct (locate ((k0, d0) :: a2 :: rest) ts ltac:(discriminate))
      as [(k & d & rest' & E & H)|[(pre & [t_lo d_lo] & [t_up d_up] & post & E & H)
                                   |(pre & k & d & E & H)]].
    + inversion E; subst. exists d.
      split; [now apply get_delta_before_first with ts|].
      apply (Hbounds (k, d)). now left.
    + rewrite E in *. cbn [fst] in H.
      rewrite Forall_forall in Haware, Hproper.
      assert (Ilo : In (t_lo, d_lo) (pre ++ (t_lo, d_lo) :: (t_up, d_up) :: post))
        by (apply in_or_app; right; now left).
      assert (Iup : In (t_up, d_up) (pre ++ (t_lo, d_lo) :: (t_up, d_up) :: post))
        by (apply in_or_app; right; right; now left).
      rewrite (get_delta_between current pre (t_lo, d_lo) (t_up, d_up) post r ts);
        try assumption.
      * cbn [fst snd].
        pose proof (Hbounds _ Ilo) as Blo. pose proof (Hbounds _ Iup) as Bup.
        cbn [snd] in Blo, Bup.
        pose proof (proper_instant_bounds _ (Hproper _ Ilo)) as Plo.
        pose proof (proper_instant_bounds _ (Hproper _ Iup)) as Pup.
        cbn [fst] in Plo, Pup.
        destruct (FloatFacts.td_scale_close (instant ts - instant t_lo)
                    (instant t_up - instant t_lo) (d_up - d_lo))
          as (p & Hp & Hclose).
        -- lia.
        -- assert (2 ^ 61 < 2 ^ 900) by (apply Z.pow_lt_mono_r; lia). lia.
        -- lia.
        -- rewrite Hp. cbn [Py.bind]. exists (d_lo + p). split; [reflexivity|].
           assert (Hnum : 0 < instant ts - instant t_lo <= instant t_up - instant t_lo)
             by lia.
           revert Hclose Hnum Blo Bup.
           generalize (instant ts - instant t_lo), (instant t_up - instant t_lo).
           intros num den Hclose Hnum Blo Bup.
           destruct (Z_le_gt_dec 0 (d_up - d_lo)).
           ++ assert (0 <= p) by nia. assert (p <= d_up - d_lo) by nia. lia.
           ++ assert (p <= 0) by nia. assert (d_up - d_lo <= p) by nia. lia.
      * apply proper_aware. exact Hts.
      * apply (Haware (t_lo, d_lo) Ilo).
      * apply (Haware (t_up, d_up) Iup).
    + destruct pre as [|p0 pre'] using rev_ind.
      * discriminate.
      * clear IHpre'. rewrite <- app_assoc in E. cbn [app] in E.
        rewrite E in *. exists d.
        split; [now apply get_delta_after_last with ts|].
        apply (Hbounds (k, d)). apply in_or_app. right. right. now left.
Qed.

Lemma get_delta_within_anchor_deltas_witness :
  exists v,
    get_delta 0 MainSamples.two_anchors
      (MainSamples.row_at (mkdatetime 2020 1 1 0 0 1 0 (Some utc))) = Ok v
    /\ 0 <= v <= us_per_second.
Proof.
  apply (get_delta_within_anchor_deltas 0 MainSamples.two_anchors _
           (mkdatetime 2020 1 1 0 0 1 0 (Some utc)) 0 us_per_second).
  - discriminate.
  - reflexivity.
  - split; [reflexivity|]. exists utc. split; [reflexivity|]. split; reflexivity.
  - repeat constructor; exists utc; (split; [reflexivity|]); split; reflexivity.
  - repeat constructor; vm_compute; reflexivity.
  - repeat constructor; vm_compute; discriminate.
  - vm_compute. reflexivity.
Defined.

Import AnchorFacts.

(* ===================================================================== *)
(** * reload: what a pass keeps and what it leaves in a row *)
(* ===================================================================== *)

Ltac keeps_steps :=
  repeat first
    [ apply StFacts.keeps_ret | apply StFacts.keeps_raise
    | apply StFacts.keeps_lift | apply StFacts.keeps_get
    | apply StFacts.keeps_modify; intros; reflexivity
    | apply StFacts.keeps_for_each; intros
    | apply StFacts.keeps_bind; [|intros]
    | match goal with
      | |- StFacts.keeps _ (match ?x with _ => _ end) => destruct x
      | |- StFacts.keeps _ (let '(_, _) := ?x in _) => destruct x
      end ].

Section ReloadSteps.

Variable xmp_value : string -> option datetime.
Variable format_seconds : string -> string.
Variable env : string -> FileEnv.
Variable current_timestamp_delta : timedelta.

Local Abbreviation reload_row := (reload_row xmp_value format_seconds env current_timestamp_delta).
Local Abbreviation reload_rows := (reload_rows xmp_value format_seconds env current_timestamp_delta).

(** The row as the first assignments of the body leave it. *)
Definition row_at_start (r0 : Row) (m : datetime) : Row :=
  set_bg_colour (set_mtime (set_delta r0 (Some current_timestamp_delta)) (Some m))
    (Some "#ffffff").

(** The steps of a body that returns. *)
Lemma reload_row_steps dirs r0 r' :
  reload_row dirs r0 = (Ok tt, r') ->
  exists m s6 s7 s9,
    fe_mtime (env (full_path r0)) = Ok m
    /\ match fe_metadata (env (full_path r0)) with
       | None => upd clear_exiv_tags
       | Some md => reload_exiv_tags xmp_value format_seconds md
       end (row_at_start r0 m) = (Ok tt, s6)
    /\ infer_exif_offset s6 = (Ok tt, s7)
    /\ match tags s7 (Exif Exif_Photo_DateTimeOriginal) with
       | None => try_other_tag_sources env dirs (full_path r0)
       | Some _ => St.ret tt
       end s7 = (Ok tt, s9)
    /\ store_timestamp s9 = (Ok tt, r').
Proof.
  unfold Main.reload_row. intros H.
  apply StFacts.bind_ok_inv in H. destruct H as (r & s1 & E1 & H).
  apply StFacts.bind_ok_inv in H. destruct H as (u2 & s2 & E2 & H).
  apply StFacts.bind_ok_inv in H. destruct H as (m & s3 & E3 & H).
  apply StFacts.bind_ok_inv in H. destruct H as (u4 & s4 & E4 & H).
  apply StFacts.bind_ok_inv in H. destruct H as (u5 & s5 & E5 & H).
  apply StFacts.bind_ok_inv in H. destruct H as (u6 & s6 & E6 & H).
  apply StFacts.bind_ok_inv in H. destruct H as (u7 & s7 & E7 & H).
  apply StFacts.bind_ok_inv in H. destruct H as (r8 & s8 & E8 & H).
  apply StFacts.bind_ok_inv in H. destruct H as (u9 & s9 & E9 & H).
  inversion E1; subst r s1; clear E1.
  inversion E2; subst u2 s2; clear E2.
  unfold St.lift in E3.
  destruct (fe_mtime (env (full_path r0))) as [m'|] eqn:Em; [|discriminate].
  inversion E3; subst m' s3; clear E3.
  inversion E4; subst u4 s4; clear E4.
  inversion E5; subst u5 s5; clear E5.
  inversion E8; subst r8 s8; clear E8.
  destruct u6, u7, u9.
  exists m, s6, s7, s9. repeat split; assumption.
Qed.

Lemma reload_row_keeps_full_path dirs : StFacts.keeps full_path (reload_row dirs).
Proof.
  unfold Main.reload_row, reload_exiv_tags, reload_xmp_tag, reload_exif_tag,
    reload_iptc_tag, infer_exif_offset, try_other_tag_sources, store_probe_item,
    store_timestamp, upd.
  keeps_steps.
Qed.

Lemma reload_row_keeps_shortened_path dirs :
  StFacts.keeps shortened_path (reload_row dirs).
Proof.
  unfold Main.reload_row, reload_exiv_tags, reload_xmp_tag, reload_exif_tag,
    reload_iptc_tag, infer_exif_offset, try_other_tag_sources, store_probe_item,
    store_timestamp, upd.
  keeps_steps.
Qed.

Lemma reload_rest_keeps {X} (f : Row -> X) dirs r0 m :
  (forall r t v, f (set_tag r t v) = f r) ->
  (forall r t v, f (set_nikon r t v) = f r) ->
  (forall r v, f (set_model r v) = f r) ->
  (forall r v, f (set_tz_offset r v) = f r) ->
  (forall r v, f (set_timestamp r v) = f r) ->
  forall r', reload_row dirs r0 = (Ok tt, r') ->
  fe_mtime (env (full_path r0)) = Ok m ->
  f r' = f (row_at_start r0 m).
Proof.
  intros Htag Hnikon Hmodel Htz Hts r' H Hm.
  destruct (reload_row_steps dirs r0 r' H) as (m' & s6 & s7 & s9 & Em & E6 & E7 & E9 & E10).
  assert (m' = m) by congruence. subst m'.
  assert (K6 : f s6 = f (row_at_start r0 m)).
  { destruct (fe_metadata (env (full_path r0))) as [md|].
    - refine (keeps_eq f _ _ _ _ _ E6).
      unfold reload_exiv_tags, reload_xmp_tag, reload_exif_tag, reload_iptc_tag, upd.
      repeat first
        [ apply StFacts.keeps_ret | apply StFacts.keeps_raise
        | apply StFacts.keeps_lift | apply StFacts.keeps_get
        | apply StFacts.keeps_modify; intros;
          first [apply Htag | apply Hmodel | apply Htz]
        | apply StFacts.keeps_for_each; intros
        | apply StFacts.keeps_bind; [|intros]
        | match goal with
          | |- StFacts.keeps _ (match ?x with _ => _ end) => destruct x
          | |- StFacts.keeps _ (let '(_, _) := ?x in _) => destruct x
          end ].
    - inversion E6; subst s6. unfold clear_exiv_tags. cbn [fold_left XMP_TIMESTAMP_TAGS
        EXIF_TIMESTAMP_TAGS IPTC_TIMESTAMP_TAGS].
      rewrite !Htag, Htz, Hmodel, !Htag. reflexivity. }
  assert (K7 : f s7 = f s6).
  { refine (keeps_eq f _ _ _ _ _ E7). unfold infer_exif_offset, upd.
    repeat first
      [ apply StFacts.keeps_ret | apply StFacts.keeps_lift | apply StFacts.keeps_get
      | apply StFacts.keeps_modify; intros; apply Htz
      | apply StFacts.keeps_bind; [|intros]
      | match goal with
        | |- StFacts.keeps _ (match ?x with _ => _ end) => destruct x
        end ]. }
  assert (K9 : f s9 = f s7).
  { destruct (tags s7 (Exif Exif_Photo_DateTimeOriginal)).
    - inversion E9; reflexivity.
    - refine (keeps_eq f _ _ _ _ _ E9).
      unfold try_other_tag_sources, store_probe_item, upd.
      repeat first
        [ apply StFacts.keeps_ret | apply StFacts.keeps_lift | apply StFacts.keeps_get
        | apply StFacts.keeps_modify; intros; first [apply Htag | apply Hnikon]
        | apply StFacts.keeps_for_each; intros
        | apply StFacts.keeps_bind; [|intros]
        | match goal with
          | |- StFacts.keeps _ (match ?x with _ => _ end) => destruct x
          end ]. }
  destruct (store_timestamp_ok _ _ E10) as (t & _ & ->).
  rewrite Hts. congruence.
Qed.

Lemma reload_rows_keeps dirs rows : forall e rows',
  reload_rows dirs rows = (e, rows') ->
  map full_path rows' = map full_path rows
  /\ map shortened_path rows' = map shortened_path rows.
Proof.
  induction rows as [|r0 rows IH]; intros e rows' H; simpl in H.
  - inversion H; subst. split; reflexivity.
  - pose proof (reload_row_keeps_full_path dirs r0) as Kf.
    pose proof (reload_row_keeps_shortened_path dirs r0) as Ks.
    destruct (reload_row dirs r0) as [[u|ex] r] eqn:E; simpl in Kf, Ks.
    + destruct (reload_rows dirs rows) as [e1 rest] eqn:E1.
      inversion H; subst. destruct (IH _ _ eq_refl) as [If Is].
      simpl. split; congruence.
    + inversion H; subst. simpl. split; congruence.
Qed.

Lemma reload_row_delta_colour dirs r0 r' :
  reload_row dirs r0 = (Ok tt, r') ->
  delta r' = Some current_timestamp_delta /\ row_bg_colour r' = Some "#ffffff".
Proof.
  intros H.
  destruct (reload_row_steps dirs r0 r' H) as (m & _ & _ & _ & Em & _).
  split.
  - rewrite (reload_rest_keeps delta dirs r0 m); try reflexivity; assumption.
  - rewrite (reload_rest_keeps row_bg_colour dirs r0 m); try reflexivity; assumption.
Qed.

Lemma reload_rows_delta_colour dirs rows : forall rows',
  reload_rows dirs rows = (None, rows') ->
  Forall (fun r => delta r = Some current_timestamp_delta
                   /\ row_bg_colour r = Some "#ffffff") rows'.
Proof.
  induction rows as [|r0 rows IH]; intros rows' H; simpl in H.
  - inversion H; subst. constructor.
  - destruct (reload_row dirs r0) as [[[]|ex] r] eqn:E; [|discriminate].
    destruct (reload_rows dirs rows) as [e1 rest] eqn:E1.
    inversion H; subst. constructor; [|now apply IH].
    apply (reload_row_delta_colour dirs r0 r E).
Qed.

End ReloadSteps.

(** A reload pass neither adds, drops nor reorders rows and never changes
    their paths, whether it ends with an exception or not; after a pass
    without exception every row carries the current global delta and the
    white background. *)
Theorem reload_keeps_rows
  (xmp_value : string -> option datetime) (format_seconds : string -> string)
  (env : string -> FileEnv) (current_timestamp_delta : timedelta)
  (dirs : list MplDirectory) (rows : list Row) :
  let '(e, rows') :=
    reload_rows xmp_value format_seconds env current_timestamp_delta dirs rows in
  map full_path rows' = map full_path rows
  /\ map shortened_path rows' = map shortened_path rows
  /\ (e = None ->
      Forall (fun r => delta r = Some current_timestamp_delta
                       /\ row_bg_colour r = Some "#ffffff") rows').
Proof.
  destruct (reload_rows _ _ _ _ _ rows) as [e rows'] eqn:E.
  destruct (reload_rows_keeps _ _ _ _ _ _ _ _ E) as [Hf Hs].
  split; [assumption|]. split; [assumption|].
  intros ->. apply (reload_rows_delta_colour _ _ _ _ _ _ _ E).
Qed.

(* ===================================================================== *)
(** * reload: the timestamp of a row is aware *)
(* ===================================================================== *)

(** The columns from which a timestamp can come without an offset of its
    own hold aware datetimes, where they hold one. *)
Definition aware_columns (r : Row) : Prop :=
  (forall v, tags r AVCHD_Timestamp = Some v -> aware v)
  /\ (forall v, tags r (Quicktime Quicktime_CreateDate) = Some v -> aware v).

(** [get_mtime] builds the modification time with a timezone, and
    [get_quicktime_tags] gives every QuickTime date the offset 0. *)
Definition aware_env (fe : FileEnv) : Prop :=
  (forall m, fe_mtime fe = Ok m -> aware m)
  /\ (forall items t v,
        fe_probe fe = Ok items -> In (ProbeQuicktime t v) items -> aware v).

Section AwareFacts.

Variable xmp_value : string -> option datetime.
Variable format_seconds : string -> string.
Variable env : string -> FileEnv.
Variable current_timestamp_delta : timedelta.

Lemma store_probe_items_aware items : forall s s',
  (forall t v, In (ProbeQuicktime t v) items -> aware v) ->
  aware_columns s ->
  St.for_each items store_probe_item s = (Ok tt, s') ->
  aware_columns s'
  /\ tags s' (Exif Exif_Photo_DateTimeOriginal)
     = tags s (Exif Exif_Photo_DateTimeOriginal)
  /\ mtime s' = mtime s.
Proof.
  induction items as [|i items IH]; intros s s' Hitems Hs H; simpl in H.
  - inversion H; subst. repeat split; apply Hs.
  - apply StFacts.bind_ok_inv in H. destruct H as (u & s1 & E1 & H).
    assert (Hs1 : aware_columns s1
                  /\ tags s1 (Exif Exif_Photo_DateTimeOriginal)
                     = tags s (Exif Exif_Photo_DateTimeOriginal)
                  /\ mtime s1 = mtime s).
    { destruct i as [t v|t v]; inversion E1; subst s1.
      - split; [|split; reflexivity].
        destruct Hs as [Ha Hq]. split.
        + intros x Hx. apply Ha. exact Hx.
        + intros x. cbn [set_tag tags]. unfold ts_tag_eqb.
          destruct (ts_tag_eq_dec _ _) as [e|ne].
          * intros X. inversion X; subst x. apply (Hitems t). now left.
          * apply Hq.
      - split; [exact Hs|split; reflexivity]. }
    destruct Hs1 as (A1 & D1 & M1).
    destruct (IH s1 s' (fun t v Hin => Hitems t v (or_intror Hin)) A1 H)
      as (A' & D' & M').
    split; [assumption|]. split; congruence.
Qed.

Lemma try_other_tag_sources_aware dirs f s s' :
  aware_env (env f) -> aware_columns s ->
  try_other_tag_sources env dirs f s = (Ok tt, s') ->
  aware_columns s'
  /\ tags s' (Exif Exif_Photo_DateTimeOriginal)
     = tags s (Exif Exif_Photo_DateTimeOriginal)
  /\ mtime s' = mtime s.
Proof.
  intros [_ Hprobe] Hs. unfold try_other_tag_sources.
  destruct (if endswith f ".MTS" then find_avchd_dir dirs f else None) as [d|].
  - intros H.
    apply StFacts.bind_ok_inv in H. destruct H as (info & s1 & E1 & H).
    apply StFacts.bind_ok_inv in H. destruct H as (u2 & s2 & E2 & H).
    assert (s1 = s).
    { unfold St.lift in E1. destruct (get_mts d (basename f)); inversion E1; reflexivity. }
    subst s1. inversion E2; subst s2 u2; clear E2.
    destruct (tzinfo (getitem info)) as [o|] eqn:Etz.
    + inversion H; subst s'.
      split; [|split; reflexivity]. destruct Hs as [Ha Hq]. split.
      * intros x. cbn. intros X. inversion X; subst x. unfold aware. congruence.
      * intros x Hx. apply Hq. exact Hx.
    + apply StFacts.bind_ok_inv in H. destruct H as (r3 & s3 & E3 & H).
      inversion E3; subst r3 s3; clear E3.
      apply StFacts.bind_ok_inv in H. destruct H as (off & s4 & E4 & H).
      apply StFacts.bind_ok_inv in H. destruct H as (tz & s5 & E5 & H).
      unfold St.lift in E4, E5.
      destruct (guess_timezone_offset _ _); inversion E4; subst s4; clear E4.
      destruct (timezone _); inversion E5; subst s5; clear E5.
      inversion H; subst s'.
      split; [|split; reflexivity]. destruct Hs as [Ha Hq]. split.
      * intros x. cbn. intros X. inversion X; subst x. unfold aware. cbn. discriminate.
      * intros x Hx. apply Hq. exact Hx.
  - intros H.
    apply StFacts.bind_ok_inv in H. destruct H as (items & s1 & E1 & H).
    unfold St.lift in E1.
    destruct (fe_probe (env f)) as [items'|] eqn:Ep; [|discriminate].
    inversion E1; subst items' s1; clear E1.
    apply (store_probe_items_aware items s s'); try assumption.
    intros t v Hin. apply (Hprobe items t v eq_refl Hin).
Qed.

End AwareFacts.

(** Reloading keeps the timestamps aware.  When the AVCHD and QuickTime
    creation-date columns of a row hold no naive datetime (as in a fresh
    row, where they are empty) and the modification time and the QuickTime
    dates read for the file are aware (as [get_mtime] and
    [get_quicktime_tags] build them), then after the body of [reload] has
    returned the two columns still hold no naive datetime and the
    timestamp of the row is an aware datetime. *)
Theorem reloaded_timestamp_is_aware
  (xmp_value : string -> option datetime) (format_seconds : string -> string)
  (env : string -> FileEnv) (current_timestamp_delta : timedelta)
  (dirs : list MplDirectory) (r0 r : Row) :
  aware_env (env (full_path r0)) -> aware_columns r0 ->
  reload_row xmp_value format_seconds env current_timestamp_delta dirs r0
  = (Ok tt, r) ->
  aware_columns r /\ exists t, timestamp r = Some t /\ aware t.
Proof.
  intros Henv Hr0 H.
  destruct (reload_row_steps _ _ _ _ dirs r0 r H)
    as (m & s6 & s7 & s9 & Em & E6 & E7 & E9 & E10).
  (* the columns up to the inference of the offset *)
  assert (A7 : aware_columns s7 /\ mtime s7 = Some m).
  { assert (P6 : tags s6 AVCHD_Timestamp = tags r0 AVCHD_Timestamp
                 /\ tags s6 (Quicktime Quicktime_CreateDate)
                    = tags r0 (Quicktime Quicktime_CreateDate)
                 /\ mtime s6 = Some m).
    { destruct (fe_metadata (env (full_path r0))) as [md|].
      - repeat split.
        + refine (keeps_eq (fun r => tags r AVCHD_Timestamp) _ _ _ _ _ E6).
          unfold reload_exiv_tags, reload_xmp_tag, reload_exif_tag, reload_iptc_tag, upd.
          keeps_steps.
        + refine (keeps_eq (fun r => tags r (Quicktime Quicktime_CreateDate)) _ _ _ _ _ E6).
          unfold reload_exiv_tags, reload_xmp_tag, reload_exif_tag, reload_iptc_tag, upd.
          keeps_steps.
        + refine (keeps_eq mtime _ _ _ _ _ E6).
          unfold reload_exiv_tags, reload_xmp_tag, reload_exif_tag, reload_iptc_tag, upd.
          keeps_steps.
      - inversion E6; subst s6. repeat split. }
    assert (P7 : tags s7 AVCHD_Timestamp = tags s6 AVCHD_Timestamp
                 /\ tags s7 (Quicktime Quicktime_CreateDate)
                    = tags s6 (Quicktime Quicktime_CreateDate)
                 /\ mtime s7 = mtime s6).
    { repeat split.
      - refine (keeps_eq (fun r => tags r AVCHD_Timestamp) _ _ _ _ _ E7).
        unfold infer_exif_offset, upd. keeps_steps.
      - refine (keeps_eq (fun r => tags r (Quicktime Quicktime_CreateDate)) _ _ _ _ _ E7).
        unfold infer_exif_offset, upd. keeps_steps.
      - refine (keeps_eq mtime _ _ _ _ _ E7).
        unfold infer_exif_offset, upd. keeps_steps. }
    destruct P6 as (a6 & q6 & m6). destruct P7 as (a7 & q7 & m7).
    split; [|congruence].
    destruct Hr0 as [Ha Hq]. split; intros v Hv.
    - apply Ha. congruence.
    - apply Hq. congruence. }
  destruct A7 as [A7 M7].
  assert (Hm : aware m) by (destruct Henv as [Hmt _]; now apply Hmt).
  destruct (store_timestamp_ok _ _ E10) as (t & Ht & ->).
  assert (A9 : aware_columns s9
               /\ tags s9 (Exif Exif_Photo_DateTimeOriginal)
                  = tags s7 (Exif Exif_Photo_DateTimeOriginal)
               /\ mtime s9 = Some m).
  { destruct (tags s7 (Exif Exif_Photo_DateTimeOriginal)) eqn:Ed.
    - inversion E9; subst s9. repeat split; try apply A7; assumption.
    - destruct (try_other_tag_sources_aware env dirs _ s7 s9 Henv A7 E9) as (A & D & M).
      split; [assumption|]. split; congruence. }
  destruct A9 as (A9 & D9 & M9).
  split.
  - destruct A9 as [Ha Hq]. split; intros v Hv; [apply Ha|apply Hq]; exact Hv.
  - cbn [set_timestamp timestamp].
    unfold get_timestamp, get_exif_aware_timestamp in Ht.
    destruct (tags s9 (Exif Exif_Photo_DateTimeOriginal)) as [ts|].
    + apply ShiftFacts.py_bind_inv in Ht. destruct Ht as (c & Ec & Ht).
      apply ShiftFacts.py_bind_inv in Ec. destruct Ec as (tz & Etz & Ec).
      inversion Ec; subst c. inversion Ht; subst t.
      eexists. split; [reflexivity|]. unfold aware. cbn. discriminate.
    + cbn [Py.bind] in Ht. destruct A9 as [Ha Hq].
      destruct (tags s9 AVCHD_Timestamp) as [v|] eqn:Ea.
      { inversion Ht; subst t. exists v. split; [reflexivity|]. now apply Ha. }
      destruct (tags s9 (Quicktime Quicktime_CreateDate)) as [v|] eqn:Eq.
      { inversion Ht; subst t. exists v. split; [reflexivity|]. now apply Hq. }
      inversion Ht; subst t. exists m. split; assumption.
Qed.

Lemma reloaded_timestamp_is_aware_witness :
  exists t,
    timestamp (snd (reload_row MainSamples.xmp_value MainSamples.format_seconds
                      MainSamples.env 0 [] (new_row "/p/clip.mov" "clip.mov")))
    = Some t /\ aware t.
Proof.
  destruct (reloaded_timestamp_is_aware MainSamples.xmp_value
              MainSamples.format_seconds MainSamples.env 0 []
              (new_row "/p/clip.mov" "clip.mov")
              (snd (reload_row MainSamples.xmp_value MainSamples.format_seconds
                      MainSamples.env 0 [] (new_row "/p/clip.mov" "clip.mov"))))
    as [_ H].
  - split.
    + intros m Hm. vm_compute in Hm. inversion Hm. discriminate.
    + intros items t v Hp Hin. vm_compute in Hp. inversion Hp; subst items.
      simpl in Hin.
      repeat (destruct Hin as [Hin|Hin]; [inversion Hin; discriminate|]).
      contradiction.
  - split; intros v Hv; discriminate.
  - vm_compute. reflexivity.
  - exact H.
Defined.

(* ===================================================================== *)
(** * write_back: the target zone, the trace and the playlists *)
(* ===================================================================== *)

Module TraceFacts.

Local Open Scope st_scope.

(** The file an effect is about; for [exiftool] it is the third word of
    the command. *)
Definition effect_file (e : effect) : option string :=
  match e with
  | MetadataSet f _ _ => Some f
  | MetadataSetDate f _ _ => Some f
  | MetadataSetTime f _ _ => Some f
  | MetadataSetTimeZoneOffset f _ => Some f
  | MetadataWrite f => Some f
  | Exiftool args => nth_error args 2
  | Utime f _ => Some f
  end.

Definition is_utime (e : effect) : bool :=
  match e with Utime _ _ => true | _ => false end.

Definition is_metadata_set (e : effect) : bool :=
  match e with
  | MetadataSet _ _ _ | MetadataSetDate _ _ _ | MetadataSetTime _ _ _ => true
  | _ => false
  end.

(** A step that only appends effects with a given property to the trace
    and leaves the path of the row alone. *)
Definition grows {A} (P : effect -> Prop) (c : wb A) : Prop :=
  forall s, exists new,
    trace (wb_world (snd (c s))) = trace (wb_world s) ++ new /\ Forall P new.

Lemma grows_same {A} P (c : wb A) :
  (forall s, trace (wb_world (snd (c s))) = trace (wb_world s)) -> grows P c.
Proof. intros H s. exists []. rewrite app_nil_r. split; [apply H|constructor]. Qed.

Lemma grows_ret {A} P (a : A) : grows P (St.ret a).
Proof. apply grows_same. reflexivity. Qed.

Lemma grows_raise {A} P e : grows P (@St.raise wb_state A e).
Proof. apply grows_same. reflexivity. Qed.

Lemma grows_lift {A} P (c : result A) : grows P (St.lift c).
Proof. apply grows_same. reflexivity. Qed.

Lemma grows_get P : grows P (@St.get wb_state).
Proof. apply grows_same. reflexivity. Qed.

Lemma grows_row P : grows P row.
Proof. apply grows_same. reflexivity. Qed.

Lemma grows_upd_row P f : grows P (upd_row f).
Proof. apply grows_same. reflexivity. Qed.

Lemma grows_emit (P : effect -> Prop) e : P e -> grows P (emit e).
Proof.
  intros H s. exists [e]. split; [reflexivity|]. constructor; [assumption|constructor].
Qed.

Lemma grows_bind {A B} P (c : wb A) (k : A -> wb B) :
  grows P c -> (forall a, grows P (k a)) -> grows P (St.bind c k).
Proof.
  intros Hc Hk s. unfold St.bind. destruct (Hc s) as (n1 & E1 & F1).
  destruct (c s) as [[a|e] s1]; simpl in *.
  - destruct (Hk a s1) as (n2 & E2 & F2).
    exists (n1 ++ n2). rewrite E2, E1, app_assoc. split; [reflexivity|].
    apply Forall_app. split; assumption.
  - exists n1. split; assumption.
Qed.

Lemma grows_for_each {A} P (xs : list A) (body : A -> wb unit) :
  (forall x, grows P (body x)) -> grows P (St.for_each xs body).
Proof.
  intros H. induction xs as [|x xs IH]; simpl.
  - apply grows_ret.
  - apply grows_bind; [apply H|intros _; exact IH].
Qed.

Ltac grows_steps :=
  repeat first
    [ apply grows_ret | apply grows_raise | apply grows_lift | apply grows_get
    | apply grows_row | apply grows_upd_row
    | apply grows_for_each; intros
    | apply grows_bind; [|intros]
    | match goal with
      | |- grows _ (match ?x with _ => _ end) => destruct x
      | |- grows _ (let '(_, _) := ?x in _) => destruct x
      end ].

Lemma grows_write_avchd P local file tz d : grows P (write_avchd local file tz d).
Proof.
  unfold write_avchd. grows_steps.
Qed.

Lemma grows_metadata_set (P : effect -> Prop) file md t ts :
  (forall e, effect_file e = Some file -> is_metadata_set e = true -> P e) ->
  grows P (metadata_set file md t ts).
Proof.
  intros H. unfold metadata_set. grows_steps; apply grows_emit; apply H; reflexivity.
Qed.

Lemma grows_write_exiv_tag (P : effect -> Prop) local file md tz d t :
  (forall e, effect_file e = Some file -> is_metadata_set e = true -> P e) ->
  grows P (write_exiv_tag local file md tz d t).
Proof.
  intros H. unfold write_exiv_tag. grows_steps. now apply grows_metadata_set.
Qed.

(** What the body does for a file before [os.utime]. *)
Definition before_utime env (metadata_write : string -> result unit)
           (exiftool_run : list string -> result unit)
           local (hours : Z) (tz : timedelta) (file : string) (ts_delta : timedelta)
  : wb unit :=
  (match fe_metadata (env file) with
   | Some md =>
       St.for_each exiv_timestamp_tags (write_exiv_tag local file md tz ts_delta) ;;;
       r <- row ;;
       match Exif_Image_TimeZoneOffset r with
       | Some _ =>
           upd_row (fun r => set_tz_offset r (Some hours)) ;;;
           emit (MetadataSetTimeZoneOffset file hours)
       | None => St.ret tt
       end ;;;
       St.lift (metadata_write file) ;;;
       emit (MetadataWrite file)
   | None => St.ret tt
   end ;;;
   r <- row ;;
   (if existsb (fun t => match tags r (Quicktime t) with
                         | Some _ => true
                         | None => false
                         end) QUICKTIME_TIMESTAMP_TAGS
    then
      args <- St.lift (format_args local r ts_delta QUICKTIME_TIMESTAMP_TAGS) ;;
      let cmd := "exiftool" :: "-overwrite_original" :: file :: args in
      St.lift (exiftool_run cmd) ;;;
      emit (Exiftool cmd)
    else St.ret tt) ;;;
   write_avchd local file tz ts_delta).

Lemma grows_before_utime env mw er local hours tz file d :
  grows (fun e => effect_file e = Some file /\ is_utime e = false)
    (before_utime env mw er local hours tz file d).
Proof.
  assert (Hset : forall e, effect_file e = Some file -> is_metadata_set e = true ->
                           effect_file e = Some file /\ is_utime e = false).
  { intros e Hf Hm. split; [assumption|]. destruct e; try discriminate; reflexivity. }
  unfold before_utime.
  repeat first
    [ apply grows_write_avchd
    | apply grows_for_each; intros; apply grows_write_exiv_tag; exact Hset
    | apply grows_emit; split; reflexivity
    | apply grows_ret | apply grows_lift | apply grows_row | apply grows_upd_row
    | apply grows_bind; [|intros]
    | match goal with
      | |- grows _ (match ?x with _ => _ end) => destruct x
      | |- grows _ (if ?x then _ else _) => destruct x
      end ].
Qed.

Lemma bind_assoc {S A B C} (c : St.t S A) (k : A -> St.t S B) (k' : B -> St.t S C) s :
  St.bind (St.bind c k) k' s = St.bind c (fun a => St.bind (k a) k') s.
Proof. unfold St.bind. destruct (c s) as [[a|e] s1]; reflexivity. Qed.

Lemma bind_ext {S A B} (c : St.t S A) (k k' : A -> St.t S B) s :
  (forall a s1, k a s1 = k' a s1) -> St.bind c k s = St.bind c k' s.
Proof. intros H. unfold St.bind. destruct (c s) as [[a|e] s1]; [apply H|reflexivity]. Qed.

Lemma write_back_row_unfold env mw er ou local hours tz s :
  write_back_row env mw er ou local hours tz s
  = (let file := full_path (wb_row s) in
     ts_delta <- St.lift (match delta (wb_row s) with
                          | Some d => Ok d
                          | None => Raise TypeError
                          end) ;;
     ts_original <- St.lift (match timestamp (wb_row s) with
                             | Some t => astimezone local t tz
                             | None => Raise AttributeError
                             end) ;;
     ts_new <- St.lift (Datetime.add ts_original ts_delta) ;;
     before_utime env mw er local hours tz file ts_delta ;;;
     St.lift (ou file) ;;;
     emit (Utime file ts_new)) s.
Proof.
  unfold write_back_row, before_utime.
  unfold St.bind at 1. unfold row at 1. cbv zeta.
  apply bind_ext. intros d s1.
  apply bind_ext. intros a s2.
  apply bind_ext. intros n s3.
  symmetry. rewrite bind_assoc. apply bind_ext. intros u s4.
  rewrite bind_assoc. apply bind_ext. intros r s5.
  rewrite bind_assoc. reflexivity.
Qed.

(** How a sequence ends: the first step returned and the rest gave the
    outcome, or the first step raised. *)
Lemma bind_cases {S A B} (c : St.t S A) (k : A -> St.t S B) s res s' :
  St.bind c k s = (res, s') ->
  (exists a s1, c s = (Ok a, s1) /\ k a s1 = (res, s'))
  \/ (exists e, c s = (Raise e, s') /\ res = Raise e).
Proof.
  unfold St.bind. destruct (c s) as [[a|e] s1]; intros H.
  - left. eauto.
  - right. inversion H; subst. eauto.
Qed.

Lemma lift_cases {S A} (c : result A) (s : S) res s' :
  St.lift c s = (res, s') -> c = res /\ s' = s.
Proof. unfold St.lift. intros H. inversion H. split; reflexivity. Qed.

End TraceFacts.

Import TraceFacts.

Import TraceFacts.

(** What the body of [write_back] does to the outside for one row: every
    effect is about the file of that row.  When the body returns, the
    last effect, and the only [os.utime], sets the modification time to
    the timestamp of the row converted to the target zone plus its delta,
    not rounded; when the body raises, [os.utime] has not been called. *)
Theorem write_back_row_trace
  (env : string -> FileEnv) (metadata_write : string -> result unit)
  (exiftool_run : list string -> result unit) (os_utime : string -> result unit)
  (local : datetime -> timedelta) (hours : Z) (tz : timedelta)
  (r : Row) (w : World) :
  let out := write_back_row env metadata_write exiftool_run os_utime local
               hours tz (mkwb r w) in
  exists new,
    trace (wb_world (snd out)) = trace w ++ new
    /\ Forall (fun e => effect_file e = Some (full_path r)) new
    /\ match fst out with
       | Ok _ =>
           exists ts d a ts_new pre,
             timestamp r = Some ts /\ delta r = Some d
             /\ astimezone local ts tz = Ok a /\ Datetime.add a d = Ok ts_new
             /\ new = pre ++ [Utime (full_path r) ts_new]
             /\ Forall (fun e => is_utime e = false) pre
       | Raise _ => Forall (fun e => is_utime e = false) new
       end.
Proof.
  cbv zeta.
  destruct (write_back_row _ _ _ _ _ _ _ _) as [res s'] eqn:H. cbn [fst snd].
  rewrite write_back_row_unfold in H. cbv zeta in H. cbn [wb_row] in H.
  assert (Hstop : forall (e : exn),
            (Raise e, mkwb r w) = (res, s') ->
            exists new : list effect,
              trace (wb_world s') = trace w ++ new
              /\ Forall (fun e => effect_file e = Some (full_path r)) new
              /\ match res with
                 | Ok _ =>
                     exists ts d a ts_new pre,
                       timestamp r = Some ts /\ delta r = Some d
                       /\ astimezone local ts tz = Ok a
                       /\ Datetime.add a d = Ok ts_new
                       /\ new = pre ++ [Utime (full_path r) ts_new]
                       /\ Forall (fun e => is_utime e = false) pre
                 | Raise _ => Forall (fun e => is_utime e = false) new
                 end).
  { intros e X. inversion X; subst res s'. exists []. cbn. rewrite app_nil_r.
    repeat split; constructor. }
  apply bind_cases in H.
  destruct H as [(d & s1 & E1 & H)|(e & E1 & ->)];
    apply lift_cases in E1; destruct E1 as [E1 ->];
    [|apply (Hstop e eq_refl)].
  apply bind_cases in H.
  destruct H as [(a & s2 & E2 & H)|(e & E2 & ->)];
    apply lift_cases in E2; destruct E2 as [E2 ->];
    [|apply (Hstop e eq_refl)].
  apply bind_cases in H.
  destruct H as [(ts_new & s3 & E3 & H)|(e & E3 & ->)];
    apply lift_cases in E3; destruct E3 as [E3 ->];
    [|apply (Hstop e eq_refl)].
  clear Hstop.
  destruct (delta r) as [d'|]; [|discriminate]. inversion E1; subst d'; clear E1.
  destruct (timestamp r) as [ts|]; [|discriminate].
  destruct (grows_before_utime env metadata_write exiftool_run local hours tz
              (full_path r) d (mkwb r w)) as (n1 & G1 & F1).
  assert (Fown : Forall (fun e => effect_file e = Some (full_path r)) n1)
    by (eapply Forall_impl; [|exact F1]; intros x [Hx _]; exact Hx).
  assert (Fnot : Forall (fun e => is_utime e = false) n1)
    by (eapply Forall_impl; [|exact F1]; intros x [_ Hx]; exact Hx).
  apply bind_cases in H.
  destruct H as [(u & s4 & E4 & H)|(e & E4 & ->)]; rewrite E4 in G1; cbn [snd] in G1.
  - apply bind_cases in H.
    destruct H as [(u' & s5 & E5 & H)|(e & E5 & ->)];
      apply lift_cases in E5; destruct E5 as [E5 ->].
    + inversion H; subst res s'. cbn [wb_world trace wb_row].
      exists (n1 ++ [Utime (full_path r) ts_new]).
      rewrite G1, app_assoc. split; [reflexivity|]. split.
      * apply Forall_app. split; [assumption|].
        constructor; [reflexivity|constructor].
      * exists ts, d, a, ts_new, n1. repeat split; assumption.
    + exists n1. repeat split; assumption.
  - exists n1. repeat split; assumption.
Qed.



(** Half-hour offsets go to the even hour: [round] rounds halves to
    even. *)
Example half_hour_zones :
  round_hours (19800 * us_per_second) = Ok 6
  /\ round_hours (16200 * us_per_second) = Ok 4.
Proof. vm_compute. split; reflexivity. Qed.

Import TraceFacts.

(* ===================================================================== *)
(** * write_back: the playlists on disk and a missing EXIF offset *)
(* ===================================================================== *)

Module DiskFacts.

Local Open Scope st_scope.








(** The loop over the tags from which a body raises. *)
Lemma for_each_raises {S A} (Inv : S -> Prop) (xs : list A) (body : A -> St.t S unit) x0 :
  (forall x s u s', Inv s -> body x s = (Ok u, s') -> Inv s') ->
  In x0 xs ->
  (forall s, Inv s -> exists e s', body x0 s = (Raise e, s')) ->
  forall s, Inv s -> exists e s', St.for_each xs body s = (Raise e, s').
Proof.
  intros Hinv Hin Hraise. induction xs as [|x xs IH]; [contradiction|].
  intros s Hs. cbn [St.for_each]. unfold St.bind.
  destruct Hin as [->|Hin].
  - destruct (Hraise s Hs) as (e & s' & E). rewrite E. eauto.
  - destruct (body x s) as [[u|e] s1] eqn:E; [|eauto].
    apply (IH Hin s1). apply (Hinv x s u s1 Hs E).
Qed.

End DiskFacts.

Import DiskFacts.


(** A row that holds an EXIF timestamp but no EXIF offset cannot be
    written back when the metadata of its file can be read: making the
    timestamp aware raises before [metadata.write], so that the body
    raises having at most assigned tags in the metadata in memory; the
    metadata is not written, [exiftool] is not run and the modification
    time is not set. *)
Theorem exif_tag_without_offset_fails
  (env : string -> FileEnv) (metadata_write : string -> result unit)
  (exiftool_run : list string -> result unit) (os_utime : string -> result unit)
  (local : datetime -> timedelta) (hours : Z) (tz : timedelta)
  (r : Row) (w : World) (md : Metadata) (t : exif_tag) (v : datetime) :
  fe_metadata (env (full_path r)) = Some md ->
  Exif_Image_TimeZoneOffset r = None ->
  tags r (Exif t) = Some v ->
  let out := write_back_row env metadata_write exiftool_run os_utime local
               hours tz (mkwb r w) in
  (exists e, fst out = Raise e)
  /\ exists new,
       trace (wb_world (snd out)) = trace w ++ new
       /\ Forall (fun e => is_metadata_set e = true) new.
Proof.
  intros Hmd Hoff Htag. cbv zeta.
  destruct (write_back_row _ _ _ _ _ _ _ _) as [res s'] eqn:H. cbn [fst snd].
  rewrite write_back_row_unfold in H. cbv zeta in H. cbn [wb_row] in H.
  assert (Hstop : forall (e : exn),
            (Raise e, mkwb r w) = (res, s') ->
            (exists e, res = Raise e)
            /\ exists new, trace (wb_world s') = trace w ++ new
                           /\ Forall (fun e => is_metadata_set e = true) new).
  { intros e X. inversion X; subst res s'. split; [eauto|].
    exists []. cbn. rewrite app_nil_r. split; [reflexivity|constructor]. }
  apply bind_cases in H.
  destruct H as [(d & s1 & E1 & H)|(e & E1 & ->)];
    apply lift_cases in E1; destruct E1 as [E1 ->];
    [|apply (Hstop e eq_refl)].
  apply bind_cases in H.
  destruct H as [(a & s2 & E2 & H)|(e & E2 & ->)];
    apply lift_cases in E2; destruct E2 as [E2 ->];
    [|apply (Hstop e eq_refl)].
  apply bind_cases in H.
  destruct H as [(ts_new & s3 & E3 & H)|(e & E3 & ->)];
    apply lift_cases in E3; destruct E3 as [E3 ->];
    [|apply (Hstop e eq_refl)].
  clear Hstop.
  unfold before_utime in H. rewrite Hmd in H.
  rewrite !bind_assoc in H.
  set (body := write_exiv_tag local (full_path r) md tz d) in H.
  set (Inv := fun s : wb_state =>
                Exif_Image_TimeZoneOffset (wb_row s) = None
                /\ tags (wb_row s) (Exif t) <> None).
  assert (Hinv : forall x s u s1, Inv s -> body x s = (Ok u, s1) -> Inv s1).
  { intros x s u s1 [I1 I2] E. unfold body, write_exiv_tag in E.
    apply StFacts.bind_ok_inv in E. destruct E as (r0 & s0 & Er & E).
    inversion Er; subst r0 s0; clear Er.
    apply StFacts.bind_ok_inv in E. destruct E as (ots & s0 & Er & E).
    apply lift_cases in Er. destruct Er as [Er ->].
    destruct ots as [ts|]; [|inversion E; subst; split; assumption].
    apply StFacts.bind_ok_inv in E. destruct E as (ts' & s0 & Es & E).
    apply lift_cases in Es. destruct Es as [Es ->].
    apply StFacts.bind_ok_inv in E. destruct E as (u0 & s0 & Eu & E).
    inversion Eu; subst u0 s0; clear Eu.
    assert (K : Exif_Image_TimeZoneOffset (wb_row s1)
                = Exif_Image_TimeZoneOffset (set_tag (wb_row s) x (Some ts'))
                /\ tags (wb_row s1) = tags (set_tag (wb_row s) x (Some ts'))).
    { split.
      - refine (keeps_eq (fun s => Exif_Image_TimeZoneOffset (wb_row s)) _ _ _ _ _ E).
        unfold metadata_set.
        repeat first
          [ apply StFacts.keeps_raise | apply StFacts.keeps_ret
          | apply StFacts.keeps_bind; [|intros]
          | match goal with
            | |- StFacts.keeps _ (emit _) => intros ?; reflexivity
            | |- StFacts.keeps _ (match ?x with _ => _ end) => destruct x
            end ].
      - refine (keeps_eq (fun s => tags (wb_row s)) _ _ _ _ _ E).
        unfold metadata_set.
        repeat first
          [ apply StFacts.keeps_raise | apply StFacts.keeps_ret
          | apply StFacts.keeps_bind; [|intros]
          | match goal with
            | |- StFacts.keeps _ (emit _) => intros ?; reflexivity
            | |- StFacts.keeps _ (match ?x with _ => _ end) => destruct x
            end ]. }
    destruct K as [K1 K2]. split.
    - rewrite K1. exact I1.
    - rewrite K2. cbn [set_tag tags]. destruct (ts_tag_eqb (Exif t) x); [discriminate|exact I2]. }
  assert (Hraise : forall s, Inv s -> exists e s1, body (Exif t) s = (Raise e, s1)).
  { intros s [I1 I2]. unfold body, write_exiv_tag.
    exists TypeError, s.
    unfold St.bind at 1. unfold row at 1.
    unfold St.bind at 1. unfold St.lift at 1.
    unfold exiv_timestamp, get_exif_aware_timestamp. rewrite I1.
    destruct (tags (wb_row s) (Exif t)); [reflexivity|congruence]. }
  assert (Hin : In (Exif t) exiv_timestamp_tags).
  { unfold exiv_timestamp_tags. apply in_or_app. right. apply in_or_app. right.
    apply in_map. destruct t; simpl; tauto. }
  destruct (for_each_raises Inv exiv_timestamp_tags body (Exif t) Hinv Hin Hraise
              (mkwb r w)) as (e & s1 & Ef).
  { split; cbn [wb_row]; [assumption|congruence]. }
  assert (G : grows (fun e => is_metadata_set e = true)
                (St.for_each exiv_timestamp_tags body)).
  { apply grows_for_each. intros x. apply grows_write_exiv_tag. intros; assumption. }
  destruct (G (mkwb r w)) as (new & Gt & Gf). rewrite Ef in Gt. cbn [snd wb_world] in Gt.
  apply bind_cases in H.
  destruct H as [(u & s4 & E4 & H)|(e' & E4 & ->)]; [congruence|].
  assert (s' = s1) by congruence. subst s'.
  split; [eauto|]. exists new. split; assumption.
Qed.

(** A picture whose only timestamp is [Exif.Image.DateTime]. *)
Definition plain_picture : Metadata :=
  mkMetadata (fun _ => None)
    (fun t => match t with
              | Exif_Image_DateTime => Some (mkdatetime 2020 6 1 10 0 0 0 None)
              | _ => None
              end)
    None None false false false (fun _ => None) (fun _ => None).

Definition plain_env (f : string) : FileEnv :=
  mkFileEnv (Ok MainSamples.noon) (Some plain_picture) (Ok []).

(** The row [reload] makes of it: no offset is inferred, since the
    original-capture date is missing. *)
Definition plain_row : Row :=
  snd (reload_row MainSamples.xmp_value MainSamples.format_seconds plain_env 0 []
         (new_row "/p/plain.jpg" "plain.jpg")).

Example reload_plain_picture :
  fst (reload_row MainSamples.xmp_value MainSamples.format_seconds plain_env 0 []
         (new_row "/p/plain.jpg" "plain.jpg")) = Ok tt
  /\ Exif_Image_TimeZoneOffset plain_row = None
  /\ timestamp plain_row = Some MainSamples.noon.
Proof. vm_compute. repeat split. Qed.

Lemma exif_tag_without_offset_fails_witness :
  exists e,
    fst (write_back_row plain_env (fun _ => Ok tt) (fun _ => Ok tt) (fun _ => Ok tt)
           (fun _ => 0) 0 utc (mkwb plain_row (mkWorld [] []))) = Raise e.
Proof.
  destruct (exif_tag_without_offset_fails plain_env (fun _ => Ok tt) (fun _ => Ok tt)
              (fun _ => Ok tt) (fun _ => 0) 0 utc plain_row (mkWorld [] [])
              plain_picture Exif_Image_DateTime (mkdatetime 2020 6 1 10 0 0 0 None))
    as [H _].
  - reflexivity.
  - vm_compute. reflexivity.
  - vm_compute. reflexivity.
  - exact H.
Defined.

Example write_back_plain_picture :
  fst (write_back_row plain_env (fun _ => Ok tt) (fun _ => Ok tt) (fun _ => Ok tt)
         (fun _ => 0) 0 utc (mkwb plain_row (mkWorld [] []))) = Raise TypeError.
Proof. vm_compute. reflexivity. Qed.

(* ===================================================================== *)
(** * MplFile.read: the header *)
(* ===================================================================== *)

Module ReadFacts.

Local Open Scope io_scope.

Lemma io_bind_ok {A B} (c : io A) (k : A -> io B) h a h1 :
  c h = (Ok a, h1) -> File.bind c k h = k a h1.
Proof. unfold File.bind. intros ->. reflexivity. Qed.

Lemma io_bind_raise {A B} (c : io A) (k : A -> io B) h e h1 :
  c h = (Raise e, h1) -> File.bind c k h = (Raise e, h1).
Proof. unfold File.bind. intros ->. reflexivity. Qed.

Lemma io_bind_cases {A B} (c : io A) (k : A -> io B) h res h' :
  File.bind c k h = (res, h') ->
  (exists a h1, c h = (Ok a, h1) /\ k a h1 = (res, h'))
  \/ (exists e, c h = (Raise e, h') /\ res = Raise e).
Proof.
  unfold File.bind. destruct (c h) as [[a|e] h1]; intros H.
  - left. eauto.
  - right. inversion H; subst. eauto.
Qed.

Lemma read_eq n h :
  File.read n h
  = (Ok (firstn n (skipn (pos h) (data h))),
     mkhandle (data h) (pos h + List.length (firstn n (skipn (pos h) (data h))))).
Proof. reflexivity. Qed.

Lemma seek_cur_eq off d p :
  0 <= Z.of_nat p + off ->
  seek_cur off (mkhandle d p) = (Ok tt, mkhandle d (Z.to_nat (Z.of_nat p + off))).
Proof.
  intros H. unfold seek_cur, seek_to. cbn [pos data].
  destruct (Z.ltb_spec (Z.of_nat p + off) 0); [lia|reflexivity].
Qed.

Lemma signature_length : List.length SIGNATURE = 8%nat.
Proof. reflexivity. Qed.

(** The header of a playlist, up to the number of descriptors. *)
Lemma read_playlist_signature tz db bytes :
  firstn 8 bytes <> SIGNATURE ->
  fst (read_playlist tz db (mkhandle bytes 0)) = Raise MplFileException.
Proof.
  intros H. unfold read_playlist. rewrite signature_length.
  rewrite (io_bind_ok _ _ _ _ _ (read_eq 8 _)). cbn [pos data skipn].
  destruct (bytes_eqb (firstn 8 bytes) SIGNATURE) eqn:E.
  - apply bytes_eqb_eq in E. contradiction.
  - reflexivity.
Qed.

Lemma read_playlist_after_signature tz db bytes :
  firstn 8 bytes = SIGNATURE ->
  read_playlist tz db (mkhandle bytes 0)
  = (r <- File.read 1 ;;
     (if (List.length r =? 1)%nat then ret tt else raise MplFileException) ;;;
     num_desc <- lift (ord r) ;;
     seek_end (- 50 - 66 * num_desc - 36 + 2) ;;;
     read_records (Z.to_nat num_desc) tz db) (mkhandle bytes 65).
Proof.
  intros H. unfold read_playlist. rewrite signature_length.
  rewrite (io_bind_ok _ _ _ _ _ (read_eq 8 _)). cbn [pos data skipn].
  rewrite H. rewrite signature_length.
  replace (bytes_eqb SIGNATURE SIGNATURE) with true
    by (symmetry; now apply bytes_eqb_eq).
  rewrite (io_bind_ok _ _ (mkhandle bytes (0 + 8)) tt (mkhandle bytes (0 + 8)) eq_refl).
  rewrite (io_bind_ok _ _ _ tt (mkhandle bytes 65)); [reflexivity|].
  apply seek_cur_eq. cbn. lia.
Qed.

End ReadFacts.

Import ReadFacts.

(** [MplFile(filepath)] refuses a file that is not a playlist: it raises
    [MplFileException] when the file does not start with the signature or
    ends before its 66th byte, and [OSError] (a seek before the start of
    the file) when the file is too short to hold the number of descriptors
    the 66th byte announces. *)
Theorem read_rejects_bad_header (bytes : list byte) (sc : option tz_dict_t) :
  (firstn 8 bytes <> SIGNATURE ->
   MplFile_init (mkfiles (Some bytes) sc) = Raise MplFileException)
  /\ (firstn 8 bytes = SIGNATURE -> (List.length bytes < 66)%nat ->
      MplFile_init (mkfiles (Some bytes) sc) = Raise MplFileException)
  /\ (forall b,
        firstn 8 bytes = SIGNATURE -> nth_error bytes 65 = Some b ->
        Z.of_nat (List.length bytes) < 84 + 66 * Z_of_byte b ->
        MplFile_init (mkfiles (Some bytes) sc) = Raise OSError).
Proof.
  unfold MplFile_init, MplFile_read. cbn [playlist sidecar db tz_dict].
  split; [|split].
  - intros H.
    pose proof (read_playlist_signature
                  (match sc with Some d => d | None => [] end) [] bytes H) as E.
    destruct (read_playlist _ _ _) as [[x|e] h]; cbn [fst] in E; congruence.
  - intros H Hl. rewrite (read_playlist_after_signature _ _ _ H).
    rewrite (io_bind_ok _ _ _ _ _ (read_eq 1 _)). cbn [pos data].
    rewrite skipn_all2 by lia. reflexivity.
  - intros b H Hb Hl. rewrite (read_playlist_after_signature _ _ _ H).
    rewrite (io_bind_ok _ _ _ _ _ (read_eq 1 _)). cbn [pos data].
    assert (E1 : firstn 1 (skipn 65 bytes) = [b]).
    { apply nth_error_split in Hb. destruct Hb as (l1 & l2 & -> & Hlen).
      rewrite skipn_app, skipn_all2 by lia.
      replace (65 - List.length l1)%nat with 0%nat by lia. reflexivity. }
    rewrite E1. cbn [List.length Nat.eqb].
    rewrite (io_bind_ok _ _ _ tt _ eq_refl).
    rewrite (io_bind_ok _ _ _ (Z_of_byte b) _ eq_refl).
    unfold File.bind at 1. unfold seek_end, seek_to. cbn [data pos].
    destruct (Z.ltb_spec (Z.of_nat (List.length bytes)
                          + (- 50 - 66 * Z_of_byte b - 36 + 2)) 0); [reflexivity|lia].
Qed.

Lemma read_rejects_bad_header_witness :
  MplFile_init (mkfiles (Some (firstn 200 Samples.two_clips)) None) = Raise OSError.
Proof.
  destruct (read_rejects_bad_header (firstn 200 Samples.two_clips) None) as (_ & _ & H).
  apply (H x02).
  - vm_compute. reflexivity.
  - vm_compute. reflexivity.
  - vm_compute. reflexivity.
Defined.

Import ReadFacts.

(* ===================================================================== *)
(** * Clip names and clip ids *)
(* ===================================================================== *)

Module CodecFacts.

Lemma Z_of_byte_range b : 0 <= Z_of_byte b < 256.
Proof. destruct b; vm_compute; split; congruence. Qed.

Lemma byte_of_Z_of_byte b : byte_of_Z (Z_of_byte b) = b.
Proof. destruct b; reflexivity. Qed.

Lemma byte_of_Z_mod n : byte_of_Z (n mod 256) = byte_of_Z n.
Proof. unfold byte_of_Z. rewrite Z.mod_mod by lia. reflexivity. Qed.

Lemma from_bytes_two a b : from_bytes [a; b] = Z_of_byte a * 256 + Z_of_byte b.
Proof. unfold from_bytes. cbn [fold_left]. lia. Qed.

Lemma from_bytes_range bs :
  List.length bs = 2%nat -> 0 <= from_bytes bs < 65536.
Proof.
  destruct bs as [|a [|b [|c bs]]]; try discriminate. intros _.
  rewrite from_bytes_two.
  pose proof (Z_of_byte_range a). pose proof (Z_of_byte_range b). lia.
Qed.

(** [int.from_bytes] and [to_bytes] on two bytes. *)
Lemma to_bytes_from_bytes bs :
  List.length bs = 2%nat -> to_bytes 2 (from_bytes bs) = Ok bs.
Proof.
  intros H. pose proof (from_bytes_range bs H) as R.
  destruct bs as [|a [|b [|c bs]]]; try discriminate.
  unfold to_bytes.
  destruct (Z.leb_spec 0 (from_bytes [a; b])); [|lia].
  destruct (Z.ltb_spec (from_bytes [a; b]) (256 ^ Z.of_nat 2)); [|simpl in *; lia].
  cbn [andb to_bytes_loop]. rewrite from_bytes_two.
  pose proof (Z_of_byte_range a). pose proof (Z_of_byte_range b).
  f_equal. f_equal.
  - replace ((Z_of_byte a * 256 + Z_of_byte b) / 256) with (Z_of_byte a).
    + apply byte_of_Z_of_byte.
    + apply (Z.div_unique _ 256 _ (Z_of_byte b)); lia.
  - f_equal. rewrite <- byte_of_Z_mod.
    replace ((Z_of_byte a * 256 + Z_of_byte b) mod 256) with (Z_of_byte b).
    + apply byte_of_Z_of_byte.
    + apply (Z.mod_unique _ 256 (Z_of_byte a) (Z_of_byte b)); lia.
Qed.

(** Decimal digits and [int]. *)
Definition decimal_digit_ok (d : Z) : bool :=
  match digit_value 10 (digit_char d) with Some d' => d' =? d | None => false end.

Lemma decimal_digits_checked : forallb decimal_digit_ok (map Z.of_nat (seq 0 (Z.to_nat 10))) = true.
Proof. vm_compute. reflexivity. Qed.

Lemma digit_value_digit_char d :
  0 <= d < 10 -> digit_value 10 (digit_char d) = Some d.
Proof.
  intros H. pose proof (forallb_range _ _ decimal_digits_checked d H) as C.
  unfold decimal_digit_ok in C. destruct (digit_value 10 (digit_char d)); [|discriminate].
  apply Z.eqb_eq in C. congruence.
Qed.

Lemma int_loop_digits_loop fuel : forall n acc,
  0 <= n < 2 ^ Z.of_nat fuel ->
  exists k, 0 < k /\ forall x,
    int_loop 10 (digits_loop fuel 10 n acc) x = int_loop 10 acc (x * k + n).
Proof.
  induction fuel as [|fuel IH]; intros n acc Hn.
  - simpl in Hn. assert (n = 0) by lia. subst n.
    exists 1. split; [lia|]. intros x. cbn [digits_loop]. f_equal. lia.
  - cbn [digits_loop]. cbv zeta.
    assert (Hmod : 0 <= n mod 10 < 10) by (apply Z.mod_pos_bound; lia).
    pose proof (Z.div_mod n 10 ltac:(lia)) as Hdm.
    destruct (Z.eqb_spec (n / 10) 0) as [Hz|Hnz].
    + exists 10. split; [lia|]. intros x. cbn [int_loop].
      rewrite (digit_value_digit_char _ Hmod). f_equal. lia.
    + assert (Hq : 0 <= n / 10 < 2 ^ Z.of_nat fuel).
      { split; [apply Z.div_pos; lia|].
        rewrite Nat2Z.inj_succ, Z.pow_succ_r in Hn by lia.
        apply Z.div_lt_upper_bound; lia. }
      destruct (IH (n / 10) (String (digit_char (n mod 10)) acc) Hq) as (k & Hk & E).
      exists (k * 10). split; [lia|]. intros x. rewrite E. cbn [int_loop].
      rewrite (digit_value_digit_char _ Hmod). f_equal. lia.
Qed.

Lemma digits_loop_not_empty fuel n acc :
  digits_loop (S fuel) 10 n acc <> EmptyString.
Proof.
  revert n acc. induction fuel as [|fuel IH]; intros n acc.
  - cbn. destruct (n / 10 =? 0); discriminate.
  - cbn [digits_loop]. cbv zeta. destruct (n / 10 =? 0); [discriminate|apply IH].
Qed.

Lemma int_loop_format_d n : 0 <= n -> int_loop 10 (format_d n) 0 = Ok n.
Proof.
  intros Hn. unfold format_d, digits.
  destruct (int_loop_digits_loop (S (Z.to_nat (Z.log2 n))) n "") as (k & _ & E).
  - split; [assumption|].
    rewrite Nat2Z.inj_succ, Z2Nat.id by apply Z.log2_nonneg.
    destruct (Z.eq_dec n 0) as [->|Hne]; [reflexivity|].
    apply Z.log2_spec. lia.
  - rewrite E. reflexivity.
Qed.

Lemma int_loop_zeros k s : int_loop 10 (replicate k "0" ++ s) 0 = int_loop 10 s 0.
Proof. induction k as [|k IH]; [reflexivity|]. cbn. exact IH. Qed.

Lemma append_not_empty a b : b <> EmptyString -> (a ++ b)%string <> EmptyString.
Proof. destruct a; [auto|discriminate]. Qed.

Lemma int_of_str_padded w n :
  0 <= n -> int_of_str 10 (format_0wd w n) = Ok n.
Proof.
  intros Hn. unfold format_0wd, pad_left.
  assert (Hne : format_d n <> EmptyString) by apply digits_loop_not_empty.
  unfold int_of_str.
  destruct (replicate _ _ ++ format_d n)%string eqn:E.
  - exfalso. revert E. now apply append_not_empty.
  - rewrite <- E. rewrite int_loop_zeros. now apply int_loop_format_d.
Qed.

Lemma substring_prefix s t : String.substring 0 (String.length s) (s ++ t) = s.
Proof.
  induction s as [|c s IH]; cbn.
  - destruct t; reflexivity.
  - now rewrite IH.
Qed.

Lemma drop_last4_mts_name n : drop_last4 (mts_name n) = format_0wd 5 n.
Proof.
  unfold drop_last4, mts_name.
  rewrite string_length_append. cbn [String.length].
  replace (String.length (format_0wd 5 n) + 4 - 4)%nat
    with (String.length (format_0wd 5 n)) by lia.
  apply substring_prefix.
Qed.

(** The name of a clip gives its number back. *)
Lemma int_of_mts_name n :
  0 <= n -> int_of_str 10 (drop_last4 (mts_name n)) = Ok n.
Proof. intros H. rewrite drop_last4_mts_name. now apply int_of_str_padded. Qed.

End CodecFacts.

Import CodecFacts.

(* ===================================================================== *)
(** * MplFile.read: what a descriptor holds *)
(* ===================================================================== *)

Module LayoutFacts.

Import ReadFacts CodecFacts.
Local Open Scope io_scope.

(** One packed field of one byte at offset [q]. *)
Definition field_at (d : list byte) (q : nat) : result Z :=
  (v <- ord (firstn 1 (skipn q d)) ;; int_of_str 10 (format_x v))%py.

(** The seven packed bytes at offset [q] as a datetime. *)
Definition decode_at (d : list byte) (q : nat) : result datetime :=
  (y <- Packed.decode (firstn 2 (skipn q d)) ;;
   mo <- field_at d (q + 2) ;;
   da <- field_at d (q + 3) ;;
   ho <- field_at d (q + 4) ;;
   mi <- field_at d (q + 5) ;;
   se <- field_at d (q + 6) ;;
   Datetime.make y mo da ho mi se)%py.

(** The offset the sidecar gives a clip. *)
Definition zoned (tz : tz_dict_t) (name : string) (dt0 : datetime) : result datetime :=
  match Dict.get name tz with
  | Some off => (tzi <- timezone off ;; Ok (replace_tzinfo dt0 (Some tzi)))%py
  | None => Ok dt0
  end.

(** The descriptor of 66 bytes at offset [p] describes the clip [name]
    with the record [info]. *)
Definition described (tz : tz_dict_t) (d : list byte) (p : nat)
           (name : string) (info : MtsInfo) : Prop :=
  firstn 8 (skipn (p + 36) d) = time_stamp_sig
  /\ List.length (firstn 2 (skipn (p + 44) d)) = 2%nat
  /\ name = mts_name (from_bytes (firstn 2 (skipn (p + 44) d)))
  /\ firstn 1 (skipn (p + 46) d) = [x1e]
  /\ List.length (firstn 2 (skipn (p + 47) d)) = 2%nat
  /\ (exists dt0, decode_at d (p + 47) = Ok dt0
                  /\ zoned tz name dt0 = Ok (info_datetime info))
  /\ is_kind_marker (firstn 2 (skipn (p + 54) d)) = true
  /\ firstn 10 (skipn (p + 56) d) = date_stamp (info_datetime info)
  /\ seek_pos info = (p + 44)%nat /\ dirty info = false.

(** ** The steps of a read *)

Lemma bind_read {B} n (k : list byte -> io B) h :
  File.bind (File.read n) k h
  = k (firstn n (skipn (pos h) (data h)))
      (mkhandle (data h) (pos h + List.length (firstn n (skipn (pos h) (data h))))).
Proof. reflexivity. Qed.

Lemma bind_tell {B} (k : nat -> io B) h : File.bind tell k h = k (pos h) h.
Proof. reflexivity. Qed.

Lemma bind_ret {A B} (a : A) (k : A -> io B) h : File.bind (ret a) k h = k a h.
Proof. reflexivity. Qed.

Lemma bind_assert {B} b (k : unit -> io B) h :
  File.bind (File.assert b) k h = if b then k tt h else (Raise AssertionError, h).
Proof. destruct b; reflexivity. Qed.

Lemma bind_lift {A B} (c : result A) (k : A -> io B) h :
  File.bind (lift c) k h
  = match c with Ok a => k a h | Raise e => (Raise e, h) end.
Proof. destruct c; reflexivity. Qed.

Lemma bind_seek_cur {B} off (k : unit -> io B) d p :
  File.bind (seek_cur (Z.of_nat off)) k (mkhandle d p) = k tt (mkhandle d (p + off)).
Proof.
  unfold File.bind. rewrite seek_cur_eq by lia. do 2 f_equal. lia.
Qed.

Lemma io_bind_assoc {A B C} (c : io A) (k : A -> io B) (k' : B -> io C) h :
  File.bind (File.bind c k) k' h = File.bind c (fun a => File.bind (k a) k') h.
Proof. unfold File.bind. destruct (c h) as [[a|e] h1]; reflexivity. Qed.

Lemma bind_read_field {B} (k : Z -> io B) d q :
  File.bind read_field k (mkhandle d q)
  = match field_at d q with
    | Ok v => k v (mkhandle d (q + 1))
    | Raise e => (Raise e, mkhandle d (q + List.length (firstn 1 (skipn q d))))
    end.
Proof.
  unfold read_field, field_at. rewrite io_bind_assoc, bind_read. cbn [pos data].
  rewrite io_bind_assoc, bind_lift.
  destruct (firstn 1 (skipn q d)) as [|b [|b' l]]; cbn [ord Py.bind]; reflexivity.
Qed.

Lemma bind_zoned {B} tz name dt (k : datetime -> io B) h :
  File.bind (match Dict.get name tz with
             | Some off =>
                 tzi <- lift (timezone off) ;; ret (replace_tzinfo dt (Some tzi))
             | None => ret dt
             end) k h
  = match zoned tz name dt with Ok dt' => k dt' h | Raise e => (Raise e, h) end.
Proof.
  unfold zoned. destruct (Dict.get name tz) as [off|]; [|reflexivity].
  rewrite io_bind_assoc, bind_lift. destruct (timezone off); reflexivity.
Qed.

(** A read that comes short is the last one that gets anything. *)
Lemma full_read n q (d : list byte) m :
  firstn m (skipn (q + List.length (firstn n (skipn q d))) d) <> [] ->
  List.length (firstn n (skipn q d)) = n.
Proof.
  intros H. rewrite length_firstn, length_skipn in *.
  destruct (Nat.le_gt_cases n (List.length d - q)) as [Hle|Hgt]; [lia|].
  exfalso. apply H. rewrite skipn_all2 by lia. apply firstn_nil.
Qed.

Lemma field_at_ok d q v :
  field_at d q = Ok v -> exists b, firstn 1 (skipn q d) = [b].
Proof.
  unfold field_at. destruct (firstn 1 (skipn q d)) as [|b [|b' l]]; try discriminate.
  eauto.
Qed.

Lemma make_ok y mo da ho mi se dt :
  Datetime.make y mo da ho mi se = Ok dt ->
  dt = mkdatetime y mo da ho mi se 0 None /\ wf_datetime dt = true.
Proof.
  unfold Datetime.make. destruct (valid_fields y mo da ho mi se 0) eqn:E; [|discriminate].
  intros H. inversion H; subst. split; [reflexivity|exact E].
Qed.

Lemma decode_at_ok d q dt :
  decode_at d q = Ok dt ->
  wf_datetime dt = true /\ microsecond dt = 0 /\ tzinfo dt = None.
Proof.
  unfold decode_at. intros H.
  repeat (apply ShiftFacts.py_bind_inv in H; destruct H as (? & _ & H)).
  apply make_ok in H. destruct H as [-> V]. repeat split. exact V.
Qed.

Lemma zoned_ok tz name dt0 dt :
  zoned tz name dt0 = Ok dt ->
  wf_datetime dt = wf_datetime dt0 /\ microsecond dt = microsecond dt0
  /\ date_stamp dt = date_stamp dt0
  /\ match Dict.get name tz with
     | Some off => tzinfo dt = Some off /\ - us_per_day < off < us_per_day
     | None => dt = dt0
     end.
Proof.
  unfold zoned. destruct (Dict.get name tz) as [off|].
  - intros H. apply ShiftFacts.py_bind_inv in H. destruct H as (tzi & E & H).
    inversion H; subst dt. unfold timezone in E.
    destruct (Z.ltb_spec (- us_per_day) off); [|discriminate].
    destruct (Z.ltb_spec off us_per_day); [|discriminate].
    inversion E; subst tzi. repeat split; assumption.
  - intros H. inversion H; subst. repeat split.
Qed.

(** ** One descriptor *)

Lemma read_record_sound tz d p name info h' :
  read_record tz (mkhandle d p) = (Ok (name, info), h') ->
  described tz d p name info /\ h' = mkhandle d (p + 66).
Proof.
  unfold read_record. intros H.
  change 36 with (Z.of_nat 36) in H. rewrite bind_seek_cur in H.
  rewrite bind_read in H. cbn [pos data] in H.
  rewrite bind_assert in H.
  destruct (bytes_eqb (firstn (List.length time_stamp_sig) (skipn (p + 36) d))
              time_stamp_sig) eqn:Esig; [|discriminate].
  apply bytes_eqb_eq in Esig. rewrite Esig in H.
  change (List.length time_stamp_sig) with 8%nat in *.
  rewrite bind_tell in H. cbn [pos data] in H.
  replace (p + 36 + 8)%nat with (p + 44)%nat in H by lia.
  rewrite bind_read in H. cbn [pos data] in H.
  set (id := firstn 2 (skipn (p + 44) d)) in *.
  rewrite bind_read in H. cbn [pos data] in H.
  rewrite bind_assert in H.
  destruct (bytes_eqb (firstn 1 (skipn (p + 44 + List.length id) d)) [x1e]) eqn:Esep;
    [|discriminate].
  apply bytes_eqb_eq in Esep.
  assert (Lid : List.length id = 2%nat).
  { apply (full_read 2 (p + 44) d 1). fold id. rewrite Esep. discriminate. }
  rewrite Esep in H. rewrite Lid in *. cbn [List.length] in H.
  replace (p + 44 + 2)%nat with (p + 46)%nat in * by lia.
  replace (p + 46 + 1)%nat with (p + 47)%nat in H by lia.
  rewrite bind_read in H. cbn [pos data] in H.
  set (yb := firstn 2 (skipn (p + 47) d)) in *.
  rewrite bind_lift in H.
  destruct (Packed.decode yb) as [y|] eqn:Ey; [|discriminate].
  rewrite bind_read_field in H.
  destruct (field_at d (p + 47 + List.length yb)) as [mo|] eqn:Emo; [|discriminate].
  assert (Lyb : List.length yb = 2%nat).
  { apply (full_read 2 (p + 47) d 1). fold yb.
    destruct (field_at_ok _ _ _ Emo) as [b ->]. discriminate. }
  rewrite Lyb in *.
  replace (p + 47 + 2)%nat with (p + 49)%nat in * by lia.
  rewrite bind_read_field in H.
  replace (p + 49 + 1)%nat with (p + 50)%nat in H by lia.
  destruct (field_at d (p + 50)) as [da|] eqn:Eda; [|discriminate].
  rewrite bind_read_field in H.
  replace (p + 50 + 1)%nat with (p + 51)%nat in H by lia.
  destruct (field_at d (p + 51)) as [ho|] eqn:Eho; [|discriminate].
  rewrite bind_read_field in H.
  replace (p + 51 + 1)%nat with (p + 52)%nat in H by lia.
  destruct (field_at d (p + 52)) as [mi|] eqn:Emi; [|discriminate].
  rewrite bind_read_field in H.
  replace (p + 52 + 1)%nat with (p + 53)%nat in H by lia.
  destruct (field_at d (p + 53)) as [se|] eqn:Ese; [|discriminate].
  replace (p + 53 + 1)%nat with (p + 54)%nat in H by lia.
  rewrite bind_lift in H.
  destruct (Datetime.make y mo da ho mi se) as [dt0|] eqn:Emake; [|discriminate].
  rewrite bind_zoned in H.
  destruct (zoned tz (mts_name (from_bytes id)) dt0) as [dt|] eqn:Ez; [|discriminate].
  rewrite bind_read in H. cbn [pos data] in H.
  set (kind := firstn 2 (skipn (p + 54) d)) in *.
  rewrite bind_assert in H.
  destruct (is_kind_marker kind) eqn:Ekind; [|discriminate].
  pose proof (kind_marker_length _ Ekind) as Lkind. rewrite Lkind in H.
  replace (p + 54 + 2)%nat with (p + 56)%nat in H by lia.
  rewrite bind_read in H. cbn [pos data] in H.
  rewrite bind_assert in H.
  destruct (bytes_eqb (firstn 10 (skipn (p + 56) d)) (date_stamp dt)) eqn:Estamp;
    [|discriminate].
  apply bytes_eqb_eq in Estamp.
  assert (Vdt : wf_datetime dt = true).
  { destruct (zoned_ok _ _ _ _ Ez) as (V & _).
    destruct (make_ok _ _ _ _ _ _ _ Emake) as [_ V0]. congruence. }
  rewrite Estamp, date_stamp_length in H by assumption.
  replace (p + 56 + 10)%nat with (p + 66)%nat in H by lia.
  unfold ret in H. injection H as <- <- <-.
  split.
  - unfold described. cbn [info_datetime seek_pos dirty].
    fold id. fold yb. fold kind.
    repeat split; try assumption; try reflexivity.
    exists dt0. split; [|assumption].
    unfold decode_at. fold yb. rewrite Ey. cbn [Py.bind].
    replace (p + 47 + 2)%nat with (p + 49)%nat by lia.
    replace (p + 47 + 3)%nat with (p + 50)%nat by lia.
    replace (p + 47 + 4)%nat with (p + 51)%nat by lia.
    replace (p + 47 + 5)%nat with (p + 52)%nat by lia.
    replace (p + 47 + 6)%nat with (p + 53)%nat by lia.
    rewrite Emo, Eda, Eho, Emi, Ese. cbn [Py.bind]. exact Emake.
  - reflexivity.
Qed.

Lemma read_record_complete tz d p name info :
  described tz d p name info -> wf_datetime (info_datetime info) = true ->
  read_record tz (mkhandle d p)
  = (Ok (name, mkMtsInfo (p + 44) (info_datetime info) false), mkhandle d (p + 66)).
Proof.
  intros (Hsig & Lid & Hname & Hsep & Lyb & (dt0 & Hdec & Hz) & Hkind & Hstamp & Hpos & Hd) V.
  unfold decode_at in Hdec.
  apply ShiftFacts.py_bind_inv in Hdec. destruct Hdec as (y & Ey & Hdec).
  apply ShiftFacts.py_bind_inv in Hdec. destruct Hdec as (mo & Emo & Hdec).
  apply ShiftFacts.py_bind_inv in Hdec. destruct Hdec as (da & Eda & Hdec).
  apply ShiftFacts.py_bind_inv in Hdec. destruct Hdec as (ho & Eho & Hdec).
  apply ShiftFacts.py_bind_inv in Hdec. destruct Hdec as (mi & Emi & Hdec).
  apply ShiftFacts.py_bind_inv in Hdec. destruct Hdec as (se & Ese & Emake).
  replace (p + 47 + 2)%nat with (p + 49)%nat in * by lia.
  replace (p + 47 + 3)%nat with (p + 50)%nat in * by lia.
  replace (p + 47 + 4)%nat with (p + 51)%nat in * by lia.
  replace (p + 47 + 5)%nat with (p + 52)%nat in * by lia.
  replace (p + 47 + 6)%nat with (p + 53)%nat in * by lia.
  unfold read_record.
  change 36 with (Z.of_nat 36). rewrite bind_seek_cur.
  rewrite bind_read. cbn [pos data].
  change (List.length time_stamp_sig) with 8%nat. rewrite Hsig.
  rewrite bind_assert.
  replace (bytes_eqb time_stamp_sig time_stamp_sig) with true
    by (symmetry; now apply bytes_eqb_eq).
  rewrite bind_tell. cbn [pos data].
  change (List.length time_stamp_sig) with 8%nat.
  replace (p + 36 + 8)%nat with (p + 44)%nat by lia.
  rewrite bind_read. cbn [pos data]. rewrite Lid.
  replace (p + 44 + 2)%nat with (p + 46)%nat by lia.
  rewrite bind_read. cbn [pos data]. rewrite Hsep.
  rewrite bind_assert.
  replace (bytes_eqb [x1e] [x1e]) with true by (symmetry; now apply bytes_eqb_eq).
  cbn [List.length]. replace (p + 46 + 1)%nat with (p + 47)%nat by lia.
  rewrite bind_read. cbn [pos data]. rewrite Lyb.
  replace (p + 47 + 2)%nat with (p + 49)%nat by lia.
  rewrite bind_lift, Ey.
  rewrite bind_read_field, Emo. replace (p + 49 + 1)%nat with (p + 50)%nat by lia.
  rewrite bind_read_field, Eda. replace (p + 50 + 1)%nat with (p + 51)%nat by lia.
  rewrite bind_read_field, Eho. replace (p + 51 + 1)%nat with (p + 52)%nat by lia.
  rewrite bind_read_field, Emi. replace (p + 52 + 1)%nat with (p + 53)%nat by lia.
  rewrite bind_read_field, Ese. replace (p + 53 + 1)%nat with (p + 54)%nat by lia.
  rewrite bind_lift, Emake.
  rewrite bind_zoned. rewrite <- Hname, Hz.
  rewrite bind_read. cbn [pos data].
  rewrite bind_assert, Hkind. rewrite (kind_marker_length _ Hkind).
  replace (p + 54 + 2)%nat with (p + 56)%nat by lia.
  rewrite bind_read. cbn [pos data]. rewrite Hstamp.
  rewrite bind_assert.
  replace (bytes_eqb (date_stamp (info_datetime info)) (date_stamp (info_datetime info)))
    with true by (symmetry; now apply bytes_eqb_eq).
  rewrite date_stamp_length by assumption.
  unfold ret. do 2 f_equal. lia.
Qed.

End LayoutFacts.

Import LayoutFacts.

(* ===================================================================== *)
(** * Dictionaries *)
(* ===================================================================== *)

Module DictFacts.

Lemma get_set_same {V} k (v : V) d : Dict.get k (Dict.set k v d) = Some v.
Proof.
  induction d as [|[k' v'] d IH]; simpl.
  - now rewrite String.eqb_refl.
  - destruct (String.eqb_spec k k') as [->|Hne]; simpl.
    + now rewrite String.eqb_refl.
    + destruct (String.eqb_spec k k'); [contradiction|exact IH].
Qed.

Lemma get_set_other {V} k k' (v : V) d :
  k <> k' -> Dict.get k' (Dict.set k v d) = Dict.get k' d.
Proof.
  intros Hne. induction d as [|[k0 v0] d IH]; simpl.
  - destruct (String.eqb_spec k' k); [congruence|reflexivity].
  - destruct (String.eqb_spec k k0) as [->|H0]; simpl.
    + destruct (String.eqb_spec k' k0); [congruence|reflexivity].
    + destruct (String.eqb_spec k' k0); [reflexivity|exact IH].
Qed.

Lemma get_pop_other {V} k k' (d : Dict.t V) :
  k <> k' -> Dict.get k' (Dict.pop k d) = Dict.get k' d.
Proof.
  intros Hne. induction d as [|[k0 v0] d IH]; simpl; [reflexivity|].
  destruct (String.eqb_spec k k0) as [->|H0]; simpl.
  - destruct (String.eqb_spec k' k0); [congruence|reflexivity].
  - destruct (String.eqb_spec k' k0); [reflexivity|exact IH].
Qed.

Lemma get_none {V} k (d : Dict.t V) : Dict.get k d = None <-> ~ In k (keys d).
Proof.
  induction d as [|[k0 v0] d IH]; simpl; [tauto|].
  destruct (String.eqb_spec k k0) as [->|H0].
  - split; [discriminate|]. intros H. exfalso. apply H. now left.
  - rewrite IH. split; intros H; [intros [E|E]; [congruence|auto]|tauto].
Qed.

Lemma get_some_in {V} k (v : V) d : Dict.get k d = Some v -> In (k, v) d.
Proof.
  induction d as [|[k0 v0] d IH]; simpl; [discriminate|].
  destruct (String.eqb_spec k k0) as [->|H0].
  - intros H. inversion H; subst. now left.
  - intros H. right. now apply IH.
Qed.

Lemma get_in {V} k (v : V) d : NoDup (keys d) -> In (k, v) d -> Dict.get k d = Some v.
Proof.
  induction d as [|[k0 v0] d IH]; simpl; [contradiction|].
  intros Hnd [H|H].
  - inversion H; subst. now rewrite String.eqb_refl.
  - inversion Hnd as [|? ? Hnot Hnd']; subst.
    destruct (String.eqb_spec k k0) as [->|H0].
    + exfalso. apply Hnot. apply (in_map fst) in H. exact H.
    + now apply IH.
Qed.

Lemma in_keys_pop {V} k k' (d : Dict.t V) : In k' (keys (Dict.pop k d)) -> In k' (keys d).
Proof.
  induction d as [|[k0 v0] d IH]; simpl; [tauto|].
  destruct (String.eqb k k0); simpl; [tauto|]. intros [H|H]; [now left|right; auto].
Qed.

Lemma NoDup_pop {V} k (d : Dict.t V) : NoDup (keys d) -> NoDup (keys (Dict.pop k d)).
Proof.
  induction d as [|[k0 v0] d IH]; simpl; [trivial|].
  intros Hnd. inversion Hnd as [|? ? Hnot Hnd']; subst.
  destruct (String.eqb k k0); simpl; [assumption|].
  constructor; [|auto]. intros H. apply Hnot. eapply in_keys_pop; eauto.
Qed.

Lemma get_pop_same {V} k (d : Dict.t V) :
  NoDup (keys d) -> Dict.get k (Dict.pop k d) = None.
Proof.
  induction d as [|[k0 v0] d IH]; simpl; [reflexivity|].
  intros Hnd. inversion Hnd as [|? ? Hnot Hnd']; subst.
  destruct (String.eqb_spec k k0) as [->|H0]; simpl.
  - now apply get_none.
  - destruct (String.eqb_spec k k0); [contradiction|auto].
Qed.

Lemma keys_set_in {V} k (v : V) d : In k (keys d) -> keys (Dict.set k v d) = keys d.
Proof.
  induction d as [|[k0 v0] d IH]; simpl; [contradiction|].
  destruct (String.eqb_spec k k0) as [->|H0]; simpl; [reflexivity|].
  intros [H|H]; [congruence|]. now rewrite IH.
Qed.

Lemma keys_set_new {V} k (v : V) d :
  ~ In k (keys d) -> keys (Dict.set k v d) = keys d ++ [k].
Proof.
  induction d as [|[k0 v0] d IH]; simpl; [reflexivity|].
  destruct (String.eqb_spec k k0) as [->|H0]; simpl; [tauto|].
  intros H. rewrite IH by tauto. reflexivity.
Qed.

Lemma keys_set_fun {V W} k (v : V) (w : W) d e :
  keys d = keys e -> keys (Dict.set k v d) = keys (Dict.set k w e).
Proof.
  intros H. destruct (in_dec string_dec k (keys d)) as [Hin|Hout].
  - rewrite !keys_set_in by congruence. exact H.
  - rewrite !keys_set_new by congruence. now rewrite H.
Qed.

Lemma NoDup_set {V} k (v : V) d : NoDup (keys d) -> NoDup (keys (Dict.set k v d)).
Proof.
  intros Hnd. destruct (in_dec string_dec k (keys d)) as [Hin|Hout].
  - now rewrite keys_set_in.
  - rewrite keys_set_new by assumption.
    apply NoDup_rev in Hnd. rewrite <- (rev_involutive (keys d ++ [k])).
    apply NoDup_rev. rewrite rev_app_distr. simpl. constructor; [|assumption].
    now rewrite <- in_rev.
Qed.

(** Two dictionaries with the same keys in the same order and the same
    value for each are the same. *)
Lemma dict_ext {V} (d e : Dict.t V) :
  NoDup (keys d) -> keys d = keys e ->
  (forall k, Dict.get k d = Dict.get k e) -> d = e.
Proof.
  revert e. induction d as [|[k v] d IH]; intros [|[k' v'] e] Hnd Hk Hg;
    try discriminate; [reflexivity|].
  simpl in Hk. inversion Hk; subst k'.
  inversion Hnd as [|? ? Hnot Hnd']; subst.
  pose proof (Hg k) as Hgk. simpl in Hgk. rewrite String.eqb_refl in Hgk.
  inversion Hgk; subst v'. f_equal. apply IH; [assumption..|].
  intros k0. destruct (String.eqb_spec k0 k) as [->|Hne].
  - transitivity (@None V); [|symmetry]; apply get_none; [|rewrite <- H1]; exact Hnot.
  - specialize (Hg k0). simpl in Hg.
    destruct (String.eqb_spec k0 k); [contradiction|exact Hg].
Qed.

(** The bindings of a list assigned one after the other. *)
Definition fold_set {V} (l : list (string * V)) (d : Dict.t V) : Dict.t V :=
  fold_left (fun d r => Dict.set (fst r) (snd r) d) l d.

(** The value of the last binding of a key in a list. *)
Fixpoint last_of {V} (k : string) (l : list (string * V)) : option V :=
  match l with
  | [] => None
  | (k', v) :: l' =>
      match last_of k l' with
      | Some v' => Some v'
      | None => if String.eqb k k' then Some v else None
      end
  end.

Lemma get_fold_set {V} k (l : list (string * V)) : forall d,
  Dict.get k (fold_set l d)
  = match last_of k l with Some v => Some v | None => Dict.get k d end.
Proof.
  induction l as [|[k' v] l IH]; intros d; simpl; [reflexivity|].
  unfold fold_set in *. simpl. rewrite IH.
  destruct (last_of k l); [reflexivity|].
  destruct (String.eqb_spec k k') as [->|Hne].
  - apply get_set_same.
  - apply get_set_other. congruence.
Qed.

Lemma keys_fold_set {V W} (l : list (string * V)) (m : list (string * W)) :
  map fst l = map fst m -> forall d e,
  keys d = keys e -> keys (fold_set l d) = keys (fold_set m e).
Proof.
  revert m. induction l as [|[k v] l IH]; intros [|[k' w] m] Hk d e Hd;
    try discriminate; [exact Hd|].
  simpl in Hk. inversion Hk; subst k'. unfold fold_set in *. simpl.
  apply IH; [assumption|]. now apply keys_set_fun.
Qed.

Lemma NoDup_fold_set {V} (l : list (string * V)) : forall d,
  NoDup (keys d) -> NoDup (keys (fold_set l d)).
Proof.
  induction l as [|[k v] l IH]; intros d Hd; [exact Hd|].
  unfold fold_set in *. simpl. apply IH. now apply NoDup_set.
Qed.

Lemma last_of_in {V} k (v : V) l : last_of k l = Some v -> In (k, v) l.
Proof.
  induction l as [|[k' v'] l IH]; simpl; [discriminate|].
  destruct (last_of k l) as [v0|].
  - intros H. inversion H; subst. right. now apply IH.
  - destruct (String.eqb_spec k k') as [->|]; [|discriminate].
    intros H. inversion H; subst. now left.
Qed.

Lemma last_of_none {V} k (l : list (string * V)) :
  last_of k l = None <-> ~ In k (map fst l).
Proof.
  induction l as [|[k' v'] l IH]; simpl; [tauto|].
  destruct (last_of k l) as [v0|].
  - split; [discriminate|]. intros H. exfalso.
    assert (X : ~ In k (map fst l)) by tauto.
    apply IH in X. discriminate.
  - destruct (String.eqb_spec k k') as [->|Hne].
    + split; [discriminate|]. intros H. exfalso. apply H. now left.
    + split; [|reflexivity]. intros _ [H|H]; [congruence|].
      assert (X : @None V = None) by reflexivity. apply IH in X. contradiction.
Qed.

End DictFacts.

(* ===================================================================== *)
(** * MplFile.read: the descriptors *)
(* ===================================================================== *)

Module RecordsFacts.

Import ReadFacts LayoutFacts DictFacts.
Local Open Scope io_scope.

(** The descriptors from offset [p] on describe the records of [l], in
    this order. *)
Fixpoint described_all (tz : tz_dict_t) (d : list byte) (p : nat)
         (l : list (string * MtsInfo)) : Prop :=
  match l with
  | [] => True
  | (name, info) :: l' =>
      described tz d p name info /\ described_all tz d (p + 66) l'
  end.

Lemma described_wf tz d p name info :
  described tz d p name info -> wf_datetime (info_datetime info) = true.
Proof.
  intros (_ & _ & _ & _ & _ & (dt0 & Hdec & Hz) & _).
  destruct (decode_at_ok _ _ _ Hdec) as (V & _).
  destruct (zoned_ok _ _ _ _ Hz) as (V' & _). congruence.
Qed.

Lemma read_records_sound n tz d : forall p db0 db' h',
  read_records n tz db0 (mkhandle d p) = (Ok db', h') ->
  exists l, List.length l = n /\ described_all tz d p l /\ db' = fold_set l db0.
Proof.
  induction n as [|n IH]; intros p db0 db' h' H; simpl in H.
  - unfold ret in H. inversion H; subst. exists []. repeat split.
  - apply MplFacts.bind_ok in H. destruct H as ([name info] & h1 & Hr & H).
    apply read_record_sound in Hr. destruct Hr as [Hd ->].
    apply IH in H. destruct H as (l & Hl & Hall & ->).
    exists ((name, info) :: l). simpl. split; [now rewrite Hl|]. split; [now split|].
    reflexivity.
Qed.

Lemma read_records_complete tz d l : forall p db0,
  described_all tz d p l ->
  read_records (List.length l) tz db0 (mkhandle d p)
  = (Ok (fold_set l db0), mkhandle d (p + 66 * List.length l)).
Proof.
  induction l as [|[name info] l IH]; intros p db0 H; simpl.
  - unfold ret. do 2 f_equal. lia.
  - destruct H as [Hd Hall].
    rewrite (io_bind_ok _ _ _ _ _
               (read_record_complete _ _ _ _ _ Hd (described_wf _ _ _ _ _ Hd))).
    cbn [fst snd]. rewrite (IH _ _ Hall).
    assert (E : mkMtsInfo (p + 44) (info_datetime info) false = info).
    { destruct Hd as (_ & _ & _ & _ & _ & _ & _ & _ & Hp & Hdirty).
      destruct info as [sp dt di]. cbn in *. subst. reflexivity. }
    rewrite E. unfold fold_set. simpl. do 2 f_equal. lia.
Qed.

(** The header of a playlist of [n] descriptors. *)
Definition header_ok (d : list byte) (n : nat) : Prop :=
  firstn 8 d = SIGNATURE
  /\ (exists b, nth_error d 65 = Some b /\ Z.to_nat (Z_of_byte b) = n)
  /\ (84 + 66 * n <= List.length d)%nat.

(** Where the descriptors start. *)
Definition first_descriptor (d : list byte) (n : nat) : nat :=
  (List.length d - 84 - 66 * n)%nat.

Lemma nth_error_firstn1 (d : list byte) q b :
  nth_error d q = Some b -> firstn 1 (skipn q d) = [b].
Proof.
  intros Hb. apply nth_error_split in Hb. destruct Hb as (l1 & l2 & -> & Hlen).
  rewrite skipn_app, skipn_all2 by lia.
  replace (q - List.length l1)%nat with 0%nat by lia. reflexivity.
Qed.

Lemma read_playlist_header tz db0 d n :
  header_ok d n ->
  read_playlist tz db0 (mkhandle d 0)
  = read_records n tz db0 (mkhandle d (first_descriptor d n)).
Proof.
  intros (Hsig & (b & Hb & Hn) & Hlen).
  rewrite (read_playlist_after_signature _ _ _ Hsig).
  rewrite bind_read. cbn [pos data].
  rewrite (nth_error_firstn1 _ _ _ Hb). cbn [List.length Nat.eqb].
  rewrite bind_ret, bind_lift. cbn [ord].
  pose proof (CodecFacts.Z_of_byte_range b) as Hr.
  unfold File.bind at 1. unfold seek_end, seek_to. cbn [data pos].
  destruct (Z.ltb_spec (Z.of_nat (List.length d)
                        + (- 50 - 66 * Z_of_byte b - 36 + 2)) 0) as [Hneg|Hpos]; [lia|].
  rewrite Hn. do 2 f_equal. unfold first_descriptor. lia.
Qed.

Lemma read_playlist_sound tz db0 d db' h' :
  read_playlist tz db0 (mkhandle d 0) = (Ok db', h') ->
  exists n l,
    header_ok d n /\ List.length l = n
    /\ described_all tz d (first_descriptor d n) l /\ db' = fold_set l db0.
Proof.
  intros H.
  destruct (list_eq_dec Byte.byte_eq_dec (firstn 8 d) SIGNATURE) as [Hsig|Hsig].
  2:{ pose proof (read_playlist_signature tz db0 d Hsig) as E.
      rewrite H in E. discriminate. }
  pose proof H as H0.
  rewrite (read_playlist_after_signature _ _ _ Hsig) in H.
  rewrite bind_read in H. cbn [pos data] in H.
  destruct (nth_error d 65) as [b|] eqn:Hb.
  2:{ apply nth_error_None in Hb. rewrite skipn_all2 in H by lia.
      cbn in H. discriminate. }
  rewrite (nth_error_firstn1 _ _ _ Hb) in H. cbn [List.length Nat.eqb] in H.
  rewrite bind_ret, bind_lift in H. cbn [ord] in H.
  unfold File.bind at 1 in H. unfold seek_end, seek_to in H. cbn [data pos] in H.
  destruct (Z.ltb_spec (Z.of_nat (List.length d)
                        + (- 50 - 66 * Z_of_byte b - 36 + 2)) 0) as [Hneg|Hpos];
    [discriminate|].
  pose proof (CodecFacts.Z_of_byte_range b) as Hr.
  assert (Hh : header_ok d (Z.to_nat (Z_of_byte b))).
  { split; [assumption|]. split; [eauto|]. lia. }
  rewrite (read_playlist_header _ _ _ _ Hh) in H0.
  apply read_records_sound in H0. destruct H0 as (l & Hl & Hall & ->).
  exists (Z.to_nat (Z_of_byte b)), l. auto.
Qed.

End RecordsFacts.

Import DictFacts RecordsFacts.

(* ===================================================================== *)
(** * MplFile.read: the records and the file *)
(* ===================================================================== *)

Module InitFacts.

Import ReadFacts LayoutFacts DictFacts RecordsFacts CodecFacts.

Lemma in_described tz d l : forall p name info,
  described_all tz d p l -> In (name, info) l ->
  exists j, (j < List.length l)%nat /\ described tz d (p + 66 * j) name info.
Proof.
  induction l as [|[n0 i0] l IH]; intros p name info Hall Hin; [contradiction|].
  destruct Hall as [Hd Hall]. destruct Hin as [Hin|Hin].
  - inversion Hin; subst. exists 0%nat. split; [simpl; lia|].
    now replace (p + 66 * 0)%nat with p by lia.
  - destruct (IH _ _ _ Hall Hin) as (j & Hj & Hdj).
    exists (S j). split; [simpl; lia|].
    now replace (p + 66 * S j)%nat with (p + 66 + 66 * j)%nat by lia.
Qed.

Lemma described_length tz d p name info :
  described tz d p name info -> (p + 66 <= List.length d)%nat.
Proof.
  intros H. pose proof (described_wf _ _ _ _ _ H) as V.
  destruct H as (_ & _ & _ & _ & _ & _ & _ & Hs & _).
  apply (f_equal (@List.length byte)) in Hs.
  rewrite date_stamp_length in Hs by assumption.
  rewrite length_firstn, length_skipn in Hs. lia.
Qed.

Lemma described_intact tz d p name info :
  described tz d p name info -> intact name info d = true.
Proof.
  intros (_ & Lid & Hname & Hsep & _ & _ & Hkind & _ & Hp & _).
  unfold intact, anchor_ok, kind_ok. rewrite Hp, Hname.
  pose proof (from_bytes_range _ Lid) as R.
  rewrite int_of_mts_name by lia. rewrite to_bytes_from_bytes by assumption.
  replace (p + 44 + 2)%nat with (p + 46)%nat by lia.
  replace (p + 44 + 10)%nat with (p + 54)%nat by lia.
  rewrite Hsep, Hkind.
  replace (bytes_eqb _ _) with true by (symmetry; now apply bytes_eqb_eq).
  replace (bytes_eqb [x1e] [x1e]) with true by (symmetry; now apply bytes_eqb_eq).
  reflexivity.
Qed.

Lemma described_datetime tz d p name info :
  described tz d p name info ->
  microsecond (info_datetime info) = 0
  /\ tzinfo (info_datetime info) = Dict.get name tz
  /\ match Dict.get name tz with
     | Some off => - us_per_day < off < us_per_day
     | None => True
     end.
Proof.
  intros (_ & _ & _ & _ & _ & (dt0 & Hdec & Hz) & _).
  destruct (decode_at_ok _ _ _ Hdec) as (_ & Hus & Htz).
  destruct (zoned_ok _ _ _ _ Hz) as (_ & Hus' & _ & Hcase).
  split; [congruence|].
  destruct (Dict.get name tz) as [off|].
  - destruct Hcase as [-> R]. auto.
  - subst. auto.
Qed.

(** The name of a descriptor is read off the file. *)
Lemma described_name tz tz' d p name name' info info' :
  described tz d p name info -> described tz' d p name' info' -> name = name'.
Proof.
  intros (_ & _ & H & _) (_ & _ & H' & _). congruence.
Qed.

(** What a successful read found in the file. *)
Lemma init_sound bytes sc self :
  MplFile_init (mkfiles (Some bytes) sc) = Ok self ->
  exists n l,
    header_ok bytes n /\ List.length l = n
    /\ described_all (tz_dict self) bytes (first_descriptor bytes n) l
    /\ db self = fold_set l []
    /\ tz_dict self = match sc with Some t => t | None => [] end.
Proof.
  unfold MplFile_init, MplFile_read. cbn [playlist sidecar db tz_dict].
  destruct (read_playlist _ _ _) as [[db'|e] h'] eqn:E; [|discriminate].
  intros H. inversion H; subst self. cbn [db tz_dict].
  apply read_playlist_sound in E. destruct E as (n & l & Hh & Hl & Hall & ->).
  exists n, l. auto.
Qed.

Lemma init_complete bytes sc tz n l :
  header_ok bytes n -> List.length l = n ->
  described_all tz bytes (first_descriptor bytes n) l ->
  tz = match sc with Some t => t | None => [] end ->
  MplFile_init (mkfiles (Some bytes) sc) = Ok (mkMplFile (fold_set l []) tz).
Proof.
  intros Hh Hl Hall ->. subst n.
  unfold MplFile_init, MplFile_read. cbn [playlist sidecar db tz_dict].
  rewrite (read_playlist_header _ _ _ _ Hh).
  rewrite (read_records_complete _ _ _ _ _ Hall). reflexivity.
Qed.

(** Each record of the dictionary comes from one descriptor. *)
Lemma record_described tz d p l name info :
  described_all tz d p l -> In (name, info) (fold_set l []) ->
  exists j, (j < List.length l)%nat /\ described tz d (p + 66 * j) name info.
Proof.
  intros Hall Hin.
  assert (Hg : Dict.get name (fold_set l []) = Some info).
  { apply get_in; [|assumption]. apply NoDup_fold_set. constructor. }
  rewrite get_fold_set in Hg.
  destruct (last_of name l) as [i|] eqn:El; [|discriminate].
  inversion Hg; subst i. apply last_of_in in El.
  eapply in_described; eauto.
Qed.

End InitFacts.

Import LayoutFacts DictFacts RecordsFacts InitFacts.

(** Every record a successful read returns stands for a descriptor of the
    file, and no two records share a name: the record is clean, the clip
    id, the separator and the kind marker at its offset are those a write
    checks, its descriptor ends before the 84 trailing bytes, its datetime
    is a valid one with no microseconds whose offset is the one the
    sidecar has for the clip (none without one), and the date stamp in
    the file is the date of that datetime. *)
Theorem read_records_match_file (bytes : list byte) (sc : option tz_dict_t)
        (self : MplFile) :
  MplFile_init (mkfiles (Some bytes) sc) = Ok self ->
  NoDup (keys (db self))
  /\ forall name info, In (name, info) (db self) ->
       dirty info = false
       /\ intact name info bytes = true
       /\ (44 <= seek_pos info)%nat
       /\ (seek_pos info + 22 + 84 <= List.length bytes)%nat
       /\ wf_datetime (info_datetime info) = true
       /\ microsecond (info_datetime info) = 0
       /\ tzinfo (info_datetime info)
          = Dict.get name (match sc with Some t => t | None => [] end)
       /\ firstn 10 (skipn (seek_pos info + 12) bytes)
          = date_stamp (info_datetime info).
Proof.
  intros H. destruct (init_sound _ _ _ H) as (n & l & Hh & Hl & Hall & Hdb & Htz).
  split.
  - rewrite Hdb. apply NoDup_fold_set. constructor.
  - intros name info Hin. rewrite Hdb in Hin.
    destruct (record_described _ _ _ _ _ _ Hall Hin) as (j & Hj & Hd).
    pose proof (described_intact _ _ _ _ _ Hd) as Hi.
    pose proof (described_wf _ _ _ _ _ Hd) as Hw.
    destruct (described_datetime _ _ _ _ _ Hd) as (Hus & Hz & _).
    pose proof Hd as (_ & _ & _ & _ & _ & _ & _ & Hs & Hp & Hdirty).
    destruct Hh as (_ & _ & Hlen). unfold first_descriptor in *.
    repeat split; try assumption; try lia.
    { rewrite Hz, Htz. reflexivity. }
    rewrite Hp. replace (List.length bytes - 84 - 66 * n + 66 * j + 44 + 12)%nat
      with (List.length bytes - 84 - 66 * n + 66 * j + 56)%nat by lia.
    exact Hs.
Qed.

Lemma read_records_match_file_witness :
  NoDup (keys (db (mkMplFile
          [("00127.MTS", mkMtsInfo 110 Samples.t1 false);
           ("00128.MTS", mkMtsInfo 176 Samples.t2 false)] [])))
  /\ intact "00128.MTS" (mkMtsInfo 176 Samples.t2 false) Samples.two_clips = true.
Proof.
  destruct (read_records_match_file Samples.two_clips None _ read_two_clips)
    as [Hnd Hall].
  split; [exact Hnd|].
  apply (Hall "00128.MTS" (mkMtsInfo 176 Samples.t2 false)).
  right. left. reflexivity.
Defined.

Import InitFacts.

(* ===================================================================== *)
(** * MplFile.write: what a completed write leaves in the file *)
(* ===================================================================== *)

Module WriteFacts.

Import ReadFacts LayoutFacts DictFacts RecordsFacts InitFacts CodecFacts.
Import CalendarFacts2 AnchorFacts.
Local Open Scope io_scope.

(** A datetime the file and the sidecar can hold: valid fields, no
    microseconds, and an offset of less than a day. *)
Definition storable (dt : datetime) : Prop :=
  wf_datetime dt = true /\ microsecond dt = 0
  /\ match tzinfo dt with
     | Some off => - us_per_day < off < us_per_day
     | None => True
     end.

(** The timestamp and the date stamp of [dt] are in the file for the
    record at [sp]. *)
Definition stored (dt : datetime) (sp : nat) (d : list byte) : Prop :=
  List.length (firstn 2 (skipn (sp + 3) d)) = 2%nat
  /\ decode_at d (sp + 3) = Ok (replace_tzinfo dt None)
  /\ firstn 10 (skipn (sp + 12) d) = date_stamp dt.

Lemma nth_error_overwrite_in d p bs j :
  (p <= List.length d)%nat -> (j < List.length bs)%nat ->
  nth_error (overwrite d p bs) (p + j) = nth_error bs j.
Proof.
  intros Hp Hj. unfold overwrite.
  replace (p - List.length d)%nat with 0%nat by lia. simpl.
  rewrite nth_error_app2 by (rewrite length_firstn; lia).
  rewrite length_firstn. replace (p + j - Nat.min p (List.length d))%nat with j by lia.
  now apply nth_error_app1.
Qed.

Lemma firstn_of_nth (d : list byte) p l :
  (forall j, (j < List.length l)%nat -> nth_error d (p + j) = nth_error l j) ->
  firstn (List.length l) (skipn p d) = l.
Proof.
  intros H. apply nth_error_ext. intros j.
  rewrite nth_error_firstn, nth_error_skipn.
  destruct (Nat.ltb_spec j (List.length l)) as [Hj|Hj]; [now apply H|].
  symmetry. now apply nth_error_None.
Qed.

Lemma bind_seek {B} p (k : unit -> io B) h :
  File.bind (seek p) k h = k tt (mkhandle (data h) p).
Proof.
  unfold File.bind, seek, seek_to.
  destruct (Z.ltb_spec (Z.of_nat p) 0); [lia|]. now rewrite Nat2Z.id.
Qed.

Lemma enc_year_ok v :
  0 <= v < 10000 ->
  exists y1 y2, Packed.encode_year v = Ok [y1; y2] /\ Packed.decode [y1; y2] = Ok v.
Proof.
  intros Hv.
  destruct (PackedFacts.roundtrip_ok_spec Packed.encode_year 2 v) as (bs & E & L & D).
  { apply (forallb_range _ 10000 PackedFacts.year_range_checked). lia. }
  destruct bs as [|y1 [|y2 [|y3 bs]]]; try discriminate. eauto.
Qed.

Lemma enc_field_ok v :
  0 <= v < 100 ->
  exists b, Packed.encode_field v = Ok [b]
            /\ int_of_str 10 (format_x (Z_of_byte b)) = Ok v.
Proof.
  intros Hv.
  destruct (PackedFacts.roundtrip_ok_spec Packed.encode_field 1 v) as (bs & E & L & D).
  { apply (forallb_range _ 100 PackedFacts.field_range_checked). lia. }
  destruct bs as [|b [|b' bs]]; try discriminate. exists b. split; [assumption|].
  unfold Packed.decode in D.
  change (from_bytes [b]) with (0 * 256 + Z_of_byte b) in D.
  now rewrite Z.mul_0_l, Z.add_0_l in D.
Qed.

Section Wrote.
Variable d : list byte.
Variable sp : nat.

(** The file after the bytes [bs] of the timestamp have been written. *)
Definition wrote (bs : list byte) (h : handle) : Prop :=
  pos h = (sp + 3 + List.length bs)%nat
  /\ List.length (data h) = List.length d
  /\ (forall i, (i < sp + 3 \/ sp + 3 + List.length bs <= i)%nat ->
        nth_error (data h) i = nth_error d i)
  /\ (forall j, (j < List.length bs)%nat ->
        nth_error (data h) (sp + 3 + j) = nth_error bs j).

Lemma wrote_write bs0 h bs :
  wrote bs0 h ->
  (sp + 3 + List.length bs0 + List.length bs <= List.length d)%nat ->
  wrote (bs0 ++ bs)
        (mkhandle (overwrite (data h) (pos h) bs) (pos h + List.length bs)).
Proof.
  intros (Hp & Hl & Hf & Hc) Hlen. unfold wrote. cbn [data pos].
  rewrite length_app. split; [lia|]. split; [|split].
  - rewrite length_overwrite by lia. lia.
  - intros i Hi. rewrite nth_error_overwrite_out by lia. apply Hf. lia.
  - intros j Hj. destruct (Nat.lt_ge_cases j (List.length bs0)) as [Hlt|Hge].
    + rewrite nth_error_overwrite_out by lia.
      rewrite nth_error_app1 by assumption. now apply Hc.
    + rewrite nth_error_app2 by assumption.
      replace (sp + 3 + j)%nat with (pos h + (j - List.length bs0))%nat by lia.
      apply nth_error_overwrite_in; lia.
Qed.
End Wrote.

Ltac wrote_step Hw :=
  match goal with
  | |- context [mkhandle (overwrite (data ?h) (pos ?h) ?bs) (pos ?h + List.length ?bs)] =>
      apply (wrote_write _ _ _ h bs) in Hw; [|cbn [List.length app]; lia];
      let h' := fresh "h" in
      let E := fresh "Ehandle" in
      remember (mkhandle (overwrite (data h) (pos h) bs) (pos h + List.length bs))
        as h' eqn:E in Hw |- *;
      clear E
  end.

(** Writing a record whose id, separator and kind marker are in place
    succeeds and leaves its timestamp and date stamp in the file. *)
Lemma write_record_ok name info d p0 :
  intact name info d = true -> storable (info_datetime info) ->
  (seek_pos info + 22 <= List.length d)%nat ->
  exists d',
    write_record name info (mkhandle d p0) = (Ok tt, mkhandle d' (seek_pos info + 22))
    /\ List.length d' = List.length d
    /\ (forall i, outside info i -> nth_error d' i = nth_error d i)
    /\ stored (info_datetime info) (seek_pos info) d'.
Proof.
  intros Hi (V & Hus & _) Hlen.
  unfold intact, anchor_ok, kind_ok in Hi.
  apply andb_prop in Hi. destruct Hi as [Ha Hk].
  destruct (int_of_str 10 (drop_last4 name)) as [n|] eqn:En; [|discriminate].
  destruct (to_bytes 2 n) as [expected|] eqn:Ee; [|discriminate].
  apply andb_prop in Ha. destruct Ha as [Hid Hsep].
  pose proof (to_bytes_length _ _ _ Ee) as Lid.
  pose proof Hid as Hid'. apply bytes_eqb_eq in Hid'.
  pose proof Hsep as Hsep'. apply bytes_eqb_eq in Hsep'.
  pose proof V as V'. unfold wf_datetime in V'. apply valid_fields_iff in V'.
  destruct V' as (Ry & Rm & Rd & Rh & Rmi & Rs & _).
  pose proof (days_in_month_bounds (year (info_datetime info)) _ Rm) as Rdm.
  destruct (enc_year_ok (year (info_datetime info))) as (y1 & y2 & Ey & Dy); [lia|].
  destruct (enc_field_ok (month (info_datetime info))) as (bm & Em & Dm); [lia|].
  destruct (enc_field_ok (day (info_datetime info))) as (bd & Ed & Dd); [lia|].
  destruct (enc_field_ok (hour (info_datetime info))) as (bh & Eh & Dh); [lia|].
  destruct (enc_field_ok (minute (info_datetime info))) as (bmi & Emi & Dmi); [lia|].
  destruct (enc_field_ok (second (info_datetime info))) as (bs & Es & Ds); [lia|].
  set (sp := seek_pos info) in *. set (dt := info_datetime info) in *.
  unfold write_record. fold sp. unfold getitem. fold dt.
  rewrite bind_seek. cbn [data]. rewrite bind_read. cbn [pos data].
  rewrite bind_lift, En, bind_lift, Ee, bind_assert, Hid.
  rewrite Hid', Lid. rewrite bind_read. cbn [pos data].
  rewrite bind_assert, Hsep. rewrite Hsep'. cbn [List.length].
  replace (sp + 2 + 1)%nat with (sp + 3)%nat by lia.
  assert (Hw : wrote d sp [] (mkhandle d (sp + 3))).
  { unfold wrote. cbn [data pos List.length]. repeat split; lia. }
  remember (mkhandle d (sp + 3)) as h0 eqn:Eh0. clear Eh0.
  rewrite lift_write_bind', Ey. wrote_step Hw.
  rewrite lift_write_bind, Em. wrote_step Hw.
  rewrite lift_write_bind, Ed. wrote_step Hw.
  rewrite lift_write_bind, Eh. wrote_step Hw.
  rewrite lift_write_bind, Emi. wrote_step Hw.
  rewrite lift_write_bind, Es. wrote_step Hw.
  cbn [app] in Hw. destruct Hw as (Hp & Hl & Hf & Hc). cbn [List.length] in Hp, Hf, Hc.
  rewrite bind_read. rewrite Hp.
  replace (sp + 3 + 7)%nat with (sp + 10)%nat by lia.
  rewrite (firstn_skipn_ext d (data h5) (sp + 10) 2) by (intros i Hr; apply Hf; lia).
  rewrite bind_assert, Hk. rewrite (kind_marker_length _ Hk).
  unfold write. cbn [data pos].
  replace (sp + 10 + 2)%nat with (sp + 12)%nat by lia.
  rewrite date_stamp_length by assumption.
  exists (overwrite (data h5) (sp + 12) (date_stamp dt)).
  split; [do 2 f_equal; lia|].
  assert (Ls : List.length (date_stamp dt) = 10%nat) by now apply date_stamp_length.
  split; [rewrite length_overwrite by lia; lia|].
  assert (C : forall j, (j < 7)%nat ->
            nth_error (overwrite (data h5) (sp + 12) (date_stamp dt)) (sp + 3 + j)
            = nth_error [y1; y2; bm; bd; bh; bmi; bs] j).
  { intros j Hj. rewrite nth_error_overwrite_out by lia. now apply Hc. }
  split; [|split; [|split]].
  - intros i Ho. unfold outside in Ho. fold sp in Ho.
    rewrite nth_error_overwrite_out by lia. apply Hf. lia.
  - rewrite length_firstn, length_skipn, length_overwrite by lia. lia.
  - assert (F2 : firstn 2 (skipn (sp + 3) (overwrite (data h5) (sp + 12) (date_stamp dt)))
                 = [y1; y2]).
    { apply (firstn_of_nth _ (sp + 3) [y1; y2]). intros j Hj. cbn [List.length] in Hj.
      rewrite C by lia. destruct j as [|[|j]]; [reflexivity..|lia]. }
    assert (F1 : forall q k b, q = (sp + 3 + (2 + k))%nat -> (k < 5)%nat ->
                nth_error [y1; y2; bm; bd; bh; bmi; bs] (2 + k) = Some b ->
                field_at (overwrite (data h5) (sp + 12) (date_stamp dt)) q
                = int_of_str 10 (format_x (Z_of_byte b))).
    { intros q k b -> Hk5 Hb. unfold field_at.
      replace (firstn 1 (skipn (sp + 3 + (2 + k)) _)) with [b]; [reflexivity|].
      symmetry. apply (firstn_of_nth _ (sp + 3 + (2 + k)) [b]).
      intros j Hj. cbn [List.length] in Hj. assert (j = 0)%nat by lia. subst j.
      replace (sp + 3 + (2 + k) + 0)%nat with (sp + 3 + (2 + k))%nat by lia.
      rewrite C by lia. exact Hb. }
    unfold decode_at. rewrite F2, Dy. cbn [Py.bind].
    rewrite (F1 (sp + 3 + 2)%nat 0%nat bm), Dm by (reflexivity || lia). cbn [Py.bind].
    rewrite (F1 (sp + 3 + 3)%nat 1%nat bd), Dd by (reflexivity || lia). cbn [Py.bind].
    rewrite (F1 (sp + 3 + 4)%nat 2%nat bh), Dh by (reflexivity || lia). cbn [Py.bind].
    rewrite (F1 (sp + 3 + 5)%nat 3%nat bmi), Dmi by (reflexivity || lia). cbn [Py.bind].
    rewrite (F1 (sp + 3 + 6)%nat 4%nat bs), Ds by (reflexivity || lia). cbn [Py.bind].
    unfold Datetime.make. unfold wf_datetime in V. rewrite Hus in V. rewrite V.
    unfold replace_tzinfo. now rewrite Hus.
  - rewrite <- Ls. apply firstn_of_nth. intros j Hj.
    apply nth_error_overwrite_in; lia.
Qed.

(** ** The whole pass *)

(** Two records of different descriptors: their offsets are at least one
    descriptor apart. *)
Definition apart (i i' : MtsInfo) : Prop :=
  (seek_pos i + 66 <= seek_pos i' \/ seek_pos i' + 66 <= seek_pos i)%nat.

Lemma apart_sym i i' : apart i i' -> apart i' i.
Proof. unfold apart. tauto. Qed.

(** A write of a record stays out of the descriptors of the others. *)
Lemma apart_outside info info' i :
  apart info info' -> (seek_pos info - 44 <= i < seek_pos info + 22)%nat ->
  outside info' i.
Proof. unfold apart, outside. lia. Qed.

Lemma decode_at_ext d d' q :
  (forall i, (q <= i < q + 7)%nat -> nth_error d' i = nth_error d i) ->
  decode_at d' q = decode_at d q.
Proof.
  intros H. unfold decode_at, field_at.
  rewrite (firstn_skipn_ext d d' q 2) by (intros; apply H; lia).
  rewrite (firstn_skipn_ext d d' (q + 2) 1) by (intros; apply H; lia).
  rewrite (firstn_skipn_ext d d' (q + 3) 1) by (intros; apply H; lia).
  rewrite (firstn_skipn_ext d d' (q + 4) 1) by (intros; apply H; lia).
  rewrite (firstn_skipn_ext d d' (q + 5) 1) by (intros; apply H; lia).
  rewrite (firstn_skipn_ext d d' (q + 6) 1) by (intros; apply H; lia).
  reflexivity.
Qed.

Lemma stored_ext dt sp d d' :
  (forall i, (sp + 3 <= i < sp + 22)%nat -> nth_error d' i = nth_error d i) ->
  stored dt sp d -> stored dt sp d'.
Proof.
  intros H (H1 & H2 & H3). unfold stored.
  rewrite (firstn_skipn_ext d d' (sp + 3) 2) by (intros; apply H; lia).
  rewrite (firstn_skipn_ext d d' (sp + 12) 10) by (intros; apply H; lia).
  rewrite (decode_at_ext d d') by (intros; apply H; lia).
  auto.
Qed.

(** The sidecar dictionary after the dirty records of [items] have been
    written. *)
Definition tz_after (items : list (string * MtsInfo)) (tz : tz_dict_t) : tz_dict_t :=
  fold_left (fun tz kv =>
               if dirty (snd kv) then update_tz (fst kv) (getitem (snd kv)) tz
               else tz) items tz.

Lemma NoDup_update_tz name dt tz :
  NoDup (keys tz) -> NoDup (keys (update_tz name dt tz)).
Proof.
  intros H. unfold update_tz. destruct (tzinfo dt); [now apply NoDup_set|now apply NoDup_pop].
Qed.

Lemma get_update_tz_same name dt tz :
  NoDup (keys tz) -> Dict.get name (update_tz name dt tz) = tzinfo dt.
Proof.
  intros H. unfold update_tz. destruct (tzinfo dt); [apply get_set_same|now apply get_pop_same].
Qed.

Lemma get_update_tz_other name name' dt tz :
  name <> name' -> Dict.get name' (update_tz name dt tz) = Dict.get name' tz.
Proof.
  intros H. unfold update_tz. destruct (tzinfo dt); [now apply get_set_other|now apply get_pop_other].
Qed.

Lemma NoDup_tz_after items : forall tz,
  NoDup (keys tz) -> NoDup (keys (tz_after items tz)).
Proof.
  induction items as [|[k i] items IH]; intros tz H; [exact H|].
  unfold tz_after in *. simpl. apply IH.
  destruct (dirty i); [now apply NoDup_update_tz|assumption].
Qed.

Lemma get_tz_after name items : forall tz,
  NoDup (keys items) -> NoDup (keys tz) ->
  Dict.get name (tz_after items tz)
  = match Dict.get name items with
    | Some info => if dirty info then tzinfo (info_datetime info)
                   else Dict.get name tz
    | None => Dict.get name tz
    end.
Proof.
  induction items as [|[k i] items IH]; intros tz Hnd Htz; [reflexivity|].
  simpl in Hnd. inversion Hnd as [|? ? Hnot Hnd']; subst.
  unfold tz_after in *. simpl fold_left. cbn [Dict.get].
  destruct (String.eqb_spec name k) as [->|Hne].
  - assert (Hg : Dict.get k items = None) by now apply get_none.
    destruct (dirty i).
    + rewrite IH by (try apply NoDup_update_tz; assumption).
      rewrite Hg. now apply get_update_tz_same.
    + rewrite IH by assumption. now rewrite Hg.
  - destruct (dirty i).
    + rewrite IH by (try apply NoDup_update_tz; assumption).
      rewrite get_update_tz_other by congruence. reflexivity.
    + now rewrite IH.
Qed.

(** A pass over records that are all in place, each in a descriptor of
    its own, writes every dirty one and ends without an exception. *)
Lemma write_loop_ok items : forall st,
  ForallOrdPairs (fun a b => apart (snd a) (snd b)) items ->
  (forall name info, In (name, info) items -> dirty info = true ->
     intact name info (data (w_file st)) = true
     /\ storable (info_datetime info)
     /\ (44 <= seek_pos info)%nat
     /\ (seek_pos info + 22 <= List.length (data (w_file st)))%nat) ->
  exists st',
    write_loop items st = (None, st')
    /\ List.length (data (w_file st')) = List.length (data (w_file st))
    /\ w_tz st' = tz_after items (w_tz st)
    /\ (forall i, (forall name info, In (name, info) items -> dirty info = true ->
                     outside info i) ->
          nth_error (data (w_file st')) i = nth_error (data (w_file st)) i)
    /\ (forall name info, In (name, info) items -> dirty info = true ->
          stored (info_datetime info) (seek_pos info) (data (w_file st'))).
Proof.
  induction items as [|[name info] rest IH]; intros st Hsp Hok.
  - exists st. simpl. repeat split; auto; contradiction.
  - inversion Hsp as [|? ? Hhead Hrest]; subst. rewrite Forall_forall in Hhead.
    simpl write_loop. destruct (dirty info) eqn:Hd; cbn [negb].
    + destruct (Hok name info (or_introl eq_refl) Hd) as (Hi & Hs & H44 & Hlen).
      destruct st as [[d p0] sdb stz]. cbn [w_file w_db w_tz data] in *.
      destruct (write_record_ok name info d p0 Hi Hs Hlen)
        as (d1 & Ew & Hl1 & Hf1 & Hst1).
      rewrite Ew.
      destruct (IH (mkwstate (mkhandle d1 (seek_pos info + 22))
                      (Dict.set name (clear_dirty info) sdb)
                      (update_tz name (getitem info) stz)) Hrest)
        as (st' & El & Hl' & Htz' & Hf' & Hst').
      { intros n' i' Hin' Hd'. cbn [w_file data].
        destruct (Hok n' i' (or_intror Hin') Hd') as (Hi' & Hs' & H44' & Hlen').
        pose proof (Hhead _ Hin') as Hap. cbn [snd] in Hap.
        split; [|split; [assumption|split; [assumption|lia]]].
        rewrite (intact_ext n' i' d); [assumption|].
        intros i Hc. apply Hf1. apply (apart_outside i' info); [now apply apart_sym|].
        unfold checked in Hc. lia. }
      cbn [w_file w_tz data] in *.
      exists st'. split; [exact El|]. split; [lia|]. split; [|split].
      * rewrite Htz'. unfold tz_after. simpl. now rewrite Hd.
      * intros i Ho. rewrite Hf'.
        -- apply Hf1. apply (Ho name info); [now left|assumption].
        -- intros n' i' Hin' Hd'. apply (Ho n' i'); [now right|assumption].
      * intros n' i' [Hin'|Hin'] Hd'.
        -- inversion Hin'; subst n' i'. apply (stored_ext _ _ d1); [|assumption].
           intros i Hr. apply Hf'. intros n2 i2 Hin2 Hd2.
           pose proof (Hhead _ Hin2) as Hap. cbn [snd] in Hap.
           apply (apart_outside info i2); [assumption|lia].
        -- now apply (Hst' n' i').
    + destruct (IH st Hrest) as (st' & El & Hl' & Htz' & Hf' & Hst').
      { intros n' i' Hin' Hd'. apply Hok; [now right|assumption]. }
      exists st'. split; [exact El|]. split; [exact Hl'|]. split; [|split].
      * rewrite Htz'. unfold tz_after. simpl. now rewrite Hd.
      * intros i Ho. apply Hf'. intros n' i' Hin' Hd'.
        apply (Ho n' i'); [now right|assumption].
      * intros n' i' [Hin'|Hin'] Hd'; [inversion Hin'; subst; congruence|].
        now apply (Hst' n' i').
Qed.

End WriteFacts.

Import WriteFacts.

(* ===================================================================== *)
(** * MplFile.write, then MplFile.read *)
(* ===================================================================== *)

Module RoundTripFacts.

Import ReadFacts LayoutFacts DictFacts RecordsFacts InitFacts WriteFacts.

(** [db1] is [db0] after datetimes have been assigned to some of its
    records: a record left alone is as it was read, an assigned one is
    dirty and holds a datetime the file can hold. *)
Definition edited (db0 db1 : Dict.t MtsInfo) : Prop :=
  Forall2 (fun kv0 kv1 =>
             fst kv1 = fst kv0 /\ seek_pos (snd kv1) = seek_pos (snd kv0)
             /\ (if dirty (snd kv1) then storable (info_datetime (snd kv1))
                 else snd kv1 = snd kv0)) db0 db1.

Lemma edited_keys db0 db1 : edited db0 db1 -> keys db1 = keys db0.
Proof.
  induction 1 as [|[k0 i0] [k1 i1] db0 db1 (Hk & _) _ IH]; [reflexivity|].
  simpl in *. now rewrite Hk, IH.
Qed.

Lemma edited_get db0 db1 k i0 :
  edited db0 db1 -> Dict.get k db0 = Some i0 ->
  exists i1, Dict.get k db1 = Some i1 /\ seek_pos i1 = seek_pos i0
             /\ (if dirty i1 then storable (info_datetime i1) else i1 = i0).
Proof.
  induction 1 as [|[k0 j0] [k1 j1] db0 db1 (Hk & Hp & Hc) _ IH]; [discriminate|].
  simpl in *. subst k1. destruct (String.eqb k k0).
  - intros H. inversion H; subst. eauto.
  - exact IH.
Qed.

Lemma edited_in db0 db1 k i1 :
  edited db0 db1 -> In (k, i1) db1 ->
  exists i0, In (k, i0) db0 /\ seek_pos i1 = seek_pos i0
             /\ (if dirty i1 then storable (info_datetime i1) else i1 = i0).
Proof.
  induction 1 as [|[k0 j0] [k1 j1] db0 db1 (Hk & Hp & Hc) _ IH]; [contradiction|].
  simpl in *. subst k1. intros [H|H].
  - inversion H; subst. exists j0. auto.
  - destruct (IH H) as (i0 & Hin & Hrest). exists i0. auto.
Qed.

Lemma edited_clean db0 db1 :
  edited db0 db1 -> any_dirty db1 = false -> db1 = db0.
Proof.
  induction 1 as [|[k0 j0] [k1 j1] db0 db1 (Hk & Hp & Hc) _ IH]; [reflexivity|].
  simpl in *. intros H. apply orb_false_elim in H. destruct H as [Hd H].
  rewrite Hd in Hc. subst. now rewrite IH.
Qed.

Lemma get_map_clean k d :
  Dict.get k (map clean d) = option_map clear_dirty (Dict.get k d).
Proof.
  induction d as [|[k' i] d IH]; [reflexivity|]. simpl.
  destruct (String.eqb k k'); [reflexivity|exact IH].
Qed.

Lemma any_dirty_true d :
  any_dirty d = true <-> exists k i, In (k, i) d /\ dirty i = true.
Proof.
  unfold any_dirty. rewrite existsb_exists. split.
  - intros ([k i] & Hin & Hd). eauto.
  - intros (k & i & Hin & Hd). exists (k, i). auto.
Qed.

Lemma intact_pos name i i' d :
  seek_pos i = seek_pos i' -> intact name i d = intact name i' d.
Proof. intros H. unfold intact, anchor_ok, kind_ok. now rewrite H. Qed.

Lemma pairs_apart (D : Dict.t MtsInfo) :
  NoDup (keys D) ->
  (forall k i k' i', In (k, i) D -> In (k', i') D -> k <> k' -> apart i i') ->
  ForallOrdPairs (fun a b => apart (snd a) (snd b)) D.
Proof.
  induction D as [|[k i] D IH]; intros Hnd H; [constructor|].
  simpl in Hnd. inversion Hnd as [|? ? Hnot Hnd']; subst.
  constructor.
  - rewrite Forall_forall. intros [k' i'] Hin. cbn [snd].
    apply (H k i k' i'); [now left|now right|].
    intros ->. apply Hnot. apply (in_map fst) in Hin. exact Hin.
  - apply IH; [assumption|]. intros k1 i1 k2 i2 H1 H2.
    apply H; now right.
Qed.

(** ** Reading the descriptors again *)

Lemma replace_tzinfo_twice dt a b :
  replace_tzinfo (replace_tzinfo dt a) b = replace_tzinfo dt b.
Proof. reflexivity. Qed.

Lemma replace_tzinfo_same dt : replace_tzinfo dt (tzinfo dt) = dt.
Proof. destruct dt; reflexivity. Qed.

Lemma date_stamp_replace_tzinfo dt a : date_stamp (replace_tzinfo dt a) = date_stamp dt.
Proof. reflexivity. Qed.

Lemma timezone_ok off :
  - us_per_day < off < us_per_day -> timezone off = Ok off.
Proof.
  intros H. unfold timezone.
  destruct (Z.ltb_spec (- us_per_day) off); [|lia].
  destruct (Z.ltb_spec off us_per_day); [reflexivity|lia].
Qed.

Lemma zoned_rezone (tz : tz_dict_t) name dt0 :
  match Dict.get name tz with
  | Some off => - us_per_day < off < us_per_day
  | None => True
  end ->
  tzinfo dt0 = None ->
  zoned tz name dt0 = Ok (replace_tzinfo dt0 (Dict.get name tz)).
Proof.
  intros H Hn. unfold zoned. destruct (Dict.get name tz) as [off|].
  - now rewrite timezone_ok.
  - now rewrite <- Hn, replace_tzinfo_same.
Qed.

Lemma zoned_spec tz name dt0 dt :
  zoned tz name dt0 = Ok dt -> tzinfo dt0 = None ->
  dt = replace_tzinfo dt0 (Dict.get name tz).
Proof.
  intros H Hn. unfold zoned in H. destruct (Dict.get name tz) as [off|].
  - apply ShiftFacts.py_bind_inv in H. destruct H as (tzi & E & H).
    unfold timezone in E. destruct (_ && _); [|discriminate]. congruence.
  - inversion H; subst. now rewrite <- Hn, replace_tzinfo_same.
Qed.

(** The record a descriptor gives when read again after a pass that wrote
    the dirty records of [db1] and left the sidecar [tz']. *)
Definition reread (db1 : Dict.t MtsInfo) (tz' : tz_dict_t)
           (name : string) (info : MtsInfo) : MtsInfo :=
  let rezoned :=
    mkMtsInfo (seek_pos info)
              (replace_tzinfo (info_datetime info) (Dict.get name tz')) false in
  match Dict.get name db1 with
  | Some i1 =>
      if dirty i1 && (seek_pos i1 =? seek_pos info)%nat then clear_dirty i1
      else rezoned
  | None => rezoned
  end.

Lemma last_of_map {V W} (g : string -> V -> W) k (l : list (string * V)) :
  last_of k (map (fun kv => (fst kv, g (fst kv) (snd kv))) l)
  = option_map (g k) (last_of k l).
Proof.
  induction l as [|[k' v] l IH]; [reflexivity|]. simpl. rewrite IH.
  destruct (last_of k l); [reflexivity|]. simpl.
  destruct (String.eqb_spec k k') as [->|]; reflexivity.
Qed.

Lemma described_all_map tz d tz' d' (g : string -> MtsInfo -> MtsInfo)
      (P : nat -> Prop) :
  (forall q, P q -> P (q + 66)%nat) ->
  (forall q name info, P q -> described tz d q name info ->
     described tz' d' q name (g name info)) ->
  forall l p, P p -> described_all tz d p l ->
    described_all tz' d' p (map (fun kv => (fst kv, g (fst kv) (snd kv))) l).
Proof.
  intros Hstep Hg. induction l as [|[name info] l IH]; intros p Hp Hall; [exact I|].
  destruct Hall as [Hd Hall]. simpl. split; [now apply Hg|].
  apply IH; [now apply Hstep|assumption].
Qed.

Section Pass.

Variable bytes : list byte.
Variable tz : tz_dict_t.
Variable p0 : nat.
Variable l : list (string * MtsInfo).
Variable db1 : Dict.t MtsInfo.
Variable d' : list byte.

Local Abbreviation tz' := (tz_after db1 tz).

Hypothesis Hall : described_all tz bytes p0 l.
Hypothesis Hed : edited (fold_set l []) db1.
Hypothesis Htz : NoDup (keys tz).
Hypothesis Hframe :
  forall i, (forall name info, In (name, info) db1 -> dirty info = true ->
               outside info i) ->
    nth_error d' i = nth_error bytes i.
Hypothesis Hstored :
  forall name info, In (name, info) db1 -> dirty info = true ->
    stored (info_datetime info) (seek_pos info) d'.

Lemma db1_NoDup : NoDup (keys db1).
Proof.
  rewrite (edited_keys _ _ Hed). apply NoDup_fold_set. constructor.
Qed.

(** Each record of [db1] sits in a descriptor of the file that bears its
    name. *)
Lemma db1_described name i1 :
  In (name, i1) db1 ->
  exists j i0, (j < List.length l)%nat
               /\ described tz bytes (p0 + 66 * j) name i0
               /\ In (name, i0) (fold_set l [])
               /\ seek_pos i1 = (p0 + 66 * j + 44)%nat
               /\ (if dirty i1 then storable (info_datetime i1) else i1 = i0).
Proof.
  intros Hin. destruct (edited_in _ _ _ _ Hed Hin) as (i0 & Hin0 & Hp & Hc).
  destruct (record_described _ _ _ _ _ _ Hall Hin0) as (j & Hj & Hd).
  exists j, i0. split; [assumption|]. split; [assumption|]. split; [assumption|].
  split; [|assumption].
  rewrite Hp. now destruct Hd as (_ & _ & _ & _ & _ & _ & _ & _ & Hsp & _).
Qed.

Lemma get_tz' name :
  Dict.get name tz'
  = match Dict.get name db1 with
    | Some info => if dirty info then tzinfo (info_datetime info)
                   else Dict.get name tz
    | None => Dict.get name tz
    end.
Proof. apply get_tz_after; [apply db1_NoDup|exact Htz]. Qed.

(** The bytes of a descriptor that the pass left alone. *)
Lemma block_unchanged j i :
  (p0 + 66 * j <= i < p0 + 66 * j + 66)%nat ->
  (forall name info, In (name, info) db1 -> dirty info = true ->
     seek_pos info = (p0 + 66 * j + 44)%nat -> outside info i) ->
  nth_error d' i = nth_error bytes i.
Proof.
  intros Hi Hsame. apply Hframe. intros name info Hin Hd.
  destruct (Nat.eq_dec (seek_pos info) (p0 + 66 * j + 44)) as [E|E].
  - now apply (Hsame name info).
  - destruct (db1_described _ _ Hin) as (j2 & _ & _ & _ & _ & Hp & _).
    unfold outside. rewrite Hp in *. assert (j2 <> j) by (intros ->; lia). lia.
Qed.

Lemma tz'_in_range name :
  (match Dict.get name tz with
   | Some off => - us_per_day < off < us_per_day
   | None => True
   end) ->
  match Dict.get name tz' with
  | Some off => - us_per_day < off < us_per_day
  | None => True
  end.
Proof.
  intros H. rewrite get_tz'. destruct (Dict.get name db1) as [i1|] eqn:E; [|exact H].
  destruct (dirty i1) eqn:Hd; [|exact H].
  apply get_some_in in E. destruct (db1_described _ _ E) as (j & i0 & _ & _ & _ & _ & Hc).
  rewrite Hd in Hc. now destruct Hc as (_ & _ & Hr).
Qed.

Lemma reread_described j name info :
  described tz bytes (p0 + 66 * j) name info ->
  described tz' d' (p0 + 66 * j) name (reread db1 tz' name info).
Proof.
  intros Hd. set (q := (p0 + 66 * j)%nat) in *.
  pose proof Hd as (Hsig & Lid & Hname & Hsep & Lyb & (dt0 & Hdec & Hz)
                    & Hkind & Hstamp & Hsp & Hdirty).
  destruct (decode_at_ok _ _ _ Hdec) as (_ & _ & Hnaive).
  destruct (described_datetime _ _ _ _ _ Hd) as (_ & _ & Hrange).
  pose proof (described_length _ _ _ _ _ Hd) as Hq.
  (* the bytes a write of the record at this offset leaves alone *)
  assert (U : forall i, (q <= i < q + 47 \/ q + 54 <= i < q + 56)%nat ->
              nth_error d' i = nth_error bytes i).
  { intros i Hi. apply (block_unchanged j); [fold q; lia|].
    intros k2 i2 _ _ Hp2. fold q in Hp2. unfold outside. lia. }
  assert (Esig : firstn 8 (skipn (q + 36) d') = firstn 8 (skipn (q + 36) bytes))
    by (apply firstn_skipn_ext; intros; apply U; lia).
  assert (Eid : firstn 2 (skipn (q + 44) d') = firstn 2 (skipn (q + 44) bytes))
    by (apply firstn_skipn_ext; intros; apply U; lia).
  assert (Esep : firstn 1 (skipn (q + 46) d') = firstn 1 (skipn (q + 46) bytes))
    by (apply firstn_skipn_ext; intros; apply U; lia).
  assert (Ekind : firstn 2 (skipn (q + 54) d') = firstn 2 (skipn (q + 54) bytes))
    by (apply firstn_skipn_ext; intros; apply U; lia).
  (* a descriptor no record of the dictionary was written to *)
  assert (B : (forall i1, Dict.get name db1 = Some i1 ->
                 dirty i1 && (seek_pos i1 =? seek_pos info)%nat = false) ->
              described tz' d' q name
                (mkMtsInfo (seek_pos info)
                   (replace_tzinfo (info_datetime info) (Dict.get name tz')) false)).
  { intros Hmiss.
    assert (W : forall i, (q <= i < q + 66)%nat -> nth_error d' i = nth_error bytes i).
    { intros i Hi. apply (block_unchanged j); [fold q; lia|].
      intros k2 i2 Hin2 Hd2 Hp2. exfalso. fold q in Hp2.
      destruct (db1_described _ _ Hin2) as (j2 & i0 & _ & Hd0 & _ & Hp0 & _).
      assert (j2 = j) by (unfold q in Hp2; lia). subst j2. fold q in Hd0.
      pose proof (described_name _ _ _ _ _ _ _ _ Hd0 Hd) as ->.
      pose proof (Hmiss _ (get_in _ _ _ db1_NoDup Hin2)) as Ea.
      rewrite Hd2 in Ea. cbn [andb] in Ea. apply Nat.eqb_neq in Ea. lia. }
    unfold described. rewrite Esig, Eid, Esep, Ekind.
    cbn [info_datetime seek_pos dirty].
    repeat split; try assumption; try lia.
    + rewrite (firstn_skipn_ext bytes d') by (intros; apply W; lia). exact Lyb.
    + exists dt0. split.
      * rewrite (decode_at_ext bytes d') by (intros; apply W; lia). exact Hdec.
      * rewrite (zoned_spec _ _ _ _ Hz Hnaive), replace_tzinfo_twice.
        apply zoned_rezone; [now apply tz'_in_range|assumption].
    + rewrite date_stamp_replace_tzinfo, <- Hstamp.
      apply firstn_skipn_ext. intros; apply W; lia. }
  unfold reread.
  destruct (Dict.get name db1) as [i1|] eqn:Eg.
  1: destruct (dirty i1 && (seek_pos i1 =? seek_pos info)%nat) eqn:Ea.
  - (* the record written at this offset *)
    apply andb_prop in Ea. destruct Ea as [Hd1 Hp1]. apply Nat.eqb_eq in Hp1.
    pose proof (get_some_in _ _ _ Eg) as Hin.
    destruct (Hstored _ _ Hin Hd1) as (S1 & S2 & S3).
    destruct (db1_described _ _ Hin) as (j1 & i0 & _ & _ & _ & _ & Hc).
    rewrite Hd1 in Hc. pose proof Hc as (V1 & Hus1 & Hr1).
    rewrite Hp1, Hsp in S1, S2, S3.
    replace (q + 44 + 3)%nat with (q + 47)%nat in S1, S2 by lia.
    replace (q + 44 + 12)%nat with (q + 56)%nat in S3 by lia.
    unfold described. rewrite Esig, Eid, Esep, Ekind.
    cbn [info_datetime seek_pos dirty clear_dirty].
    repeat split; try assumption; try lia.
    exists (replace_tzinfo (info_datetime i1) None). split; [assumption|].
    rewrite zoned_rezone.
    + rewrite replace_tzinfo_twice, get_tz', Eg, Hd1. now rewrite replace_tzinfo_same.
    + rewrite get_tz', Eg, Hd1. exact Hr1.
    + reflexivity.
  - apply B. intros i1' E. inversion E; subst. exact Ea.
  - apply B. intros i1' E. discriminate.
Qed.

(** The dictionary that reading the descriptors again builds. *)
Lemma reread_all :
  described_all tz' d' p0 (map (fun kv => (fst kv, reread db1 tz' (fst kv) (snd kv))) l).
Proof.
  apply (described_all_map tz bytes tz' d' (reread db1 tz')
           (fun q => exists j, q = (p0 + 66 * j)%nat)).
  - intros q (j & ->). exists (S j). lia.
  - intros q name info (j & ->). apply reread_described.
  - exists 0%nat. lia.
  - exact Hall.
Qed.

Lemma reread_db :
  fold_set (map (fun kv => (fst kv, reread db1 tz' (fst kv) (snd kv))) l) []
  = map clean db1.
Proof.
  apply dict_ext.
  - apply NoDup_fold_set. constructor.
  - rewrite keys_clean, (edited_keys _ _ Hed).
    apply keys_fold_set; [|reflexivity]. rewrite map_map. reflexivity.
  - intros k. rewrite get_fold_set, last_of_map, get_map_clean.
    pose proof (get_fold_set k l []) as G. cbn [Dict.get] in G.
    destruct (last_of k l) as [i0|] eqn:El; cbn [option_map].
    + destruct (edited_get _ _ _ _ Hed G) as (i1 & Eg & Hp & Hc).
      rewrite Eg. cbn [option_map]. f_equal. unfold reread. rewrite Eg.
      destruct (dirty i1) eqn:Hd1; cbn [andb].
      * rewrite Hp, Nat.eqb_refl. reflexivity.
      * subst i1. apply get_some_in in G.
        destruct (record_described _ _ _ _ _ _ Hall G) as (j & _ & Hd).
        destruct (described_datetime _ _ _ _ _ Hd) as (_ & Hz & _).
        rewrite get_tz', Eg, Hd1, <- Hz, replace_tzinfo_same.
        destruct i0 as [sp dt di]. cbn in *. now subst.
    + apply get_none in G. rewrite <- (edited_keys _ _ Hed) in G.
      apply get_none in G. now rewrite G.
Qed.

End Pass.

End RoundTripFacts.

Import RoundTripFacts.

Import DictFacts RecordsFacts InitFacts WriteFacts RoundTripFacts.

(** A read, then a write, then a fresh read.  Take the object [self] a
    successful read of a playlist returned, whose descriptors all lie
    after the 66-byte header, with a sidecar that names no clip twice,
    and assign datetimes the file can hold (valid, no microseconds, an
    offset of less than a day) to any of its records.  Then [write] on
    the unchanged file returns without an exception and leaves every
    record clean; and a fresh [MplFile] of the files it leaves (the
    playlist and the sidecar) holds exactly the records and the sidecar
    dictionary of the object written: each assigned datetime comes back
    with its offset, each other record as it was. *)
Theorem write_then_read (bytes : list byte) (sc : option tz_dict_t)
        (self : MplFile) (db1 : Dict.t MtsInfo) :
  MplFile_init (mkfiles (Some bytes) sc) = Ok self ->
  NoDup (keys (tz_dict self)) ->
  (forall name info, In (name, info) (db self) -> (110 <= seek_pos info)%nat) ->
  edited (db self) db1 ->
  exists tz' fs',
    MplFile_write (mkMplFile db1 (tz_dict self)) (mkfiles (Some bytes) sc)
    = (Ok tt, mkMplFile (map clean db1) tz', fs')
    /\ MplFile_init fs' = Ok (mkMplFile (map clean db1) tz').
Proof.
  intros Hinit Htz Hhead Hed.
  destruct (init_sound _ _ _ Hinit) as (n & l & Hh & Hl & Hall & Hdb & Htzeq).
  destruct (any_dirty db1) eqn:Hany.
  - set (tz := tz_dict self) in *. set (p0 := first_descriptor bytes n) in *.
    rewrite Hdb in Hed.
    pose proof (db1_NoDup _ _ Hed) as Hnd.
    assert (Hbig : forall name i1, In (name, i1) db1 -> (110 <= seek_pos i1)%nat).
    { intros name i1 Hin. destruct (edited_in _ _ _ _ Hed Hin) as (i0 & Hin0 & Hp & _).
      rewrite Hp. apply (Hhead name). now rewrite Hdb. }
    destruct (write_loop_ok db1 (mkwstate (mkhandle bytes 0) db1 tz))
      as (st' & El & Hlen & Htz' & Hframe & Hstored).
    { apply pairs_apart; [assumption|].
      intros k i k' i' Hin Hin' Hne.
      destruct (db1_described _ _ _ _ _ Hall Hed _ _ Hin) as (j & i0 & _ & Hd & _ & Hp & _).
      destruct (db1_described _ _ _ _ _ Hall Hed _ _ Hin') as (j' & i0' & _ & Hd' & _ & Hp' & _).
      assert (j <> j').
      { intros ->. apply Hne. eapply described_name; eauto. }
      unfold apart. lia. }
    { intros name i1 Hin Hd1. cbn [w_file data].
      destruct (db1_described _ _ _ _ _ Hall Hed _ _ Hin) as (j & i0 & _ & Hd & _ & Hp & Hc).
      rewrite Hd1 in Hc.
      pose proof (described_length _ _ _ _ _ Hd) as Hq.
      split; [|split; [assumption|lia]].
      rewrite (intact_pos name i1 i0).
      - eapply described_intact; eauto.
      - rewrite Hp. now destruct Hd as (_ & _ & _ & _ & _ & _ & _ & _ & Hsp & _). }
    cbn [w_file w_tz data] in Hlen, Htz', Hframe.
    pose proof (write_loop_flags db1 []
                  (mkwstate (mkhandle bytes 0) db1 tz) None st' Hnd eq_refl El) as Hdb'.
    cbn [app] in Hdb'.
    exists (tz_after db1 tz), (mkfiles (Some (data (w_file st'))) (Some (tz_after db1 tz))).
    split.
    + unfold MplFile_write. cbn [db tz_dict playlist sidecar].
      unfold any_dirty in Hany. rewrite Hany. cbn [negb].
      rewrite El, Hdb', Htz'. reflexivity.
    + rewrite <- (reread_db bytes tz p0 l db1 Hall Hed Htz).
      apply (init_complete _ _ _ n).
      * destruct Hh as (Hsig & (b & Hb & Hn) & Hlb).
        assert (Hlow : forall i, (i < 66)%nat ->
                  nth_error (data (w_file st')) i = nth_error bytes i).
        { intros i Hi. apply Hframe. intros name i1 Hin _.
          pose proof (Hbig _ _ Hin). unfold outside. lia. }
        split; [|split].
        -- rewrite <- Hsig.
           apply (firstn_skipn_ext bytes (data (w_file st')) 0 8).
           intros i Hi. apply Hlow. lia.
        -- exists b. split; [|assumption]. rewrite Hlow by lia. exact Hb.
        -- rewrite Hlen. exact Hlb.
      * now rewrite length_map.
      * replace (first_descriptor (data (w_file st')) n) with p0
          by (unfold p0, first_descriptor; now rewrite Hlen).
        apply (reread_all bytes tz p0 l db1 _ Hall Hed Htz Hframe Hstored).
      * reflexivity.
  - pose proof (edited_clean _ _ Hed Hany) as ->.
    exists (tz_dict self), (mkfiles (Some bytes) sc). split.
    + unfold MplFile_write. cbn [db tz_dict playlist sidecar].
      unfold any_dirty in Hany. rewrite Hany. cbn [negb].
      rewrite (map_clean_none_dirty _ Hany). reflexivity.
    + rewrite (map_clean_none_dirty _ Hany), Hinit. now destruct self.
Qed.

Lemma write_then_read_witness :
  exists tz' fs',
    MplFile_write Samples.both_dirty Samples.two_clips_files
    = (Ok tt, mkMplFile (map clean (db Samples.both_dirty)) tz', fs')
    /\ MplFile_init fs' = Ok (mkMplFile (map clean (db Samples.both_dirty)) tz').
Proof.
  apply (write_then_read Samples.two_clips None _ (db Samples.both_dirty)
           read_two_clips).
  - constructor.
  - intros name info [H|[H|[]]]; inversion H; subst; cbn; lia.
  - repeat constructor.
Defined.

(* ===================================================================== *)
(** * MplDirectory: the merged dictionary *)
(* ===================================================================== *)

(** Assigning a datetime to the record [MplDirectory.get_mts(name)]
    returns: the merged dictionary then holds the assigned datetime for
    the clip, in a dirty record at the same offset, and the record of
    every other clip is the one it held before.  A name no playlist has is
    a [KeyError], and leaves nothing to assign to. *)
Theorem merged_assignment (d : MplDirectory) (name : string) (v : datetime) :
  let d' := mkMplDirectory (dir_path d) (merged_set (mpl_files d) name v) in
  (forall i, get_mts d name = Ok i -> get_mts d' name = Ok (setitem i v))
  /\ (forall name', name' <> name -> get_mts d' name' = get_mts d name')
  /\ (merged_get (mpl_files d) name = None ->
      get_mts d name = Raise KeyError /\ d' = d).
Proof.
  cbv zeta. unfold get_mts. cbn [mpl_files dir_path].
  destruct d as [path fs]. cbn [mpl_files dir_path].
  assert (Hsame : forall i, merged_get fs name = Some i ->
            merged_get (merged_set fs name v) name = Some (setitem i v)).
  { induction fs as [|[p [m disk]] rest IH]; intros i H; [discriminate|].
    cbn [merged_get merged_set] in *.
    destruct (merged_get rest name) as [i'|] eqn:Er.
    - inversion H; subst i'. cbn [merged_get]. now rewrite (IH i eq_refl).
    - destruct (Dict.get name (db m)) as [i0|] eqn:Eg; [|discriminate].
      inversion H; subst i0. cbn [merged_get db]. rewrite Er.
      now rewrite DictFacts.get_set_same. }
  assert (Hother : forall name', name' <> name ->
            merged_get (merged_set fs name v) name' = merged_get fs name').
  { clear Hsame. intros name' Hne. induction fs as [|[p [m disk]] rest IH]; [reflexivity|].
    cbn [merged_get merged_set] in *.
    destruct (merged_get rest name) as [i'|] eqn:Er.
    - cbn [merged_get]. rewrite IH. reflexivity.
    - destruct (Dict.get name (db m)) as [i0|] eqn:Eg; [|reflexivity].
      cbn [merged_get db]. rewrite DictFacts.get_set_other by congruence.
      reflexivity. }
  assert (Hmiss : merged_get fs name = None -> merged_set fs name v = fs).
  { clear Hsame Hother. induction fs as [|[p [m disk]] rest IH]; intros H; [reflexivity|].
    cbn [merged_get merged_set] in *.
    destruct (merged_get rest name) as [i'|] eqn:Er; [discriminate|].
    now rewrite H. }
  split; [|split].
  - intros i H. destruct (merged_get fs name) as [i0|] eqn:E; [|discriminate].
    inversion H; subst. now rewrite (Hsame i eq_refl).
  - intros name' Hne. now rewrite Hother.
  - intros H. rewrite H. split; [reflexivity|]. now rewrite Hmiss.
Qed.

(* ===================================================================== *)
(** * reload: sub-second EXIF tags *)
(* ===================================================================== *)

Module RaiseFacts.

Local Open Scope st_scope.

(** The exceptions a computation can end with. *)
Definition raises_only {S A} (E : exn -> Prop) (c : St.t S A) : Prop :=
  forall s e s', c s = (Raise e, s') -> E e.

Lemma raises_only_ret {S A} E (a : A) : raises_only E (@St.ret S A a).
Proof. intros s e s' H. inversion H. Qed.

Lemma raises_only_modify {S} E (f : S -> S) : raises_only E (St.modify f).
Proof. intros s e s' H. inversion H. Qed.

Lemma raises_only_raise {S A} (E : exn -> Prop) e :
  E e -> raises_only E (@St.raise S A e).
Proof. intros He s e' s' H. inversion H; subst. exact He. Qed.

Lemma raises_only_assert {S} (E : exn -> Prop) b :
  E AssertionError -> raises_only E (@St.lift S unit (Py.assert b)).
Proof.
  intros He s e s' H. unfold St.lift, Py.assert in H.
  destruct b; inversion H; subst. exact He.
Qed.

Lemma raises_only_bind {S A B} E (c : St.t S A) (k : A -> St.t S B) :
  raises_only E c -> (forall a, raises_only E (k a)) -> raises_only E (St.bind c k).
Proof.
  intros Hc Hk s e s' H. unfold St.bind in H.
  destruct (c s) as [[a|e1] s1] eqn:Ec.
  - now apply (Hk a s1 e s').
  - inversion H; subst. now apply (Hc s e s').
Qed.

Lemma raises_only_for_each {S A} E (xs : list A) (body : A -> St.t S unit) :
  (forall x, raises_only E (body x)) -> raises_only E (St.for_each xs body).
Proof.
  intros H. induction xs as [|x xs IH]; simpl.
  - apply raises_only_ret.
  - apply raises_only_bind; [apply H|intros _; exact IH].
Qed.

Ltac raises_steps :=
  repeat first
    [ apply raises_only_ret | apply raises_only_modify
    | apply raises_only_raise; auto
    | apply raises_only_assert; auto
    | apply raises_only_for_each; intros
    | apply raises_only_bind; [|intros]
    | match goal with
      | |- raises_only _ (match ?x with _ => _ end) => destruct x
      | |- raises_only _ (let '(_, _) := ?x in _) => destruct x
      end ].

Section Exiv.

Variable xmp_value : string -> option datetime.
Variable format_seconds : string -> string.

Local Abbreviation reload_exiv_tags := (reload_exiv_tags xmp_value format_seconds).

(** Reading the tags of a file ends with no other exception than the
    parse error of an XMP date and a failed assertion. *)
Lemma reload_exiv_tags_raises md :
  raises_only (fun e => e = AssertionError \/ e = XmpValueError) (reload_exiv_tags md).
Proof.
  unfold Main.reload_exiv_tags, reload_xmp_tag, reload_exif_tag, reload_iptc_tag, upd.
  raises_steps.
Qed.

Lemma reload_exiv_tags_keeps_timestamp md :
  StFacts.keeps timestamp (reload_exiv_tags md).
Proof.
  unfold Main.reload_exiv_tags, reload_xmp_tag, reload_exif_tag, reload_iptc_tag, upd.
  keeps_steps.
Qed.

(** The tags are read to the end only without sub-second tags. *)
Lemma reload_exiv_tags_ok md s u s' :
  reload_exiv_tags md s = (Ok u, s') ->
  md_SubSecTime md = false /\ md_SubSecTimeOriginal md = false
  /\ md_SubSecTimeDigitized md = false.
Proof.
  unfold Main.reload_exiv_tags. intros H.
  apply StFacts.bind_ok_inv in H. destruct H as (a1 & s1 & _ & H).
  apply StFacts.bind_ok_inv in H. destruct H as (a2 & s2 & _ & H).
  apply StFacts.bind_ok_inv in H. destruct H as (a3 & s3 & _ & H).
  apply StFacts.bind_ok_inv in H. destruct H as (a4 & s4 & _ & H).
  apply StFacts.bind_ok_inv in H. destruct H as (a5 & s5 & E5 & H).
  apply StFacts.bind_ok_inv in H. destruct H as (a6 & s6 & E6 & H).
  apply StFacts.bind_ok_inv in H. destruct H as (a7 & s7 & E7 & H).
  unfold St.lift, Py.assert in E5, E6, E7.
  destruct (md_SubSecTime md); [discriminate|].
  destruct (md_SubSecTimeOriginal md); [discriminate|].
  destruct (md_SubSecTimeDigitized md); [discriminate|].
  auto.
Qed.

End Exiv.

End RaiseFacts.

Import RaiseFacts.

(** A file whose metadata holds one of the tags [Exif.Photo.SubSecTime],
    [Exif.Photo.SubSecTimeOriginal] and [Exif.Photo.SubSecTimeDigitized]
    cannot be loaded: [reload] of the file raises, with [AssertionError]
    unless an XMP date that cannot be parsed raised [XmpValueError] before,
    and the row keeps the timestamp it had. *)
Theorem subsecond_tags_end_reload
  (xmp_value : string -> option datetime) (format_seconds : string -> string)
  (env : string -> FileEnv) (current_timestamp_delta : timedelta)
  (dirs : list MplDirectory) (r : Row) (m : datetime) (md : Metadata) :
  fe_mtime (env (full_path r)) = Ok m ->
  fe_metadata (env (full_path r)) = Some md ->
  md_SubSecTime md || md_SubSecTimeOriginal md || md_SubSecTimeDigitized md = true ->
  exists e r',
    reload_row xmp_value format_seconds env current_timestamp_delta dirs r
    = (Raise e, r')
    /\ (e = AssertionError \/ e = XmpValueError)
    /\ timestamp r' = timestamp r.
Proof.
  intros Hm Hmd Hsub.
  unfold Main.reload_row.
  unfold St.bind at 1. unfold St.get at 1.
  unfold St.bind at 1. unfold upd at 1, St.modify at 1.
  unfold St.bind at 1. unfold St.lift at 1. rewrite Hm.
  unfold St.bind at 1. unfold upd at 1, St.modify at 1.
  unfold St.bind at 1. unfold upd at 1, St.modify at 1.
  rewrite Hmd.
  match goal with
  | |- exists e r', St.bind _ _ ?s = _ /\ _ =>
      destruct (reload_exiv_tags xmp_value format_seconds md s) as [[u|e] s'] eqn:E
  end.
  - destruct (reload_exiv_tags_ok _ _ _ _ _ _ E) as (H1 & H2 & H3).
    rewrite H1, H2, H3 in Hsub. discriminate.
  - rewrite (StFacts.bind_raise_inv _ _ _ _ _ E).
    exists e, s'. split; [reflexivity|]. split.
    + exact (reload_exiv_tags_raises _ _ _ _ _ _ E).
    + rewrite (keeps_eq _ _ _ _ _ (reload_exiv_tags_keeps_timestamp _ _ md) E).
      reflexivity.
Qed.

(** A picture as [MainSamples.picture] with hundredths of a second beside
    its original-capture date. *)
Definition subsecond_picture : Metadata :=
  mkMetadata (md_xmp MainSamples.picture) (md_exif MainSamples.picture)
    (Some "Camera") None false true false (fun _ => None) (fun _ => None).

Definition subsecond_env (f : string) : FileEnv :=
  mkFileEnv (Ok MainSamples.noon) (Some subsecond_picture) (Ok []).

Lemma subsecond_tags_end_reload_witness :
  exists e r',
    reload_row MainSamples.xmp_value MainSamples.format_seconds subsecond_env 0 []
      (new_row "/p/fast.jpg" "fast.jpg") = (Raise e, r')
    /\ (e = AssertionError \/ e = XmpValueError)
    /\ timestamp r' = None.
Proof.
  apply (subsecond_tags_end_reload MainSamples.xmp_value MainSamples.format_seconds
           subsecond_env 0 [] (new_row "/p/fast.jpg" "fast.jpg")
           MainSamples.noon subsecond_picture); reflexivity.
Defined.

Example reload_subsecond_picture :
  fst (reload_row MainSamples.xmp_value MainSamples.format_seconds subsecond_env 0 []
         (new_row "/p/fast.jpg" "fast.jpg")) = Raise AssertionError.
Proof. vm_compute. reflexivity. Qed.

Import RaiseFacts.

From Stdlib Require Import FunctionalExtensionality.

(* ===================================================================== *)
(** * reload: a second pass *)
(* ===================================================================== *)

Module IdemFacts.

Local Open Scope st_scope.

Lemma ts_tag_eqb_eq a b : ts_tag_eqb a b = true <-> a = b.
Proof.
  unfold ts_tag_eqb. destruct (ts_tag_eq_dec a b); split; congruence.
Qed.

Lemma row_ext (a b : Row) :
  full_path a = full_path b -> shortened_path a = shortened_path b ->
  timestamp a = timestamp b -> delta a = delta b -> mtime a = mtime b ->
  row_bg_colour a = row_bg_colour b ->
  Exif_Image_Model a = Exif_Image_Model b ->
  Exif_Image_TimeZoneOffset a = Exif_Image_TimeZoneOffset b ->
  (forall t, tags a t = tags b t) -> (forall t, nikon a t = nikon b t) ->
  a = b.
Proof.
  destruct a, b. cbn. intros. subst. f_equal; apply functional_extensionality; auto.
Qed.

(** ** Assignments of values that do not depend on the row *)

(** The columns a computation assigns, each with the value it gets last. *)
Record overrides : Type := mkov {
  ov_tags : ts_tag -> option (option datetime);
  ov_nikon : nikon_tag -> option (option string);
  ov_model : option (option string);
  ov_tz : option (option Z)
}.

Definition pick {V} (o : option V) (v : V) : V :=
  match o with Some x => x | None => v end.

Definition apply_ov (o : overrides) (r : Row) : Row :=
  mkRow (full_path r) (shortened_path r) (timestamp r) (delta r) (mtime r)
        (row_bg_colour r)
        (pick (ov_model o) (Exif_Image_Model r))
        (pick (ov_tz o) (Exif_Image_TimeZoneOffset r))
        (fun t => pick (ov_tags o t) (tags r t))
        (fun t => pick (ov_nikon o t) (nikon r t)).

Definition ov_none : overrides := mkov (fun _ => None) (fun _ => None) None None.

Definition first_some {V} (a b : option V) : option V :=
  match a with Some _ => a | None => b end.

(** The assignments of [o1], then those of [o2]. *)
Definition ov_then (o1 o2 : overrides) : overrides :=
  mkov (fun t => first_some (ov_tags o2 t) (ov_tags o1 t))
       (fun t => first_some (ov_nikon o2 t) (ov_nikon o1 t))
       (first_some (ov_model o2) (ov_model o1))
       (first_some (ov_tz o2) (ov_tz o1)).

Definition ov_tag (t : ts_tag) (v : option datetime) : overrides :=
  mkov (fun t' => if ts_tag_eqb t' t then Some v else None) (fun _ => None) None None.

Definition ov_nikon_tag (t : nikon_tag) (v : option string) : overrides :=
  mkov (fun _ => None) (fun t' => if nikon_tag_eqb t' t then Some v else None) None None.

Lemma apply_ov_none r : apply_ov ov_none r = r.
Proof. destruct r; reflexivity. Qed.

Lemma pick_first_some {V} (a b : option V) v :
  pick a (pick b v) = pick (first_some a b) v.
Proof. destruct a, b; reflexivity. Qed.

Lemma apply_ov_then o1 o2 r :
  apply_ov o2 (apply_ov o1 r) = apply_ov (ov_then o1 o2) r.
Proof.
  apply row_ext; try reflexivity; cbn; intros; apply pick_first_some.
Qed.

(** A computation that assigns the same values whatever the row holds,
    and ends the same way. *)
Definition assigns (A : overrides -> Prop) {X} (c : St.t Row X) : Prop :=
  exists res o, A o /\ forall s, c s = (res, apply_ov o s).

Section Closure.

Variable A : overrides -> Prop.
Hypothesis A_none : A ov_none.
Hypothesis A_then : forall o1 o2, A o1 -> A o2 -> A (ov_then o1 o2).

Lemma assigns_ret {X} (a : X) : assigns A (St.ret a).
Proof.
  exists (Ok a), ov_none. split; [assumption|]. intros s. now rewrite apply_ov_none.
Qed.

Lemma assigns_raise {X} e : assigns A (@St.raise Row X e).
Proof.
  exists (Raise e), ov_none. split; [assumption|]. intros s. now rewrite apply_ov_none.
Qed.

Lemma assigns_lift {X} (c : result X) : assigns A (St.lift c).
Proof.
  exists c, ov_none. split; [assumption|]. intros s. now rewrite apply_ov_none.
Qed.

Lemma assigns_bind {X Y} (c : St.t Row X) (k : X -> St.t Row Y) :
  assigns A c -> (forall a, assigns A (k a)) -> assigns A (St.bind c k).
Proof.
  intros (res & o & Ho & Hc) Hk. destruct res as [a|e].
  - destruct (Hk a) as (res2 & o2 & Ho2 & Hk2).
    exists res2, (ov_then o o2). split; [auto|]. intros s.
    unfold St.bind. rewrite Hc, Hk2. now rewrite apply_ov_then.
  - exists (Raise e), o. split; [assumption|]. intros s.
    unfold St.bind. now rewrite Hc.
Qed.

Lemma assigns_for_each {X} (xs : list X) (body : X -> St.t Row unit) :
  (forall x, assigns A (body x)) -> assigns A (St.for_each xs body).
Proof.
  intros H. induction xs as [|x xs IH]; simpl.
  - apply assigns_ret.
  - apply assigns_bind; [apply H|intros _; exact IH].
Qed.

Lemma assigns_set_tag t v :
  A (ov_tag t v) -> assigns A (upd (fun r => set_tag r t v)).
Proof.
  intros H. exists (Ok tt), (ov_tag t v). split; [assumption|]. intros s.
  unfold upd, St.modify. f_equal.
  apply row_ext; try reflexivity. intros t'. cbn.
  destruct (ts_tag_eqb t' t); reflexivity.
Qed.

Lemma assigns_set_nikon t v :
  A (ov_nikon_tag t v) -> assigns A (upd (fun r => set_nikon r t v)).
Proof.
  intros H. exists (Ok tt), (ov_nikon_tag t v). split; [assumption|]. intros s.
  unfold upd, St.modify. f_equal.
  apply row_ext; try reflexivity. intros t'. cbn.
  destruct (nikon_tag_eqb t' t); reflexivity.
Qed.

Lemma assigns_set_model v :
  A (mkov (fun _ => None) (fun _ => None) (Some v) None) ->
  assigns A (upd (fun r => set_model r v)).
Proof.
  intros H. exists (Ok tt), (mkov (fun _ => None) (fun _ => None) (Some v) None).
  split; [assumption|]. intros s. reflexivity.
Qed.

Lemma assigns_set_tz_offset v :
  A (mkov (fun _ => None) (fun _ => None) None (Some v)) ->
  assigns A (upd (fun r => set_tz_offset r v)).
Proof.
  intros H. exists (Ok tt), (mkov (fun _ => None) (fun _ => None) None (Some v)).
  split; [assumption|]. intros s. reflexivity.
Qed.

End Closure.

Ltac assigns_steps :=
  repeat first
    [ apply assigns_ret; assumption | apply assigns_raise; assumption
    | apply assigns_lift; assumption
    | apply assigns_for_each; [assumption|assumption|intros]
    | apply assigns_bind; [assumption|assumption| |intros]
    | match goal with
      | |- assigns _ (match ?x with _ => _ end) => destruct x
      | |- assigns _ (let '(_, _) := ?x in _) => destruct x
      end ].

(** The columns the tags of the picture itself go to. *)
Definition exiv (t : ts_tag) : bool :=
  match t with
  | Exif _ | Xmp _ | Iptc _ => true
  | Quicktime _ | AVCHD_Timestamp => false
  end.

(** What reading the tags of the picture may assign: picture columns, and
    an offset that is a number. *)
Definition exiv_only (o : overrides) : Prop :=
  (forall t, ov_tags o t <> None -> exiv t = true)
  /\ (forall t, ov_nikon o t = None)
  /\ (ov_tz o = Some None -> ov_tags o (Exif Exif_Photo_DateTimeOriginal) = Some None).

End IdemFacts.

Import IdemFacts.

Module SecondPass.

Import IdemFacts.
Local Open Scope st_scope.

Definition exiv_strict (o : overrides) : Prop :=
  (forall t, ov_tags o t <> None -> exiv t = true)
  /\ (forall t, ov_nikon o t = None)
  /\ ov_tz o <> Some None.

Lemma exiv_strict_none : exiv_strict ov_none.
Proof. repeat split; cbn; congruence. Qed.

Lemma exiv_strict_then o1 o2 :
  exiv_strict o1 -> exiv_strict o2 -> exiv_strict (ov_then o1 o2).
Proof.
  intros (T1 & N1 & Z1) (T2 & N2 & Z2). repeat split; cbn.
  - intros t. destruct (ov_tags o2 t) eqn:E; cbn; intros H.
    + apply T2. congruence.
    + now apply T1.
  - intros t. now rewrite N2, N1.
  - destruct (ov_tz o2) as [[z|]|]; cbn; congruence.
Qed.

Lemma exiv_strict_tag t v : exiv t = true -> exiv_strict (ov_tag t v).
Proof.
  intros H. repeat split; cbn; try congruence.
  intros t'. destruct (ts_tag_eqb t' t) eqn:E; [|congruence].
  apply ts_tag_eqb_eq in E. now subst.
Qed.

Lemma exiv_strict_only o : exiv_strict o -> exiv_only o.
Proof. intros (T & N & Z). repeat split; auto. intros H. contradiction. Qed.

Ltac assigns_with Hn Ht :=
  repeat first
    [ apply (assigns_ret _ Hn) | apply (assigns_raise _ Hn)
    | apply (assigns_lift _ Hn)
    | apply (assigns_for_each _ Hn Ht); intros
    | apply (assigns_bind _ Ht); [|intros]
    | apply assigns_set_tag | apply assigns_set_nikon
    | apply assigns_set_model | apply assigns_set_tz_offset
    | match goal with
      | |- assigns _ (match ?x with _ => _ end) => destruct x
      | |- assigns _ (let '(_, _) := ?x in _) => destruct x
      end ].

(** The columns [clear_exiv_tags] clears. *)
Definition ov_clear : overrides :=
  mkov (fun t => if exiv t then Some None else None) (fun _ => None)
       (Some None) (Some None).

Lemma clear_exiv_tags_assigns s : clear_exiv_tags s = apply_ov ov_clear s.
Proof.
  apply row_ext; try reflexivity.
  intros t. destruct t as [[]|[]|[]|[]|]; reflexivity.
Qed.

Lemma exiv_only_clear : exiv_only ov_clear.
Proof.
  repeat split; cbn; try congruence.
  intros t. destruct (exiv t); congruence.
Qed.

Lemma guess_timezone_offset_ext r r' tag :
  tags r' (Xmp Xmp_xmp_CreateDate) = tags r (Xmp Xmp_xmp_CreateDate) ->
  tags r' tag = tags r tag ->
  guess_timezone_offset r' tag = guess_timezone_offset r tag.
Proof. intros H1 H2. unfold guess_timezone_offset. now rewrite H1, H2. Qed.

Lemma infer_exif_offset_cases s u s7 :
  infer_exif_offset s = (Ok u, s7) ->
  (s7 = s /\ (tags s (Exif Exif_Photo_DateTimeOriginal) = None
              \/ Exif_Image_TimeZoneOffset s <> None))
  \/ (exists h, tags s (Exif Exif_Photo_DateTimeOriginal) <> None
                /\ Exif_Image_TimeZoneOffset s = None
                /\ s7 = set_tz_offset s (Some h)).
Proof.
  unfold infer_exif_offset. intros H.
  apply StFacts.bind_ok_inv in H. destruct H as (r & s1 & E1 & H).
  inversion E1; subst r s1; clear E1.
  destruct (tags s (Exif Exif_Photo_DateTimeOriginal)) as [ts|] eqn:Et.
  - destruct (Exif_Image_TimeZoneOffset s) as [z|] eqn:Ez.
    + inversion H; subst. left. split; [reflexivity|]. right. congruence.
    + apply StFacts.bind_ok_inv in H. destruct H as (h & s1 & E1 & H).
      apply TraceFacts.lift_cases in E1. destruct E1 as [_ ->].
      inversion H; subst. right. exists h. repeat split; congruence.
  - inversion H; subst. left. auto.
Qed.

Lemma infer_exif_offset_noop x :
  tags x (Exif Exif_Photo_DateTimeOriginal) = None
  \/ Exif_Image_TimeZoneOffset x <> None ->
  infer_exif_offset x = (Ok tt, x).
Proof.
  intros H. unfold infer_exif_offset, St.bind, St.get, St.ret.
  destruct (tags x (Exif Exif_Photo_DateTimeOriginal)); [|reflexivity].
  destruct (Exif_Image_TimeZoneOffset x); [reflexivity|].
  destruct H; congruence.
Qed.

Lemma apply_ov_again o s t :
  apply_ov o (set_timestamp (apply_ov o s) t) = set_timestamp (apply_ov o s) t.
Proof.
  apply row_ext; try reflexivity; cbn.
  - now destruct (ov_model o).
  - now destruct (ov_tz o).
  - intros t'. now destruct (ov_tags o t').
  - intros t'. now destruct (ov_nikon o t').
Qed.

Section Pass.

Variable xmp_value : string -> option datetime.
Variable format_seconds : string -> string.
Variable env : string -> FileEnv.
Variable current_timestamp_delta : timedelta.

Local Abbreviation reload_row :=
  (reload_row xmp_value format_seconds env current_timestamp_delta).
Local Abbreviation reload_exiv_tags := (reload_exiv_tags xmp_value format_seconds).

Lemma reload_exiv_tags_assigns md : assigns exiv_strict (reload_exiv_tags md).
Proof.
  unfold Main.reload_exiv_tags, reload_xmp_tag, reload_exif_tag, reload_iptc_tag.
  assigns_with exiv_strict_none exiv_strict_then;
    try (apply exiv_strict_tag; reflexivity);
    repeat split; cbn; congruence.
Qed.

(** Reading the tags of the picture, or clearing them. *)
Definition exiv_step (md : option Metadata) : St.t Row unit :=
  match md with
  | None => upd clear_exiv_tags
  | Some md => reload_exiv_tags md
  end.

Lemma exiv_step_assigns md : assigns exiv_only (exiv_step md).
Proof.
  destruct md as [md|]; cbn [exiv_step].
  - destruct (reload_exiv_tags_assigns md) as (res & o & Ho & H).
    exists res, o. split; [now apply exiv_strict_only|exact H].
  - exists (Ok tt), ov_clear. split; [apply exiv_only_clear|].
    intros s. unfold upd, St.modify. now rewrite clear_exiv_tags_assigns.
Qed.

(** A row that already holds what the step assigns is left as it is. *)
Lemma exiv_step_fixes md s s6 x :
  exiv_step md s = (Ok tt, s6) ->
  (forall t, exiv t = true -> tags x t = tags s6 t) ->
  Exif_Image_Model x = Exif_Image_Model s6 ->
  (Exif_Image_TimeZoneOffset x = Exif_Image_TimeZoneOffset s6
   \/ (tags s6 (Exif Exif_Photo_DateTimeOriginal) <> None
       /\ Exif_Image_TimeZoneOffset s6 = None)) ->
  exiv_step md x = (Ok tt, x).
Proof.
  intros E Ht Hm Hz.
  destruct (exiv_step_assigns md) as (res & o & (To & No & Zo) & H).
  rewrite H in E. inversion E; subst res s6. rewrite H. f_equal.
  apply row_ext; try reflexivity; cbn [apply_ov Exif_Image_Model
    Exif_Image_TimeZoneOffset tags nikon] in *.
  - destruct (ov_model o) as [v|]; cbn [pick] in *; congruence.
  - destruct (ov_tz o) as [v|] eqn:Ez; [|reflexivity]. cbn [pick] in *.
    destruct Hz as [Hz|[Hd Hn]]; [congruence|].
    subst v. rewrite (Zo eq_refl) in Hd. cbn in Hd. congruence.
  - intros t. destruct (ov_tags o t) as [v|] eqn:Et; [|reflexivity]. cbn [pick].
    rewrite Ht by (apply To; congruence). now rewrite Et.
  - intros t. now rewrite No.
Qed.

Lemma try_other_tag_sources_keeps {X} (f : Row -> X) dirs file :
  (forall r t v, exiv t = false -> f (set_tag r t v) = f r) ->
  (forall r t v, f (set_nikon r t v) = f r) ->
  StFacts.keeps f (try_other_tag_sources env dirs file).
Proof.
  intros Htag Hnikon.
  unfold try_other_tag_sources, store_probe_item, upd.
  repeat first
    [ apply StFacts.keeps_ret | apply StFacts.keeps_lift | apply StFacts.keeps_get
    | apply StFacts.keeps_modify; intros;
      first [apply Htag; reflexivity | apply Hnikon]
    | apply StFacts.keeps_for_each; intros
    | apply StFacts.keeps_bind; [|intros]
    | match goal with
      | |- StFacts.keeps _ (match ?x with _ => _ end) => destruct x
      end ].
Qed.

Lemma store_probe_items_assigns items :
  assigns (fun _ => True) (St.for_each items store_probe_item).
Proof.
  apply assigns_for_each; [exact I|auto|].
  intros [t v|t v]; cbn [store_probe_item].
  - now apply assigns_set_tag.
  - now apply assigns_set_nikon.
Qed.

(** The other tag sources, on the row they made. *)
Lemma try_other_tag_sources_fixes dirs file s7 s9 t :
  try_other_tag_sources env dirs file s7 = (Ok tt, s9) ->
  try_other_tag_sources env dirs file (set_timestamp s9 t)
  = (Ok tt, set_timestamp s9 t).
Proof.
  unfold try_other_tag_sources.
  destruct (if endswith file ".MTS" then find_avchd_dir dirs file else None)
    as [avchd_db|].
  - intros H.
    apply StFacts.bind_ok_inv in H. destruct H as (info & s1 & E1 & H).
    apply TraceFacts.lift_cases in E1. destruct E1 as [Ei ->].
    rewrite (StFacts.bind_step _ _ _ info (set_timestamp s9 t))
      by (unfold St.lift; now rewrite Ei).
    apply StFacts.bind_ok_inv in H. destruct H as (u & s1 & E1 & H).
    inversion E1; subst u s1; clear E1.
    unfold St.bind at 1. unfold upd at 1, St.modify at 1.
    destruct (tzinfo (getitem info)) as [off|].
    + inversion H; subst s9. unfold St.ret. f_equal.
      apply row_ext; try reflexivity. intros t'. cbn.
      destruct (ts_tag_eqb t' AVCHD_Timestamp); reflexivity.
    + apply StFacts.bind_ok_inv in H. destruct H as (r & s1 & E1 & H).
      inversion E1; subst r s1; clear E1.
      apply StFacts.bind_ok_inv in H. destruct H as (offset & s1 & E1 & H).
      apply TraceFacts.lift_cases in E1. destruct E1 as [Eo ->].
      apply StFacts.bind_ok_inv in H. destruct H as (tz & s1 & E1 & H).
      apply TraceFacts.lift_cases in E1. destruct E1 as [Ez ->].
      inversion H; subst s9.
      unfold St.bind at 1. unfold St.get at 1.
      rewrite (StFacts.bind_step _ _ _ offset
                 (set_tag (set_timestamp
                    (set_tag (set_tag s7 AVCHD_Timestamp (Some (getitem info)))
                       AVCHD_Timestamp
                       (Some (replace_tzinfo (getitem info) (Some tz)))) t)
                    AVCHD_Timestamp (Some (getitem info)))).
      2:{ unfold St.lift. f_equal. rewrite <- Eo.
          apply guess_timezone_offset_ext; reflexivity. }
      rewrite (StFacts.bind_step _ _ _ tz _)
        by (unfold St.lift; now rewrite Ez).
      unfold upd, St.modify. f_equal.
      apply row_ext; try reflexivity. intros t'. cbn.
      destruct (ts_tag_eqb t' AVCHD_Timestamp); reflexivity.
  - intros H.
    apply StFacts.bind_ok_inv in H. destruct H as (items & s1 & E1 & H).
    apply TraceFacts.lift_cases in E1. destruct E1 as [Ei ->].
    rewrite (StFacts.bind_step _ _ _ items (set_timestamp s9 t))
      by (unfold St.lift; now rewrite Ei).
    destruct (store_probe_items_assigns items) as (res & o & _ & Ho).
    rewrite Ho in H. inversion H; subst res s9.
    rewrite Ho. now rewrite apply_ov_again.
Qed.

(** A second pass over a file finds the row as the first left it. *)
Lemma reload_row_again dirs r0 r1 :
  reload_row dirs r0 = (Ok tt, r1) -> reload_row dirs r1 = (Ok tt, r1).
Proof.
  intros H.
  destruct (reload_row_steps xmp_value format_seconds env current_timestamp_delta dirs r0 r1 H)
    as (m & s6 & s7 & s9 & Em & E6 & E7 & E9 & E10).
  destruct (store_timestamp_ok _ _ E10) as (t & Et & ->).
  fold (exiv_step (fe_metadata (env (full_path r0)))) in E6.
  (* what the steps after the tags of the picture keep *)
  assert (K9 : forall X (f : Row -> X),
            (forall r t v, exiv t = false -> f (set_tag r t v) = f r) ->
            (forall r t v, f (set_nikon r t v) = f r) ->
            f s9 = f s7).
  { intros X f Htag Hnikon.
    destruct (tags s7 (Exif Exif_Photo_DateTimeOriginal)).
    - inversion E9; reflexivity.
    - exact (keeps_eq f _ _ _ _
               (try_other_tag_sources_keeps f dirs _ Htag Hnikon) E9). }
  assert (Hpath : full_path (set_timestamp s9 t) = full_path r0).
  { exact (keeps_eq full_path _ _ _ _
             (reload_row_keeps_full_path xmp_value format_seconds env current_timestamp_delta dirs) H). }
  assert (Hstart : row_at_start current_timestamp_delta (set_timestamp s9 t) m
                   = set_timestamp s9 t).
  { pose proof (reload_rest_keeps xmp_value format_seconds env current_timestamp_delta delta dirs r0 m) as Kd.
    pose proof (reload_rest_keeps xmp_value format_seconds env current_timestamp_delta mtime dirs r0 m) as Km.
    pose proof (reload_rest_keeps xmp_value format_seconds env current_timestamp_delta row_bg_colour dirs r0 m) as Kc.
    specialize (Kd (fun _ _ _ => eq_refl) (fun _ _ _ => eq_refl) (fun _ _ => eq_refl)
                   (fun _ _ => eq_refl) (fun _ _ => eq_refl) _ H Em).
    specialize (Km (fun _ _ _ => eq_refl) (fun _ _ _ => eq_refl) (fun _ _ => eq_refl)
                   (fun _ _ => eq_refl) (fun _ _ => eq_refl) _ H Em).
    specialize (Kc (fun _ _ _ => eq_refl) (fun _ _ _ => eq_refl) (fun _ _ => eq_refl)
                   (fun _ _ => eq_refl) (fun _ _ => eq_refl) _ H Em).
    cbn in Kd, Km, Kc.
    apply row_ext; try reflexivity; cbn; congruence. }
  assert (Hinfer : (s7 = s6 /\ (tags s6 (Exif Exif_Photo_DateTimeOriginal) = None
                                \/ Exif_Image_TimeZoneOffset s6 <> None))
                   \/ (exists h, tags s6 (Exif Exif_Photo_DateTimeOriginal) <> None
                                 /\ Exif_Image_TimeZoneOffset s6 = None
                                 /\ s7 = set_tz_offset s6 (Some h)))
    by exact (infer_exif_offset_cases _ _ _ E7).
  assert (Htags : forall t', exiv t' = true -> tags s9 t' = tags s6 t').
  { intros t' He. rewrite (K9 _ (fun r => tags r t')).
    - destruct Hinfer as [[-> _]|(h & _ & _ & ->)]; reflexivity.
    - intros r t0 v H0. cbn. destruct (ts_tag_eqb t' t0) eqn:E; [|reflexivity].
      apply ts_tag_eqb_eq in E. congruence.
    - reflexivity. }
  assert (Hmodel : Exif_Image_Model s9 = Exif_Image_Model s6).
  { rewrite (K9 _ Exif_Image_Model) by reflexivity.
    destruct Hinfer as [[-> _]|(h & _ & _ & ->)]; reflexivity. }
  assert (Hz9 : Exif_Image_TimeZoneOffset s9 = Exif_Image_TimeZoneOffset s7)
    by (apply (K9 _ Exif_Image_TimeZoneOffset); reflexivity).
  assert (Hd9 : tags s9 (Exif Exif_Photo_DateTimeOriginal)
                = tags s7 (Exif Exif_Photo_DateTimeOriginal)).
  { apply (K9 _ (fun r => tags r (Exif Exif_Photo_DateTimeOriginal))); [|reflexivity].
    intros r t0 v H0. cbn.
    destruct (ts_tag_eqb (Exif Exif_Photo_DateTimeOriginal) t0) eqn:E; [|reflexivity].
    apply ts_tag_eqb_eq in E. subst t0. discriminate. }
  (* the second pass, step by step *)
  unfold Main.reload_row.
  unfold St.bind at 1. unfold St.get at 1.
  unfold St.bind at 1. unfold upd at 1, St.modify at 1.
  unfold St.bind at 1. unfold St.lift at 1. rewrite Hpath, Em.
  unfold St.bind at 1. unfold upd at 1, St.modify at 1.
  unfold St.bind at 1. unfold upd at 1, St.modify at 1.
  change (set_bg_colour _ _)
    with (row_at_start current_timestamp_delta (set_timestamp s9 t) m).
  rewrite Hstart.
  fold (exiv_step (fe_metadata (env (full_path r0)))).
  rewrite (StFacts.bind_step _ _ _ tt (set_timestamp s9 t)).
  2:{ apply (exiv_step_fixes _ _ _ _ E6).
      - intros t' He. now apply Htags.
      - exact Hmodel.
      - cbn. rewrite Hz9.
        destruct Hinfer as [[-> _]|(h & Hd & Hn & ->)]; [now left|now right]. }
  rewrite (StFacts.bind_step _ _ _ tt (set_timestamp s9 t)).
  2:{ apply infer_exif_offset_noop. cbn. rewrite Hd9, Hz9.
      destruct Hinfer as [[-> Hc]|(h & Hd & Hn & ->)]; [exact Hc|].
      right. cbn. discriminate. }
  unfold St.bind at 1. unfold St.get at 1.
  rewrite (StFacts.bind_step _ _ _ tt (set_timestamp s9 t)).
  2:{ change (tags (set_timestamp s9 t) (Exif Exif_Photo_DateTimeOriginal))
        with (tags s9 (Exif Exif_Photo_DateTimeOriginal)).
      rewrite Hd9.
      destruct (tags s7 (Exif Exif_Photo_DateTimeOriginal)); [reflexivity|].
      now apply (try_other_tag_sources_fixes dirs _ s7). }
  unfold store_timestamp, St.bind, St.get, St.lift, upd, St.modify.
  change (get_timestamp (set_timestamp s9 t)) with (get_timestamp s9).
  rewrite Et. reflexivity.
Qed.

End Pass.

End SecondPass.

(** Reloading twice is reloading once: on the rows a pass without
    exception left, a second pass over the same files (the same metadata,
    modification times, playlists and global delta) ends without exception
    too and changes no column of any row.  In particular the columns a
    file no longer provides keep the values of the first pass, and the
    offset inferred for a picture is not inferred again. *)
Theorem reload_twice
  (xmp_value : string -> option datetime) (format_seconds : string -> string)
  (env : string -> FileEnv) (current_timestamp_delta : timedelta)
  (dirs : list MplDirectory) (rows rows' : list Row) :
  reload_rows xmp_value format_seconds env current_timestamp_delta dirs rows
  = (None, rows') ->
  reload_rows xmp_value format_seconds env current_timestamp_delta dirs rows'
  = (None, rows').
Proof.
  revert rows'. induction rows as [|r0 rows IH]; intros rows' H; simpl in H.
  - inversion H; subst. reflexivity.
  - destruct (reload_row xmp_value format_seconds env current_timestamp_delta
                dirs r0) as [[[]|ex] r] eqn:E; [|discriminate].
    destruct (reload_rows xmp_value format_seconds env current_timestamp_delta
                dirs rows) as [e1 rest] eqn:E1.
    inversion H; subst. simpl.
    rewrite (SecondPass.reload_row_again _ _ _ _ _ _ _ E), (IH _ eq_refl).
    reflexivity.
Qed.

Lemma reload_twice_witness :
  let rows' :=
    snd (reload_rows MainSamples.xmp_value MainSamples.format_seconds
           MainSamples.env 0 []
           [new_row "/p/a.jpg" "a.jpg"; new_row "/p/clip.mov" "clip.mov"]) in
  reload_rows MainSamples.xmp_value MainSamples.format_seconds MainSamples.env 0 []
    rows' = (None, rows').
Proof.
  cbv zeta.
  apply (reload_twice MainSamples.xmp_value MainSamples.format_seconds
           MainSamples.env 0 []
           [new_row "/p/a.jpg" "a.jpg"; new_row "/p/clip.mov" "clip.mov"]).
  vm_compute. reflexivity.
Defined.
